(* ===== verification/_CoqProject ===== *)
-Q . S2P
Prelude.v
Deps.v
Types.v
Blocks.v
Signing.v
Store.v
Schema.v
RawDB.v
Utxo.v
Validation.v
HeaderChain.v
BlockChain.v
TxPool.v
Cacher.v
RootChain.v
Operator.v
Conservation.v
Sealing.v
Run.v
Merkle.v
Bloom.v
Genesis.v
Restart.v
Recovery.v
Network.v
Handlers.v
Replica.v
Events.v
Exchange.v
Join.v
Contract.v
PriorityQueue.v
SolRlp.v
Exits.v
Bindings.v
Config.v
Plasma.v
Http.v
Command.v
Instances.v
Scenario.v
Witnesses.v
NodeWitnesses.v
ClusterWitnesses.v
BindingWitnesses.v
ExitWitnesses.v
