(* ===== verification/Prelude.v ===== *)
(** * A verification of icstglobal/plasma

    The program is a node of a Plasma MVP side chain. Users hold unspent outputs
    (UTXOs), spend them in transactions with two inputs and two outputs, and move
    value in through deposits on a root chain contract and out through exits there.
    One operator node collects transactions in a pool, seals them into blocks
    numbered 1000, 2000, ..., writes the block and the UTXO update in one database
    transaction, broadcasts the block and submits its transaction root to the
    contract; deposit events become blocks with the numbers in between. Validator
    nodes download the blocks the contract knows from their peers, replay them and
    pass them on. A command line client posts signed transfers to a node's HTTP
    server.

    ** Files

    - [Prelude.v]: bytes, machine integers with their wrap-around, big integers,
      fixed arrays, Go's panics and loops (the [go] monad), errors, and the lemmas,
      tactics and hints everything else uses.
    - [Deps.v]: the code outside the repository, as classes of operations with the
      documented behaviour relied on as separate classes of laws: RLP, ECDSA and
      Keccak, the trie, deep copies, LRU caches, go-ethereum's byte conversions.
    - [Types.v]: core/types (utxo.go, transaction.go, block.go, derive_sha.go).
      [Blocks.v]: the rest of block.go (hex text, [HashNoNonce], sizes, the sorter).
    - [Signing.v]: core/types/transaction_signing.go and the JSON signature check.
    - [Store.v]: store/ (the LevelDB wrapper with its batch, the memory store) and
      the contract between the stores and their clients: the classes [ReadSpec],
      [WriteSpec], [DeleteSpec], [DatabaseSpec] over an abstract transactional store.
    - [Schema.v]: core/rawdb/schema.go. [RawDB.v]: core/rawdb/accessors_chain.go.
    - [Utxo.v]: core/utxo_set.go, and the ledger, a finite map, it implements.
    - [Validation.v]: core/tx_validator.go, core/block_validator.go and the
      interfaces of core/interfaces.go.
    - [HeaderChain.v]: core/headerchain.go. [BlockChain.v]: core/blockchain.go.
    - [TxPool.v]: core/tx_pool.go, core/tx_journal.go and the requests of
      core/tx_cacher.go. [Cacher.v]: the goroutines that serve them.
    - [RootChain.v]: core/rootchain.go. [Operator.v]: core/operator.go and
      core/validator.go.
    - [Conservation.v]: the database update of a block refines an update of the
      ledger, and validated blocks conserve value up to their fees; the validator
      node, and what goes wrong there.
    - [Sealing.v]: the operator's invariant, sealing, deposits, and what goes wrong.
    - [Run.v]: the operator's goroutines as a step relation, its runs; the same with
      channels of ten places. A step is a whole action of a goroutine (nothing in the
      code keeps two [WriteBlock] apart); blocks from peers are no steps.
    - [Merkle.v]: core/merkle.go and [merkleProof], with the nodes in a heap.
    - [Bloom.v]: core/types/bloom9.go. [Genesis.v]: core/genesis.go.
    - [Restart.v]: what [NewHeaderChain], [NewBlockChain] and [loadLastState] recover
      from a database; a fresh node. [Recovery.v]: an operator's database after a
      block, restarted.
    - [Network.v]: network/p2p.go, the host and what it knows of its peers.
      [Handlers.v]: network/p2phandlers, and the [Worker] interface with its two
      implementations.
    - [Replica.v]: an operator, a validator and the messages between them as one
      system. [Exchange.v]: transactions on their way from a node to the operator's
      pool. [Join.v]: a validator that downloads the blocks from a node that has them.
    - [Events.v]: the event loop of [RootChain.v] against a node it only knows by the
      class [EventNode], and the operator as an instance.
    - [Contract.v]: rootchain/contracts/RootChain.sol as far as it numbers blocks,
      composed with the event loop and with the operator's numbering.
      [PriorityQueue.v]: PriorityQueue.sol, the queue of exits. [SolRlp.v]: RLP.sol,
      PlasmaRLP.sol and RLPEncode.sol over the memory of the EVM. [Exits.v]: the rest
      of RootChain.sol (exits, challenges, payments) with Merkle.sol, Validate.sol,
      ECRecovery.sol, ByteUtils.sol and Math.sol.
    - [Bindings.v]: rootchain/contracts/RootChain.go, the Go bindings of the contract.
    - [Config.v]: network/config.go and network/defaults.go, with the functions of
      path/filepath they use. [Plasma.v]: plasma/config.go and plasma/plasma.go, the
      node put together; it is the [Worker] the handlers run on.
    - [Http.v]: network/httphandlers, the routes of network/httpserver.go,
      [Node.Start] of network/node.go, cmd/client/transfer.go. [Command.v]: cmd/root.go,
      cmd/node/node.go and the rest of transfer.go, network/node.go, rpcserver.go,
      httpserver.go and p2p.go: what the process does around the node.
    - [Instances.v], [Scenario.v], [Witnesses.v], [NodeWitnesses.v],
      [ClusterWitnesses.v], [BindingWitnesses.v], [ExitWitnesses.v]: executable
      stand-ins for the code outside the repository that satisfy the laws, a small
      node, and the theorems applied to it.

    ** How code corresponds to definitions

    A definition has the name of the function it models; a method whose name occurs
    twice carries a prefix ([BC_] block chain, [HC_] header chain, [Op_] operator,
    [Va_] validator node, [Pl_] the whole node, [LDB_], [Mem_] the stores, [PQ_] the
    queue of exits, [RC_] the contract with its exits). A method that changes its
    receiver returns the new receiver. A computation that can panic, exit or block
    forever is in [go]: [Ret x] or [Stop reason]; a function that returns an error
    returns an [option error] beside its results. A pointer that can be nil is an
    [option]; where the program shares nodes ([Merkle.v]) or slices (the eviction
    loop of [TxPool.v]) the sharing is modelled. [uint64] and [uint32] are integers
    reduced by [u64] and [u32], [*big.Int] is [option Z]. A channel is the list of
    what was sent on it and not received; a nil channel blocks. The operations append
    to it without a bound, which is right while its reader keeps up; [Run.v] adds the
    capacity of ten and shows that the readers always make room. Time,
    random numbers, interrupts, files, the network's and the root chain's answers are
    arguments. A call of the contract that reverts is [None]; [uint256] values are
    integers reduced by [uint256], an array access out of range reverts, memory is a
    byte for each address. The order of a [range] over a map is any permutation
    ([GoRange]), or cannot be observed.

    A loop that is not structural has fuel, and its theorems give a sufficient
    amount: [FindCommonAncestor] needs more than the larger block number,
    [NewMerkleTree] passes the number of leaves, [Proof_] the size of the heap,
    [pop_until] the size of the set, [download_pass] a round for each number, [iterate]
    one more than the logs, the loops of the heap the length of its array,
    [numItems] more than the items, [finalizeExits] the length of the queue; and they
    are shown never to run out. In the contract fuel stands for gas. The runs of
    [Run.v], [Replica.v], [Contract.v], [Exits.v] and [Cacher.v] are step relations,
    without a bound.

    ** What is shown

    - Value ([Run.v], [Sealing.v], [Conservation.v], [Utxo.v], [Validation.v]): the
      validator accepts exactly the transactions and blocks that follow the rules;
      the UTXO table is a ledger; writing a block commits exactly the ledger update
      or nothing; sealing takes exactly the fees out of the supply; no run of the
      operator creates value beyond its deposits; on transactions without nil
      pointers and amounts its actions return, and full channels never bring it to a
      stop.
    - Storage ([Store.v], [Schema.v], [RawDB.v], [HeaderChain.v], [BlockChain.v]):
      the store refines a transactional map; keys never clash; blocks read back;
      ancestors are found; caches answer what the disk would; the head moves.
    - Pool ([TxPool.v]): queue and lookup agree in every reachable state; removal is
      exact; eviction keeps live transactions; senders are recovered once each, under
      any schedule of the goroutines ([Cacher.v]).
    - Whole nodes ([Restart.v], [Recovery.v], [Plasma.v], [Http.v], [Config.v]): a node
      starts on an empty database and again on what it left; after a block the
      operator comes back with its head, its numbering and its ledger; a node is the
      operator exactly when its key is the contract's operator's; a transfer of the
      command line client reaches the pool exactly when it pays a fee and spends what
      the signer has; a generated node key is kept.
    - The network ([Network.v], [Handlers.v], [Replica.v], [Join.v], [Exchange.v]): what is
      remembered of peers is bounded; a block goes to exactly the peers not known to
      have it; the download ends and asks for every block of the contract; a validator
      connected to the operator, to which the blocks come in order and whose own
      download has nothing to fetch, accepts every block and ends with the same
      ledger, however the messages interleave with the operator's work; one that joins
      late catches up by downloading; transactions, those of the client with their nil
      input amounts included, reach the operator's pool.
    - The root chain ([Events.v], [Contract.v], [Bindings.v]): the contract numbers
      deposits and blocks as the node expects; what is deposited there is credited
      exactly once by a process; the root of a block is in the slot of its number as
      long as no batch failed; the iterators of the bindings deliver every event.
    - Exits ([PriorityQueue.v], [SolRlp.v], [Exits.v]): the heap is a priority queue;
      the memory code decodes what the encoder wrote; an accepted exit is the
      caller's output of a transaction in the block; what is due is paid in order;
      no position is paid twice and never more than was received; the contract's
      Merkle check is the node's on 16 levels, and reverts on proofs of other lengths.
    - Merkle trees, signatures and blooms ([Merkle.v], [Signing.v], [Bloom.v]): proofs verify
      and bind for a power of two leaves; signatures are attributed to their keys; a
      bloom filter has no false negatives.
    - Behaviour the code probably does not intend, each a theorem: proofs fail for
      six leaves, chain id 0, a batch shared by two databases, deposits credited
      again after a restart, a conflict in the pool, the validator's open
      transaction, unchecked blocks, a missing amount, the emptied journal, a
      configuration file that is not there, a failed batch that shifts the slots of all later roots, a deposit that leaves the
      contract many times, challenges that miss the exit they are for.

    ** What is not modelled

    Locks and the Go scheduler below the granularity of whole operations: the steps
    of [Run.v] are operations. The source has no lock that keeps the [WriteBlock] of
    the event loop, of [processTxs] and of a stream handler apart, only the race check
    of [BeginTx]; runs in which they overlap are not covered. Not modelled are logging
    and metrics; the text of JSON (encoding/json is an argument); the inside of libp2p, the listeners, viper and cobra; the branches for Windows of
    path/filepath; gas prices, and code at the addresses the contract pays, which a
    transfer leaves too little gas to call back. [Replica.v] has one operator and one
    validator, messages in order and a download that finds nothing new; a validator
    that downloads and receives announcements of the same blocks at once can write a
    deposit twice, and is the next part to study. *)

From stdpp Require Export prelude gmap list strings countable fin_maps.
From Stdlib Require Export ZArith Lia.
From Stdlib Require Import Strings.Byte.

Set Default Proof Using "Type".
#[export] Set Warnings "-clear-no-such-hyp".
#[local] Open Scope Z_scope.

(** * Bytes *)

Abbreviation byte := Byte.byte (only parsing).
Abbreviation bytes := (list Byte.byte) (only parsing).

#[export] Instance byte_eq_decision : EqDecision byte := Byte.byte_eq_dec.

#[export] Instance byte_countable : Countable byte.
Proof. exact (inj_countable to_N of_N of_to_N). Defined.

(** Go's [byte] as a number, and the conversion [byte(x)], which keeps the low
    eight bits. *)
Definition byteZ (b : byte) : Z := Z.of_N (to_N b).

Definition byte_of (z : Z) : byte :=
  default x00 (of_N (Z.to_N (z mod 256))).

Lemma byteZ_range b : 0 <= byteZ b < 256.
Proof. unfold byteZ. pose proof (to_N_bounded b). lia. Qed.

Lemma byteZ_of z : byteZ (byte_of z) = z mod 256.
Proof.
  unfold byteZ, byte_of.
  assert (Hr : 0 <= z mod 256 < 256) by (apply Z.mod_pos_bound; lia).
  destruct (of_N (Z.to_N (z mod 256))) as [b|] eqn:E; simpl.
  - apply to_of_N in E. rewrite E. lia.
  - apply of_N_None_iff in E. lia.
Qed.

Lemma byte_of_Z b : byte_of (byteZ b) = b.
Proof.
  unfold byte_of. rewrite Z.mod_small by apply byteZ_range.
  unfold byteZ. rewrite N2Z.id, of_to_N. reflexivity.
Qed.

Lemma byteZ_inj b1 b2 : byteZ b1 = byteZ b2 -> b1 = b2.
Proof. intros H. rewrite <- (byte_of_Z b1), <- (byte_of_Z b2). by f_equal. Qed.

(** * Machine integers *)

Definition u64 (z : Z) : Z := z mod 2 ^ 64.
Definition u32 (z : Z) : Z := z mod 2 ^ 32.

Definition is_u64 (z : Z) : Prop := 0 <= z < 2 ^ 64.
Definition is_u32 (z : Z) : Prop := 0 <= z < 2 ^ 32.

#[export] Instance is_u64_dec z : Decision (is_u64 z).
Proof. unfold is_u64. apply _. Defined.
#[export] Instance is_u32_dec z : Decision (is_u32 z).
Proof. unfold is_u32. apply _. Defined.

Lemma u64_range z : is_u64 (u64 z).
Proof. apply Z.mod_pos_bound; lia. Qed.
Lemma u64_small z : is_u64 z -> u64 z = z.
Proof. apply Z.mod_small. Qed.
Lemma u32_small z : is_u32 z -> u32 z = z.
Proof. apply Z.mod_small. Qed.

(** The two's complement reading of a 64-bit pattern, Go's [int64(x)]. *)
Definition i64 (z : Z) : Z :=
  let w := u64 z in if w <? 2 ^ 63 then w else w - 2 ^ 64.

Lemma i64_small z : 0 <= z < 2 ^ 63 -> i64 z = z.
Proof.
  intros H. unfold i64, u64. rewrite Z.mod_small by lia.
  destruct (Z.ltb_spec z (2 ^ 63)); lia.
Qed.

(** * Big-endian codecs ([encoding/binary], [math/big]) *)

(** [new(big.Int).SetBytes(l)] and [binary.BigEndian.Uint64(l)]. *)
Definition be_val (l : bytes) : Z :=
  fold_left (fun acc b => acc * 256 + byteZ b) l 0.

(** [n] bytes, most significant first: [binary.BigEndian.PutUint64] at [n = 8]. *)
Fixpoint be_put (n : nat) (z : Z) : bytes :=
  match n with
  | O => []
  | S n => be_put n (z / 256) ++ [byte_of z]
  end.

(** [x.BitLen()] and [x.Bytes()] of [math/big]: both look at the magnitude. *)
Definition big_BitLen (z : Z) : Z :=
  if Z.eqb z 0 then 0 else Z.log2 (Z.abs z) + 1.

Definition big_Bytes (z : Z) : bytes :=
  be_put (Z.to_nat ((big_BitLen z + 7) / 8)) (Z.abs z).

(** [x.Uint64()], [x.Int64()]: the low 64 bits of the magnitude, the latter
    negated for a negative [x]. *)
Definition big_Uint64 (z : Z) : Z := u64 (Z.abs z).
Definition big_Int64 (z : Z) : Z :=
  i64 (if z <? 0 then - i64 (Z.abs z) else Z.abs z).

Lemma be_val_snoc l b : be_val (l ++ [b]) = be_val l * 256 + byteZ b.
Proof. unfold be_val. by rewrite fold_left_app. Qed.

Lemma be_val_app l k : be_val (l ++ k) = be_val l * 256 ^ Z.of_nat (length k) + be_val k.
Proof.
  induction k as [|b k IH] using rev_ind.
  1: { rewrite app_nil_r. change (be_val []) with 0. cbn [length]. rewrite Z.pow_0_r. lia. }
  rewrite app_assoc, !be_val_snoc, IH, length_app, Nat2Z.inj_add, Z.pow_add_r by lia.
  cbn [length]. change (256 ^ Z.of_nat 1) with 256. lia.
Qed.

Lemma length_be_put n z : length (be_put n z) = n.
Proof.
  revert z. induction n as [|n IH]; intros z; [done|].
  simpl. rewrite length_app, IH. simpl. lia.
Qed.

Lemma be_val_put n z : be_val (be_put n z) = z mod 256 ^ Z.of_nat n.
Proof.
  revert z. induction n as [|n IH]; intros z.
  - rewrite Z.mod_1_r. done.
  - cbn [be_put]. rewrite be_val_snoc, IH, byteZ_of, Nat2Z.inj_succ, Z.pow_succ_r by lia.
    rewrite Z.rem_mul_r by lia. lia.
Qed.

Lemma be_val_nonneg l : 0 <= be_val l.
Proof.
  induction l as [|b l IH] using rev_ind; [done|].
  rewrite be_val_snoc. pose proof (byteZ_range b). lia.
Qed.

Lemma be_put_val l : be_put (length l) (be_val l) = l.
Proof.
  induction l as [|b l IH] using rev_ind; [done|].
  rewrite length_app, Nat.add_comm. cbn [be_put length Nat.add].
  pose proof (byteZ_range b). rewrite be_val_snoc.
  rewrite (Z.add_comm (_ * 256)), Z.div_add, Z.div_small, Z.add_0_l, IH by lia.
  do 2 f_equal. rewrite <- (byte_of_Z b) at 2. unfold byte_of.
  by rewrite Z.add_mod, Z.mod_mul, Z.add_0_r, Z.mod_mod by lia.
Qed.

Lemma be_put_inj n a b :
  0 <= a < 256 ^ Z.of_nat n -> 0 <= b < 256 ^ Z.of_nat n ->
  be_put n a = be_put n b -> a = b.
Proof.
  intros Ha Hb H. apply (f_equal be_val) in H.
  rewrite !be_val_put in H. by rewrite !Z.mod_small in H by lia.
Qed.

Lemma be_val_inj l1 l2 : length l1 = length l2 -> be_val l1 = be_val l2 -> l1 = l2.
Proof.
  intros Hl Hv. rewrite <- (be_put_val l1), <- (be_put_val l2), Hl, Hv. done.
Qed.

Lemma be_val_bound l : be_val l < 256 ^ Z.of_nat (length l).
Proof.
  rewrite <- (be_put_val l) at 1. rewrite be_val_put.
  apply Z.mod_pos_bound. lia.
Qed.

Lemma big_BitLen_bound z : Z.abs z < 2 ^ big_BitLen z.
Proof.
  unfold big_BitLen. destruct (Z.eqb_spec z 0) as [->|Hz]; [done|].
  pose proof (Z.log2_spec (Z.abs z) ltac:(lia)).
  replace (Z.log2 (Z.abs z) + 1) with (Z.succ (Z.log2 (Z.abs z))) by lia. lia.
Qed.

Lemma big_BitLen_nonneg z : 0 <= big_BitLen z.
Proof.
  unfold big_BitLen. destruct (Z.eqb_spec z 0); [lia|].
  pose proof (Z.log2_nonneg (Z.abs z)). lia.
Qed.

Lemma big_BitLen_le z n : 0 <= n -> Z.abs z < 2 ^ n -> big_BitLen z <= n.
Proof.
  intros Hn H. unfold big_BitLen. destruct (Z.eqb_spec z 0) as [->|Hz]; [done|].
  assert (Z.log2 (Z.abs z) < n) by (apply Z.log2_lt_pow2; lia). lia.
Qed.

(** [SetBytes(x.Bytes())] gives the magnitude back. *)
Lemma be_val_Bytes z : be_val (big_Bytes z) = Z.abs z.
Proof.
  unfold big_Bytes. rewrite be_val_put.
  pose proof (big_BitLen_nonneg z) as Hnn. pose proof (big_BitLen_bound z) as Hb.
  apply Z.mod_small. split; [lia|].
  rewrite Z2Nat.id by (apply Z.div_pos; lia).
  eapply Z.lt_le_trans; [exact Hb|].
  change 256 with (2 ^ 8). rewrite <- Z.pow_mul_r by (try apply Z.div_pos; lia).
  apply Z.pow_le_mono_r; [lia|].
  pose proof (Z.div_mod (big_BitLen z + 7) 8 ltac:(lia)).
  pose proof (Z.mod_pos_bound (big_BitLen z + 7) 8 ltac:(lia)). lia.
Qed.

(** [big.Int] bytes, left-padded with zeros to a fixed width. *)
Lemma length_big_Bytes_le z n : Z.abs z < 256 ^ Z.of_nat n -> (length (big_Bytes z) <= n)%nat.
Proof.
  intros Hz. unfold big_Bytes. rewrite length_be_put.
  assert (big_BitLen z <= 8 * Z.of_nat n).
  { apply big_BitLen_le; [lia|]. rewrite Z.pow_mul_r by lia. done. }
  pose proof (big_BitLen_nonneg z).
  pose proof (Z.div_mod (big_BitLen z + 7) 8 ltac:(lia)).
  pose proof (Z.mod_pos_bound (big_BitLen z + 7) 8 ltac:(lia)). lia.
Qed.

Lemma be_val_pad k l : be_val (replicate k x00 ++ l) = be_val l.
Proof.
  unfold be_val. rewrite fold_left_app. f_equal.
  induction k as [|k IH]; [done|]. simpl. apply IH.
Qed.

Lemma pad_big_Bytes l :
  replicate (length l - length (big_Bytes (be_val l))) x00 ++ big_Bytes (be_val l) = l.
Proof.
  pose proof (be_val_nonneg l). pose proof (be_val_bound l).
  pose proof (length_big_Bytes_le (be_val l) (length l) ltac:(lia)).
  apply be_val_inj.
  - rewrite length_app, length_replicate. lia.
  - rewrite be_val_pad, be_val_Bytes. lia.
Qed.

(** * Fixed-size byte arrays: [common.Hash] is [[32]byte], [common.Address] is [[20]byte] *)

Record farray (n : nat) : Type := FArray {
  arr : bytes;
  arr_len : (length arr =? n)%nat = true
}.
Arguments FArray {n} _ _.
Arguments arr {n} _.

Lemma length_arr {n} (a : farray n) : length (arr a) = n.
Proof. destruct a as [l H]. by apply Nat.eqb_eq. Qed.

Lemma farray_eq {n} (a b : farray n) : arr a = arr b -> a = b.
Proof.
  destruct a as [l1 H1], b as [l2 H2]. simpl. intros ->. f_equal. apply eq_pi, _.
Qed.

#[export] Instance farray_eq_decision n : EqDecision (farray n).
Proof.
  intros a b. destruct (decide (arr a = arr b)) as [E|E].
  - left. by apply farray_eq.
  - right. intros ->. done.
Defined.

Definition farray_of (n : nat) (l : bytes) : option (farray n) :=
  match (length l =? n)%nat as b return (length l =? n)%nat = b -> option (farray n) with
  | true => fun H => Some (FArray l H)
  | false => fun _ => None
  end eq_refl.

Lemma farray_of_arr {n} (a : farray n) : farray_of n (arr a) = Some a.
Proof.
  unfold farray_of. destruct a as [l H]. simpl.
  generalize (eq_refl (length l =? n)%nat).
  generalize (length l =? n)%nat at 2 3 as b. intros [] E.
  - do 2 f_equal. apply eq_pi, _.
  - congruence.
Qed.

#[export] Instance farray_countable n : Countable (farray n).
Proof. exact (inj_countable arr (farray_of n) farray_of_arr). Defined.

Definition zero_array (n : nat) : farray n :=
  default (FArray (replicate n x00) ltac:(by rewrite length_replicate, Nat.eqb_refl))
          (farray_of n (replicate n x00)).

Abbreviation Hash := (farray 32) (only parsing).
Abbreviation Address := (farray 20) (only parsing).

(** [common.Hash{}] and [common.Address{}]. *)
Definition zeroHash : Hash := zero_array 32.
Definition zeroAddress : Address := zero_array 20.

(** * Errors *)

(** Go [error] values, compared by identity. The first group is the [var] block
    of core/error.go; the next ones are the other packages' sentinel errors;
    [ErrExternal] is an error value returned by a third-party package and
    [ErrMsg] an error made with [errors.New]/[fmt.Errorf] at its point of use. *)
Inductive error : Set :=
| ErrKnownBlock | ErrBlacklistedHash | ErrNonceTooHigh | ErrInvalidSender
| ErrInsufficientFunds | ErrNegativeValue | ErrOversizedData | ErrTxInNotFound
| ErrTxOutNotFound | ErrTxOutNotOwned | ErrTxTotalAmountNotEqual | ErrAlreadySpent
| ErrNotEnoughTxFee | ErrDuplicateSpent | ErrInvalidOutputAmount
| ErrInvalidSig | ErrInvalidChainId
| ErrNoGenesis | errGenesisNoConfig | GenesisMismatchError
| errNoActiveJournal
| ErrUnknownAncestor | ErrPrunedAncestor | ErrFutureBlock | ErrInvalidNumber
| ErrExternal (code : Z)
| ErrMsg (msg : string).

#[export] Instance error_eq_decision : EqDecision error.
Proof. solve_decision. Defined.

(** * Hexadecimal text ([encoding/hex]) *)

Definition fromHexChar (c : byte) : option Z :=
  let z := byteZ c in
  if (48 <=? z) && (z <=? 57) then Some (z - 48)
  else if (97 <=? z) && (z <=? 102) then Some (z - 97 + 10)
  else if (65 <=? z) && (z <=? 70) then Some (z - 65 + 10)
  else None.

(** [hex.Decode], the bytes it writes and whether it succeeds: what was written
    before an error stays written; an odd length is an error. *)
Fixpoint hex_Decode (src : bytes) : bytes * bool :=
  match src with
  | [] => ([], true)
  | [c] => ([], false)
  | c1 :: c2 :: src =>
      match fromHexChar c1, fromHexChar c2 with
      | Some a, Some b =>
          let (dst, ok) := hex_Decode src in
          (byte_of (Z.lor (Z.shiftl a 4) b) :: dst, ok)
      | _, _ => ([], false)
      end
  end.

(** [hex.DecodeString]. *)
Definition hex_DecodeString (s : string) : bytes + error :=
  let (dst, ok) := hex_Decode (String.list_byte_of_string s) in
  if ok then inl dst else inr (ErrMsg "encoding/hex: invalid string").

(** * Go control flow *)

(** A Go call either returns or stops the goroutine: a nil dereference, an index
    out of range, an explicit [panic], [log.Fatal], a channel operation that
    never completes; [OutOfFuel] marks a loop the model did not run to its end. *)
Inductive stop : Set :=
| NilDeref | IndexRange | Panicked | Fatal | BlockedForever | OutOfFuel.

Inductive go (A : Type) : Type :=
| Ret (a : A)
| Stop (s : stop).
Arguments Ret {A} _.
Arguments Stop {A} _.

Definition gbind {A B} (m : go A) (k : A -> go B) : go B :=
  match m with Ret a => k a | Stop s => Stop s end.

Declare Scope go_scope.
Delimit Scope go_scope with go.
Notation "'let!' x := m 'in' k" := (gbind m (fun x => k))
  (at level 10, x pattern, m at level 100, k at level 200) : go_scope.
Open Scope go_scope.

(** [*p] and [p.f] on a pointer that may be nil. *)
Definition deref {A} (p : option A) : go A :=
  match p with Some a => Ret a | None => Stop NilDeref end.

(** [s[i]] on a slice. *)
Definition index {A} (l : list A) (i : nat) : go A :=
  match l !! i with Some a => Ret a | None => Stop IndexRange end.

(** [copy(dst[off:], src)] for a source that fits. *)
Definition copy_at {A} (dst : list A) (off : nat) (src : list A) : list A :=
  take off dst ++ src ++ drop (off + length src) dst.

Definition returns {A} (m : go A) : Prop := exists a, m = Ret a.

Lemma gbind_Ret {A B} (m : go A) (k : A -> go B) b :
  gbind m k = Ret b <-> exists a, m = Ret a /\ k a = Ret b.
Proof. destruct m; simpl; split; [eauto|by intros (?&[=->]&?)|done|by intros (?&[=]&?)]. Qed.

Lemma deref_Ret {A} (p : option A) a : deref p = Ret a <-> p = Some a.
Proof. destruct p; simpl; naive_solver. Qed.

Lemma index_Ret {A} (l : list A) i a : index l i = Ret a <-> l !! i = Some a.
Proof. unfold index. destruct (l !! i); naive_solver. Qed.

(** A left fold in [go], the shape of a [for range] loop with early exits. *)
Fixpoint gfold {A S} (f : S -> A -> go S) (s : S) (l : list A) : go S :=
  match l with
  | [] => Ret s
  | a :: l => let! s := f s a in gfold f s l
  end.

Lemma gfold_app {A S} (f : S -> A -> go S) s l1 l2 :
  gfold f s (l1 ++ l2) = gbind (gfold f s l1) (fun s => gfold f s l2).
Proof.
  revert s. induction l1 as [|a l1 IH]; intros s; [done|].
  simpl. destruct (f s a); simpl; [apply IH|done].
Qed.

Lemma gfold_invariant {A S} (I : S -> Prop) (f : S -> A -> go S) l :
  (forall s a s', I s -> f s a = Ret s' -> I s') -> forall s s', I s -> gfold f s l = Ret s' -> I s'.
Proof.
  intros Hf. induction l as [|a l IH]; intros s s' Hs E; simpl in E; [by injection E as <-|].
  apply gbind_Ret in E as [s1 [E1 E]]. eauto.
Qed.

(** A loop whose body may [return] an error early: the state so far is kept. *)
Fixpoint eloop {A S E} (f : S -> A -> go (S * option E)) (s : S) (l : list A)
  : go (S * option E) :=
  match l with
  | [] => Ret (s, None)
  | a :: l =>
      let! (s, e) := f s a in
      match e with Some _ => Ret (s, e) | None => eloop f s l end
  end.

Lemma eloop_app {A S E} (f : S -> A -> go (S * option E)) s l1 l2 :
  eloop f s (l1 ++ l2) =
  let! (s, e) := eloop f s l1 in
  match e with Some _ => Ret (s, e) | None => eloop f s l2 end.
Proof.
  revert s. induction l1 as [|a l1 IH]; intros s; [done|].
  simpl. destruct (f s a) as [[s' [e|]]|]; simpl; [done|apply IH|done].
Qed.

(** The error of a loop is the error of one of its turns. *)
Lemma eloop_error {A S E} (f : S -> A -> go (S * option E)) l : forall s s' e,
  eloop f s l = Ret (s', Some e) -> exists s1 a s2, f s1 a = Ret (s2, Some e).
Proof.
  induction l as [|a l IH]; intros s s' e H; simpl in H; [done|].
  apply gbind_Ret in H as [[s1 [e1|]] [H1 H]]; simplify_eq/=; eauto.
Qed.

Lemma eloop_invariant {A S E} (I : S -> Prop) (f : S -> A -> go (S * option E)) s l s' e :
  (forall s a s' e, I s -> f s a = Ret (s', e) -> I s') ->
  I s -> eloop f s l = Ret (s', e) -> I s'.
Proof.
  intros Hf. revert s. induction l as [|a l IH]; intros s Hs H; simpl in H.
  - naive_solver.
  - apply gbind_Ret in H as [[s1 [e1|]] [H1 H]]; simplify_eq/=; eauto.
Qed.

(** * Tactics *)

Ltac split_prod a :=
  lazymatch type of a with
  | (_ * _)%type =>
      let a1 := fresh "a" in let a2 := fresh "a" in
      destruct a as [a1 a2]; split_prod a1; split_prod a2
  | _ => idtac
  end.

(** [go_inv H] turns [H : gbind m k = Ret b] into the equations of its steps. *)
Ltac go_inv1 H :=
  lazymatch type of H with
  | gbind _ _ = Ret _ =>
      let a := fresh "a" in let H1 := fresh H in
      apply gbind_Ret in H as [a [H1 H]]; split_prod a; cbn beta iota in H;
      go_inv1 H1; go_inv1 H
  | deref _ = Ret _ => apply deref_Ret in H
  | index _ _ = Ret _ => apply index_Ret in H
  | Ret _ = Ret _ => injection H as H
  | Stop _ = Ret _ => discriminate H
  | _ => idtac
  end.

Tactic Notation "go_inv" hyp(H) := go_inv1 H; simplify_eq/=.

(** [lia] with division and modulo by constants. *)
Ltac dlia := Z.to_euclidean_division_equations; lia.

(** Split every [match]/[if] the hypotheses and the goal are stuck on. *)
Ltac cases := repeat (case_match; simplify_eq/=; try done).

(** * Lists *)

(** [s[i], s[j] = s[j], s[i]] on a slice; the source's indices are in range. *)
Definition swap {A} (l : list A) (i j : nat) : go (list A) :=
  let! x := index l i in
  let! y := index l j in
  Ret (<[j := x]> (<[i := y]> l)).

Lemma imap_pair_S {A} k (l : list A) :
  imap ((fun (i : nat) x => ((k + i)%nat, x)) ∘ S) l = imap (fun i x => ((S k + i)%nat, x)) l.
Proof. apply imap_ext. intros i x _. cbn. f_equal. lia. Qed.

Lemma insert_cons_Permutation {A} (l : list A) i x y :
  l !! i = Some x -> (x :: <[i := y]> l) ≡ₚ (y :: l).
Proof.
  intros Hi. rewrite <- (take_drop_middle _ _ _ Hi) at 2.
  rewrite insert_take_drop by (by eapply lookup_lt_Some). solve_Permutation.
Qed.

(** Swapping the [i]th element to the end and dropping the last one removes
    exactly that element. *)
Lemma swap_last_take {A} (l : list A) i x :
  l !! i = Some x ->
  exists l', swap l i (length l - 1)%nat = Ret l' /\
             (x :: take (length l - 1)%nat l') ≡ₚ l.
Proof.
  destruct l as [|y l _] using rev_ind; [done|]. intros Hi.
  rewrite length_app. cbn [length]. rewrite Nat.add_sub.
  unfold swap, index. rewrite Hi, list_lookup_middle by done. simpl.
  eexists. split; [done|].
  rewrite take_insert_ge by done. apply lookup_app_Some in Hi as [Hi|[Hlen Hi]].
  - rewrite insert_app_l by (by eapply lookup_lt_Some).
    rewrite take_app_length' by (by rewrite length_insert).
    rewrite insert_cons_Permutation by done. by rewrite Permutation_cons_append.
  - apply list_lookup_singleton_Some in Hi as [Hi ->].
    rewrite insert_app_r_alt by done. rewrite take_app_length.
    by rewrite Permutation_cons_append.
Qed.

Lemma NoDup_fmap_elem {A B} (f : A -> B) (l : list A) x y :
  NoDup (f <$> l) -> x ∈ l -> y ∈ l -> f x = f y -> x = y.
Proof.
  induction l as [|z l IH]; intros Hnd Hx Hy E; [set_solver|].
  rewrite fmap_cons, NoDup_cons in Hnd. destruct Hnd as [Hz Hnd].
  apply elem_of_cons in Hx as [->|Hx], Hy as [->|Hy]; auto; exfalso; apply Hz.
  - rewrite E. by apply list_elem_of_fmap_2.
  - rewrite <- E. by apply list_elem_of_fmap_2.
Qed.

Lemma swap_perm {A} (l : list A) i j l' :
  swap l i j = Ret l' -> length l' = length l /\ l' ≡ₚ l.
Proof.
  unfold swap. intros Hs. go_inv Hs. rewrite !length_insert. split; [done|].
  by apply Permutation_insert_swap.
Qed.

Lemma swap_app_l {A} (l k : list A) i j l' :
  swap l i j = Ret l' -> swap (l ++ k) i j = Ret (l' ++ k).
Proof.
  unfold swap. intros Hs. go_inv Hs. unfold index.
  assert (i < length l)%nat by (by eapply lookup_lt_Some).
  assert (j < length l)%nat by (by eapply lookup_lt_Some).
  rewrite !lookup_app_l, Hs0, Hs1 by done. simpl.
  rewrite insert_app_l, insert_app_l by (rewrite ?length_insert; done). done.
Qed.

Lemma filter_all {A} (P : A -> Prop) `{!forall x, Decision (P x)} (l : list A) :
  (forall x, x ∈ l -> P x) -> filter P l = l.
Proof.
  induction l as [|a l IH]; intros Hl; [done|].
  rewrite filter_cons_True by (apply Hl; set_solver). f_equal. apply IH. set_solver.
Qed.

Lemma filter_none {A} (P : A -> Prop) `{!forall x, Decision (P x)} (l : list A) :
  (forall x, x ∈ l -> ~ P x) -> filter P l = [].
Proof.
  induction l as [|a l IH]; intros Hl; [done|].
  rewrite filter_cons_False by (apply Hl; set_solver). apply IH. set_solver.
Qed.

(** * Sums over finite maps *)

Section map_sum.
Context {K V : Type} `{Countable K} (f : V -> Z).

Definition map_sum (m : gmap K V) : Z := map_fold (fun _ v acc => f v + acc) 0 m.

Lemma map_sum_empty : map_sum ∅ = 0.
Proof. apply map_fold_empty. Qed.

Lemma map_sum_insert m k v :
  m !! k = None -> map_sum (<[k := v]> m) = f v + map_sum m.
Proof.
  intros Hk. unfold map_sum. rewrite map_fold_insert_L; [done| |done].
  intros. lia.
Qed.

Lemma map_sum_delete m k v :
  m !! k = Some v -> map_sum (delete k m) = map_sum m - f v.
Proof.
  intros Hk. rewrite <- (insert_delete_id m k v Hk) at 2.
  rewrite map_sum_insert by apply lookup_delete_eq. lia.
Qed.

Lemma map_sum_nonneg m : (forall k v, m !! k = Some v -> 0 <= f v) -> 0 <= map_sum m.
Proof.
  induction m as [|k v m Hk IH] using map_ind; intros Hf.
  - by rewrite map_sum_empty.
  - rewrite map_sum_insert by done.
    pose proof (Hf k v ltac:(apply lookup_insert_eq)).
    assert (0 <= map_sum m); [|lia]. apply IH. intros k' v' Hk'.
    apply (Hf k'). rewrite lookup_insert_ne; naive_solver.
Qed.
End map_sum.

Definition sumZ (l : list Z) : Z := fold_right Z.add 0 l.

Lemma sumZ_app l1 l2 : sumZ (l1 ++ l2) = sumZ l1 + sumZ l2.
Proof. induction l1 as [|a l IH]; simpl; [done|]. rewrite IH. lia. Qed.

#[export] Instance sumZ_Permutation : Proper (Permutation ==> eq) sumZ.
Proof. intros l1 l2 Hl. induction Hl; simpl; lia. Qed.

(** * Hint databases *)

Create HintDb plasma discriminated.
Create Rewrite HintDb plasma.
#[export] Hint Resolve byteZ_range u64_range be_val_nonneg length_arr : plasma.
#[export] Hint Rewrite @length_be_put @length_arr @be_val_Bytes @be_put_val : plasma.

#[global] Arguments be_put : simpl never.
#[global] Arguments be_val : simpl never.
#[global] Arguments byte_of : simpl never.
#[global] Arguments big_Bytes : simpl never.
#[global] Arguments u64 : simpl never.
