(* ===== verification/Deps.v ===== *)
(** The code the program calls and this repository does not hold: go-ethereum's
    [common], [rlp], [crypto] and [trie], and [jinzhu/copier]. Each is a class of
    operations, with a second class for the documented behaviour the program
    relies on; every component takes the operations as arguments, and a theorem
    names the behaviour it needs. [Instances.v] gives concrete members. *)

From S2P Require Import Prelude.
#[local] Open Scope Z_scope.

(** [common.BytesToHash] and [common.BytesToAddress]: a slice of the exact length
    is copied; other lengths are cropped or padded by the library. *)
Class EthCommon : Type := {
  BytesToHash : bytes -> Hash;
  BytesToAddress : bytes -> Address
}.

Class EthCommonLaws `{EthCommon} : Prop := {
  BytesToHash_arr (h : Hash) : BytesToHash (arr h) = h;
  BytesToAddress_arr (a : Address) : BytesToAddress (arr a) = a
}.

(** [rlp.EncodeToBytes] and [rlp.DecodeBytes] at a Go type; [None] is the error
    case. *)
Class Rlp (A : Type) : Type := {
  rlp_EncodeToBytes : A -> option bytes;
  rlp_DecodeBytes : bytes -> option A
}.

(** What RLP promises for the values it can represent exactly ([ok]: no nil
    pointer, no negative integer): a non-empty encoding that decodes to the value. *)
Class RlpLaws (A : Type) `{Rlp A} (ok : A -> Prop) : Prop := {
  rlp_roundtrip x : ok x ->
    exists b, rlp_EncodeToBytes x = Some b /\ b <> [] /\ rlp_DecodeBytes b = Some x
}.

(** [Stream.Kind]'s size of the value at the head of the input, and
    [rlp.ListSize], the size of a list with that much content. *)
Class RlpStream : Type := {
  rlp_Kind_size : bytes -> Z;
  rlp_ListSize : Z -> Z
}.

Class RlpStreamLaws `{RlpStream} (A : Type) `{Rlp A} : Prop := {
  rlp_ListSize_Kind (x : A) b :
    rlp_EncodeToBytes x = Some b -> rlp_ListSize (rlp_Kind_size b) = Z.of_nat (length b)
}.

(** [crypto]: Keccak-256 of the concatenated arguments, ECDSA on secp256k1. *)
Class Crypto : Type := {
  PrivateKey : Type;
  keccak256 : bytes -> Hash;
  crypto_Sign : Hash -> PrivateKey -> bytes + error;
  crypto_Ecrecover : Hash -> bytes -> bytes + error;
  crypto_ValidateSignatureValues : byte -> Z -> Z -> bool -> bool;
  (** the uncompressed public key of a private key *)
  FromECDSAPub : PrivateKey -> bytes
}.

(** The documented contract of [crypto.Sign], [crypto.Ecrecover] and
    [crypto.ValidateSignatureValues]: signatures are [R || S || V] with V 0 or 1,
    they validate, and recovery returns the signer's 65-byte public key. *)
Class CryptoLaws `{Crypto} : Prop := {
  Sign_shape h k sig : crypto_Sign h k = inl sig ->
    exists r s v, sig = arr (r : Hash) ++ arr (s : Hash) ++ [v]
      /\ (byteZ v = 0 \/ byteZ v = 1)
      /\ crypto_ValidateSignatureValues v (be_val (arr r)) (be_val (arr s)) false = true;
  Sign_recover h k sig : crypto_Sign h k = inl sig ->
    crypto_Ecrecover h sig = inl (FromECDSAPub k);
  FromECDSAPub_head k : FromECDSAPub k !! 0%nat = Some Byte.x04;
  Validate_zero v r s hs : r < 1 \/ s < 1 ->
    crypto_ValidateSignatureValues v r s hs = false;
  Validate_recid v r s hs : crypto_ValidateSignatureValues v r s hs = true ->
    byteZ v = 0 \/ byteZ v = 1
}.

(** [hexutil]: text with a 0x prefix. [MustDecode] panics on input that is not
    valid; [UnmarshalFixedText] fills [out], whose length fixes the input's. *)
Class Hexutil : Type := {
  hexutil_MustDecode : string -> go bytes;
  hexutil_Bytes_MarshalText : bytes -> bytes * option error;
  hexutil_UnmarshalFixedText : string -> bytes -> bytes -> bytes * option error
}.

(** [trie.Trie]: an ordered key/value commitment. *)
Class Trie : Type := {
  trie : Type;
  trie_new : trie;
  trie_Update : trie -> bytes -> bytes -> trie;
  trie_Hash : trie -> Hash
}.

(** [copier.Copy(&dst, src)] between two values of one type; [None] is the error. *)
Class Copier : Type := { copier_Copy : forall A : Type, A -> option A }.

Class CopierLaws `{Copier} : Prop := {
  copier_Copy_id A (x : A) : copier_Copy A x = Some x
}.
Arguments copier_Copy {_ A} _.

(** hashicorp/golang-lru, with the block hashes this program uses as keys. [Get]
    refreshes the entry, so it returns the cache. *)
Class LRU : Type := {
  lru : Type -> Type;
  lru_New : forall {V}, Z -> lru V;
  lru_Get : forall {V}, lru V -> Hash -> lru V * option V;
  lru_Peek : forall {V}, lru V -> Hash -> option V;
  lru_Contains : forall {V}, lru V -> Hash -> bool;
  lru_Add : forall {V}, lru V -> Hash -> V -> lru V;
  lru_Keys : forall {V}, lru V -> list Hash;
  lru_Len : forall {V}, lru V -> nat
}.

(** A cache is a finite map; adding may evict other entries, reading changes no
    entry. *)
Class LRULaws `{LRU} (view : forall V, lru V -> gmap Hash V) : Prop := {
  lru_New_view V n : view V (lru_New n) = ∅;
  lru_Get_value V (c : lru V) k : (lru_Get c k).2 = view V c !! k;
  lru_Get_view V (c : lru V) k : view V (lru_Get c k).1 = view V c;
  lru_Peek_value V (c : lru V) k : lru_Peek c k = view V c !! k;
  lru_Contains_value V (c : lru V) k : lru_Contains c k = bool_decide (is_Some (view V c !! k));
  lru_Add_view V (c : lru V) k v : view V (lru_Add c k v) ⊆ <[k := v]> (view V c);
  lru_Keys_view V (c : lru V) k : k ∈ lru_Keys c <-> is_Some (view V c !! k)
}.
