(* ===== verification/Types.v ===== *)
(** core/types: UTXOs, transactions, headers and blocks (utxo.go,
    transaction.go, block.go, derive_sha.go). Pointers that the code can leave
    nil are [option]s; a dereference of nil stops with [NilDeref]. *)

From S2P Require Import Prelude Deps.
#[local] Open Scope Z_scope.

(** * utxo.go *)

Record UTXOID : Type := mkUTXOID {
  BlockNum : Z;   (* uint64 *)
  TxIndex : Z;    (* uint32 *)
  OutIndex : byte
}.

Definition UTXOID_Equals (id other : UTXOID) : bool :=
  (BlockNum id =? BlockNum other) && (TxIndex id =? TxIndex other)
  && bool_decide (OutIndex id = OutIndex other).

Record TxOut : Type := mkTxOut {
  Owner : Address;
  Amount : option Z   (* *big.Int *)
}.

Record UTXO : Type := mkUTXO {
  utxo_UTXOID : UTXOID;
  utxo_TxOut : TxOut
}.

Definition UTXO_ID (u : UTXO) : UTXOID := utxo_UTXOID u.

Definition UTXO_Equals (u other : UTXO) : bool :=
  UTXOID_Equals (utxo_UTXOID u) (utxo_UTXOID other).

Definition NewNullUTXO : UTXO :=
  mkUTXO (mkUTXOID 0 0 Byte.x00) (mkTxOut zeroAddress (Some 0)).

Definition NewNullTxOut : TxOut := mkTxOut zeroAddress (Some 0).

Definition IsNullUTXO (utxo : UTXO) : bool := BlockNum (utxo_UTXOID utxo) =? 0.

(** * transaction.go *)

Record Sig : Type := mkSig {
  sig_V : option Z;
  sig_R : option Z;
  sig_S : option Z
}.

(** A [[2]T] array. *)
Definition pair_list {A} (p : A * A) : list A := [p.1; p.2].

(** The JSON-only [Hash] field is left out: RLP skips it and [marshalJSON] fills
    it in a copy. *)
Record txdata : Type := mkTxdata {
  Ins : option UTXO * option UTXO;
  Outs : option TxOut * option TxOut;
  data_Fee : option Z;
  Sigs : Sig * Sig
}.

(** [hash] and [size] are the [atomic.Value] caches, empty until stored. *)
Record Transaction : Type := mkTransaction {
  tx_data : txdata;
  tx_hash : option Hash;
  tx_size : option Z
}.

Definition zeroSig : Sig := mkSig None None None.

Definition NewTransaction (in1 in2 : option UTXO) (out1 out2 : option TxOut)
    (fee : option Z) : Transaction :=
  mkTransaction (mkTxdata (in1, in2) (out1, out2) fee (zeroSig, zeroSig)) None None.

Definition IsDepositTx (tx : Transaction) : go bool :=
  let! in1 := deref (tx_data tx).(Ins).1 in
  if BlockNum (UTXO_ID in1) =? 0 then
    let! in2 := deref (tx_data tx).(Ins).2 in
    Ret (BlockNum (UTXO_ID in2) =? 0)
  else Ret false.

(** Equality and countability, field by field. *)
#[export] Instance UTXOID_eq_decision : EqDecision UTXOID.
Proof. solve_decision. Defined.
#[export] Instance TxOut_eq_decision : EqDecision TxOut.
Proof. solve_decision. Defined.
#[export] Instance UTXO_eq_decision : EqDecision UTXO.
Proof. solve_decision. Defined.
#[export] Instance Sig_eq_decision : EqDecision Sig.
Proof. solve_decision. Defined.
#[export] Instance txdata_eq_decision : EqDecision txdata.
Proof. solve_decision. Defined.
#[export] Instance Transaction_eq_decision : EqDecision Transaction.
Proof. solve_decision. Defined.

#[export] Instance UTXOID_countable : Countable UTXOID.
Proof.
  refine (inj_countable' (fun x => (BlockNum x, TxIndex x, OutIndex x))
            (fun t => mkUTXOID t.1.1 t.1.2 t.2) _). by intros [].
Defined.
#[export] Instance TxOut_countable : Countable TxOut.
Proof.
  refine (inj_countable' (fun x => (Owner x, Amount x)) (fun t => mkTxOut t.1 t.2) _).
  by intros [].
Defined.
#[export] Instance UTXO_countable : Countable UTXO.
Proof.
  refine (inj_countable' (fun x => (utxo_UTXOID x, utxo_TxOut x))
            (fun t => mkUTXO t.1 t.2) _). by intros [].
Defined.
#[export] Instance Sig_countable : Countable Sig.
Proof.
  refine (inj_countable' (fun x => (sig_V x, sig_R x, sig_S x))
            (fun t => mkSig t.1.1 t.1.2 t.2) _). by intros [].
Defined.
#[export] Instance txdata_countable : Countable txdata.
Proof.
  refine (inj_countable' (fun x => (Ins x, Outs x, data_Fee x, Sigs x))
            (fun t => mkTxdata t.1.1.1 t.1.1.2 t.1.2 t.2) _). by intros [].
Defined.

Lemma UTXOID_Equals_spec a b : UTXOID_Equals a b = true <-> a = b.
Proof.
  destruct a, b. unfold UTXOID_Equals. simpl.
  rewrite !andb_true_iff, !Z.eqb_eq, bool_decide_eq_true.
  split; [by intros [[-> ->] ->]|by intros [= -> -> ->]].
Qed.

Lemma UTXO_Equals_spec a b : UTXO_Equals a b = true <-> UTXO_ID a = UTXO_ID b.
Proof. apply UTXOID_Equals_spec. Qed.

Section Transaction.
Context `{Crypto} `{Copier} `{Rlp txdata} `{RlpStream}.

(** [rlpHash]: nothing reaches the hash state when the encoder fails. *)
Definition rlpHash {A} `{Rlp A} (x : A) : Hash :=
  keccak256 (default [] (rlp_EncodeToBytes x)).

(** [GetInsCopy]/[GetOutsCopy]: a slice of two pointers, or nil on error. *)
Definition GetInsCopy (tx : Transaction) : list (option UTXO) :=
  match copier_Copy (tx_data tx).(Ins) with
  | Some copy => pair_list copy
  | None => []
  end.

Definition GetOutsCopy (tx : Transaction) : list (option TxOut) :=
  match copier_Copy (tx_data tx).(Outs) with
  | Some copy => pair_list copy
  | None => []
  end.

(** [fcopy.Add(tx.data.Fee, fcopy)] dereferences [Fee]. *)
Definition Fee (tx : Transaction) : go Z :=
  let! fee := deref (tx_data tx).(data_Fee) in
  Ret (fee + 0).

Definition Transaction_EncodeRLP (tx : Transaction) : option bytes :=
  rlp_EncodeToBytes (tx_data tx).

(** The hash cache of the receiver is not touched; the size cache is set from
    the stream. *)
Definition Transaction_DecodeRLP (tx : Transaction) (b : bytes) : option Transaction :=
  match rlp_DecodeBytes b with
  | Some d => Some (mkTransaction d (tx_hash tx) (Some (rlp_ListSize (rlp_Kind_size b))))
  | None => None
  end.

(** [Hash] and [Size] read the cache or compute and store; the [_store]
    functions are their effect on the receiver. *)
Definition Transaction_Hash (tx : Transaction) : Hash :=
  match tx_hash tx with Some h => h | None => rlpHash (tx_data tx) end.

Definition Transaction_Hash_store (tx : Transaction) : Transaction :=
  mkTransaction (tx_data tx) (Some (Transaction_Hash tx)) (tx_size tx).

Definition Transaction_Size (tx : Transaction) : Z :=
  match tx_size tx with
  | Some s => s
  | None => Z.of_nat (length (default [] (rlp_EncodeToBytes (tx_data tx))))
  end.

Definition Transaction_Size_store (tx : Transaction) : Transaction :=
  mkTransaction (tx_data tx) (tx_hash tx) (Some (Transaction_Size tx)).

(** The caches, when set, hold what the computation would give. *)
Definition tx_coherent (tx : Transaction) : Prop :=
  (forall h, tx_hash tx = Some h -> h = rlpHash (tx_data tx)) /\
  (forall s, tx_size tx = Some s ->
     s = Z.of_nat (length (default [] (rlp_EncodeToBytes (tx_data tx))))).

(** * [Transactions] *)

(** [Swap] and [Remove] of the slice type; [Remove] swaps with the last element
    and truncates. *)
Definition Transactions_Swap (s : list Transaction) (i j : nat) : go (list Transaction) :=
  swap s i j.

Definition Transactions_Remove (s : list Transaction) (i : nat) : go (list Transaction) :=
  let! s := Transactions_Swap s i (length s - 1) in
  Ret (take (length s - 1) s).

Definition Transactions_GetRlp (s : list Transaction) (i : nat) : go bytes :=
  let! tx := index s i in
  Ret (default [] (Transaction_EncodeRLP tx)).

(** The two loops of [TxDifference]: collect [b]'s hashes, keep the rest of [a]. *)
Definition TxDifference (a b : list Transaction) : list Transaction :=
  let remove := fold_left (fun (m : gset Hash) tx => {[ Transaction_Hash tx ]} ∪ m) b ∅ in
  fold_left (fun keep tx =>
               if decide (Transaction_Hash tx ∈ remove) then keep else keep ++ [tx]) a [].
End Transaction.

(** * derive_sha.go *)

(** The [DerivableList] interface. *)
Class DerivableList (L : Type) : Type := {
  list_Len : L -> nat;
  list_GetRlp : L -> nat -> go bytes
}.

#[export] Instance Transactions_DerivableList `{Rlp txdata} : DerivableList (list Transaction) := {
  list_Len := length;
  list_GetRlp := Transactions_GetRlp
}.

(** [for i := 0; i < list.Len(); i++ { trie.Update(rlp(uint(i)), list.GetRlp(i)) }] *)
Definition DeriveSha `{Trie} `{Rlp Z} {L} `{DerivableList L} (list : L) : go Hash :=
  let! t := gfold (fun t i =>
                     let! v := list_GetRlp list i in
                     Ret (trie_Update t (default [] (rlp_EncodeToBytes (Z.of_nat i))) v))
                  trie_new (seq 0 (list_Len list)) in
  Ret (trie_Hash t).

(** * block.go *)

Record Header : Type := mkHeader {
  ParentHash : Hash;
  Coinbase : Address;
  TxHash : Hash;
  Number : option Z;   (* *big.Int *)
  Time : option Z;     (* *big.Int *)
  Extra : bytes
}.

Record Body : Type := mkBody { Transactions : list Transaction }.

(** [ReceivedAt]/[ReceivedFrom] are never read in this repository and left out. *)
Record Block : Type := mkBlock {
  header : Header;
  transactions : list Transaction;
  blk_hash : option Hash;
  blk_size : option Z;
  td : option Z
}.

(** What RLP sees of a [Body] and of an [extblock]: a transaction encodes as its
    [txdata]. *)
Record rlpBody : Type := mkRlpBody { rb_Transactions : list txdata }.
Record extblock : Type := mkExtblock { eb_Header : Header; eb_Txs : list txdata }.

#[export] Instance Header_eq_decision : EqDecision Header.
Proof. solve_decision. Defined.
#[export] Instance rlpBody_eq_decision : EqDecision rlpBody.
Proof. solve_decision. Defined.
#[export] Instance extblock_eq_decision : EqDecision extblock.
Proof. solve_decision. Defined.
#[export] Instance Block_eq_decision : EqDecision Block.
Proof. solve_decision. Defined.
#[export] Instance Header_countable : Countable Header.
Proof.
  refine (inj_countable'
            (fun x => (ParentHash x, Coinbase x, TxHash x, Number x, Time x, Extra x))
            (fun t => mkHeader t.1.1.1.1.1 t.1.1.1.1.2 t.1.1.1.2 t.1.1.2 t.1.2 t.2) _).
  by intros [].
Defined.
#[export] Instance rlpBody_countable : Countable rlpBody.
Proof. refine (inj_countable' rb_Transactions mkRlpBody _). by intros []. Defined.
#[export] Instance extblock_countable : Countable extblock.
Proof.
  refine (inj_countable' (fun x => (eb_Header x, eb_Txs x)) (fun t => mkExtblock t.1 t.2) _).
  by intros [].
Defined.

(** [EncodeNonce] and [BlockNonce.Uint64]. *)
Definition EncodeNonce (i : Z) : bytes := be_put 8 i.
Definition BlockNonce_Uint64 (n : bytes) : Z := be_val n.

(** [CopyHeader]: nil integers become fresh zeros. *)
Definition CopyHeader (h : Header) : Header :=
  mkHeader (ParentHash h) (Coinbase h) (TxHash h)
    (Some (default 0 (Number h))) (Some (default 0 (Time h))) (Extra h).

Definition set_TxHash (h : Header) (r : Hash) : Header :=
  mkHeader (ParentHash h) (Coinbase h) r (Number h) (Time h) (Extra h).

Definition NewBlockWithHeader (h : Header) : Block := mkBlock (CopyHeader h) [] None None None.

(** [h.Number.Uint64()]. *)
Definition Header_NumberU64 (h : Header) : go Z :=
  let! n := deref (Number h) in Ret (big_Uint64 n).

Definition Block_Transactions (b : Block) : list Transaction := transactions b.
Definition Block_Header (b : Block) : Header := CopyHeader (header b).
Definition Block_Body (b : Block) : Body := mkBody (transactions b).
Definition Block_ParentHash (b : Block) : Hash := ParentHash (header b).
Definition Block_Number (b : Block) : go Z := deref (Number (header b)).
Definition Block_NumberU64 (b : Block) : go Z := Header_NumberU64 (header b).

(** [WithSeal] keeps the given header as it is, [WithBody] copies the block's. *)
Definition WithSeal (b : Block) (h : Header) : Block :=
  mkBlock h (transactions b) None None None.
Definition WithBody (b : Block) (txs : list Transaction) : Block :=
  mkBlock (CopyHeader (header b)) txs None None None.

Section Block.
Context `{Crypto} `{Trie} `{Rlp txdata} `{Rlp Z} `{Rlp Header} `{Rlp extblock} `{RlpStream}.

Definition Header_Hash (h : Header) : Hash := rlpHash h.

(** [var EmptyRootHash = DeriveSha(Transactions{})] *)
Definition EmptyRootHash : go Hash := DeriveSha ([] : list Transaction).

Definition NewBlock (h : Header) (txs : list Transaction) : go Block :=
  match txs with
  | [] =>
      let! root := EmptyRootHash in
      Ret (mkBlock (set_TxHash (CopyHeader h) root) [] None None (Some 0))
  | _ =>
      let! root := DeriveSha txs in
      Ret (mkBlock (set_TxHash (CopyHeader h) root) txs None None (Some 0))
  end.

Definition Block_Hash (b : Block) : Hash :=
  match blk_hash b with Some h => h | None => Header_Hash (header b) end.

Definition Block_Hash_store (b : Block) : Block :=
  mkBlock (header b) (transactions b) (Some (Block_Hash b)) (blk_size b) (td b).

(** [Block.Transaction(hash)]: the first transaction with that hash, or nil. *)
Fixpoint find_tx (txs : list Transaction) (hash : Hash) : option Transaction :=
  match txs with
  | [] => None
  | tx :: txs => if decide (Transaction_Hash tx = hash) then Some tx else find_tx txs hash
  end.

Definition Block_Transaction (b : Block) (hash : Hash) : option Transaction :=
  find_tx (transactions b) hash.

Definition Block_EncodeRLP (b : Block) : option bytes :=
  rlp_EncodeToBytes (mkExtblock (header b) (tx_data <$> transactions b)).

(** A transaction read from a stream: a fresh value with its size cached. *)
Definition decoded_tx (d : txdata) : Transaction :=
  mkTransaction d None
    (Some (rlp_ListSize (rlp_Kind_size (default [] (rlp_EncodeToBytes d))))).

Definition Block_DecodeRLP (b : Block) (input : bytes) : option Block :=
  match rlp_DecodeBytes input with
  | Some eb =>
      Some (mkBlock (eb_Header eb) (decoded_tx <$> eb_Txs eb) (blk_hash b)
              (Some (rlp_ListSize (rlp_Kind_size input))) (td b))
  | None => None
  end.

Definition Block_Size (b : Block) : Z :=
  match blk_size b with
  | Some s => s
  | None => Z.of_nat (length (default [] (Block_EncodeRLP b)))
  end.
End Block.

(** * Values RLP represents exactly *)

Definition big_okb (p : option Z) : bool := match p with Some n => 0 <=? n | None => false end.
Definition UTXOID_okb (id : UTXOID) : bool :=
  bool_decide (is_u64 (BlockNum id)) && bool_decide (is_u32 (TxIndex id)).
Definition TxOut_okb (o : TxOut) : bool := big_okb (Amount o).
Definition UTXO_okb (u : UTXO) : bool := UTXOID_okb (utxo_UTXOID u) && TxOut_okb (utxo_TxOut u).
Definition ptr_okb {A} (ok : A -> bool) (p : option A) : bool :=
  match p with Some a => ok a | None => false end.
Definition Sig_okb (s : Sig) : bool := big_okb (sig_V s) && big_okb (sig_R s) && big_okb (sig_S s).
Definition txdata_okb (d : txdata) : bool :=
  forallb (ptr_okb UTXO_okb) (pair_list (Ins d)) && forallb (ptr_okb TxOut_okb) (pair_list (Outs d))
  && big_okb (data_Fee d) && forallb Sig_okb (pair_list (Sigs d)).
Definition Header_okb (h : Header) : bool := big_okb (Number h) && big_okb (Time h).

Abbreviation txdata_ok := (fun d => txdata_okb d = true).
Abbreviation Header_ok := (fun h => Header_okb h = true).
Abbreviation rlpBody_ok := (fun b => forallb txdata_okb (rb_Transactions b) = true).
Abbreviation extblock_ok := (fun b => Header_okb (eb_Header b) && forallb txdata_okb (eb_Txs b) = true).

(** The transactions a block or a body decodes to: the same data, caches reset. *)
Definition same_txs (txs txs' : list Transaction) : Prop := tx_data <$> txs = tx_data <$> txs'.

(** A nil [*big.Int] is encoded as zero: what is read back has zeros for the nil
    integers, such as the signatures of a deposit. *)
Definition fill_int (o : option Z) : option Z := Some (default 0 o).
Definition fill_sig (s : Sig) : Sig := mkSig (fill_int (sig_V s)) (fill_int (sig_R s)) (fill_int (sig_S s)).
Definition fill_out (o : TxOut) : TxOut := mkTxOut (Owner o) (fill_int (Amount o)).
Definition fill_utxo (u : UTXO) : UTXO := mkUTXO (utxo_UTXOID u) (fill_out (utxo_TxOut u)).
Definition fill_txdata (d : txdata) : txdata :=
  mkTxdata (fill_utxo <$> (Ins d).1, fill_utxo <$> (Ins d).2) (fill_out <$> (Outs d).1, fill_out <$> (Outs d).2)
    (fill_int (data_Fee d)) (fill_sig (Sigs d).1, fill_sig (Sigs d).2).

Lemma fill_txdata_idem d : fill_txdata (fill_txdata d) = fill_txdata d.
Proof. destruct d as [[[|] [|]] [[|] [|]] ? [? ?]]; done. Qed.

Lemma fill_txdata_ok d : txdata_okb d = true -> fill_txdata d = d.
Proof.
  destruct d as [[[[? [? [?|]]]|] [[? [? [?|]]]|]] [[[? [?|]]|] [[? [?|]]|]] [?|] [[[?|] [?|] [?|]] [[?|] [?|] [?|]]]];
    try done; unfold txdata_okb, Sig_okb, UTXO_okb, TxOut_okb; cbn; rewrite ?andb_false_r; done.
Qed.

Class RlpNilLaws `{Rlp rlpBody} : Prop := {
  rlp_nil_ints ds : rlp_EncodeToBytes (mkRlpBody ds) = rlp_EncodeToBytes (mkRlpBody (fill_txdata <$> ds))
}.

#[export] Instance same_txs_equivalence : Equivalence same_txs.
Proof. unfold same_txs. split; [intros ?|intros ??|intros ???]; congruence. Qed.

(** * Facts about transactions *)

Section TransactionFacts.
Context `{Crypto} `{Copier} `{Rlp txdata} `{RlpStream}.

Lemma Transaction_Hash_stable tx :
  Transaction_Hash (Transaction_Hash_store tx) = Transaction_Hash tx /\
  Transaction_Hash (Transaction_Size_store tx) = Transaction_Hash tx.
Proof. done. Qed.

Lemma coherent_Hash tx : tx_coherent tx -> Transaction_Hash tx = rlpHash (tx_data tx).
Proof. unfold Transaction_Hash. intros [Hh _]. case_match; eauto. Qed.

Lemma coherent_Size tx : tx_coherent tx ->
  Transaction_Size tx = Z.of_nat (length (default [] (rlp_EncodeToBytes (tx_data tx)))).
Proof. unfold Transaction_Size. intros [_ Hs]. case_match; eauto. Qed.

Lemma GetInsCopy_pair `{!CopierLaws} tx : GetInsCopy tx = pair_list (Ins (tx_data tx)).
Proof. unfold GetInsCopy. by rewrite copier_Copy_id. Qed.

Lemma GetOutsCopy_pair `{!CopierLaws} tx : GetOutsCopy tx = pair_list (Outs (tx_data tx)).
Proof. unfold GetOutsCopy. by rewrite copier_Copy_id. Qed.

Lemma TxDifference_remove (b : list Transaction) s0 h :
  h ∈ fold_left (fun (m : gset Hash) tx => {[ Transaction_Hash tx ]} ∪ m) b s0 <->
  h ∈ s0 \/ h ∈ Transaction_Hash <$> b.
Proof.
  revert s0. induction b as [|tx b IH]; intros s0; simpl.
  - set_solver.
  - rewrite IH. set_solver.
Qed.

(** [TxDifference(a, b)], with its two loops over a set of hashes, keeps
    exactly the transactions of [a] whose hash occurs in no transaction of [b],
    in their order and with their repetitions. *)
Theorem TxDifference_filter a b :
  TxDifference a b = filter (fun tx => Transaction_Hash tx ∉ Transaction_Hash <$> b) a.
Proof.
  unfold TxDifference. set (rm := fold_left _ b ∅).
  assert (Hrm : forall h, h ∈ rm <-> h ∈ Transaction_Hash <$> b).
  { intros h. unfold rm. rewrite TxDifference_remove. set_solver. }
  clearbody rm.
  enough (E : forall acc, fold_left (fun keep tx =>
      if decide (Transaction_Hash tx ∈ rm) then keep else keep ++ [tx]) a acc =
    acc ++ filter (fun tx => Transaction_Hash tx ∉ Transaction_Hash <$> b) a) by apply E.
  induction a as [|tx a IH]; intros acc; simpl; [by rewrite app_nil_r|].
  rewrite IH, filter_cons.
  repeat case_decide; rewrite <- ?app_assoc; first [done|exfalso; naive_solver].
Qed.

Lemma Transactions_Remove_perm s i tx :
  s !! i = Some tx ->
  exists s', Transactions_Remove s i = Ret s' /\ (tx :: s') ≡ₚ s.
Proof.
  intros Hi. destruct (swap_last_take _ _ _ Hi) as (l & Hl & Hp).
  unfold Transactions_Remove, Transactions_Swap. rewrite Hl. simpl.
  eexists. split; [done|].
  assert (length l = length s) as ->; [|done].
  unfold swap in Hl. go_inv Hl. by rewrite !length_insert.
Qed.

Lemma Transactions_Remove_inv s i q :
  Transactions_Remove s i = Ret q ->
  exists l, swap s i (length s - 1) = Ret l /\ q = take (length s - 1) l.
Proof.
  unfold Transactions_Remove, Transactions_Swap. intros Hr. apply gbind_Ret in Hr as (l & Hl & Hr).
  exists l. split; [done|]. destruct (swap_perm _ _ _ _ Hl) as [<- _]. congruence.
Qed.

(** A transaction that went through RLP is the same data with coherent caches. *)
Lemma Transaction_rlp_roundtrip `{!RlpLaws txdata txdata_ok} `{!RlpStreamLaws txdata} tx tx0 :
  txdata_okb (tx_data tx) = true -> tx_hash tx0 = None ->
  exists b tx', Transaction_EncodeRLP tx = Some b /\ Transaction_DecodeRLP tx0 b = Some tx' /\
    tx_data tx' = tx_data tx /\ tx_coherent tx' /\
    Transaction_Hash tx' = rlpHash (tx_data tx).
Proof.
  intros Hok Hnone. destruct (rlp_roundtrip (ok := txdata_ok) (tx_data tx) Hok) as (b & He & _ & Hd).
  exists b. eexists. split; [done|]. unfold Transaction_DecodeRLP. rewrite Hd.
  split; [done|]. unfold tx_coherent, Transaction_Hash. simpl. rewrite Hnone.
  split_and!; try done. intros ? [= <-]. rewrite He. simpl. by apply (rlp_ListSize_Kind (tx_data tx)).
Qed.
End TransactionFacts.

(** * Facts about blocks *)

Section BlockFacts.
Context `{Crypto} `{Trie} `{Rlp txdata} `{Rlp Z} `{Rlp Header} `{Rlp extblock} `{RlpStream}.

(** The transaction root as a pure function: the loop of [DeriveSha] never
    indexes out of range. *)
Definition txs_root (txs : list Transaction) : Hash :=
  trie_Hash (fold_left
    (fun t p => trie_Update t (default [] (rlp_EncodeToBytes (Z.of_nat p.1)))
                  (default [] (Transaction_EncodeRLP p.2)))
    (imap pair txs) trie_new).

Lemma DeriveSha_total txs : DeriveSha txs = Ret (txs_root txs).
Proof.
  unfold DeriveSha, txs_root. simpl.
  set (f := fun t i => gbind (Transactions_GetRlp txs i) _).
  enough (forall k t, gfold f t (seq k (length txs - k)) =
    Ret (fold_left (fun t p => trie_Update t (default [] (rlp_EncodeToBytes (Z.of_nat p.1)))
      (default [] (Transaction_EncodeRLP p.2))) (drop k (imap pair txs)) t)) as E.
  { specialize (E 0%nat trie_new). rewrite Nat.sub_0_r, drop_0 in E. by rewrite E. }
  intros k. remember (length txs - k)%nat as m eqn:Hm. revert k Hm.
  induction m as [|m IH]; intros k Hm t; simpl.
  - rewrite drop_ge by (rewrite length_imap; lia). done.
  - destruct (lookup_lt_is_Some_2 txs k) as [tx Htx]; [lia|].
    unfold f at 1, Transactions_GetRlp, index. rewrite Htx. simpl.
    rewrite (drop_S _ (k, tx)) by (by rewrite list_lookup_imap, Htx). simpl.
    apply IH. lia.
Qed.

(** [NewBlock] never fails; it keeps the transactions and every header field
    but the root, which it derives from the transactions. *)
Lemma NewBlock_total h txs :
  NewBlock h txs =
  Ret (mkBlock (set_TxHash (CopyHeader h) (txs_root txs)) txs None None (Some 0)).
Proof.
  unfold NewBlock, EmptyRootHash. destruct txs; by rewrite DeriveSha_total.
Qed.

Lemma CopyHeader_ok h : Header_okb h = true -> CopyHeader h = h.
Proof.
  destruct h as [p c t n tm e]. unfold Header_okb, CopyHeader. simpl.
  destruct n, tm; simpl; rewrite ?andb_false_r; done.
Qed.

Lemma decoded_txs_same (ds : list txdata) : tx_data <$> (decoded_tx <$> ds) = ds.
Proof. rewrite <- list_fmap_compose. by apply list_fmap_id. Qed.

(** A block that went through [EncodeRLP] and [DecodeRLP] has the same header
    and the same transaction data; its hash is the header's and its size is the
    length of the encoding. *)
Lemma Block_rlp_roundtrip `{!RlpLaws extblock extblock_ok} `{!RlpStreamLaws extblock} b b0 :
  Header_okb (header b) && forallb txdata_okb (tx_data <$> transactions b) = true ->
  blk_hash b0 = None ->
  exists input b', Block_EncodeRLP b = Some input /\ Block_DecodeRLP b0 input = Some b' /\
    header b' = header b /\ same_txs (transactions b') (transactions b) /\
    Block_Hash b' = Header_Hash (header b) /\ Block_Size b' = Z.of_nat (length input).
Proof.
  intros Hok Hnone.
  destruct (rlp_roundtrip (ok := extblock_ok) (mkExtblock (header b) (tx_data <$> transactions b)) Hok)
    as (input & He & _ & Hd).
  exists input. eexists. split; [done|]. unfold Block_DecodeRLP. rewrite Hd. split; [done|].
  unfold Block_Hash, Block_Size, same_txs. simpl. rewrite Hnone, decoded_txs_same.
  split_and!; try done. by apply (rlp_ListSize_Kind _ _ He).
Qed.
End BlockFacts.
