(* ===== verification/Blocks.v ===== *)
(** core/types/block.go, what [Types.v] leaves of it: nonces as text, the hash
    without the nonce, sizes, the remaining accessors and the sorting of blocks. *)

From Stdlib Require Import Sorting.Sorted.
From S2P Require Import Prelude Deps Types.
#[local] Open Scope Z_scope.

(** * [sort.Sort] *)

(** [sort.Sort] of a value with a length, a comparison and a swap. *)
Class GoSort : Type := {
  sort_Sort : forall {S : Type}, (S -> nat) -> (S -> nat -> nat -> go bool) -> (S -> nat -> nat -> go S) -> S -> go S
}.

(** Its documentation, for a value [s] that stands for a slice, is compared by a
    strict weak order [lt] of the elements and swapped in place: it ends with a
    permutation of the slice in ascending order. *)
Class GoSortLaws `{GoSort} : Prop := {
  sort_sorts (S A : Type) (view : S -> list A) (inv : S -> Prop) len less swp (lt : A -> A -> bool) s :
    inv s -> (forall x, lt x x = false) -> (forall x y z, lt x y = true -> lt y z = true -> lt x z = true) ->
    (forall x y z, lt x y = false -> lt y z = false -> lt x z = false) ->
    (forall s, len s = length (view s)) ->
    (forall s i j x y, inv s -> view s !! i = Some x -> view s !! j = Some y ->
       less s i j = Ret (lt x y) /\
       exists s', swp s i j = Ret s' /\ inv s' /\ view s' = <[j := x]> (<[i := y]> (view s))) ->
    exists s', sort_Sort len less swp s = Ret s' /\ inv s' /\ view s' ≡ₚ view s /\
      StronglySorted (fun x y => lt y x = false) (view s')
}.

(** * Headers *)

Section Nonce.
Context `{Hexutil}.

Definition BlockNonce_MarshalText (n : farray 8) : bytes * option error := hexutil_Bytes_MarshalText (arr n).
Definition BlockNonce_UnmarshalText (n : farray 8) (input : bytes) : bytes * option error :=
  hexutil_UnmarshalFixedText "BlockNonce" input (arr n).
End Nonce.

(** The list of fields [HashNoNonce] encodes. *)
Record headerFields : Type := mkHeaderFields {
  hf_ParentHash : Hash;
  hf_Coinbase : Address;
  hf_TxHash : Hash;
  hf_Number : option Z;
  hf_Time : option Z;
  hf_Extra : bytes
}.
Definition fields_of (h : Header) : headerFields :=
  mkHeaderFields (ParentHash h) (Coinbase h) (TxHash h) (Number h) (Time h) (Extra h).

(** RLP writes a struct as the list of its fields. *)
Class RlpFieldsLaws `{Rlp Header} `{Rlp headerFields} : Prop := {
  rlp_fields h : rlp_EncodeToBytes (fields_of h) = rlp_EncodeToBytes h
}.

Section Headers.
Context `{Crypto} `{Rlp Header} `{Rlp headerFields}.

Definition Header_HashNoNonce (h : Header) : Hash := rlpHash (fields_of h).
Definition Block_HashNoNonce (b : Block) : Hash := Header_HashNoNonce (header b).

(** [unsafe.Sizeof] of a header on a 64-bit machine: 84 bytes of arrays, padded, two
    pointers and a slice. *)
Definition sizeof_Header : Z := 128.

Definition Header_Size (h : Header) : go Z :=
  let! number := deref (Number h) in
  let! time := deref (Time h) in
  Ret (sizeof_Header + (Z.of_nat (length (Extra h)) + (big_BitLen number + big_BitLen time) / 8)).

(** The chain has no nonce: the two hashes of a header are the same. *)
Lemma HashNoNonce_is_Hash `{!RlpFieldsLaws} h : Header_HashNoNonce h = Header_Hash h.
Proof. unfold Header_HashNoNonce, Header_Hash, rlpHash. by rewrite rlp_fields. Qed.
End Headers.

(** [writeCounter.Write]. *)
Definition writeCounter_Write (c : Z) (b : bytes) : Z * (Z * option error) :=
  (c + Z.of_nat (length b), (Z.of_nat (length b), None)).

(** * Accessors *)

Definition DeprecatedTd (b : Block) : option Z := td b.
Definition Block_Time (b : Block) : go Z := deref (Time (header b)).
Definition Block_Coinbase (b : Block) : Address := Coinbase (header b).
Definition Block_TxHash (b : Block) : Hash := TxHash (header b).
Definition Block_Extra (b : Block) : bytes := Extra (header b).

(** * Sorting *)

(** [blockSorter], over a comparison that may dereference nil. *)
Record blockSorter : Type := mkBlockSorter {
  bs_blocks : list Block;
  bs_by : Block -> Block -> go bool
}.

Definition blockSorter_Len (self : blockSorter) : nat := length (bs_blocks self).
Definition blockSorter_Swap (self : blockSorter) (i j : nat) : go blockSorter :=
  let! blocks := swap (bs_blocks self) i j in
  Ret (mkBlockSorter blocks (bs_by self)).
Definition blockSorter_Less (self : blockSorter) (i j : nat) : go bool :=
  let! bi := index (bs_blocks self) i in
  let! bj := index (bs_blocks self) j in
  bs_by self bi bj.

(** [Number], the comparison by number. *)
Definition block_Number_less (b1 b2 : Block) : go bool :=
  let! n1 := deref (Number (header b1)) in
  let! n2 := deref (Number (header b2)) in
  Ret (n1 <? n2).

Section Sort.
Context `{GoSort}.

(** [BlockBy.Sort]. *)
Definition BlockBy_Sort (self : Block -> Block -> go bool) (blocks : list Block) : go (list Block) :=
  let! bs := sort_Sort blockSorter_Len blockSorter_Less blockSorter_Swap (mkBlockSorter blocks self) in
  Ret (bs_blocks bs).

Definition number_of (b : Block) : Z := default 0 (Number (header b)).

(** Sorting by number gives the same blocks with their numbers in order, as long
    as every block has a number. *)
Lemma Sort_by_number `{!GoSortLaws} blocks :
  Forall (fun b => is_Some (Number (header b))) blocks ->
  exists blocks', BlockBy_Sort block_Number_less blocks = Ret blocks' /\ blocks' ≡ₚ blocks /\
    StronglySorted (fun b b' => number_of b <= number_of b') blocks'.
Proof.
  intros Hall. unfold BlockBy_Sort.
  destruct (sort_sorts blockSorter Block bs_blocks
    (fun s => bs_by s = block_Number_less /\ Forall (fun b => is_Some (Number (header b))) (bs_blocks s))
    blockSorter_Len blockSorter_Less blockSorter_Swap (fun b b' => number_of b <? number_of b')
    (mkBlockSorter blocks block_Number_less)) as ([bs by'] & -> & _ & Hp & Hs).
  - done.
  - intros x. apply Z.ltb_irrefl.
  - intros x y z Hxy Hyz. lia.
  - intros x y z Hxy Hyz. lia.
  - done.
  - intros [l by'] i j x y [Hby Hl] Hx Hy. cbn [bs_blocks bs_by] in *. subst by'. rewrite Forall_forall in Hl.
    destruct (Hl x) as [nx Hnx]; [by eapply list_elem_of_lookup_2|].
    destruct (Hl y) as [ny Hny]; [by eapply list_elem_of_lookup_2|].
    unfold blockSorter_Less, blockSorter_Swap, block_Number_less, swap, index, number_of. cbn [bs_blocks bs_by].
    rewrite Hx, Hy. cbn [gbind]. rewrite Hnx, Hny. cbn. split; [done|]. eexists. split; [done|].
    split; [|done]. split; [done|]. cbn. apply Forall_insert; [|by eexists]. apply Forall_insert; [|by eexists].
    by apply Forall_forall.
  - cbn [gbind bs_blocks] in *. exists bs. split_and!; [done|done|].
    clear Hp. induction Hs as [|b l _ IH Hb]; constructor; [done|]. eapply Forall_impl; [exact Hb|]. cbn. intros; lia.
Qed.
End Sort.
