(* ===== verification/Signing.v ===== *)
(** core/types/transaction_signing.go, and the parts of transaction.go that
    handle signatures: the EIP-155 signer, signing and sender recovery. *)

From S2P Require Import Prelude Deps Types.
#[local] Open Scope Z_scope.

(** The [Signer] interface. *)
Class Signer (G : Type) `{Crypto} : Type := {
  signer_Sender : G -> Transaction -> go ((Address * Address) * option error);
  signer_SignatureValues : G -> bytes -> go (Z * Z * Z);   (* r, s, v *)
  signer_Hash : G -> Transaction -> Hash;
  signer_Equal : G -> G -> bool
}.

Record EIP155Signer : Type := mkEIP155Signer { chainId : Z; chainIdMul : Z }.

Definition NewEIP155Signer (id : option Z) : EIP155Signer :=
  let id := default 0 id in mkEIP155Signer id (id * 2).

(** What [EIP155Signer.Hash] encodes, without the two trailing zeros. *)
Record sigpayload : Type := mkSigpayload {
  sp_Ins : option UTXO * option UTXO;
  sp_Outs : option TxOut * option TxOut;
  sp_Fee : option Z;
  sp_chainId : Z
}.

#[export] Instance sigpayload_eq_decision : EqDecision sigpayload.
Proof. solve_decision. Defined.
#[export] Instance sigpayload_countable : Countable sigpayload.
Proof.
  refine (inj_countable' (fun x => (sp_Ins x, sp_Outs x, sp_Fee x, sp_chainId x))
            (fun t => mkSigpayload t.1.1.1 t.1.1.2 t.1.2 t.2) _). by intros [].
Defined.

Definition deriveChainId (v : Z) : Z :=
  if big_BitLen v <=? 64 then
    let v := big_Uint64 v in
    if (v =? 27) || (v =? 28) then 0 else u64 (v - 35) / 2
  else (v - 35) / 2.

(** The package-level [SignatureValues]: panics unless given 65 bytes. *)
Definition SignatureValues (sig : bytes) : go (Z * Z * Z) :=
  if negb (length sig =? 65)%nat then Stop Panicked
  else
    let! v := index sig 64 in
    Ret (be_val (take 32 sig), be_val (take 32 (drop 32 sig)),
         be_val [byte_of (byteZ v + 27)]).

Section Signing.
Context `{Crypto} `{Rlp sigpayload}.

Definition address_of_pub (pub : bytes) : Address :=
  default zeroAddress (farray_of 20 (drop 12 (arr (keccak256 (drop 1 pub))))).

Definition recoverPlain (sighash : Hash) (R S Vb : Z) : go (Address * option error) :=
  if 8 <? big_BitLen Vb then Ret (zeroAddress, Some ErrInvalidSig)
  else
    let V := byte_of (u64 (big_Uint64 Vb - 27)) in
    if negb (crypto_ValidateSignatureValues V R S false)
    then Ret (zeroAddress, Some ErrInvalidSig)
    else
      let r := big_Bytes R in
      let s := big_Bytes S in
      if (32 <? length r)%nat || (64 <? length s)%nat then Stop IndexRange
      else
        let sig := replicate 65 Byte.x00 in
        let sig := copy_at sig (32 - length r) r in
        let sig := copy_at sig (64 - length s) s in
        let sig := <[64%nat := V]> sig in
        match crypto_Ecrecover sighash sig with
        | inr err => Ret (zeroAddress, Some err)
        | inl pub =>
            match pub with
            | Byte.x04 :: _ => Ret (address_of_pub pub, None)
            | _ => Ret (zeroAddress, Some (ErrMsg "invalid public key"))
            end
        end.

(** The body of the loop of [EIP155Signer.Sender] for one signature. *)
Definition sender_of_sig (s : EIP155Signer) (txHash : Hash) (sig : Sig)
  : go (Address * option error) :=
  let! v := deref (sig_V sig) in
  if negb (deriveChainId v =? chainId s) then Ret (zeroAddress, Some ErrInvalidChainId)
  else
    let V := v - chainIdMul s - 8 in
    let! R := deref (sig_R sig) in
    let! S' := deref (sig_S sig) in
    recoverPlain txHash R S' V.

Definition EIP155_Hash (s : EIP155Signer) (tx : Transaction) : Hash :=
  rlpHash (mkSigpayload (Ins (tx_data tx)) (Outs (tx_data tx)) (data_Fee (tx_data tx)) (chainId s)).

Definition EIP155_Sender (s : EIP155Signer) (tx : Transaction)
  : go ((Address * Address) * option error) :=
  let txHash := EIP155_Hash s tx in
  let sigs := Sigs (tx_data tx) in
  let! (a1, e1) := sender_of_sig s txHash sigs.1 in
  match e1 with
  | Some _ => Ret ((a1, zeroAddress), e1)
  | None =>
      let! (a2, e2) := sender_of_sig s txHash sigs.2 in
      Ret ((a1, a2), e2)
  end.

Definition EIP155_SignatureValues (s : EIP155Signer) (sig : bytes) : go (Z * Z * Z) :=
  let! (rs, v) := SignatureValues sig in
  if negb (chainId s =? 0) then
    let! b := index sig 64 in
    Ret (rs, byteZ (byte_of (byteZ b + 35)) + chainIdMul s)
  else Ret (rs, v).

Definition EIP155_Equal (s s2 : EIP155Signer) : bool := chainId s2 =? chainId s.

#[export] Instance EIP155_Signer : Signer EIP155Signer := {
  signer_Sender := EIP155_Sender;
  signer_SignatureValues := EIP155_SignatureValues;
  signer_Hash := EIP155_Hash;
  signer_Equal := EIP155_Equal
}.

(** [MakeSigner] ignores the block number; a nil [ChainID] gives chain 0. *)
Definition MakeSigner (config_ChainID : option Z) (blockNumber : option Z) : EIP155Signer :=
  NewEIP155Signer config_ChainID.
End Signing.

Section SignTx.
Context `{Crypto} {G : Type} `{!Signer G}.

Definition emptySignature : bytes := replicate 65 Byte.x00.

(** A fresh transaction (empty caches) with the two signatures in place. *)
Definition WithSignature (tx : Transaction) (signer : G) (sig1 sig2 : bytes) : go Transaction :=
  let! (r1, s1, v1) := signer_SignatureValues signer sig1 in
  let! (r2, s2, v2) := signer_SignatureValues signer sig2 in
  let d := tx_data tx in
  Ret (mkTransaction
         (mkTxdata (Ins d) (Outs d) (data_Fee d)
            (mkSig (Some v1) (Some r1) (Some s1), mkSig (Some v2) (Some r2) (Some s2)))
         None None).

Definition SignTx (tx : Transaction) (s : G) (prv1 : PrivateKey) (prv2 : option PrivateKey)
  : go (Transaction + error) :=
  let h := signer_Hash s tx in
  match crypto_Sign h prv1 with
  | inr err => Ret (inr err)
  | inl sig1 =>
      let second :=
        match prv2 with
        | Some k => crypto_Sign h k
        | None => inl emptySignature
        end in
      match second with
      | inr err => Ret (inr err)
      | inl sig2 => let! tx' := WithSignature tx s sig1 sig2 in Ret (inl tx')
      end
  end.

(** [types.Sender]. *)
Definition Sender (signer : G) (tx : Transaction) : go ((Address * Address) * option error) :=
  signer_Sender signer tx.
End SignTx.

Section UnmarshalJSON.
Context `{Crypto}.

(** The loop of [UnmarshalJSON] over the decoded signatures. *)
Fixpoint json_check_sigs (sigs : list Sig) : go (option error) :=
  match sigs with
  | [] => Ret None
  | s :: sigs =>
      let! v := deref (sig_V s) in
      let chainID := big_Uint64 (deriveChainId v) in
      let V := byte_of (u64 (big_Uint64 v - 35 - 2 * chainID)) in
      let! r := deref (sig_R s) in
      let! s' := deref (sig_S s) in
      if negb (crypto_ValidateSignatureValues V r s' false)
      then Ret (Some ErrInvalidSig)
      else json_check_sigs sigs
  end.

(** [UnmarshalJSON] from the decoded value on: [dec] is what [json.Unmarshal]
    produced. *)
Definition UnmarshalJSON (dec : txdata) : go (Transaction + error) :=
  let! e := json_check_sigs (pair_list (Sigs dec)) in
  match e with
  | Some err => Ret (inr err)
  | None => Ret (inl (mkTransaction dec None None))
  end.
End UnmarshalJSON.

(** * Facts *)

Lemma big_BitLen_small z n : 0 <= n -> big_BitLen z <= n -> Z.abs z < 2 ^ n.
Proof.
  intros Hn Hb. pose proof (big_BitLen_bound z).
  assert (2 ^ big_BitLen z <= 2 ^ n) by (apply Z.pow_le_mono_r; lia). lia.
Qed.

(** EIP-155's [v = 35 + 2 * chain + recid] determines the chain id. *)
Lemma deriveChainId_eip155 c recid :
  0 < c -> recid = 0 \/ recid = 1 -> deriveChainId (35 + recid + c * 2) = c.
Proof.
  intros Hc Hr. unfold deriveChainId.
  destruct (Z.leb_spec (big_BitLen (35 + recid + c * 2)) 64) as [Hb|Hb].
  - apply big_BitLen_small in Hb; [|lia].
    unfold big_Uint64. rewrite Z.abs_eq, !(u64_small (35 + _ + _)) by (unfold is_u64; lia).
    destruct (Z.eqb_spec (35 + recid + c * 2) 27), (Z.eqb_spec (35 + recid + c * 2) 28);
      simpl; try lia.
    rewrite u64_small by (unfold is_u64; lia). dlia.
  - dlia.
Qed.

(** The recovery buffer is the 65-byte signature itself. *)
Lemma recover_buffer (r s : Hash) (v : byte) :
  let rb := big_Bytes (be_val (arr r)) in
  let sb := big_Bytes (be_val (arr s)) in
  (length rb <= 32)%nat /\ (length sb <= 32)%nat /\
  <[64%nat := v]> (copy_at (copy_at (replicate 65 Byte.x00) (32 - length rb) rb)
                     (64 - length sb) sb) = arr r ++ arr s ++ [v].
Proof.
  intros rb sb.
  assert (Hlen : forall h : Hash, (length (big_Bytes (be_val (arr h))) <= 32)%nat).
  { intros h. apply length_big_Bytes_le. pose proof (be_val_nonneg (arr h)).
    pose proof (be_val_bound (arr h)) as Hb. rewrite length_arr in Hb. lia. }
  pose proof (Hlen r : (length rb <= 32)%nat) as Hr.
  pose proof (Hlen s : (length sb <= 32)%nat) as Hs.
  split_and!; [done|done|].
  pose proof (pad_big_Bytes (arr r)) as Er. pose proof (pad_big_Bytes (arr s)) as Es.
  rewrite length_arr in Er, Es. fold rb in Er. fold sb in Es.
  rewrite <- Er, <- Es. clearbody rb sb. clear Er Es Hlen. unfold copy_at.
  rewrite take_replicate, drop_replicate.
  replace (65 - (32 - length rb + length rb))%nat with 33%nat by lia.
  replace ((32 - length rb) `min` 65)%nat with (32 - length rb)%nat by lia.
  rewrite take_app_ge by (rewrite length_replicate; lia).
  rewrite take_app_ge by (rewrite length_replicate; lia).
  rewrite drop_app_ge by (rewrite length_replicate; lia).
  rewrite drop_app_ge by (rewrite length_replicate; lia).
  rewrite !length_replicate, take_replicate, drop_replicate.
  replace ((64 - length sb - (32 - length rb) - length rb) `min` 33)%nat
    with (32 - length sb)%nat by lia.
  replace (33 - (64 - length sb + length sb - (32 - length rb) - length rb))%nat with 1%nat by lia.
  rewrite !insert_app_r_alt by (rewrite ?length_app, ?length_replicate; lia).
  rewrite !length_app, !length_replicate, <- !app_assoc. do 4 f_equal.
  replace (64 - (32 - length rb + (length rb + (32 - length sb))) - length sb)%nat
    with 0%nat by lia.
  done.
Qed.

Section SigningFacts.
Context `{Crypto} `{!CryptoLaws} `{Rlp sigpayload}.

Definition address_of_key (k : PrivateKey) : Address := address_of_pub (FromECDSAPub k).

Lemma recoverPlain_sign h k r s v :
  crypto_Sign h k = inl (arr (r : Hash) ++ arr (s : Hash) ++ [v]) ->
  byteZ v = 0 \/ byteZ v = 1 ->
  crypto_ValidateSignatureValues v (be_val (arr r)) (be_val (arr s)) false = true ->
  recoverPlain h (be_val (arr r)) (be_val (arr s)) (27 + byteZ v) = Ret (address_of_key k, None).
Proof.
  intros Hs Hv Hval. unfold recoverPlain.
  assert (Hb : big_BitLen (27 + byteZ v) <= 8) by (apply big_BitLen_le; lia).
  destruct (Z.ltb_spec 8 (big_BitLen (27 + byteZ v))); [lia|].
  assert (HV : byte_of (u64 (big_Uint64 (27 + byteZ v) - 27)) = v).
  { unfold big_Uint64. rewrite Z.abs_eq, (u64_small (27 + _)) by (unfold is_u64; lia).
    replace (27 + byteZ v - 27) with (byteZ v) by lia.
    rewrite u64_small by (unfold is_u64; lia). apply byte_of_Z. }
  rewrite HV, Hval. cbn [negb].
  destruct (recover_buffer r s v) as (Hlr & Hls & Hbuf). rewrite Hbuf.
  rewrite (proj2 (Nat.ltb_ge _ _)) by lia. rewrite (proj2 (Nat.ltb_ge _ _)) by lia.
  simpl. rewrite (Sign_recover _ _ _ Hs).
  pose proof (FromECDSAPub_head k) as Hp. unfold address_of_key.
  destruct (FromECDSAPub k); simplify_eq/=. done.
Qed.

(** What the EIP-155 signer stores for a fresh signature. *)
Lemma eip155_values c h k sig :
  0 < c -> crypto_Sign h k = inl sig ->
  exists (r s : Hash) v, sig = arr r ++ arr s ++ [v] /\ (byteZ v = 0 \/ byteZ v = 1) /\
    crypto_ValidateSignatureValues v (be_val (arr r)) (be_val (arr s)) false = true /\
    EIP155_SignatureValues (NewEIP155Signer (Some c)) sig =
      Ret (be_val (arr r), be_val (arr s), 35 + byteZ v + c * 2).
Proof.
  intros Hc Hs. destruct (Sign_shape _ _ _ Hs) as (r & s & v & -> & Hv & Hval).
  exists r, s, v. split_and!; [done|done|done|].
  unfold EIP155_SignatureValues, SignatureValues.
  rewrite !length_app, !length_arr. simpl.
  unfold index. rewrite lookup_app_r, length_arr by (rewrite length_arr; lia).
  rewrite lookup_app_r, length_arr by (rewrite length_arr; lia). simpl.
  rewrite take_app_length' by (by rewrite length_arr).
  rewrite drop_app_length' by (by rewrite length_arr).
  rewrite take_app_length' by (by rewrite length_arr).
  destruct (Z.eqb_spec c 0); [lia|]. simpl.
  rewrite byteZ_of, (Z.mod_small (byteZ v + 35)) by lia. do 2 f_equal. lia.
Qed.

(** The sender recovered from it is the signing key's address, and [UnmarshalJSON]
    lets it pass. *)
Lemma eip155_sign_one c h k sig :
  0 < c -> crypto_Sign h k = inl sig ->
  exists r s v, EIP155_SignatureValues (NewEIP155Signer (Some c)) sig = Ret (r, s, v) /\
    sender_of_sig (NewEIP155Signer (Some c)) h (mkSig (Some v) (Some r) (Some s)) =
    Ret (address_of_key k, None).
Proof.
  intros Hc Hs. destruct (eip155_values c h k sig Hc Hs) as (r & s & v & -> & Hv & Hval & E).
  do 3 eexists. split; [done|].
  unfold sender_of_sig. simpl. rewrite deriveChainId_eip155, Z.eqb_refl by done. simpl.
  replace (35 + byteZ v + c * 2 - c * 2 - 8) with (27 + byteZ v) by lia.
  by apply recoverPlain_sign.
Qed.

Lemma json_check_signed c h k sig r s v sigs :
  0 < c < 2 ^ 64 -> crypto_Sign h k = inl sig ->
  EIP155_SignatureValues (NewEIP155Signer (Some c)) sig = Ret (r, s, v) ->
  json_check_sigs (mkSig (Some v) (Some r) (Some s) :: sigs) = json_check_sigs sigs.
Proof.
  intros Hc Hs E. destruct (eip155_values c h k sig ltac:(lia) Hs) as (r' & s' & v' & -> & Hv & Hval & E').
  rewrite E' in E. injection E as <- <- <-. cbn [json_check_sigs deref gbind sig_V sig_R sig_S].
  rewrite deriveChainId_eip155 by lia. unfold big_Uint64. rewrite !Z.abs_eq by lia.
  rewrite (u64_small c) by (unfold is_u64; lia).
  replace (u64 (u64 (35 + byteZ v' + c * 2) - 35 - 2 * c)) with (byteZ v').
  { rewrite byte_of_Z, Hval. done. }
  unfold u64. rewrite <- Z.sub_add_distr, Zminus_mod_idemp_l.
  replace (35 + byteZ v' + c * 2 - (35 + 2 * c)) with (byteZ v') by lia.
  rewrite Z.mod_small; lia.
Qed.

(** Signing does not change what is hashed. *)
Lemma EIP155_Hash_WithSignature (sg : EIP155Signer) tx sig1 sig2 tx' :
  WithSignature tx sg sig1 sig2 = Ret tx' ->
  EIP155_Hash sg tx' = EIP155_Hash sg tx /\
  Ins (tx_data tx') = Ins (tx_data tx) /\ Outs (tx_data tx') = Outs (tx_data tx) /\
  data_Fee (tx_data tx') = data_Fee (tx_data tx).
Proof.
  unfold WithSignature. intros Hw. go_inv Hw. done.
Qed.

Lemma SignTx_inv (sg : EIP155Signer) tx k1 k2 tx' :
  SignTx tx sg k1 (Some k2) = Ret (inl tx') ->
  exists sig1 sig2, crypto_Sign (EIP155_Hash sg tx) k1 = inl sig1 /\
    crypto_Sign (EIP155_Hash sg tx) k2 = inl sig2 /\ WithSignature tx sg sig1 sig2 = Ret tx'.
Proof.
  unfold SignTx. simpl. intros Hs. repeat case_match; simplify_eq/=. go_inv Hs. eauto.
Qed.

(** A transaction signed by [SignTx] survives [UnmarshalJSON] unchanged. *)
Lemma UnmarshalJSON_signed c tx k1 k2 tx' :
  0 < c < 2 ^ 64 -> SignTx tx (NewEIP155Signer (Some c)) k1 (Some k2) = Ret (inl tx') ->
  UnmarshalJSON (tx_data tx') = Ret (inl tx').
Proof.
  intros Hc Hs. apply SignTx_inv in Hs as (sig1 & sig2 & Hk1 & Hk2 & Hw).
  unfold WithSignature in Hw. cbn [signer_SignatureValues EIP155_Signer] in Hw.
  apply gbind_Ret in Hw as ([[r1 s1] v1] & E1 & Hw). apply gbind_Ret in Hw as ([[r2 s2] v2] & E2 & Hw).
  injection Hw as <-. unfold UnmarshalJSON, pair_list. cbn [tx_data Sigs fst snd].
  rewrite (json_check_signed c _ _ _ _ _ _ _ Hc Hk1 E1), (json_check_signed c _ _ _ _ _ _ _ Hc Hk2 E2).
  done.
Qed.

(** Two keys sign, and their addresses are recovered. *)
Lemma Sender_signed c tx k1 k2 tx' :
  0 < c -> SignTx tx (NewEIP155Signer (Some c)) k1 (Some k2) = Ret (inl tx') ->
  Sender (NewEIP155Signer (Some c)) tx' = Ret ((address_of_key k1, address_of_key k2), None).
Proof.
  intros Hc Hs. apply SignTx_inv in Hs as (sig1 & sig2 & Hk1 & Hk2 & Hw).
  destruct (EIP155_Hash_WithSignature _ _ _ _ _ Hw) as (Hh & _).
  destruct (eip155_sign_one c _ _ _ Hc Hk1) as (r1 & s1 & v1 & Hv1 & Ha1).
  destruct (eip155_sign_one c _ _ _ Hc Hk2) as (r2 & s2 & v2 & Hv2 & Ha2).
  unfold Sender. simpl. unfold EIP155_Sender. rewrite Hh.
  unfold WithSignature in Hw. simpl in Hw. rewrite Hv1, Hv2 in Hw. simplify_eq/=.
  rewrite Ha1. simpl. by rewrite Ha2.
Qed.

(** C29. On a chain with a positive id, [Sender] of a transaction signed by
    [SignTx] with two keys recovers exactly the two keys' addresses. *)
Theorem sign_then_sender c tx k1 k2 tx' :
  0 < c -> SignTx tx (NewEIP155Signer (Some c)) k1 (Some k2) = Ret (inl tx') ->
  Sender (NewEIP155Signer (Some c)) tx' = Ret ((address_of_key k1, address_of_key k2), None).
Proof. apply Sender_signed. Qed.

(** On chain 0 the stored [v] is 27 or 28, the recovered recid is -8 mod 256,
    and no signature is accepted. *)
Lemma recover_chain0 h (sig : Sig) v r s :
  sig = mkSig (Some (27 + v)) (Some r) (Some s) -> v = 0 \/ v = 1 ->
  sender_of_sig (NewEIP155Signer (Some 0)) h sig = Ret (zeroAddress, Some ErrInvalidSig).
Proof.
  intros -> Hv. unfold sender_of_sig, recoverPlain. simpl.
  set (val := crypto_ValidateSignatureValues _ _ _ _).
  assert (val = false) as ->.
  { destruct val eqn:E; [|done]. apply Validate_recid in E.
    destruct Hv as [-> | ->]; vm_compute in E; destruct E; discriminate. }
  destruct Hv as [-> | ->]; reflexivity.
Qed.

(** With chain id 0 (a nil [ChainID] in the configuration) no transaction
    signed by [SignTx] is ever accepted: [Sender] answers [ErrInvalidSig]. *)
Lemma chain0_never_accepts tx k1 k2 tx' :
  SignTx tx (NewEIP155Signer (Some 0)) k1 (Some k2) = Ret (inl tx') ->
  Sender (NewEIP155Signer (Some 0)) tx' = Ret ((zeroAddress, zeroAddress), Some ErrInvalidSig).
Proof.
  intros Hs. apply SignTx_inv in Hs as (sig1 & sig2 & Hk1 & _ & Hw).
  destruct (Sign_shape _ _ _ Hk1) as (r & s & v & -> & Hv & _).
  unfold WithSignature in Hw. cbn [signer_SignatureValues EIP155_Signer] in Hw.
  unfold EIP155_SignatureValues at 1, SignatureValues at 1 in Hw.
  rewrite !length_app, !length_arr in Hw. cbn in Hw.
  unfold index in Hw. rewrite lookup_app_r, length_arr in Hw by (rewrite length_arr; lia).
  rewrite lookup_app_r, length_arr in Hw by (rewrite length_arr; lia). cbn in Hw.
  apply gbind_Ret in Hw as ([[r2 s2] v2] & _ & Hw). injection Hw as <-.
  unfold Sender. cbn [signer_Sender EIP155_Signer]. unfold EIP155_Sender. cbn [tx_data Sigs fst].
  erewrite recover_chain0 with (v := byteZ v); [done| |done].
  f_equal. f_equal. unfold be_val. cbn [fold_left]. rewrite byteZ_of, Z.mod_small by lia. lia.
Qed.
End SigningFacts.
