(* ===== verification/Store.v ===== *)
(** store/: the database interface (interfaces.go, core/rawdb/interfaces.go), its
    LevelDB implementation with batched transactions (database.go) and the
    in-memory test database (memory_database.go), against one abstract
    transactional store. *)

From S2P Require Import Prelude.
#[local] Open Scope Z_scope.

(** * The interfaces *)

Class DatabaseReader (D : Type) : Type := {
  db_Has : D -> bytes -> bool * option error;
  db_Get : D -> bytes -> bytes * option error    (* a nil slice is [] *)
}.
Class DatabaseWriter (D : Type) : Type := {
  db_Put : D -> bytes -> bytes -> D * option error
}.
Class DatabaseDeleter (D : Type) : Type := {
  db_Delete : D -> bytes -> D * option error
}.
Class Database (D : Type) : Type := {
  #[global] Database_Reader :: DatabaseReader D;
  #[global] Database_Writer :: DatabaseWriter D;
  #[global] Database_Deleter :: DatabaseDeleter D;
  db_BeginTx : D -> D * bool;
  db_RollbackTx : D -> D * option error;
  db_CommitTx : D -> D * option error
}.

(** * The abstract transactional store *)

Inductive wop : Type := WPut (k v : bytes) | WDel (k : bytes).

Definition apply_wop (m : gmap bytes bytes) (o : wop) : gmap bytes bytes :=
  match o with WPut k v => <[k := v]> m | WDel k => delete k m end.

Definition apply_wops (ops : list wop) (m : gmap bytes bytes) : gmap bytes bytes :=
  fold_left apply_wop ops m.

(** Reads see [committed]; writes are queued while a transaction is open. *)
Record txstore : Type := mkTxstore {
  committed : gmap bytes bytes;
  pending : option (list wop)
}.

Definition ts_write (s : txstore) (o : wop) : txstore :=
  match pending s with
  | Some ops => mkTxstore (committed s) (Some (ops ++ [o]))
  | None => mkTxstore (apply_wop (committed s) o) None
  end.

(** What the store holds once the open transaction, if any, is committed. *)
Definition eventual (s : txstore) : gmap bytes bytes :=
  apply_wops (default [] (pending s)) (committed s).

Lemma apply_wops_app ops1 ops2 m :
  apply_wops (ops1 ++ ops2) m = apply_wops ops2 (apply_wops ops1 m).
Proof. apply fold_left_app. Qed.

Lemma eventual_write s o : eventual (ts_write s o) = apply_wop (eventual s) o.
Proof.
  unfold eventual, ts_write. destruct s as [m [ops|]]; simpl; [|done].
  by rewrite apply_wops_app.
Qed.

Lemma pending_write s o : is_Some (pending (ts_write s o)) <-> is_Some (pending s).
Proof. unfold ts_write. destruct s as [m [ops|]]; simpl; naive_solver. Qed.

Lemma committed_write s o : is_Some (pending s) -> committed (ts_write s o) = committed s.
Proof. unfold ts_write. by intros [ops ->]. Qed.

(** * What an implementation promises *)

(** [db_abs] maps the implementation's state to the abstract one; a write that
    reports an error changes nothing, and a write inside a transaction never
    does. *)
Class ReadSpec (D : Type) `{DatabaseReader D} (abs : D -> txstore) (inv : D -> Prop) : Prop := {
  spec_Get d k : inv d ->
    db_Get d k = match committed (abs d) !! k with
                 | Some v => (v, None)
                 | None => ([], (db_Get d k).2)
                 end /\ (committed (abs d) !! k = None -> (db_Get d k).2 <> None);
  spec_Has d k : inv d -> db_Has d k = (bool_decide (is_Some (committed (abs d) !! k)), None)
}.

Definition refines_write {D} (abs : D -> txstore) (inv : D -> Prop) (d : D) (o : wop)
    (r : D * option error) : Prop :=
  inv r.1 /\
  match r.2 with
  | None => abs r.1 = ts_write (abs d) o
  | Some _ => abs r.1 = abs d /\ pending (abs d) = None
  end.

Class WriteSpec (D : Type) `{DatabaseWriter D} (abs : D -> txstore) (inv : D -> Prop) : Prop := {
  spec_Put d k v : inv d -> refines_write abs inv d (WPut k v) (db_Put d k v)
}.
Class DeleteSpec (D : Type) `{DatabaseDeleter D} (abs : D -> txstore) (inv : D -> Prop) : Prop := {
  spec_Delete d k : inv d -> refines_write abs inv d (WDel k) (db_Delete d k)
}.

Class DatabaseSpec (D : Type) `{Database D} (abs : D -> txstore) (inv : D -> Prop) : Prop := {
  #[global] spec_read :: ReadSpec D abs inv;
  #[global] spec_write :: WriteSpec D abs inv;
  #[global] spec_delete :: DeleteSpec D abs inv;
  spec_BeginTx d : inv d ->
    inv (db_BeginTx d).1 /\
    match pending (abs d) with
    | Some _ => db_BeginTx d = (d, false)
    | None => (db_BeginTx d).2 = true /\
              abs (db_BeginTx d).1 = mkTxstore (committed (abs d)) (Some [])
    end;
  spec_RollbackTx d : inv d ->
    inv (db_RollbackTx d).1 /\
    match pending (abs d) with
    | Some _ => (db_RollbackTx d).2 = None /\
                abs (db_RollbackTx d).1 = mkTxstore (committed (abs d)) None
    | None => (db_RollbackTx d).2 <> None /\ (db_RollbackTx d).1 = d
    end;
  spec_CommitTx d : inv d ->
    inv (db_CommitTx d).1 /\
    match pending (abs d), (db_CommitTx d).2 with
    | Some _, None => abs (db_CommitTx d).1 = mkTxstore (eventual (abs d)) None
    | _, Some _ => abs (db_CommitTx d).1 = abs d
    | None, None => False
    end
}.

(** * LevelDB *)

(** goleveldb: a handle of type [L] and a [Batch] of type [B]. *)
Class LevelDB (L B : Type) : Type := {
  ldb_Put : L -> bytes -> bytes -> L * option error;
  ldb_Get : L -> bytes -> bytes + error;
  ldb_Has : L -> bytes -> bool * option error;
  ldb_Delete : L -> bytes -> L * option error;
  ldb_Write : L -> B -> L * option error;
  ldb_Close : L -> L * option error;
  batch_new : B;
  batch_Put : B -> bytes -> bytes -> B;
  batch_Delete : B -> bytes -> B;
  batch_Reset : B -> B
}.

(** The library's documentation: a handle is a map from keys to values, [Get] on a
    missing key is an error, a failed write changes nothing, and [Write] replays
    the batch in order. Read failures of the disk are outside the contract. *)
Class LevelDBLaws (L B : Type) `{LevelDB L B} (view : L -> gmap bytes bytes)
    (ops : B -> list wop) : Prop := {
  ldb_Put_view l k v : view (ldb_Put l k v).1 =
    match (ldb_Put l k v).2 with None => <[k := v]> (view l) | Some _ => view l end;
  ldb_Get_view l k v : view l !! k = Some v -> ldb_Get l k = inl v;
  ldb_Get_missing l k : view l !! k = None -> exists e, ldb_Get l k = inr e;
  ldb_Has_view l k : ldb_Has l k = (bool_decide (is_Some (view l !! k)), None);
  ldb_Delete_view l k : view (ldb_Delete l k).1 =
    match (ldb_Delete l k).2 with None => delete k (view l) | Some _ => view l end;
  ldb_Write_view l b : view (ldb_Write l b).1 =
    match (ldb_Write l b).2 with None => apply_wops (ops b) (view l) | Some _ => view l end;
  batch_new_ops : ops batch_new = [];
  batch_Put_ops b k v : ops (batch_Put b k v) = ops b ++ [WPut k v];
  batch_Delete_ops b k : ops (batch_Delete b k) = ops b ++ [WDel k];
  batch_Reset_ops b : ops (batch_Reset b) = []
}.

(** [batch] is nil or points to the package variable [defaultBatch], which every
    [LDBDatabase] shares: the operations take that variable as their first
    argument and return it. *)
Record LDBDatabase (L : Type) : Type := mkLDB {
  ldb_fn : string;
  ldb_db : L;
  ldb_batch : bool
}.
Arguments mkLDB {L} _ _ _.
Arguments ldb_fn {L} _.
Arguments ldb_db {L} _.
Arguments ldb_batch {L} _.

Record ldb_Options : Type := mkOptions {
  OpenFilesCacheCapacity : Z;
  BlockCacheCapacity : Z;
  WriteBuffer : Z
}.

Section LDB.
Context {L B : Type} `{LevelDB L B}.

Definition MiB : Z := 1024 * 1024.

(** [NewLDBDatabase]: clamps the cache sizes, opens, and recovers a corrupted
    file. [OpenFile], [RecoverFile] and the error's type test are the library's. *)
Definition NewLDBDatabase (OpenFile : string -> ldb_Options -> L + error)
    (RecoverFile : string -> L + error) (isErrCorrupted : error -> bool)
    (file : string) (cache handles : Z) : LDBDatabase L + error :=
  let cache := if cache <? 16 then 16 else cache in
  let handles := if handles <? 16 then 16 else handles in
  let opened := OpenFile file (mkOptions handles (cache / 2 * MiB) (cache / 4 * MiB)) in
  let opened :=
    match opened with
    | inr err => if isErrCorrupted err then RecoverFile file else inr err
    | inl db => inl db
    end in
  match opened with
  | inr err => inr err
  | inl db => inl (mkLDB file db false)
  end.

Definition LDB_Path (d : LDBDatabase L) : string := ldb_fn d.

Definition LDB_Put (g : B) (d : LDBDatabase L) (key value : bytes)
  : B * LDBDatabase L * option error :=
  if ldb_batch d then (batch_Put g key value, d, None)
  else let (db, e) := ldb_Put (ldb_db d) key value in
       (g, mkLDB (ldb_fn d) db (ldb_batch d), e).

Definition LDB_Has (d : LDBDatabase L) (key : bytes) : bool * option error :=
  ldb_Has (ldb_db d) key.

Definition LDB_Get (d : LDBDatabase L) (key : bytes) : bytes * option error :=
  match ldb_Get (ldb_db d) key with
  | inl dat => (dat, None)
  | inr err => ([], Some err)
  end.

Definition LDB_Delete (g : B) (d : LDBDatabase L) (key : bytes)
  : B * LDBDatabase L * option error :=
  if ldb_batch d then (batch_Delete g key, d, None)
  else let (db, e) := ldb_Delete (ldb_db d) key in
       (g, mkLDB (ldb_fn d) db (ldb_batch d), e).

Definition LDB_BeginTx (d : LDBDatabase L) : LDBDatabase L * bool :=
  if ldb_batch d then (d, false)
  else (mkLDB (ldb_fn d) (ldb_db d) true, true).

Definition LDB_resetTx (g : B) (d : LDBDatabase L) : B * LDBDatabase L :=
  (batch_Reset g, mkLDB (ldb_fn d) (ldb_db d) false).

Definition errNoOpenTx : error := ErrMsg "there is no open db tx".

Definition LDB_CommitTx (g : B) (d : LDBDatabase L) : B * LDBDatabase L * option error :=
  if negb (ldb_batch d) then (g, d, Some errNoOpenTx)
  else
    let (db, e) := ldb_Write (ldb_db d) g in
    let d := mkLDB (ldb_fn d) db (ldb_batch d) in
    match e with
    | Some _ => (g, d, e)
    | None => (LDB_resetTx g d, None)
    end.

Definition LDB_RollbackTx (g : B) (d : LDBDatabase L) : B * LDBDatabase L * option error :=
  if negb (ldb_batch d) then (g, d, Some errNoOpenTx)
  else (LDB_resetTx g d, None).

(** [Close]: roll back, then close the handle; the metrics channel [quitChan] is
    never set in this repository. *)
Definition LDB_Close (g : B) (d : LDBDatabase L) : B * LDBDatabase L :=
  let '(g, d, _) := LDB_RollbackTx g d in
  (g, mkLDB (ldb_fn d) (ldb_Close (ldb_db d)).1 (ldb_batch d)).

#[export] Instance LDB_Database : Database (B * LDBDatabase L) := {
  Database_Reader := {|
    db_Has := fun w k => LDB_Has w.2 k;
    db_Get := fun w k => LDB_Get w.2 k |};
  Database_Writer := {| db_Put := fun w k v => LDB_Put w.1 w.2 k v |};
  Database_Deleter := {| db_Delete := fun w k => LDB_Delete w.1 w.2 k |};
  db_BeginTx := fun w => let (d, b) := LDB_BeginTx w.2 in ((w.1, d), b);
  db_RollbackTx := fun w => LDB_RollbackTx w.1 w.2;
  db_CommitTx := fun w => LDB_CommitTx w.1 w.2
}.
End LDB.

(** * The in-memory database *)

(** A Go map behind a mutex; it has no transactions, so it is not a [Database]. *)
Record MemDatabase : Type := mkMem { mem_db : gmap bytes bytes }.

Definition NewMemDatabase : MemDatabase := mkMem ∅.
Definition NewMemDatabaseWithCap (size : Z) : MemDatabase := mkMem ∅.
Definition Mem_Put (d : MemDatabase) (key value : bytes) : MemDatabase * option error :=
  (mkMem (<[key := value]> (mem_db d)), None).
Definition Mem_Has (d : MemDatabase) (key : bytes) : bool * option error :=
  (bool_decide (is_Some (mem_db d !! key)), None).
Definition Mem_Get (d : MemDatabase) (key : bytes) : bytes * option error :=
  match mem_db d !! key with
  | Some entry => (entry, None)
  | None => ([], Some (ErrMsg "not found"))
  end.
Definition Mem_Delete (d : MemDatabase) (key : bytes) : MemDatabase * option error :=
  (mkMem (delete key (mem_db d)), None).
Definition Mem_Keys (d : MemDatabase) : list bytes := (map_to_list (mem_db d)).*1.

#[export] Instance Mem_Reader : DatabaseReader MemDatabase :=
  {| db_Has := Mem_Has; db_Get := Mem_Get |}.
#[export] Instance Mem_Writer : DatabaseWriter MemDatabase := {| db_Put := Mem_Put |}.
#[export] Instance Mem_Deleter : DatabaseDeleter MemDatabase := {| db_Delete := Mem_Delete |}.

Definition mem_abs (d : MemDatabase) : txstore := mkTxstore (mem_db d) None.
Definition mem_inv (d : MemDatabase) : Prop := True.

#[export] Instance Mem_ReadSpec : ReadSpec MemDatabase mem_abs mem_inv.
Proof.
  split; [|done]. intros d k _. simpl. unfold Mem_Get. by destruct (mem_db d !! k).
Qed.
#[export] Instance Mem_WriteSpec : WriteSpec MemDatabase mem_abs mem_inv.
Proof. by split. Qed.
#[export] Instance Mem_DeleteSpec : DeleteSpec MemDatabase mem_abs mem_inv.
Proof. by split. Qed.

(** * The LevelDB store refines the abstract one *)

Section LDBRefinement.
Context {L B : Type} `{LevelDB L B}
  (view : L -> gmap bytes bytes) (ops : B -> list wop) `{!LevelDBLaws L B view ops}.

Definition ldb_abs (w : B * LDBDatabase L) : txstore :=
  mkTxstore (view (ldb_db w.2)) (if ldb_batch w.2 then Some (ops w.1) else None).

(** With no transaction open the shared batch is empty. *)
Definition ldb_inv (w : B * LDBDatabase L) : Prop :=
  ldb_batch w.2 = false -> ops w.1 = [].

Lemma ldb_write_refines (w : B * LDBDatabase L) o g' r :
  ldb_inv w -> ops g' = ops w.1 ++ [o] ->
  view r.1 = match r.2 with
             | None => apply_wop (view (ldb_db w.2)) o
             | Some _ => view (ldb_db w.2)
             end ->
  refines_write ldb_abs ldb_inv w o
    (if ldb_batch w.2 then (g', w.2, None)
     else let (db, e) := r in (w.1, mkLDB (ldb_fn w.2) db (ldb_batch w.2), e)).
Proof.
  destruct w as [g [f l b]], r as [db e]. unfold refines_write, ldb_inv, ldb_abs. simpl.
  intros Hinv Hg Hr. destruct b; simpl.
  - split; [done|]. unfold ts_write. simpl. by rewrite Hg.
  - split; [done|]. unfold ts_write. simpl. destruct e; [by rewrite Hr|]. by rewrite Hr.
Qed.

Lemma ldb_refines : DatabaseSpec (B * LDBDatabase L) ldb_abs ldb_inv.
Proof.
  split.
  - split.
    + intros [g [f l b]] k _. simpl. unfold LDB_Get. simpl.
      destruct (view l !! k) as [v|] eqn:E.
      * by rewrite (ldb_Get_view _ _ _ E).
      * destruct (ldb_Get_missing _ _ E) as [e ->]. done.
    + intros [g d] k _. exact (ldb_Has_view (view := view) (ldb_db d) k).
  - split. intros w k v Hw.
    apply (ldb_write_refines w (WPut k v) _ (ldb_Put (ldb_db w.2) k v) Hw);
      [apply batch_Put_ops|apply ldb_Put_view].
  - split. intros w k Hw.
    apply (ldb_write_refines w (WDel k) _ (ldb_Delete (ldb_db w.2) k) Hw);
      [apply batch_Delete_ops|apply ldb_Delete_view].
  - intros [g [f l b]] Hinv. unfold ldb_inv, ldb_abs in *. simpl in *.
    unfold LDB_BeginTx. simpl. destruct b; simpl; [done|]. by rewrite Hinv.
  - intros [g [f l b]] Hinv. unfold ldb_inv, ldb_abs in *. simpl in *.
    unfold LDB_RollbackTx. simpl. destruct b; simpl; [|done].
    split; [intros _; apply batch_Reset_ops|done].
  - intros [g [f l b]] Hinv. unfold ldb_inv, ldb_abs, eventual in *. simpl in *.
    unfold LDB_CommitTx. simpl. destruct b; simpl; [|done].
    pose proof (ldb_Write_view l g) as Hw. destruct (ldb_Write l g) as [l' [e|]]; simpl in *.
    + split; [done|]. by rewrite Hw.
    + split; [intros _; apply batch_Reset_ops|]. by rewrite Hw.
Qed.

(** C13. [LDBDatabase] with its batch refines the abstract transactional store:
    reads see the committed state, writes outside a transaction act at once,
    writes inside one are queued and never fail, [CommitTx] applies them
    atomically or leaves everything in place, [RollbackTx] drops them, and a
    second [BeginTx] is refused. *)
Theorem leveldb_refines_txstore : DatabaseSpec (B * LDBDatabase L) ldb_abs ldb_inv.
Proof. exact ldb_refines. Qed.

(** Two open [LDBDatabase]s share the package variable [defaultBatch]: a
    write queued by the first is committed into the second one's file, and the
    first one's own commit then writes nothing. *)
Theorem shared_batch_leaks (g : B) (d1 d2 : LDBDatabase L) k v :
  ops g = [] -> ldb_batch d1 = false -> ldb_batch d2 = false ->
  let d1 := (LDB_BeginTx d1).1 in
  let d2 := (LDB_BeginTx d2).1 in
  let '(g, d1, e1) := LDB_Put g d1 k v in
  let '(g, d2, e2) := LDB_CommitTx g d2 in
  e1 = None /\
  (e2 = None -> view (ldb_db d2) !! k = Some v /\
     let '(_, d1', e3) := LDB_CommitTx g d1 in e3 = None -> view (ldb_db d1') = view (ldb_db d1)).
Proof.
  destruct d1 as [f1 l1 b1], d2 as [f2 l2 b2]. simpl. intros Hg -> ->. cbn.
  unfold LDB_CommitTx. cbn. pose proof (ldb_Write_view l2 (batch_Put g k v)) as Hw.
  destruct (ldb_Write l2 (batch_Put g k v)) as [l2' [e|]]; cbn in *; [done|].
  split; [done|]. intros _. rewrite Hw, batch_Put_ops, Hg. cbn. split; [apply lookup_insert_eq|].
  pose proof (ldb_Write_view l1 (batch_Reset (batch_Put g k v))) as Hw1.
  destruct (ldb_Write l1 _) as [l1' [e|]]; cbn in *; [done|]. intros _. by rewrite Hw1, batch_Reset_ops.
Qed.
End LDBRefinement.
