(* ===== verification/Schema.v ===== *)
(** core/rawdb/schema.go: the keys of the database, and that no two of them
    collide. The bare keys of core/rootchain.go share the same database and are
    included. *)

From S2P Require Import Prelude Types.
#[local] Open Scope Z_scope.

(** [[]byte("...")]. *)
Definition bytes_of (s : string) : bytes := String.list_byte_of_string s.

Definition databaseVerisionKey : bytes := Eval cbv in bytes_of "DatabaseVersion".
Definition headHeaderKey : bytes := Eval cbv in bytes_of "LastHeader".
Definition headBlockKey : bytes := Eval cbv in bytes_of "LastBlock".
Definition headFastBlockKey : bytes := Eval cbv in bytes_of "LastFast".
Definition fastTrieProgressKey : bytes := Eval cbv in bytes_of "TrieSync".

Definition headerPrefix : bytes := Eval cbv in bytes_of "h".
Definition headerTDSuffix : bytes := Eval cbv in bytes_of "t".
Definition headerHashSuffix : bytes := Eval cbv in bytes_of "n".
Definition headerNumberPrefix : bytes := Eval cbv in bytes_of "H".
Definition blockBodyPrefix : bytes := Eval cbv in bytes_of "b".
Definition blockReceiptsPrefix : bytes := Eval cbv in bytes_of "r".
Definition txLookupPrefix : bytes := Eval cbv in bytes_of "l".
Definition bloomBitsPrefix : bytes := Eval cbv in bytes_of "B".
Definition preimagePrefix : bytes := Eval cbv in bytes_of "secure-key-".
Definition configPrefix : bytes := Eval cbv in bytes_of "ethereum-config-".
Definition utxoPrefix : bytes := Eval cbv in bytes_of "c".

(** core/rootchain.go. *)
Definition FromBlockKey : bytes := Eval cbv in bytes_of "RootChain.FromBlock".

Definition encodeBlockNumber (number : Z) : bytes := be_put 8 number.

Definition headerKey (number : Z) (hash : Hash) : bytes :=
  (headerPrefix ++ encodeBlockNumber number) ++ arr hash.
Definition headerTDKey (number : Z) (hash : Hash) : bytes :=
  headerKey number hash ++ headerTDSuffix.
Definition headerHashKey (number : Z) : bytes :=
  (headerPrefix ++ encodeBlockNumber number) ++ headerHashSuffix.
Definition headerNumberKey (hash : Hash) : bytes := headerNumberPrefix ++ arr hash.
Definition blockBodyKey (number : Z) (hash : Hash) : bytes :=
  (blockBodyPrefix ++ encodeBlockNumber number) ++ arr hash.
Definition blockReceiptsKey (number : Z) (hash : Hash) : bytes :=
  (blockReceiptsPrefix ++ encodeBlockNumber number) ++ arr hash.
Definition txLookupKey (hash : Hash) : bytes := txLookupPrefix ++ arr hash.

(** [utxoKey] allocates the key and writes the three fields in place. *)
Definition utxoKey (blockNum txIdx : Z) (outIdx : byte) : bytes :=
  let key := utxoPrefix ++ replicate 13 Byte.x00 in
  let key := copy_at key 1 (be_put 8 blockNum) in
  let key := copy_at key 9 (be_put 4 txIdx) in
  <[13%nat := outIdx]> key.

Definition bloomBitsKey (bit section : Z) (hash : Hash) : bytes :=
  let key := (bloomBitsPrefix ++ replicate 10 Byte.x00) ++ arr hash in
  let key := copy_at key 1 (be_put 2 bit) in
  copy_at key 3 (be_put 8 section).

Definition preimageKey (hash : Hash) : bytes := preimagePrefix ++ arr hash.
Definition configKey (hash : Hash) : bytes := configPrefix ++ arr hash.

(** * Every key of the database *)

Inductive dbkey : Type :=
| KVersion | KHeadHeader | KHeadBlock | KHeadFastBlock | KTrieProgress | KFromBlock
| KHeader (n : Z) (h : Hash)
| KHeaderTD (n : Z) (h : Hash)
| KCanonical (n : Z)
| KHeaderNumber (h : Hash)
| KBody (n : Z) (h : Hash)
| KReceipts (n : Z) (h : Hash)
| KTxLookup (h : Hash)
| KUtxo (id : UTXOID)
| KBloomBits (bit section : Z) (h : Hash)
| KPreimage (h : Hash)
| KConfig (h : Hash)
| KEvent (md5 : farray 16).   (* core/rootchain.go hashEvent *)

Definition key_of (k : dbkey) : bytes :=
  match k with
  | KVersion => databaseVerisionKey
  | KHeadHeader => headHeaderKey
  | KHeadBlock => headBlockKey
  | KHeadFastBlock => headFastBlockKey
  | KTrieProgress => fastTrieProgressKey
  | KFromBlock => FromBlockKey
  | KHeader n h => headerKey n h
  | KHeaderTD n h => headerTDKey n h
  | KCanonical n => headerHashKey n
  | KHeaderNumber h => headerNumberKey h
  | KBody n h => blockBodyKey n h
  | KReceipts n h => blockReceiptsKey n h
  | KTxLookup h => txLookupKey h
  | KUtxo id => utxoKey (BlockNum id) (TxIndex id) (OutIndex id)
  | KBloomBits b s h => bloomBitsKey b s h
  | KPreimage h => preimageKey h
  | KConfig h => configKey h
  | KEvent m => arr m
  end.

(** The arguments have the widths of their Go types; [bloomBitsKey] truncates its
    [uint] bit to 16 bits, so the bit is kept below that. *)
Definition key_ok (k : dbkey) : Prop :=
  match k with
  | KHeader n _ | KHeaderTD n _ | KCanonical n | KBody n _ | KReceipts n _ => is_u64 n
  | KUtxo id => is_u64 (BlockNum id) /\ is_u32 (TxIndex id)
  | KBloomBits b s _ => 0 <= b < 2 ^ 16 /\ is_u64 s
  | _ => True
  end.

(** * Injectivity *)

(** Name the elements of a list of known length. *)
Ltac explode l n :=
  lazymatch n with
  | O => destruct l; [|discriminate]
  | S ?m =>
      let x := fresh "x" in let t := fresh "t" in
      destruct l as [|x t]; [discriminate|]; explode t m
  end.

Lemma utxoKey_layout b t o :
  utxoKey b t o = utxoPrefix ++ be_put 8 b ++ be_put 4 t ++ [o].
Proof.
  unfold utxoKey. pose proof (length_be_put 8 b). pose proof (length_be_put 4 t).
  generalize dependent (be_put 8 b). generalize dependent (be_put 4 t). intros l4 H4 l8 H8.
  explode l4 4%nat. explode l8 8%nat. reflexivity.
Qed.

Lemma bloomBitsKey_layout b s h :
  bloomBitsKey b s h = bloomBitsPrefix ++ be_put 2 b ++ be_put 8 s ++ arr h.
Proof.
  unfold bloomBitsKey. pose proof (length_be_put 2 b). pose proof (length_be_put 8 s).
  generalize dependent (be_put 2 b). generalize dependent (be_put 8 s). intros l8 H8 l2 H2.
  explode l8 8%nat. explode l2 2%nat. reflexivity.
Qed.

Lemma be_put_app_inj n a b (l1 l2 : bytes) :
  0 <= a < 256 ^ Z.of_nat n -> 0 <= b < 256 ^ Z.of_nat n ->
  be_put n a ++ l1 = be_put n b ++ l2 -> a = b /\ l1 = l2.
Proof.
  intros Ha Hb E. apply app_inj_1 in E as [E ->]; [|by rewrite !length_be_put].
  split; [|done]. by eapply be_put_inj.
Qed.

Lemma key_lengths k :
  length (key_of k) =
  match k with
  | KVersion => 15 | KHeadHeader => 10 | KHeadBlock => 9 | KHeadFastBlock => 8
  | KTrieProgress => 8 | KFromBlock => 19
  | KHeader _ _ => 41 | KHeaderTD _ _ => 42 | KCanonical _ => 10 | KHeaderNumber _ => 33
  | KBody _ _ => 41 | KReceipts _ _ => 41 | KTxLookup _ => 33 | KUtxo _ => 14
  | KBloomBits _ _ _ => 43 | KPreimage _ => 43 | KConfig _ => 48 | KEvent _ => 16
  end%nat.
Proof.
  destruct k; cbn [key_of]; rewrite ?utxoKey_layout, ?bloomBitsKey_layout;
    unfold headerTDKey, headerKey, headerHashKey, headerNumberKey, blockBodyKey, blockReceiptsKey,
      txLookupKey, preimageKey, configKey, encodeBlockNumber;
    rewrite ?length_app, ?length_be_put, ?length_arr; reflexivity.
Qed.

Lemma key_heads k : (forall m, k <> KEvent m) ->
  head (key_of k) =
  Some match k with
  | KVersion => Byte.x44 | KHeadHeader | KHeadBlock | KHeadFastBlock => Byte.x4c
  | KTrieProgress => Byte.x54 | KFromBlock => Byte.x52
  | KHeader _ _ | KHeaderTD _ _ | KCanonical _ => Byte.x68 | KHeaderNumber _ => Byte.x48
  | KBody _ _ => Byte.x62 | KReceipts _ _ => Byte.x72 | KTxLookup _ => Byte.x6c
  | KUtxo _ => Byte.x63 | KBloomBits _ _ _ => Byte.x42 | KPreimage _ => Byte.x73
  | KConfig _ => Byte.x65 | KEvent _ => Byte.x00
  end.
Proof.
  intros Hk. destruct k; cbn [key_of]; rewrite ?utxoKey_layout, ?bloomBitsKey_layout;
    try reflexivity. by destruct (Hk md5).
Qed.

(** Two keys of one kind: the arguments can be read back. *)
Lemma number_hash_inj p n1 n2 (h1 h2 : Hash) :
  is_u64 n1 -> is_u64 n2 ->
  (p ++ encodeBlockNumber n1) ++ arr h1 = (p ++ encodeBlockNumber n2) ++ arr h2 ->
  n1 = n2 /\ h1 = h2.
Proof.
  intros H1 H2 E. rewrite <- !app_assoc in E. apply app_inv_head in E.
  apply be_put_app_inj in E as [-> E]; [|exact H1|exact H2].
  split; [done|]. by apply farray_eq.
Qed.

Lemma prefix_hash_inj {n} (p : bytes) (h1 h2 : farray n) : p ++ arr h1 = p ++ arr h2 -> h1 = h2.
Proof. intros E. apply app_inv_head in E. by apply farray_eq. Qed.

(** The key encoding of the whole database is injective. *)
Lemma key_of_inj a b : key_ok a -> key_ok b -> key_of a = key_of b -> a = b.
Proof.
  intros Ha Hb E.
  pose proof (f_equal length E) as El. rewrite !key_lengths in El.
  destruct a, b; try discriminate El; clear El; try reflexivity;
    try (apply (f_equal head) in E; rewrite !key_heads in E by done; discriminate E);
    simpl in Ha, Hb; cbn [key_of] in E.
  - apply number_hash_inj in E as [-> ->]; done.
  - unfold headerTDKey in E. apply app_inv_tail in E. apply number_hash_inj in E as [-> ->]; done.
  - unfold headerHashKey in E. apply app_inv_tail in E. apply app_inv_head in E.
    f_equal. exact (be_put_inj 8 _ _ Ha Hb E).
  - f_equal. by eapply prefix_hash_inj.
  - apply number_hash_inj in E as [-> ->]; done.
  - apply number_hash_inj in E as [-> ->]; done.
  - f_equal. by eapply prefix_hash_inj.
  - destruct id as [b1 t1 o1], id0 as [b2 t2 o2]. cbn [BlockNum TxIndex OutIndex] in *.
    rewrite !utxoKey_layout in E. apply (app_inv_head utxoPrefix) in E.
    apply be_put_app_inj in E as [-> E]; [|apply Ha|apply Hb].
    apply be_put_app_inj in E as [-> E]; [|apply Ha|apply Hb]. by simplify_eq.
  - rewrite !bloomBitsKey_layout in E. apply (app_inv_head bloomBitsPrefix) in E.
    apply be_put_app_inj in E as [-> E]; [|apply Ha|apply Hb].
    apply be_put_app_inj in E as [-> E]; [|apply Ha|apply Hb].
    f_equal. by apply farray_eq.
  - f_equal. by eapply prefix_hash_inj.
  - f_equal. by eapply prefix_hash_inj.
  - f_equal. by apply farray_eq.
Qed.

(** C14. No two keys of the database collide: headers, bodies, canonical hashes,
    UTXOs, heads, event hashes and the other tables never overlap, and within a
    table the key determines its arguments. *)
Theorem schema_keys_disjoint a b : key_ok a -> key_ok b -> key_of a = key_of b <-> a = b.
Proof. intros Ha Hb. split; [by apply key_of_inj|by intros ->]. Qed.
