(* ===== verification/RawDB.v ===== *)
(** core/rawdb/accessors_chain.go: the typed accessors of the chain database. The
    writers log and drop the database's errors, as the source does; the readers
    ignore them and look at the data. *)

From S2P Require Import Prelude Deps Types Store Schema.
#[local] Open Scope Z_scope.

Section Accessors.
Context {D : Type} `{EthCommon} `{Crypto} `{Rlp txdata} `{Rlp Header} `{Rlp rlpBody} `{Rlp Z}
  `{RlpStream}.

Section Readers.
Context `{DatabaseReader D}.

(** [data, _ := db.Get(key)]. *)
Definition get (d : D) (key : bytes) : bytes := (db_Get d key).1.

(** [if len(data) == 0 { return common.Hash{} }; return common.BytesToHash(data)]. *)
Definition read_hash (data : bytes) : Hash :=
  match data with [] => zeroHash | _ => BytesToHash data end.

Definition ReadCanonicalHash (d : D) (number : Z) : Hash :=
  read_hash (get d (headerHashKey number)).

Definition ReadHeaderNumber (d : D) (hash : Hash) : option Z :=
  let data := get d (headerNumberKey hash) in
  if negb (length data =? 8)%nat then None else Some (be_val data).

Definition ReadHeadHeaderHash (d : D) : Hash := read_hash (get d headHeaderKey).
Definition ReadHeadBlockHash (d : D) : Hash := read_hash (get d headBlockKey).
Definition ReadHeadFastBlockHash (d : D) : Hash := read_hash (get d headFastBlockKey).

Definition ReadFastTrieProgress (d : D) : Z :=
  match get d fastTrieProgressKey with [] => 0 | data => big_Uint64 (be_val data) end.

Definition ReadHeaderRLP (d : D) (hash : Hash) (number : Z) : bytes :=
  get d (headerKey number hash).

Definition HasHeader (d : D) (hash : Hash) (number : Z) : bool :=
  match db_Has d (headerKey number hash) with
  | (true, None) => true
  | _ => false
  end.

Definition ReadHeader (d : D) (hash : Hash) (number : Z) : option Header :=
  match ReadHeaderRLP d hash number with
  | [] => None
  | data => rlp_DecodeBytes data
  end.

Definition ReadBodyRLP (d : D) (hash : Hash) (number : Z) : bytes :=
  get d (blockBodyKey number hash).

Definition HasBody (d : D) (hash : Hash) (number : Z) : bool :=
  match db_Has d (blockBodyKey number hash) with
  | (true, None) => true
  | _ => false
  end.

Definition ReadBody (d : D) (hash : Hash) (number : Z) : option Body :=
  match ReadBodyRLP d hash number with
  | [] => None
  | data =>
      match rlp_DecodeBytes data with
      | Some body => Some (mkBody (decoded_tx <$> rb_Transactions body))
      | None => None
      end
  end.

Definition ReadTd (d : D) (hash : Hash) (number : Z) : option Z :=
  match get d (headerTDKey number hash) with
  | [] => None
  | data => rlp_DecodeBytes data
  end.

Definition ReadBlock (d : D) (hash : Hash) (number : Z) : option Block :=
  match ReadHeader d hash number with
  | None => None
  | Some h =>
      match ReadBody d hash number with
      | None => None
      | Some body => Some (WithBody (NewBlockWithHeader h) (Transactions body))
      end
  end.

(** [data[:common.AddressLength]] panics on a record shorter than an address. *)
Definition ReadUTXO (d : D) (blockNum txIdx : Z) (outIdx : byte) : go (option UTXO) :=
  match get d (utxoKey blockNum txIdx outIdx) with
  | [] => Ret None
  | data =>
      if (length data <? 20)%nat then Stop IndexRange
      else Ret (Some (mkUTXO (mkUTXOID blockNum txIdx outIdx)
                        (mkTxOut (BytesToAddress (take 20 data)) (Some (be_val (drop 20 data))))))
  end.

(** One of the two climbing loops of [FindCommonAncestor]: follow parents while
    the number is above [bn]; nil when a parent is missing. *)
Fixpoint climb (fuel : nat) (d : D) (a : Header) (bn : Z) : go (option Header) :=
  let! an := Header_NumberU64 a in
  if bn <? an then
    match fuel with
    | O => Stop OutOfFuel
    | S fuel =>
        match ReadHeader d (ParentHash a) (u64 (an - 1)) with
        | None => Ret None
        | Some a => climb fuel d a bn
        end
    end
  else Ret (Some a).

(** The third loop: step both sides until the hashes agree. *)
Fixpoint climb_both (fuel : nat) (d : D) (a b : Header) : go (option Header) :=
  if decide (Header_Hash a = Header_Hash b) then Ret (Some a)
  else
    match fuel with
    | O => Stop OutOfFuel
    | S fuel =>
        let! an := Header_NumberU64 a in
        match ReadHeader d (ParentHash a) (u64 (an - 1)) with
        | None => Ret None
        | Some a =>
            let! bn := Header_NumberU64 b in
            match ReadHeader d (ParentHash b) (u64 (bn - 1)) with
            | None => Ret None
            | Some b => climb_both fuel d a b
            end
        end
    end.

Definition FindCommonAncestor (fuel : nat) (d : D) (a b : Header) : go (option Header) :=
  let! bn := Header_NumberU64 b in
  let! a := climb fuel d a bn in
  match a with
  | None => Ret None
  | Some a =>
      let! an := Header_NumberU64 a in
      let! b := climb fuel d b an in
      match b with
      | None => Ret None
      | Some b => climb_both fuel d a b
      end
  end.
End Readers.

Section Writers.
Context `{DatabaseWriter D}.

(** [if err := db.Put(...); err != nil { log }]. *)
Definition put (d : D) (key value : bytes) : D := (db_Put d key value).1.

Definition WriteCanonicalHash (d : D) (hash : Hash) (number : Z) : D :=
  put d (headerHashKey number) (arr hash).
Definition WriteHeadHeaderHash (d : D) (hash : Hash) : D := put d headHeaderKey (arr hash).
Definition WriteHeadBlockHash (d : D) (hash : Hash) : D := put d headBlockKey (arr hash).
Definition WriteHeadFastBlockHash (d : D) (hash : Hash) : D := put d headFastBlockKey (arr hash).
Definition WriteFastTrieProgress (d : D) (count : Z) : D :=
  put d fastTrieProgressKey (big_Bytes count).

Definition WriteHeader (d : D) (h : Header) : go D :=
  let hash := Header_Hash h in
  let! number := Header_NumberU64 h in
  let d := put d (headerNumberKey hash) (encodeBlockNumber number) in
  Ret (put d (headerKey number hash) (default [] (rlp_EncodeToBytes h))).

Definition WriteBodyRLP (d : D) (hash : Hash) (number : Z) (rlp : bytes) : D :=
  put d (blockBodyKey number hash) rlp.

Definition WriteBody (d : D) (hash : Hash) (number : Z) (body : Body) : D :=
  WriteBodyRLP d hash number
    (default [] (rlp_EncodeToBytes (mkRlpBody (tx_data <$> Transactions body)))).

Definition WriteTd (d : D) (hash : Hash) (number : Z) (td : Z) : D :=
  put d (headerTDKey number hash) (default [] (rlp_EncodeToBytes td)).

Definition WriteBlock (d : D) (b : Block) : go D :=
  let! number := Block_NumberU64 b in
  let d := WriteBody d (Block_Hash b) number (Block_Body b) in
  WriteHeader d (Block_Header b).

(** Unlike the writers above, [WriteUTXO] returns the database's error. *)
Definition WriteUTXO (d : D) (v : UTXO) : go (D * option error) :=
  let! amount := deref (Amount (utxo_TxOut v)) in
  let id := utxo_UTXOID v in
  Ret (db_Put d (utxoKey (BlockNum id) (TxIndex id) (OutIndex id))
         (arr (Owner (utxo_TxOut v)) ++ big_Bytes amount)).
End Writers.

Section Deleters.
Context `{DatabaseDeleter D}.

Definition del (d : D) (key : bytes) : D := (db_Delete d key).1.

Definition DeleteCanonicalHash (d : D) (number : Z) : D := del d (headerHashKey number).
Definition DeleteHeader (d : D) (hash : Hash) (number : Z) : D :=
  del (del d (headerKey number hash)) (headerNumberKey hash).
Definition DeleteBody (d : D) (hash : Hash) (number : Z) : D := del d (blockBodyKey number hash).
Definition DeleteTd (d : D) (hash : Hash) (number : Z) : D := del d (headerTDKey number hash).
Definition DeleteReceipts (d : D) (hash : Hash) (number : Z) : D :=
  del d (blockReceiptsKey number hash).
Definition DeleteBlock (d : D) (hash : Hash) (number : Z) : D :=
  let d := DeleteReceipts d hash number in
  let d := DeleteHeader d hash number in
  let d := DeleteBody d hash number in
  DeleteTd d hash number.
Definition DeleteUTXO (d : D) (blockNum txIdx : Z) (outIdx : byte) : D * option error :=
  db_Delete d (utxoKey blockNum txIdx outIdx).
End Deleters.
End Accessors.

(** * Facts *)

Lemma key_ne a b : key_ok a -> key_ok b -> a <> b -> key_of a <> key_of b.
Proof. intros Ha Hb Hne E. by apply Hne, key_of_inj. Qed.

Lemma lookup_key_ne (m : gmap bytes bytes) a b v :
  key_ok a -> key_ok b -> a <> b -> <[key_of a := v]> m !! key_of b = m !! key_of b.
Proof. intros. by apply lookup_insert_ne, key_ne. Qed.

Lemma Header_NumberU64_Some h n : Number h = Some n -> is_u64 n -> Header_NumberU64 h = Ret n.
Proof.
  intros Hn Hu. unfold Header_NumberU64. rewrite Hn. simpl. unfold big_Uint64.
  unfold is_u64 in Hu. rewrite Z.abs_eq, u64_small by (unfold is_u64; lia). done.
Qed.

Section ReaderFacts.
Context {D : Type} `{EthCommon} `{Crypto} `{Rlp txdata} `{Rlp Header} `{Rlp rlpBody} `{RlpStream}
  `{DatabaseReader D} (abs : D -> txstore) (inv : D -> Prop) `{!ReadSpec D abs inv}.

Lemma get_committed d k : inv d -> get d k = default [] (committed (abs d) !! k).
Proof.
  intros Hd. unfold get. destruct (spec_Get d k Hd) as [E _]. rewrite E.
  by destruct (committed (abs d) !! k).
Qed.

(** Stored headers sit under their own number and hash, and the number
    [2^64 - 1] is not used. *)
Definition headers_wf (d : D) : Prop :=
  forall n h hd, is_u64 n -> ReadHeader d h n = Some hd ->
    Number hd = Some n /\ Header_Hash hd = h /\ n <> 2 ^ 64 - 1.

(** [p] is the stored parent of [a]. *)
Definition parent (d : D) (a p : Header) : Prop :=
  exists n, Number a = Some n /\ is_u64 n /\
            ReadHeader d (ParentHash a) (u64 (n - 1)) = Some p.

Definition ancestor (d : D) : Header -> Header -> Prop := rtc (parent d).

(** A header found in the database under its own key. *)
Definition stored (d : D) (a : Header) : Prop :=
  exists n, is_u64 n /\ ReadHeader d (Header_Hash a) n = Some a.

Context (d : D) (Hwf : headers_wf d).

Lemma stored_number a : stored d a -> exists n,
  Number a = Some n /\ is_u64 n /\ n <> 2 ^ 64 - 1 /\ ReadHeader d (Header_Hash a) n = Some a.
Proof using Hwf.
  intros (n & Hn & Ha). destruct (Hwf _ _ _ Hn Ha) as (E & _ & Hne). eauto 10.
Qed.

Lemma stored_hash_inj a b n :
  stored d a -> stored d b -> Number a = Some n -> Number b = Some n ->
  Header_Hash a = Header_Hash b -> a = b.
Proof using Hwf.
  intros Ha Hb Na Nb E.
  destruct (stored_number _ Ha) as (na & Na' & _ & _ & Ra).
  destruct (stored_number _ Hb) as (nb & Nb' & _ & _ & Rb).
  simplify_eq. rewrite E in Ra. congruence.
Qed.

Lemma parent_stored a p n :
  Number a = Some n -> is_u64 n -> ReadHeader d (ParentHash a) (u64 (n - 1)) = Some p ->
  stored d p /\ Number p = Some (n - 1) /\ 0 < n.
Proof using Hwf.
  intros Na Hn Hp. destruct (Hwf _ _ _ (u64_range _) Hp) as (Np & Hh & Hne).
  assert (0 < n).
  { destruct (decide (n = 0)) as [->|]; [|unfold is_u64 in Hn; lia]. by destruct Hne. }
  rewrite u64_small in Hp, Np by (unfold is_u64 in *; lia).
  split_and!; [|done|done]. exists (n - 1). rewrite Hh. split; [|done]. unfold is_u64 in *; lia.
Qed.

Lemma parent_det a p1 p2 : parent d a p1 -> parent d a p2 -> p1 = p2.
Proof. intros (n1 & N1 & _ & P1) (n2 & N2 & _ & P2). congruence. Qed.

(** Two ancestors of one header at the same height coincide. *)
Lemma ancestor_comparable a b c : ancestor d a b -> ancestor d a c ->
  ancestor d b c \/ ancestor d c b.
Proof.
  intros Hab. revert c. induction Hab as [|a p b Hap Hpb IH]; intros c Hac; [by left|].
  destruct Hac as [|a p' c Hap' Hpc].
  - right. by econstructor.
  - rewrite (parent_det _ _ _ Hap' Hap) in Hpc. by apply IH.
Qed.

Lemma ancestor_number a c n : stored d a -> Number a = Some n -> ancestor d a c ->
  stored d c /\ exists m, Number c = Some m /\ m <= n /\ (m = n -> c = a).
Proof using Hwf.
  intros Hs Hn Hac. revert n Hs Hn.
  induction Hac as [a|a p c (k & Hk & Hku & Hp) Hpc IH]; intros n Hs Hn.
  - split; [done|]. exists n. split_and!; [done|lia|done].
  - assert (k = n) as -> by congruence.
    destruct (parent_stored _ _ _ Hn Hku Hp) as (Hsp & Hnp & Hpos).
    destruct (IH _ Hsp Hnp) as (Hsc & m & Hm & Hle & _).
    split; [done|]. exists m. split_and!; [done|lia|lia].
Qed.

Lemma stored_NumberU64 a n : stored d a -> Number a = Some n -> Header_NumberU64 a = Ret n.
Proof using Hwf.
  intros Hs Hn. destruct (stored_number _ Hs) as (n' & Hn' & Hu & _). simplify_eq.
  by apply Header_NumberU64_Some.
Qed.

(** The climbing loop returns, with the ancestor at height [bn] or below it, or
    nil; [n - bn] steps are enough. *)
Lemma climb_spec fuel a n bn :
  stored d a -> Number a = Some n -> (Z.to_nat (n - bn) <= fuel)%nat ->
  exists r, climb fuel d a bn = Ret r /\
    match r with
    | Some a' => ancestor d a a' /\ (exists m, Number a' = Some m /\ (n <= bn -> m = n) /\
                   (bn < n -> m = bn)) /\
                 (forall c mc, ancestor d a c -> Number c = Some mc -> mc <= bn -> ancestor d a' c)
    | None => forall c mc, ancestor d a c -> Number c = Some mc -> bn < mc
    end.
Proof using Hwf.
  revert a n. induction fuel as [|fuel IH]; intros a n Hs Hn Hf; simpl;
    rewrite (stored_NumberU64 _ _ Hs Hn); simpl.
  1: { destruct (Z.ltb_spec bn n) as [Hlt|Hge]; [lia|]. eexists. split; [done|].
       split_and!; [done| |eauto]. exists n. split_and!; [done|done|lia]. }
  destruct (Z.ltb_spec bn n) as [Hlt|Hge].
  - destruct (stored_number _ Hs) as (n' & Hn' & Hu & _).
    assert (n' = n) as -> by congruence.
    destruct (ReadHeader d (ParentHash a) (u64 (n - 1))) as [p|] eqn:Hp.
    + destruct (parent_stored _ _ _ Hn Hu Hp) as (Hsp & Hnp & Hpos).
      assert (Hap : parent d a p) by (exists n; eauto).
      destruct (IH p (n - 1) Hsp Hnp ltac:(lia)) as (r & Hr & Hspec).
      assert (Hdown : forall c mc, ancestor d a c -> Number c = Some mc -> mc <= bn -> ancestor d p c).
      { intros c mc Hac Hmc Hle. destruct Hac as [|a p' c Hap' Hpc]; [simplify_eq; lia|].
        by rewrite (parent_det _ _ _ Hap' Hap) in Hpc. }
      exists r. split; [done|]. destruct r as [a'|].
      * destruct Hspec as (Hanc & (m & Hm & Hm1 & Hm2) & Hlow).
        split_and!; [by econstructor| |eauto].
        exists m. split_and!; [done|lia|]. intros _.
        destruct (decide (bn = n - 1)); [rewrite Hm1; lia|apply Hm2; lia].
      * intros c mc Hac Hmc. destruct (decide (mc <= bn)) as [Hle|]; [|lia].
        exact (Hspec _ _ (Hdown _ _ Hac Hmc Hle) Hmc).
    + exists None. split; [done|]. intros c mc Hac Hmc.
      destruct Hac as [|a p c (k & Hk & _ & Hp') _]; simplify_eq. lia.
  - eexists. split; [done|]. split_and!; [done| |eauto].
    exists n. split_and!; [done|done|lia].
Qed.

(** [c] is the last common ancestor of [a] and [b]. *)
Definition last_common (a b c : Header) : Prop :=
  ancestor d a c /\ ancestor d b c /\
  forall c', ancestor d a c' -> ancestor d b c' -> ancestor d c c'.

Lemma climb_both_spec fuel a b n :
  stored d a -> stored d b -> Number a = Some n -> Number b = Some n ->
  (Z.to_nat n < fuel)%nat ->
  exists r, climb_both fuel d a b = Ret r /\
    match r with
    | Some c => last_common a b c
    | None => forall c, ancestor d a c -> ancestor d b c -> False
    end.
Proof using Hwf.
  revert a b n. induction fuel as [|fuel IH]; intros a b n Ha Hb Na Nb Hf; [lia|]. simpl.
  case_decide as Heq.
  - rewrite <- (stored_hash_inj _ _ _ Ha Hb Na Nb Heq).
    eexists. split; [done|]. by split_and!.
  - rewrite (stored_NumberU64 _ _ Ha Na), (stored_NumberU64 _ _ Hb Nb). simpl.
    destruct (stored_number _ Ha) as (n' & Hn' & Hu & _).
    assert (n' = n) as -> by congruence.
    assert (Hab : ancestor d b a -> False).
    { intros Hanc. destruct (ancestor_number _ _ _ Hb Nb Hanc) as (_ & m & Hm & _ & E).
      apply Heq. f_equal. apply E. congruence. }
    assert (Hba : ancestor d a b -> False).
    { intros Hanc. destruct (ancestor_number _ _ _ Ha Na Hanc) as (_ & m & Hm & _ & E).
      apply Heq. f_equal. symmetry. apply E. congruence. }
    assert (Hup : forall x p c, (ancestor d x c) -> (c <> x) -> parent d x p -> ancestor d p c).
    { intros x p c Hxc Hne Hxp. destruct Hxc as [|x p' c Hxp' Hpc]; [done|].
      by rewrite (parent_det _ _ _ Hxp' Hxp) in Hpc. }
    destruct (ReadHeader d (ParentHash a) (u64 (n - 1))) as [pa|] eqn:Hpa.
    2: { eexists. split; [done|]. intros c Hac Hbc.
         destruct Hac as [|a p c (k & Hk & _ & Hp) _]; [auto|congruence]. }
    destruct (ReadHeader d (ParentHash b) (u64 (n - 1))) as [pb|] eqn:Hpb.
    2: { eexists. split; [done|]. intros c Hac Hbc.
         destruct Hbc as [|b p c (k & Hk & _ & Hp) _]; [auto|congruence]. }
    destruct (parent_stored _ _ _ Na Hu Hpa) as (Hsa & Hna & Hpos).
    destruct (parent_stored _ _ _ Nb Hu Hpb) as (Hsb & Hnb & _).
    assert (Pa : parent d a pa) by (exists n; eauto).
    assert (Pb : parent d b pb) by (exists n; eauto).
    destruct (IH pa pb (n - 1) Hsa Hsb Hna Hnb ltac:(lia)) as (r & -> & Hspec).
    exists r. split; [done|]. destruct r as [c|].
    + destruct Hspec as (Hac & Hbc & Hlast). split_and!; [by econstructor|by econstructor|].
      intros c' Hac' Hbc'. apply Hlast; [apply (Hup a pa c')|apply (Hup b pb c')]; try done; intros ->; auto.
    + intros c Hac Hbc. apply (Hspec c); [apply (Hup a pa c)|apply (Hup b pb c)]; try done; intros ->; auto.
Qed.

Lemma ancestor_below x n c : stored d x -> Number x = Some n -> ancestor d x c ->
  exists m, Number c = Some m /\ m <= n.
Proof using Hwf.
  intros Hx Nx Hxc. destruct (ancestor_number _ _ _ Hx Nx Hxc) as (_ & m & ? & ? & _). eauto.
Qed.

(** Common ancestors lie at or below both headers. *)
Lemma common_below a b na nb c : stored d a -> stored d b -> Number a = Some na -> Number b = Some nb ->
  ancestor d a c -> ancestor d b c -> exists m, Number c = Some m /\ m <= Z.min na nb.
Proof using Hwf.
  intros Ha Hb Na Nb Hac Hbc. destruct (ancestor_below _ _ _ Ha Na Hac) as (k & Hk & Hle).
  destruct (ancestor_below _ _ _ Hb Nb Hbc) as (k' & Hk' & Hle').
  exists k. assert (k' = k) as -> by congruence. split; [done|lia].
Qed.

(** C31. [FindCommonAncestor] on two stored headers returns (enough fuel: their
    heights) and gives their last common ancestor, or nil exactly when they have
    none in the database. *)
Theorem FindCommonAncestor_spec fuel a b na nb :
  stored d a -> stored d b -> Number a = Some na -> Number b = Some nb ->
  (Z.to_nat (Z.max na nb) < fuel)%nat ->
  exists r, FindCommonAncestor fuel d a b = Ret r /\
    match r with
    | Some c => last_common a b c
    | None => forall c, ancestor d a c -> ancestor d b c -> False
    end.
Proof using Hwf.
  intros Ha Hb Na Nb Hf. unfold FindCommonAncestor.
  destruct (stored_number _ Ha) as (na' & Hna' & Hua & _).
  assert (na' = na) as -> by congruence. unfold is_u64 in Hua.
  destruct (stored_number _ Hb) as (nb' & Hnb' & Hub & _).
  assert (nb' = nb) as -> by congruence. unfold is_u64 in Hub.
  pose proof (fun c => common_below a b na nb c Ha Hb Na Nb) as Hlow.
  rewrite (stored_NumberU64 _ _ Hb Nb). simpl.
  destruct (climb_spec fuel a na nb Ha Na ltac:(lia)) as (ra & -> & Hra). simpl.
  destruct ra as [a'|].
  2: { eexists. split; [done|]. intros c Hac Hbc.
       destruct (Hlow c Hac Hbc) as (m & Hm & Hle). specialize (Hra c m Hac Hm). lia. }
  destruct Hra as (Haa & (m & Nm & Hm1 & Hm2) & Hadown). assert (m = Z.min na nb) as -> by lia. clear Hm1 Hm2.
  destruct (ancestor_number _ _ _ Ha Na Haa) as (Hsa & _).
  rewrite (stored_NumberU64 _ _ Hsa Nm). simpl.
  destruct (climb_spec fuel b nb (Z.min na nb) Hb Nb ltac:(lia)) as (rb & -> & Hrb). simpl.
  destruct rb as [b'|].
  2: { eexists. split; [done|]. intros c Hac Hbc.
       destruct (Hlow c Hac Hbc) as (m & Hm & Hle). specialize (Hrb c m Hbc Hm). lia. }
  destruct Hrb as (Hbb & (mb & Nmb & Hmb1 & Hmb2) & Hbdown). assert (mb = Z.min na nb) as -> by lia.
  destruct (ancestor_number _ _ _ Hb Nb Hbb) as (Hsb & _).
  destruct (climb_both_spec fuel a' b' _ Hsa Hsb Nm Nmb ltac:(lia)) as (r & -> & Hr).
  assert (Hcommon : forall c, ancestor d a c -> ancestor d b c -> ancestor d a' c /\ ancestor d b' c).
  { intros c Hac Hbc. destruct (Hlow c Hac Hbc) as (k & Hk & Hle).
    split; [eapply Hadown; eauto; lia|eapply Hbdown; eauto]. }
  exists r. split; [done|]. destruct r as [c|].
  - destruct Hr as (H1' & H2' & H3'). split_and!; [by etrans|by etrans|].
    intros c' Hac Hbc. destruct (Hcommon _ Hac Hbc). auto.
  - intros c Hac Hbc. destruct (Hcommon _ Hac Hbc). eauto.
Qed.
End ReaderFacts.

Section WriterFacts.
Context {D : Type} `{EthCommon} `{Crypto} `{Rlp txdata} `{Rlp Header} `{Rlp rlpBody} `{RlpStream}
  `{DatabaseWriter D} (abs : D -> txstore) (inv : D -> Prop) `{!WriteSpec D abs inv}.

(** Writes reach the store: a transaction is open, or the disk does not fail. *)
Definition writable (d : D) : Prop :=
  inv d /\ (is_Some (pending (abs d)) \/ forall d k v, inv d -> (db_Put d k v).2 = None).

Lemma Put_writable d k v : writable d ->
  (db_Put d k v).2 = None /\ abs (put d k v) = ts_write (abs d) (WPut k v) /\
  writable (put d k v).
Proof.
  intros [Hinv Hok]. unfold put, writable.
  destruct (spec_Put d k v Hinv) as [Hinv' Hr].
  assert (He : (db_Put d k v).2 = None).
  { destruct Hok as [[ops Hp]|Hok]; [|by apply Hok].
    destruct (db_Put d k v).2; [|done]. destruct Hr as [_ Hn]. congruence. }
  rewrite He in Hr. rewrite Hr. split_and!; try done.
  destruct Hok as [Hp|Hok]; [left; by apply pending_write|by right].
Qed.

Lemma put_abs d k v : writable d -> abs (put d k v) = ts_write (abs d) (WPut k v).
Proof. intros Hd. by apply (Put_writable d k v). Qed.

Lemma put_writable d k v : writable d -> writable (put d k v).
Proof. intros Hd. by apply (Put_writable d k v). Qed.

Definition ts_writes (s : txstore) (ops : list wop) : txstore := fold_left ts_write ops s.

Lemma eventual_writes s ops : eventual (ts_writes s ops) = apply_wops ops (eventual s).
Proof.
  revert s. induction ops as [|o ops IH]; intros s; [done|]. simpl.
  by rewrite IH, eventual_write.
Qed.

(** The header writes of [WriteHeader]. *)
Definition header_ops (h : Header) (n : Z) : list wop :=
  [WPut (key_of (KHeaderNumber (Header_Hash h))) (encodeBlockNumber n);
   WPut (key_of (KHeader n (Header_Hash h))) (default [] (rlp_EncodeToBytes h))].

Lemma WriteHeader_abs d h n :
  writable d -> Number h = Some n -> is_u64 n ->
  exists d', WriteHeader d h = Ret d' /\ writable d' /\
             abs d' = ts_writes (abs d) (header_ops h n).
Proof.
  intros Hd Hn Hu. unfold WriteHeader. rewrite (Header_NumberU64_Some _ _ Hn Hu). simpl.
  eexists. split; [done|]. split; [by do 2 apply put_writable|].
  rewrite !put_abs by auto using put_writable. done.
Qed.

Definition body_op (b : Block) (n : Z) : wop :=
  WPut (key_of (KBody n (Block_Hash b)))
    (default [] (rlp_EncodeToBytes (mkRlpBody (tx_data <$> transactions b)))).

Lemma WriteBlock_abs d b n :
  writable d -> Header_okb (header b) = true -> Number (header b) = Some n -> is_u64 n ->
  exists d', WriteBlock d b = Ret d' /\ writable d' /\
             abs d' = ts_writes (abs d) (body_op b n :: header_ops (header b) n).
Proof.
  intros Hd Hok Hn Hu. unfold WriteBlock, Block_NumberU64.
  rewrite (Header_NumberU64_Some _ _ Hn Hu). simpl. unfold Block_Header.
  rewrite CopyHeader_ok by done.
  destruct (WriteHeader_abs (put d (blockBodyKey n (Block_Hash b))
    (default [] (rlp_EncodeToBytes (mkRlpBody (tx_data <$> transactions b))))) (header b) n)
    as (d' & Hw & Hd' & Ha); [by apply put_writable|done|done|].
  exists d'. split_and!; [exact Hw|done|]. rewrite Ha, put_abs by done. done.
Qed.
End WriterFacts.

(** Looking up a schema key in a map built by writes of schema keys. *)
Ltac key_ok_tac := first [exact I|assumption|simpl; tauto].
Ltac key_lookup :=
  repeat (rewrite lookup_insert_eq || (rewrite lookup_key_ne; [|key_ok_tac|key_ok_tac|congruence])).

Section RoundTrips.
Context {D : Type} `{EthCommon} `{Crypto} `{Rlp txdata} `{Rlp Header} `{Rlp rlpBody} `{RlpStream}
  `{DatabaseReader D} (abs : D -> txstore) (inv : D -> Prop) `{!ReadSpec D abs inv}.
Context `{!RlpLaws Header Header_ok} `{!RlpLaws rlpBody rlpBody_ok} `{!EthCommonLaws}.

Lemma ReadHeader_written d h n :
  inv d -> Header_okb h = true ->
  committed (abs d) !! key_of (KHeader n (Header_Hash h)) =
    Some (default [] (rlp_EncodeToBytes h)) ->
  ReadHeader d (Header_Hash h) n = Some h.
Proof.
  intros Hd Hok Hl. destruct (rlp_roundtrip (ok := Header_ok) h Hok) as (b & He & Hne & Hdec).
  unfold ReadHeader, ReadHeaderRLP. rewrite (get_committed abs inv) by done.
  cbn [key_of] in Hl. rewrite Hl, He. simpl. by destruct b.
Qed.

(** What a list of transactions is after being written and read. *)
Definition body_decodes (ds ds' : list txdata) : Prop :=
  exists e, rlp_EncodeToBytes (mkRlpBody ds) = Some e /\ e <> [] /\ rlp_DecodeBytes e = Some (mkRlpBody ds').

Lemma body_decodes_ok ds : forallb txdata_okb ds = true -> body_decodes ds ds.
Proof. exact (rlp_roundtrip (ok := rlpBody_ok) (mkRlpBody ds)). Qed.

Lemma body_decodes_fill `{!RlpNilLaws} ds :
  forallb txdata_okb (fill_txdata <$> ds) = true -> body_decodes ds (fill_txdata <$> ds).
Proof. intros Hok. unfold body_decodes. rewrite rlp_nil_ints. by apply body_decodes_ok. Qed.

Lemma ReadBody_written d b n ds :
  inv d -> body_decodes (tx_data <$> transactions b) ds ->
  (match body_op b n with WPut k v => committed (abs d) !! k = Some v | _ => False end) ->
  exists body, ReadBody d (Block_Hash b) n = Some body /\ tx_data <$> Transactions body = ds.
Proof.
  intros Hd (e & He & Hne & Hdec) Hl. cbn [body_op key_of] in Hl.
  unfold ReadBody, ReadBodyRLP. rewrite (get_committed abs inv) by done. rewrite Hl, He. simpl.
  destruct e; [done|]. rewrite Hdec. eexists. split; [done|]. apply decoded_txs_same.
Qed.

(** The state once the writes of [WriteBlock] are committed: the block reads
    back, by its hash and number and through the hash-to-number index. *)
Lemma ReadBlock_written d b n m :
  inv d -> Header_okb (header b) = true -> forallb txdata_okb (tx_data <$> transactions b) = true ->
  Number (header b) = Some n -> is_u64 n -> Block_Hash b = Header_Hash (header b) ->
  committed (abs d) = apply_wops (body_op b n :: header_ops (header b) n) m ->
  ReadHeaderNumber d (Block_Hash b) = Some n /\
  exists b', ReadBlock d (Block_Hash b) n = Some b' /\
    header b' = header b /\ same_txs (transactions b') (transactions b).
Proof.
  intros Hd Hok Htxs Hn Hu Hh Hm. unfold body_op, header_ops, apply_wops in Hm.
  cbn [fold_left apply_wop] in Hm.
  rewrite <- Hh in Hm. split.
  - unfold ReadHeaderNumber. rewrite (get_committed abs inv), Hm by done.
    change (headerNumberKey (Block_Hash b)) with (key_of (KHeaderNumber (Block_Hash b))).
    key_lookup. cbn [from_option id]. unfold encodeBlockNumber.
    rewrite length_be_put. cbn [Nat.eqb negb].
    by rewrite be_val_put, Z.mod_small.
  - assert (HR : ReadHeader d (Block_Hash b) n = Some (header b)).
    { rewrite Hh. apply ReadHeader_written; [done|done|]. rewrite <- Hh, Hm. by key_lookup. }
    unfold ReadBlock. rewrite HR.
    destruct (ReadBody_written d b n (tx_data <$> transactions b)) as (body & Hb & Hs);
      [done|by apply body_decodes_ok| |].
    { unfold body_op. rewrite Hm. by key_lookup. }
    rewrite Hb. eexists. split; [done|]. simpl. by rewrite !(CopyHeader_ok (header b)).
Qed.

Lemma read_hash_arr (h : Hash) : read_hash (arr h) = h.
Proof.
  unfold read_hash. destruct (arr h) eqn:E; [|by rewrite <- E, BytesToHash_arr].
  pose proof (length_arr h) as Hl. rewrite E in Hl. discriminate Hl.
Qed.
End RoundTrips.

(** * Reading after writing *)

Section ReadWrite.
Context {D : Type} `{EthCommon} `{!EthCommonLaws} `{Crypto} `{Rlp txdata} `{Rlp Header} `{Rlp rlpBody} `{RlpStream}
  `{DatabaseReader D} `{DatabaseWriter D} (abs : D -> txstore) (inv : D -> Prop)
  `{!ReadSpec D abs inv} `{!WriteSpec D abs inv}
  `{!RlpLaws Header Header_ok} `{!RlpLaws rlpBody rlpBody_ok}.

Lemma committed_writes s ops : pending s = None ->
  pending (ts_writes s ops) = None /\ committed (ts_writes s ops) = apply_wops ops (committed s).
Proof.
  revert s. induction ops as [|o ops IH]; intros s Hp; [done|]. simpl.
  assert (E : ts_write s o = mkTxstore (apply_wop (committed s) o) None) by (unfold ts_write; by rewrite Hp).
  rewrite E. by apply IH.
Qed.


(** What [ReadHeader] answers after [WriteHeader]. *)
Lemma WriteHeader_ReadHeader d h n :
  writable abs inv d -> pending (abs d) = None -> Header_okb h = true -> Number h = Some n -> is_u64 n ->
  exists d', WriteHeader d h = Ret d' /\ writable abs inv d' /\ pending (abs d') = None /\
    (forall h' n', is_u64 n' -> ReadHeader d' h' n' =
       if decide (h' = Header_Hash h /\ n' = n) then Some h else ReadHeader d h' n') /\
    (forall h', ReadHeaderNumber d' h' =
       if decide (h' = Header_Hash h) then Some n else ReadHeaderNumber d h') /\
    (forall n', is_u64 n' -> ReadCanonicalHash d' n' = ReadCanonicalHash d n').
Proof.
  intros Hd Hp Hok Hn Hu. destruct (WriteHeader_abs abs inv d h n Hd Hn Hu) as (d' & Hw & Hd' & Ha).
  destruct (committed_writes (abs d) (header_ops h n) Hp) as [Hp' Hc]. rewrite <- Ha in Hp', Hc.
  unfold header_ops, apply_wops in Hc. cbn [fold_left apply_wop] in Hc.
  exists d'. split; [done|]. split; [done|]. split; [done|].
  pose proof (proj1 Hd) as Hi. pose proof (proj1 Hd') as Hi'. split_and!.
  - intros h' n' Hu'. case_decide as E.
    + destruct E as [-> ->]. apply (ReadHeader_written abs inv); [done|done|]. rewrite Hc. by key_lookup.
    + unfold ReadHeader, ReadHeaderRLP. rewrite !(get_committed abs inv), Hc by done.
      change (headerKey n' h') with (key_of (KHeader n' h')).
      assert (KHeader n (Header_Hash h) <> KHeader n' h') by (intros [= <- <-]; by apply E).
      by key_lookup.
  - intros h'. unfold ReadHeaderNumber. rewrite !(get_committed abs inv), Hc by done.
    change (headerNumberKey h') with (key_of (KHeaderNumber h')). case_decide as E.
    + subst h'. key_lookup. cbn [from_option id]. unfold encodeBlockNumber. rewrite length_be_put. cbn [Nat.eqb negb]. by rewrite be_val_put, Z.mod_small.
    + assert (KHeaderNumber (Header_Hash h) <> KHeaderNumber h') by congruence. by key_lookup.
  - intros n' Hu'. unfold ReadCanonicalHash. rewrite !(get_committed abs inv), Hc by done.
    change (headerHashKey n') with (key_of (KCanonical n')). by key_lookup.
Qed.

(** Storing a header keeps the header table well formed. *)
Lemma WriteHeader_wf d h n d' :
  writable abs inv d -> pending (abs d) = None -> Header_okb h = true -> Number h = Some n -> is_u64 n ->
  n <> 2 ^ 64 - 1 -> headers_wf d -> WriteHeader d h = Ret d' -> headers_wf d'.
Proof.
  intros Hd Hp Hok Hn Hu Hmax Hwf Hw.
  destruct (WriteHeader_ReadHeader d h n Hd Hp Hok Hn Hu) as (d2 & Hw2 & _ & _ & HR & _).
  rewrite Hw in Hw2. injection Hw2 as <-. intros n' h' hd Hu' Hr. rewrite HR in Hr by done.
  case_decide as E; [|by apply Hwf]. destruct E as [-> ->]. by simplify_eq.
Qed.
End ReadWrite.

