(* ===== verification/Utxo.v ===== *)
(** core/utxo_set.go and the UTXO interfaces of core/interfaces.go: the unspent
    outputs as records of the chain database, and their reading as a ledger from
    identifiers to owner and amount. *)

From S2P Require Import Prelude Deps Types Store Schema RawDB.
#[local] Open Scope Z_scope.

(** * The interfaces *)

Class UtxoReader (U : Type) : Type := {
  utxo_Get : U -> UTXOID -> go (option UTXO)
}.
Class UtxoWriter (U : Type) : Type := {
  utxo_Del : U -> UTXOID -> U * option error;
  utxo_Put : U -> UTXO -> go (U * option error)
}.
Class UtxoReaderWriter (U : Type) : Type := {
  #[global] UtxoRW_Reader :: UtxoReader U;
  #[global] UtxoRW_Writer :: UtxoWriter U
}.

(** * The implementation *)

(** [UTXOSet] holds the database it shares with the chain; the operations are
    those of that database. *)
Section UTXOSet.
Context {D : Type} `{EthCommon} `{Database D}.

Definition UTXOSet_Get (us : D) (id : UTXOID) : go (option UTXO) :=
  ReadUTXO us (BlockNum id) (TxIndex id) (OutIndex id).

Definition UTXOSet_Del (us : D) (id : UTXOID) : D * option error :=
  DeleteUTXO us (BlockNum id) (TxIndex id) (OutIndex id).

Definition UTXOSet_Put (us : D) (v : UTXO) : go (D * option error) := WriteUTXO us v.

#[export] Instance UTXOSet_UtxoReaderWriter : UtxoReaderWriter D := {
  UtxoRW_Reader := {| utxo_Get := UTXOSet_Get |};
  UtxoRW_Writer := {| utxo_Del := UTXOSet_Del; utxo_Put := UTXOSet_Put |}
}.
End UTXOSet.

(** * The ledger a set of records stands for *)

Abbreviation ledger := (gmap UTXOID (Address * Z)) (only parsing).

(** The promise of a [UtxoReader]: it looks its ledger up. *)
Class UtxoReaderSpec (U : Type) `{UtxoReader U} (view : U -> ledger) (inv : U -> Prop) : Prop := {
  spec_utxo_Get u id : inv u -> UTXOID_okb id = true ->
    utxo_Get u id = Ret ((fun o => mkUTXO id (mkTxOut o.1 (Some o.2))) <$> view u !! id)
}.

(** Reading a key of the schema back as an identifier. *)
Definition utxo_id_of_key (k : bytes) : option UTXOID :=
  match k with
  | Byte.x63 :: r =>
      if (length r =? 13)%nat
      then Some (mkUTXOID (be_val (take 8 r)) (be_val (take 4 (drop 8 r)))
                   (default Byte.x00 (r !! 12%nat)))
      else None
  | _ => None
  end.

Definition utxo_okey (id : UTXOID) : bytes := key_of (KUtxo id).
#[global] Arguments utxo_okey : simpl never.
#[global] Arguments utxo_id_of_key : simpl never.

Lemma UTXOID_ok_key id : UTXOID_okb id = true <-> key_ok (KUtxo id).
Proof. unfold UTXOID_okb. by rewrite andb_true_iff, !bool_decide_eq_true. Qed.

Lemma utxo_id_of_okey id : UTXOID_okb id = true -> utxo_id_of_key (utxo_okey id) = Some id.
Proof.
  rewrite UTXOID_ok_key. destruct id as [b t o]. intros [Hb Ht].
  cbn [BlockNum TxIndex OutIndex] in Hb, Ht.
  unfold utxo_okey, utxo_id_of_key. cbn [key_of BlockNum TxIndex OutIndex].
  rewrite utxoKey_layout. unfold utxoPrefix. cbn [app].
  rewrite !length_app, !length_be_put. cbn [length Nat.add Nat.eqb].
  rewrite take_app_length', drop_app_length' by (by rewrite length_be_put).
  rewrite take_app_length' by (by rewrite length_be_put).
  rewrite lookup_app_r, length_be_put by (rewrite length_be_put; lia).
  rewrite lookup_app_r, length_be_put by (rewrite length_be_put; lia). cbn.
  rewrite !be_val_put, !Z.mod_small; [done|exact Ht|exact Hb].
Qed.

Lemma utxo_id_of_key_inv k id :
  utxo_id_of_key k = Some id -> UTXOID_okb id = true /\ k = utxo_okey id.
Proof.
  unfold utxo_id_of_key. intros E.
  destruct k as [|c r]; [done|]. destruct c; try done.
  destruct (Nat.eqb_spec (length r) 13) as [Hl|]; [|done]. injection E as <-.
  rewrite UTXOID_ok_key. unfold utxo_okey. cbn [key_of key_ok BlockNum TxIndex OutIndex].
  assert (H8 : length (take 8 r) = 8%nat) by (rewrite length_take; lia).
  assert (H4 : length (take 4 (drop 8 r)) = 4%nat) by (rewrite length_take, length_drop; lia).
  pose proof (be_val_bound (take 8 r)) as B8. rewrite H8 in B8.
  pose proof (be_val_bound (take 4 (drop 8 r))) as B4. rewrite H4 in B4.
  split; [split; (split; [apply be_val_nonneg|assumption])|].
  pose proof (be_put_val (take 8 r)) as P8. rewrite H8 in P8.
  pose proof (be_put_val (take 4 (drop 8 r))) as P4. rewrite H4 in P4.
  rewrite utxoKey_layout, P8, P4.
  destruct (lookup_lt_is_Some_2 r 12) as [x Hx]; [lia|]. rewrite Hx. simpl. f_equal.
  rewrite <- (take_drop 8 r) at 1. f_equal. rewrite <- (take_drop 4 (drop 8 r)) at 1. f_equal.
  rewrite drop_drop. rewrite (drop_S _ x) by done. rewrite drop_ge by (simpl; lia). done.
Qed.

Section Ledger.
Context `{EthCommon}.

Definition utxo_out_of (v : bytes) : Address * Z :=
  (BytesToAddress (take 20 v), be_val (drop 20 v)).

Definition ledger_entry (p : bytes * bytes) : option (UTXOID * (Address * Z)) :=
  match utxo_id_of_key p.1 with
  | Some id => Some (id, utxo_out_of p.2)
  | None => None
  end.

(** The unspent outputs a database holds. *)
Definition ledger_of (m : gmap bytes bytes) : ledger :=
  list_to_map (omap ledger_entry (map_to_list m)).

Lemma elem_of_ledger m id o :
  (id, o) ∈ omap ledger_entry (map_to_list m) <->
  UTXOID_okb id = true /\ utxo_out_of <$> m !! utxo_okey id = Some o.
Proof.
  rewrite list_elem_of_omap. split.
  - intros ([k v] & Hkv & E). unfold ledger_entry in E. simpl in E.
    destruct (utxo_id_of_key k) as [id'|] eqn:Ek; simplify_eq/=.
    apply utxo_id_of_key_inv in Ek as [Hok ->].
    apply elem_of_map_to_list in Hkv. rewrite Hkv. done.
  - intros [Hok E]. apply fmap_Some in E as (v & Hv & ->).
    exists (utxo_okey id, v). split; [by apply elem_of_map_to_list|].
    unfold ledger_entry. cbn [fst snd]. by rewrite utxo_id_of_okey.
Qed.

Lemma ledger_lookup m id :
  ledger_of m !! id = if UTXOID_okb id then utxo_out_of <$> m !! utxo_okey id else None.
Proof.
  apply option_eq. intros o. unfold ledger_of. rewrite <- elem_of_list_to_map'.
  - rewrite elem_of_ledger. destruct (UTXOID_okb id); naive_solver.
  - intros o' H1. rewrite elem_of_ledger in H1.
    intros H2. rewrite elem_of_ledger in H2. naive_solver congruence.
Qed.

Lemma ledger_insert m id v : UTXOID_okb id = true ->
  ledger_of (<[utxo_okey id := v]> m) = <[id := utxo_out_of v]> (ledger_of m).
Proof.
  intros Hok. apply map_eq. intros j. rewrite ledger_lookup.
  destruct (decide (j = id)) as [->|Hne].
  - by rewrite !lookup_insert_eq, Hok.
  - rewrite (lookup_insert_ne _ id j), ledger_lookup by done.
    destruct (UTXOID_okb j) eqn:Hj; [|done]. unfold utxo_okey. f_equal.
    apply lookup_key_ne; [by apply UTXOID_ok_key|by apply UTXOID_ok_key|congruence].
Qed.

Lemma ledger_delete m id : UTXOID_okb id = true ->
  ledger_of (delete (utxo_okey id) m) = delete id (ledger_of m).
Proof.
  intros Hok. apply map_eq. intros j. rewrite ledger_lookup.
  destruct (decide (j = id)) as [->|Hne].
  - by rewrite !lookup_delete_eq, Hok.
  - rewrite (lookup_delete_ne _ id j), ledger_lookup by done.
    destruct (UTXOID_okb j) eqn:Hj; [|done]. f_equal. apply lookup_delete_ne.
    apply key_ne; [by apply UTXOID_ok_key|by apply UTXOID_ok_key|congruence].
Qed.

(** Writes of any other schema key leave the ledger alone. *)
Lemma ledger_other m k v : key_ok k -> (forall id, k <> KUtxo id) ->
  ledger_of (<[key_of k := v]> m) = ledger_of m.
Proof.
  intros Hk Hne. apply map_eq. intros j. rewrite !ledger_lookup.
  destruct (UTXOID_okb j) eqn:Hj; [|done]. f_equal.
  apply lookup_key_ne; [done|by apply UTXOID_ok_key|by apply Hne].
Qed.

(** Every record is long enough to hold an owner. *)
Definition utxos_wf (m : gmap bytes bytes) : Prop :=
  forall id v, UTXOID_okb id = true -> m !! utxo_okey id = Some v -> (20 <= length v)%nat.

Lemma utxos_wf_other m k v : utxos_wf m -> key_ok k -> (forall id, k <> KUtxo id) ->
  utxos_wf (<[key_of k := v]> m).
Proof.
  intros Hwf Hk Hne id w Hid Hw. apply (Hwf id w Hid). rewrite <- Hw. symmetry.
  apply lookup_key_ne; [done|by apply UTXOID_ok_key|by apply Hne].
Qed.

Lemma utxos_wf_insert m id v : utxos_wf m -> (20 <= length v)%nat ->
  UTXOID_okb id = true -> utxos_wf (<[utxo_okey id := v]> m).
Proof.
  intros Hwf Hv Hok j w Hj Hw. destruct (decide (j = id)) as [->|Hne].
  - rewrite lookup_insert_eq in Hw. by simplify_eq.
  - apply (Hwf j w Hj). rewrite <- Hw. symmetry.
    apply lookup_key_ne; [by apply UTXOID_ok_key|by apply UTXOID_ok_key|congruence].
Qed.

Lemma utxos_wf_delete m k : utxos_wf m -> utxos_wf (delete k m).
Proof. intros Hwf id v Hid Hv. apply lookup_delete_Some in Hv as [_ Hv]. eauto. Qed.

Lemma utxo_out_of_written `{!EthCommonLaws} (owner : Address) a :
  utxo_out_of (arr owner ++ big_Bytes a) = (owner, Z.abs a).
Proof.
  unfold utxo_out_of. rewrite take_app_length', drop_app_length' by (by rewrite length_arr).
  by rewrite BytesToAddress_arr, be_val_Bytes.
Qed.
End Ledger.

(** * The database implements the ledger *)

Section UTXOSetFacts.
Context {D : Type} `{EthCommon} `{Database D} (abs : D -> txstore) (inv : D -> Prop).

Definition us_view (d : D) : ledger := ledger_of (committed (abs d)).
Definition us_inv (d : D) : Prop := inv d /\ utxos_wf (committed (abs d)).

#[export] Instance UTXOSet_ReaderSpec `{!ReadSpec D abs inv} : UtxoReaderSpec D us_view us_inv.
Proof.
  split. intros d id [Hinv Hwf] Hok. simpl. unfold UTXOSet_Get, ReadUTXO, us_view.
  rewrite (get_committed abs inv) by done.
  change (utxoKey _ _ _) with (utxo_okey id). rewrite ledger_lookup, Hok.
  destruct (committed (abs d) !! utxo_okey id) as [v|] eqn:E; [|done].
  specialize (Hwf id v Hok E). change (default [] (Some v)) with v.
  destruct v as [|c v]; [simpl in Hwf; lia|].
  rewrite (proj2 (Nat.ltb_ge _ _)) by done. destruct id. done.
Qed.

(** The record [UTXOSet.Put] writes. *)
Definition utxo_record (u : UTXO) (amount : Z) : wop :=
  WPut (utxo_okey (UTXO_ID u)) (arr (Owner (utxo_TxOut u)) ++ big_Bytes amount).

Lemma UTXOSet_Put_eq (d : D) u amount :
  Amount (utxo_TxOut u) = Some amount ->
  utxo_Put d u = Ret (db_Put d (utxo_okey (UTXO_ID u)) (arr (Owner (utxo_TxOut u)) ++ big_Bytes amount)).
Proof. intros E. simpl. unfold UTXOSet_Put, WriteUTXO. by rewrite E. Qed.

Lemma UTXOSet_Del_eq (d : D) id : utxo_Del d id = db_Delete d (utxo_okey id).
Proof. done. Qed.

End UTXOSetFacts.
