(* ===== verification/Validation.v ===== *)
(** core/tx_validator.go and core/block_validator.go: what makes a transaction
    and a block acceptable, as the code decides it and as declarative
    conditions. *)

From S2P Require Import Prelude Deps Types Signing Store Schema RawDB Utxo.
#[local] Open Scope Z_scope.

(** The rest of core/interfaces.go. Block lookups fill caches, so they return
    the reader. *)
Class BlockReader (R : Type) : Type := {
  br_HasBlock : R -> Hash -> Z -> R * bool;
  br_CurrentBlock : R -> go Block;
  br_GetBlock : R -> Hash -> Z -> R * option Block;
  br_GetBlockByNumber : R -> Z -> R * option Block
}.
Class TxValidator (V : Type) : Type := {
  tv_Validate : V -> Transaction -> go (option error)
}.

(** [zeroFee] and [big0]. *)
Definition big0 : Z := 0.
Definition zeroFee : Z := big0.

(** * UtxoTxValidator *)

Record UtxoTxValidator (G U : Type) : Type := NewUtxoTxValidator {
  tv_signer : G;
  tv_utxoReader : U
}.
Arguments NewUtxoTxValidator {G U} _ _.
Arguments tv_signer {G U} _.
Arguments tv_utxoReader {G U} _.

Section TxValidation.
Context {G U : Type} `{Crypto} `{!Signer G} `{Copier} `{Rlp txdata} `{UtxoReader U}.

(** The body of the loop over the inputs; the state is [totalInAmount]. *)
Definition check_input (v : UtxoTxValidator G U) (senders : Address * Address)
    (totalInAmount : Z) (p : nat * option UTXO) : go (Z * option error) :=
  let! in_ := deref p.2 in
  if BlockNum (UTXO_ID in_) =? 0 then Ret (totalInAmount, None)
  else
    let! utxo := utxo_Get (tv_utxoReader v) (UTXO_ID in_) in
    match utxo with
    | None => Ret (totalInAmount, Some ErrAlreadySpent)
    | Some utxo =>
        let! sender := index (pair_list senders) p.1 in
        if decide (Owner (utxo_TxOut utxo) = sender) then
          let! amount := deref (Amount (utxo_TxOut utxo)) in
          Ret (totalInAmount + amount, None)
        else Ret (totalInAmount, Some ErrTxOutNotOwned)
    end.

(** The body of the loop over the outputs; the state is [totalOutAmount]. *)
Definition check_output (totalOutAmount : Z) (o : option TxOut) : go (Z * option error) :=
  let! out := deref o in
  match Amount out with
  | None => Ret (totalOutAmount, None)
  | Some amount =>
      if amount =? big0 then Ret (totalOutAmount, None)
      else if amount <=? big0 then Ret (totalOutAmount, Some ErrInvalidOutputAmount)
      else Ret (totalOutAmount + amount, None)
  end.

Definition Validate (v : UtxoTxValidator G U) (tx : Transaction) : go (option error) :=
  if 32 * 1024 <? Transaction_Size tx then Ret (Some ErrOversizedData)
  else
    let! fee := Fee tx in
    if fee <=? zeroFee then Ret (Some ErrNotEnoughTxFee)
    else
      let! (senders, err) := Sender (tv_signer v) tx in
      match err with
      | Some _ => Ret (Some ErrInvalidSender)
      | None =>
          let ins := GetInsCopy tx in
          let! p0 := index ins 0 in
          let! in0 := deref p0 in
          let! p1 := index ins 1 in
          let! in1 := deref p1 in
          if UTXO_Equals in0 in1 then Ret (Some ErrDuplicateSpent)
          else
            let! (totalInAmount, err) := eloop (check_input v senders) 0 (imap pair ins) in
            match err with
            | Some _ => Ret err
            | None =>
                let! (totalOutAmount, err) := eloop check_output 0 (GetOutsCopy tx) in
                match err with
                | Some _ => Ret err
                | None =>
                    let! fee := Fee tx in
                    if negb (totalInAmount =? totalOutAmount + fee)
                    then Ret (Some ErrTxTotalAmountNotEqual)
                    else Ret None
                end
            end
      end.

#[export] Instance UtxoTxValidator_TxValidator : TxValidator (UtxoTxValidator G U) := {
  tv_Validate := Validate
}.
End TxValidation.

(** * UtxoBlockValidator *)

Record UtxoBlockValidator (G R U : Type) : Type := mkUtxoBlockValidator {
  bv_blcReader : R;
  bv_utxoReader : U;
  bv_txValidator : UtxoTxValidator G U
}.
Arguments mkUtxoBlockValidator {G R U} _ _ _.
Arguments bv_blcReader {G R U} _.
Arguments bv_utxoReader {G R U} _.
Arguments bv_txValidator {G R U} _.

Definition NewUtxoBlockValidator {G R U} (s : G) (br : R) (ur : U) : UtxoBlockValidator G R U :=
  mkUtxoBlockValidator br ur (NewUtxoTxValidator s ur).

Section BlockValidation.
Context {G R U : Type} `{Crypto} `{!Signer G} `{Copier} `{Trie} `{Rlp txdata} `{Rlp Z}
  `{Rlp Header} `{UtxoReader U} `{BlockReader R}.

(** The inner loop of [validateTx]: mark the inputs of one transaction. *)
Definition spend_input (ur : U) (spent : gmap UTXOID UTXO) (p : option UTXO)
  : go (gmap UTXOID UTXO * option error) :=
  let! in_ := deref p in
  if IsNullUTXO in_ then Ret (spent, None)
  else
    match spent !! UTXO_ID in_ with
    | Some _ => Ret (spent, Some ErrDuplicateSpent)
    | None =>
        let! utxo := utxo_Get ur (UTXO_ID in_) in
        match utxo with
        | None => Stop Fatal
        | Some utxo => Ret (<[UTXO_ID in_ := utxo]> spent, None)
        end
    end.

Definition validate_one (v : UtxoBlockValidator G R U) (spent : gmap UTXOID UTXO)
    (tx : Transaction) : go (gmap UTXOID UTXO * option error) :=
  let! err := tv_Validate (bv_txValidator v) tx in
  match err with
  | Some _ => Ret (spent, err)
  | None => eloop (spend_input (bv_utxoReader v)) spent (GetInsCopy tx)
  end.

Definition validateTx (v : UtxoBlockValidator G R U) (trans : list Transaction)
  : go (option error) :=
  let! (_, err) := eloop (validate_one v) ∅ trans in
  Ret err.

Definition errTxRootMismatch : error := ErrMsg "transaction root hash mismatch".

Definition ValidateBody (v : UtxoBlockValidator G R U) (block : Block)
  : go (UtxoBlockValidator G R U * option error) :=
  let! number := Block_NumberU64 block in
  let (br, known) := br_HasBlock (bv_blcReader v) (Block_Hash block) number in
  let v := mkUtxoBlockValidator br (bv_utxoReader v) (bv_txValidator v) in
  if known then Ret (v, Some ErrKnownBlock)
  else
    let header := Block_Header block in
    let! hash := DeriveSha (Block_Transactions block) in
    if decide (hash = TxHash header) then
      let! err := validateTx v (Block_Transactions block) in
      Ret (v, err)
    else Ret (v, Some errTxRootMismatch).
End BlockValidation.

(** * What acceptance means *)

(** The parts of a transaction with no nil pointer, its inputs' identifiers in
    the range of their Go types. *)
Definition tx_parts (tx : Transaction) (i1 i2 : UTXO) (o1 o2 : TxOut) (f : Z) : Prop :=
  Ins (tx_data tx) = (Some i1, Some i2) /\ Outs (tx_data tx) = (Some o1, Some o2) /\
  data_Fee (tx_data tx) = Some f /\
  UTXOID_okb (UTXO_ID i1) = true /\ UTXOID_okb (UTXO_ID i2) = true.

(** Block number 0 marks an unused input. *)
Definition in_amount (L : ledger) (i : UTXO) : Z :=
  if BlockNum (UTXO_ID i) =? 0 then 0 else default 0 (snd <$> L !! UTXO_ID i).

Definition owned (L : ledger) (i : UTXO) (a : Address) : Prop :=
  BlockNum (UTXO_ID i) <> 0 -> exists amount, L !! UTXO_ID i = Some (a, amount).

Definition out_amount (o : TxOut) : Z := default 0 (Amount o).

(** The consensus rules of a transaction over a ledger: distinct inputs, each
    unspent and owned by its signer, no negative output, a positive fee, and
    inputs equal to outputs plus fee. An output of zero, or with no amount, counts
    as an unused one: the loop of [Validate] passes over it before it looks at the
    sign. (core/tx_validator_test.go asks for [ErrInvalidOutputAmount] there.) *)
Record tx_rules (L : ledger) (senders : Address * Address) (i1 i2 : UTXO) (o1 o2 : TxOut)
    (f size : Z) : Prop := {
  rule_size : size <= 32768;
  rule_fee : 0 < f;
  rule_distinct : UTXO_ID i1 <> UTXO_ID i2;
  rule_owned1 : owned L i1 senders.1;
  rule_owned2 : owned L i2 senders.2;
  rule_out1 : 0 <= out_amount o1;
  rule_out2 : 0 <= out_amount o2;
  rule_balance : in_amount L i1 + in_amount L i2 = out_amount o1 + out_amount o2 + f
}.

Section TxFacts.
Context {G U : Type} `{Crypto} `{!Signer G} `{Copier} `{!CopierLaws} `{Rlp txdata} `{UtxoReader U}
  (view : U -> ledger) (inv : U -> Prop) `{!UtxoReaderSpec U view inv}.

Lemma check_input_spec (v : UtxoTxValidator G U) senders total k i a :
  inv (tv_utxoReader v) -> UTXOID_okb (UTXO_ID i) = true -> pair_list senders !! k = Some a ->
  exists e, check_input v senders total (k, Some i) =
              Ret (total + match e with None => in_amount (view (tv_utxoReader v)) i | _ => 0 end, e)
    /\ (e = None <-> owned (view (tv_utxoReader v)) i a).
Proof.
  intros Hinv Hok Ha. unfold check_input, owned, in_amount. simpl.
  destruct (Z.eqb_spec (BlockNum (UTXO_ID i)) 0) as [Hz|Hz].
  { exists None. split; [by rewrite Z.add_0_r|]. done. }
  rewrite (spec_utxo_Get (view := view)) by done. unfold index. rewrite Ha.
  destruct (view (tv_utxoReader v) !! UTXO_ID i) as [[o amt]|]; simpl.
  - case_decide as Ho; subst.
    + exists None. split; [done|]. split; [eauto|done].
    + exists (Some ErrTxOutNotOwned). split; [by rewrite Z.add_0_r|].
      split; [done|]. intros E. destruct (E Hz) as [? [= -> ->]]. done.
  - exists (Some ErrAlreadySpent). split; [by rewrite Z.add_0_r|].
    split; [done|]. intros E. destruct (E Hz) as [? [=]].
Qed.

Lemma check_output_spec total o :
  exists e, check_output total (Some o) =
              Ret (total + match e with None => out_amount o | _ => 0 end, e)
    /\ (e = None <-> 0 <= out_amount o).
Proof.
  unfold check_output, out_amount, big0. simpl. destruct (Amount o) as [a|]; simpl.
  - destruct (Z.eqb_spec a 0) as [->|Ha].
    { exists None. split; [by rewrite Z.add_0_r|]. done. }
    destruct (Z.leb_spec a 0).
    + exists (Some ErrInvalidOutputAmount). split; [by rewrite Z.add_0_r|]. split; [done|lia].
    + exists None. split; [done|]. split; [lia|done].
  - exists None. split; [by rewrite Z.add_0_r|]. done.
Qed.

(** [Validate] returns on every transaction without nil pointers, and accepts
    exactly those that meet the rules. *)
Lemma Validate_spec (v : UtxoTxValidator G U) tx i1 i2 o1 o2 f senders serr :
  inv (tv_utxoReader v) -> tx_parts tx i1 i2 o1 o2 f ->
  Sender (tv_signer v) tx = Ret (senders, serr) ->
  exists e, Validate v tx = Ret e /\
    (e = None <-> serr = None /\
      tx_rules (view (tv_utxoReader v)) senders i1 i2 o1 o2 f (Transaction_Size tx)).
Proof.
  intros Hinv (Hi & Ho & Hf & Hok1 & Hok2) Hs. unfold Validate, Fee.
  rewrite Hf, GetInsCopy_pair, GetOutsCopy_pair, Hi, Ho. cbn [deref gbind].
  destruct (Z.ltb_spec (32 * 1024) (Transaction_Size tx)) as [|Hsz].
  { eexists. split; [done|]. split; [done|]. intros [_ []]. lia. }
  rewrite Z.add_0_r. unfold zeroFee, big0.
  destruct (Z.leb_spec f 0) as [|Hpos].
  { eexists. split; [done|]. split; [done|]. intros [_ []]. lia. }
  rewrite Hs. cbn [gbind]. destruct serr as [serr|].
  { eexists. split; [done|]. naive_solver. }
  cbn [pair_list index lookup list_lookup gbind deref fst snd].
  destruct (UTXO_Equals i1 i2) eqn:Heq.
  { apply UTXO_Equals_spec in Heq. eexists. split; [done|]. split; [done|]. by intros [_ []]. }
  assert (Hne : UTXO_ID i1 <> UTXO_ID i2).
  { intros E. apply UTXO_Equals_spec in E. congruence. }
  change (imap pair (pair_list (Some i1, Some i2))) with [(0%nat, Some i1); (1%nat, Some i2)].
  change (pair_list (Some o1, Some o2)) with [Some o1; Some o2]. cbn [eloop].
  destruct (check_input_spec v senders 0 0 i1 senders.1 Hinv Hok1 eq_refl) as ([e1|] & -> & Hw1);
    cbn [gbind].
  { eexists. split; [done|]. split; [done|]. intros [_ []]. naive_solver. }
  destruct (check_input_spec v senders (0 + in_amount (view (tv_utxoReader v)) i1) 1 i2 senders.2
    Hinv Hok2 eq_refl) as ([e2|] & Hc2 & Hw2); rewrite Hc2; cbn [gbind].
  { eexists. split; [done|]. split; [done|]. intros [_ []]. naive_solver. }
  destruct (check_output_spec 0 o1) as ([e3|] & -> & Hw3); cbn [gbind].
  { eexists. split; [done|]. split; [done|]. intros [_ []]. naive_solver. }
  destruct (check_output_spec (0 + out_amount o1) o2) as ([e4|] & -> & Hw4); cbn [gbind].
  { eexists. split; [done|]. split; [done|]. intros [_ []]. naive_solver. }
  destruct (Z.eqb_spec (0 + in_amount (view (tv_utxoReader v)) i1 +
    in_amount (view (tv_utxoReader v)) i2) (0 + out_amount o1 + out_amount o2 + f)) as [Hb|Hb];
    cbn [negb]; eexists; (split; [done|]); (split; [|]).
  - intros _. split; [done|]. split; try done; naive_solver.
  - done.
  - done.
  - intros [_ []]. lia.
Qed.

Lemma check_input_error (v : UtxoTxValidator G U) senders total p total' e :
  check_input v senders total p = Ret (total', Some e) -> e <> ErrInvalidOutputAmount.
Proof.
  unfold check_input. intros E. apply gbind_Ret in E as [in_ [_ E]]. case_match; [done|].
  apply gbind_Ret in E as [[utxo|] [_ E]]; [|by injection E as _ <-].
  apply gbind_Ret in E as [sender [_ E]]. case_decide; [|by injection E as _ <-].
  by apply gbind_Ret in E as [amount [_ E]].
Qed.

(** The error for outputs is reported for a negative one, and for no other. *)
Lemma Validate_output_error (v : UtxoTxValidator G U) tx i1 i2 o1 o2 f :
  tx_parts tx i1 i2 o1 o2 f -> Validate v tx = Ret (Some ErrInvalidOutputAmount) ->
  out_amount o1 < 0 \/ out_amount o2 < 0.
Proof.
  intros (Hi & Ho & Hf & _) E. unfold Validate, Fee in E.
  rewrite Hf, GetInsCopy_pair, GetOutsCopy_pair, Hi, Ho in E. cbn [deref gbind] in E.
  case_match; [done|]. case_match; [done|]. apply gbind_Ret in E as [[senders serr] [_ E]].
  destruct serr; [done|]. cbn [pair_list index lookup list_lookup gbind deref fst snd] in E.
  case_match; [done|]. apply gbind_Ret in E as [[total [e|]] [E1 E]].
  { injection E as ->. exfalso. apply eloop_error in E1 as (s & p & s' & E1). by eapply check_input_error. }
  change (pair_list (Some o1, Some o2)) with [Some o1; Some o2] in E. cbn [eloop] in E.
  destruct (check_output_spec 0 o1) as (e3 & E3 & Hw3). rewrite E3 in E. cbn [gbind] in E.
  destruct e3 as [e3|]; [left; apply Z.nle_gt; naive_solver|].
  destruct (check_output_spec (0 + out_amount o1) o2) as (e4 & E4 & Hw4). rewrite E4 in E. cbn [gbind] in E.
  destruct e4 as [e4|]; [right; apply Z.nle_gt; naive_solver|]. cbn [gbind] in E. by case_match.
Qed.
End TxFacts.

(** * Blocks *)

(** The identifiers a list of inputs spends: those that do not carry block 0. *)
Definition real_of (ins : list UTXO) : list UTXOID :=
  filter (fun id => BlockNum id <> 0) (UTXO_ID <$> ins).

Definition real_ids (tx : Transaction) : list UTXOID :=
  real_of (omap (fun p => p) (pair_list (Ins (tx_data tx)))).

Definition all_real_ids (txs : list Transaction) : list UTXOID := concat (real_ids <$> txs).

(** No nil pointer, and the signature check returns. *)
Definition tx_checkable {G} `{Crypto} `{!Signer G} (sg : G) (tx : Transaction) : Prop :=
  (exists i1 i2 o1 o2 f, tx_parts tx i1 i2 o1 o2 f) /\ returns (Sender sg tx).

Section BlockFacts.
Context {G R U : Type} `{Crypto} `{!Signer G} `{Copier} `{!CopierLaws} `{Trie} `{Rlp txdata} `{Rlp Z}
  `{Rlp Header} `{UtxoReader U} `{BlockReader R}
  (view : U -> ledger) (inv : U -> Prop) `{!UtxoReaderSpec U view inv}.

Lemma real_of_cons i ins :
  real_of (i :: ins) = if decide (BlockNum (UTXO_ID i) <> 0) then UTXO_ID i :: real_of ins else real_of ins.
Proof. unfold real_of. rewrite fmap_cons, filter_cons. done. Qed.

Lemma spend_loop (ur : U) ins : inv ur ->
  Forall (fun i => UTXOID_okb (UTXO_ID i) = true) ins ->
  Forall (fun id => is_Some (view ur !! id)) (real_of ins) ->
  forall spent, exists spent' e,
    eloop (spend_input ur) spent (Some <$> ins) = Ret (spent', e) /\
    (e = None <-> NoDup (real_of ins) /\ forall id, id ∈ real_of ins -> id ∉ dom spent) /\
    (e = None -> dom spent' = dom spent ∪ list_to_set (real_of ins)).
Proof.
  intros Hinv. induction ins as [|i ins IH]; intros Hok Hin spent.
  { exists spent, None. simpl. split; [done|].
    split; [split; [split; [constructor|set_solver]|done]|set_solver]. }
  apply Forall_cons in Hok as [Hoki Hok]. rewrite real_of_cons in *.
  cbn [fmap list_fmap eloop]. unfold spend_input at 1, IsNullUTXO.
  cbn [deref gbind].
  change (BlockNum (utxo_UTXOID i)) with (BlockNum (UTXO_ID i)).
  destruct (Z.eqb_spec (BlockNum (UTXO_ID i)) 0) as [Hz|Hz]; case_decide; try done; cbn [gbind].
  { apply IH; done. }
  apply Forall_cons in Hin as [[o Hoi] Hin].
  destruct (spent !! UTXO_ID i) as [u|] eqn:Hs; cbn [gbind].
  { exists spent, (Some ErrDuplicateSpent). split; [done|]. split; [|done].
    split; [done|]. intros [_ Hd]. apply elem_of_dom_2 in Hs. set_solver. }
  rewrite (spec_utxo_Get (view := view)), Hoi by done. cbn [gbind fmap option_fmap option_map].
  set (u := mkUTXO _ _). clearbody u.
  destruct (IH Hok Hin (<[UTXO_ID i := u]> spent)) as (spent' & e & He & Hiff & Hdom).
  exists spent', e. split; [done|]. apply not_elem_of_dom in Hs. split.
  - rewrite Hiff, NoDup_cons, dom_insert_L. set_solver.
  - intros E. rewrite Hdom, dom_insert_L by done. set_solver.
Qed.

Lemma tx_parts_ins tx i1 i2 o1 o2 f : tx_parts tx i1 i2 o1 o2 f ->
  GetInsCopy tx = Some <$> [i1; i2] /\ real_ids tx = real_of [i1; i2].
Proof.
  intros (Hi & _). rewrite GetInsCopy_pair. unfold real_ids. by rewrite Hi.
Qed.

(** An accepted transaction spends outputs that are in the ledger. *)
Lemma accepted_real (v : UtxoTxValidator G U) tx i1 i2 o1 o2 f :
  inv (tv_utxoReader v) -> tx_parts tx i1 i2 o1 o2 f -> returns (Sender (tv_signer v) tx) ->
  Validate v tx = Ret None ->
  Forall (fun id => is_Some (view (tv_utxoReader v) !! id)) (real_of [i1; i2]).
Proof.
  intros Hinv Hp [[senders serr] Hs] Hv.
  destruct (Validate_spec view inv v tx _ _ _ _ _ senders serr Hinv Hp Hs) as (e & He & Hiff).
  rewrite Hv in He. injection He as <-. destruct (proj1 Hiff eq_refl) as [_ Hr].
  apply Forall_forall. intros id. unfold real_of.
  rewrite list_elem_of_filter, list_elem_of_fmap. intros (Hz & i & -> & Hi).
  pose proof (rule_owned1 _ _ _ _ _ _ _ _ Hr) as E1.
  pose proof (rule_owned2 _ _ _ _ _ _ _ _ Hr) as E2.
  apply list_elem_of_In in Hi. destruct Hi as [<-|[<-|[]]].
  - destruct (E1 Hz) as [? ->]. done.
  - destruct (E2 Hz) as [? ->]. done.
Qed.

Lemma validate_txs_loop (v : UtxoBlockValidator G R U) txs :
  inv (bv_utxoReader v) -> bv_utxoReader v = tv_utxoReader (bv_txValidator v) ->
  Forall (tx_checkable (tv_signer (bv_txValidator v))) txs ->
  forall spent, exists spent' e,
    eloop (validate_one v) spent txs = Ret (spent', e) /\
    (e = None <-> Forall (fun tx => Validate (bv_txValidator v) tx = Ret None) txs /\
                  NoDup (all_real_ids txs) /\
                  forall id, id ∈ all_real_ids txs -> id ∉ dom spent).
Proof.
  intros Hinv Heq. induction txs as [|tx txs IH]; intros Hck spent.
  { exists spent, None. split; [done|]. split; [|done]. intros _.
    split_and!; [done|constructor|]. unfold all_real_ids. simpl. set_solver. }
  apply Forall_cons in Hck as [((i1 & i2 & o1 & o2 & f & Hp) & Hret) Hck].
  cbn [eloop]. unfold validate_one at 1. simpl tv_Validate.
  destruct Hret as [[senders serr] Hs].
  destruct (Validate_spec view inv (bv_txValidator v) tx i1 i2 o1 o2 f senders serr) as (e & He & _);
    [by rewrite <- Heq|done|done|].
  rewrite He. cbn [gbind]. destruct e as [e|]; cbn [gbind].
  { exists spent, (Some e). split; [done|]. split; [done|]. intros [Hall _].
    apply Forall_cons in Hall as [Hv _]. congruence. }
  destruct (tx_parts_ins _ _ _ _ _ _ Hp) as [Hins Hreal]. rewrite Hins.
  destruct Hp as (Hp1 & Hp2 & Hp3 & Hok1 & Hok2).
  destruct (spend_loop (bv_utxoReader v) [i1; i2] Hinv) with (spent := spent)
    as (spent1 & e1 & -> & Hiff1 & Hdom1); [by repeat constructor| |].
  { rewrite Heq. apply (accepted_real _ tx i1 i2 o1 o2 f); try done; [by rewrite <- Heq|by eexists]. }
  cbn [gbind]. rewrite <- Hreal in Hiff1, Hdom1. destruct e1 as [e1|].
  { exists spent1, (Some e1). split; [done|]. split; [done|].
    intros (_ & Hnd & Hdis). unfold all_real_ids in Hnd, Hdis. simpl in Hnd, Hdis.
    apply NoDup_app in Hnd as (Hnd & _ & _). apply Hiff1. set_solver. }
  destruct (IH Hck spent1) as (spent2 & e2 & -> & Hiff2). exists spent2, e2. split; [done|].
  destruct (proj1 Hiff1 eq_refl) as [Hnd1 Hdis1]. rewrite Hdom1 in Hiff2 by done.
  rewrite Hiff2, Forall_cons. unfold all_real_ids. simpl.
  rewrite NoDup_app. set_solver.
Qed.

(** A block body passes exactly when every transaction passes against the state
    before the block and no output is spent twice across the block. *)
Lemma validateTx_spec (v : UtxoBlockValidator G R U) txs :
  inv (bv_utxoReader v) -> bv_utxoReader v = tv_utxoReader (bv_txValidator v) ->
  Forall (tx_checkable (tv_signer (bv_txValidator v))) txs ->
  exists e, validateTx v txs = Ret e /\
    (e = None <-> Forall (fun tx => Validate (bv_txValidator v) tx = Ret None) txs /\
                  NoDup (all_real_ids txs)).
Proof.
  intros Hinv Heq Hck. unfold validateTx.
  destruct (validate_txs_loop v txs Hinv Heq Hck ∅) as (spent & e & -> & Hiff).
  exists e. split; [done|]. rewrite Hiff. set_solver.
Qed.

(** C8. Against any UTXO reader that looks up a ledger, [Validate] returns for
    every transaction without nil pointers whose signatures can be checked, and
    it accepts exactly the transactions with valid signatures that meet the
    consensus rules: at most 32 KiB, a positive fee, two distinct inputs, each
    unused or unspent and owned by its signer, no negative output, and inputs
    equal to outputs plus fee. An accepted transaction spends at least one
    output of the ledger. [ErrInvalidOutputAmount] is reported for negative outputs
    only: an output of zero or without amount is an unused one, though
    TestTxValidatorInvalidOutputAmount expects that error for an output of zero. *)
Theorem validate_accepts_iff (v : UtxoTxValidator G U) tx i1 i2 o1 o2 f senders serr :
  inv (tv_utxoReader v) -> tx_parts tx i1 i2 o1 o2 f ->
  Sender (tv_signer v) tx = Ret (senders, serr) ->
  exists e, Validate v tx = Ret e /\
    (e = None <-> serr = None /\
      tx_rules (view (tv_utxoReader v)) senders i1 i2 o1 o2 f (Transaction_Size tx)) /\
    (e = None -> real_ids tx <> []) /\
    (e = Some ErrInvalidOutputAmount -> out_amount o1 < 0 \/ out_amount o2 < 0).
Proof.
  intros Hinv Hp Hs.
  destruct (Validate_spec view inv v tx _ _ _ _ _ senders serr Hinv Hp Hs) as (e & He & Hiff).
  exists e. split_and!; [done|done| |by intros ->; eapply Validate_output_error]. intros E. destruct (proj1 Hiff E) as [_ [_ Hf _ _ _ Ho1 Ho2 Hb]].
  destruct (tx_parts_ins _ _ _ _ _ _ Hp) as [_ ->]. rewrite !real_of_cons. unfold in_amount in Hb.
  destruct (Z.eqb_spec (BlockNum (UTXO_ID i1)) 0), (Z.eqb_spec (BlockNum (UTXO_ID i2)) 0);
    repeat case_decide; try done; lia.
Qed.

(** C9. No double spending inside a block: [validateTx] returns, and accepts
    exactly the blocks whose every transaction is valid against the ledger
    before the block and in which no output is spent twice. The fatal exit of
    the inner loop is unreachable. *)
Theorem block_transactions_accepted_iff (v : UtxoBlockValidator G R U) txs :
  inv (bv_utxoReader v) -> bv_utxoReader v = tv_utxoReader (bv_txValidator v) ->
  Forall (tx_checkable (tv_signer (bv_txValidator v))) txs ->
  exists e, validateTx v txs = Ret e /\
    (e = None <-> Forall (fun tx => Validate (bv_txValidator v) tx = Ret None) txs /\
                  NoDup (all_real_ids txs)).
Proof. apply validateTx_spec. Qed.
End BlockFacts.
