(* ===== verification/HeaderChain.v ===== *)
(** core/headerchain.go: the header chain over the database, with its two LRU
    caches. The database is shared with the block chain, so every operation takes
    it and the ones that write return it. *)

From S2P Require Import Prelude Deps Types Store Schema RawDB.
#[local] Open Scope Z_scope.

(** The consensus engine of consensus/consensus.go, as far as this repository
    calls it: the results of a batch verification in the order of the headers. *)
Class Engine : Type := {
  engine_VerifyHeaders : list Header -> list bool -> list (option error)
}.

Definition headerCacheLimit : Z := 512.
Definition numberCacheLimit : Z := 2048.

(** [currentHeader] is an [atomic.Value] that holds a pointer: empty before the
    first store, and a stored pointer can be nil. The configuration is read for
    its [ChainID] only; the random source is an argument where it is used. *)
Record HeaderChain `{LRU} : Type := mkHeaderChain {
  hc_config : option Z;
  hc_genesisHeader : option Header;
  hc_currentHeader : option (option Header);
  hc_currentHeaderHash : Hash;
  hc_headerCache : lru Header;
  hc_numberCache : lru Z
}.

Section HeaderChain.
Context {D : Type} `{LRU} `{EthCommon} `{Crypto} `{Rlp Header}.

Definition hc_set_headerCache (hc : HeaderChain) (c : lru Header) : HeaderChain :=
  mkHeaderChain _ (hc_config hc) (hc_genesisHeader hc) (hc_currentHeader hc)
    (hc_currentHeaderHash hc) c (hc_numberCache hc).
Definition hc_set_numberCache (hc : HeaderChain) (c : lru Z) : HeaderChain :=
  mkHeaderChain _ (hc_config hc) (hc_genesisHeader hc) (hc_currentHeader hc)
    (hc_currentHeaderHash hc) (hc_headerCache hc) c.
Definition hc_set_current (hc : HeaderChain) (h : option Header) (hash : Hash) : HeaderChain :=
  mkHeaderChain _ (hc_config hc) (hc_genesisHeader hc) (Some h) hash
    (hc_headerCache hc) (hc_numberCache hc).

(** [SetGenesis]. *)
Definition SetGenesis (hc : HeaderChain) (head : option Header) : HeaderChain :=
  mkHeaderChain _ (hc_config hc) head (hc_currentHeader hc)
    (hc_currentHeaderHash hc) (hc_headerCache hc) (hc_numberCache hc).

(** [head.Hash()] on a pointer: RLP encodes a nil struct pointer as the empty
    list. *)
Definition Header_Hash_ptr (h : option Header) : Hash :=
  match h with Some h => Header_Hash h | None => keccak256 [Byte.xc0] end.

(** The type assertion panics when nothing was stored. *)
Definition CurrentHeader (hc : HeaderChain) : go (option Header) :=
  match hc_currentHeader hc with Some h => Ret h | None => Stop Panicked end.

Section Reading.
Context `{DatabaseReader D}.

Definition GetBlockNumber (d : D) (hc : HeaderChain) (hash : Hash) : HeaderChain * option Z :=
  let (c, cached) := lru_Get (hc_numberCache hc) hash in
  let hc := hc_set_numberCache hc c in
  match cached with
  | Some number => (hc, Some number)
  | None =>
      match ReadHeaderNumber d hash with
      | Some number => (hc_set_numberCache hc (lru_Add (hc_numberCache hc) hash number), Some number)
      | None => (hc, None)
      end
  end.

Definition GetHeader (d : D) (hc : HeaderChain) (hash : Hash) (number : Z)
  : HeaderChain * option Header :=
  let (c, cached) := lru_Get (hc_headerCache hc) hash in
  let hc := hc_set_headerCache hc c in
  match cached with
  | Some header => (hc, Some header)
  | None =>
      match ReadHeader d hash number with
      | None => (hc, None)
      | Some header => (hc_set_headerCache hc (lru_Add (hc_headerCache hc) hash header), Some header)
      end
  end.

Definition GetHeaderByHash (d : D) (hc : HeaderChain) (hash : Hash)
  : HeaderChain * option Header :=
  let (hc, number) := GetBlockNumber d hc hash in
  match number with
  | None => (hc, None)
  | Some number => GetHeader d hc hash number
  end.

Definition HC_HasHeader (d : D) (hc : HeaderChain) (hash : Hash) (number : Z) : bool :=
  if lru_Contains (hc_numberCache hc) hash || lru_Contains (hc_headerCache hc) hash
  then true
  else HasHeader d hash number.

Definition GetHeaderByNumber (d : D) (hc : HeaderChain) (number : Z)
  : HeaderChain * option Header :=
  let hash := ReadCanonicalHash d number in
  if decide (hash = zeroHash) then (hc, None) else GetHeader d hc hash number.

(** [NewHeaderChain]; the seed of the random source can fail. *)
Definition NewHeaderChain (seed_err : option error) (d : D) (config : option Z)
  : go (HeaderChain + error) :=
  match seed_err with
  | Some err => Ret (inr err)
  | None =>
      let hc := mkHeaderChain _ config None None zeroHash
                  (lru_New headerCacheLimit) (lru_New numberCacheLimit) in
      let (hc, genesis) := GetHeaderByNumber d hc 0 in
      let hc := SetGenesis hc genesis in
      match genesis with
      | None => Ret (inr ErrNoGenesis)
      | Some _ =>
          let hc := hc_set_current hc genesis (hc_currentHeaderHash hc) in
          let head := ReadHeadBlockHash d in
          let hc :=
            if decide (head = zeroHash) then hc
            else
              let (hc, chead) := GetHeaderByHash d hc head in
              match chead with
              | Some _ => hc_set_current hc chead (hc_currentHeaderHash hc)
              | None => hc
              end in
          let! cur := CurrentHeader hc in
          Ret (inl (hc_set_current hc cur (Header_Hash_ptr cur)))
      end
  end.

(** The loop of [GetBlockHashesFromHash]: [max] rounds at most. *)
Fixpoint hashes_from (d : D) (hc : HeaderChain) (header : Header) (max : nat)
  : go (HeaderChain * list Hash) :=
  match max with
  | O => Ret (hc, [])
  | S max =>
      let next := ParentHash header in
      let! n := Header_NumberU64 header in
      let (hc, header) := GetHeader d hc next (u64 (n - 1)) in
      match header with
      | None => Ret (hc, [])
      | Some header =>
          let! number := deref (Number header) in
          if number =? 0 then Ret (hc, [next])
          else
            let! (hc, chain) := hashes_from d hc header max in
            Ret (hc, next :: chain)
      end
  end.

Definition GetBlockHashesFromHash (d : D) (hc : HeaderChain) (hash : Hash) (max : nat)
  : go (HeaderChain * list Hash) :=
  let (hc, header) := GetHeaderByHash d hc hash in
  match header with
  | None => Ret (hc, [])
  | Some header => hashes_from d hc header max
  end.

(** The loop of [GetAncestor], [ancestor] rounds at most; [maxNonCanonical] is
    the counter behind the pointer. *)
Fixpoint ancestor_loop (d : D) (hc : HeaderChain) (hash : Hash) (number : Z)
    (ancestor : nat) (maxNonCanonical : Z) : HeaderChain * Z * (Hash * Z) :=
  match ancestor with
  | O => (hc, maxNonCanonical, (hash, number))
  | S ancestor' =>
      if decide (ReadCanonicalHash d number = hash) then
        let number := u64 (number - Z.of_nat ancestor) in
        (hc, maxNonCanonical, (ReadCanonicalHash d number, number))
      else if maxNonCanonical =? 0 then (hc, maxNonCanonical, (zeroHash, 0))
      else
        let (hc, header) := GetHeader d hc hash number in
        match header with
        | None => (hc, maxNonCanonical - 1, (zeroHash, 0))
        | Some header =>
            ancestor_loop d hc (ParentHash header) (u64 (number - 1)) ancestor'
              (maxNonCanonical - 1)
        end
  end.

Definition GetAncestor (d : D) (hc : HeaderChain) (hash : Hash) (number ancestor : Z)
    (maxNonCanonical : Z) : HeaderChain * Z * (Hash * Z) :=
  if number <? ancestor then (hc, maxNonCanonical, (zeroHash, 0))
  else if ancestor =? 1 then
    let (hc, header) := GetHeader d hc hash number in
    match header with
    | Some header => (hc, maxNonCanonical, (ParentHash header, u64 (number - 1)))
    | None => (hc, maxNonCanonical, (zeroHash, 0))
    end
  else ancestor_loop d hc hash number (Z.to_nat ancestor) maxNonCanonical.
End Reading.

(** [SetCurrentHeader]. *)
Definition SetCurrentHeader `{DatabaseWriter D} (d : D) (hc : HeaderChain) (head : option Header)
  : D * HeaderChain :=
  let d := WriteHeadHeaderHash d (Header_Hash_ptr head) in
  (d, hc_set_current hc head (Header_Hash_ptr head)).

Section Writing.
Context `{DatabaseReader D} `{DatabaseWriter D}.

(** The loop of [WriteHeader] that overwrites stale canonical numbers. *)
Fixpoint overwrite_canonical (fuel : nat) (d : D) (hc : HeaderChain) (headHash : Hash)
    (headNumber : Z) (headHeader : option Header) : go (D * HeaderChain) :=
  if decide (ReadCanonicalHash d headNumber = headHash) then Ret (d, hc)
  else
    match fuel with
    | O => Stop OutOfFuel
    | S fuel =>
        let d := WriteCanonicalHash d headHash headNumber in
        let! h := deref headHeader in
        let headHash := ParentHash h in
        let! n := Header_NumberU64 h in
        let headNumber := u64 (n - 1) in
        let (hc, headHeader) := GetHeader d hc headHash headNumber in
        overwrite_canonical fuel d hc headHash headNumber headHeader
    end.

Definition HC_WriteHeader (fuel : nat) (d : D) (hc : HeaderChain) (header : Header)
  : go (D * HeaderChain) :=
  let hash := Header_Hash header in
  let! number := Header_NumberU64 header in
  let! d := WriteHeader d header in
  let headHash := ParentHash header in
  let headNumber := u64 (number - 1) in
  let (hc, headHeader) := GetHeader d hc headHash headNumber in
  let! (d, hc) := overwrite_canonical fuel d hc headHash headNumber headHeader in
  let d := WriteCanonicalHash d hash number in
  let d := WriteHeadHeaderHash d hash in
  let hc := hc_set_current hc (Some (CopyHeader header)) hash in
  let hc := hc_set_headerCache hc (lru_Add (hc_headerCache hc) hash header) in
  Ret (d, hc_set_numberCache hc (lru_Add (hc_numberCache hc) hash number)).

(** [InsertHeaderChain] with its [writeHeader] callback and the interrupt flag
    seen at each round; the last header is read for the log even when the
    chain is empty. *)
Fixpoint insert_headers (writeHeader : D -> HeaderChain -> Header -> go (D * HeaderChain * option error))
    (interrupt : nat -> bool) (i : nat) (d : D) (hc : HeaderChain) (chain : list Header)
  : go (D * HeaderChain * (nat * option error)) :=
  match chain with
  | [] => Ret (d, hc, (0%nat, None))
  | header :: chain =>
      if interrupt i then Ret (d, hc, (i, Some (ErrMsg "aborted")))
      else
        let! n := Header_NumberU64 header in
        if HC_HasHeader d hc (Header_Hash header) n
        then insert_headers writeHeader interrupt (S i) d hc chain
        else
          let! (d, hc, err) := writeHeader d hc header in
          match err with
          | Some _ => Ret (d, hc, (i, err))
          | None => insert_headers writeHeader interrupt (S i) d hc chain
          end
  end.

Definition InsertHeaderChain writeHeader interrupt (d : D) (hc : HeaderChain) (chain : list Header)
  : go (D * HeaderChain * (nat * option error)) :=
  let! (d, hc, (i, err)) := insert_headers writeHeader interrupt 0 d hc chain in
  match err with
  | Some _ => Ret (d, hc, (i, err))
  | None => let! _ := index chain (length chain - 1) in Ret (d, hc, (0%nat, None))
  end.
End Writing.

(** [ValidateHeaderChain]: the ancestry check. *)
Fixpoint contiguous_headers (prev : Header) (chain : list Header) : go bool :=
  match chain with
  | [] => Ret true
  | h :: chain =>
      let! n := Header_NumberU64 h in
      let! pn := Header_NumberU64 prev in
      if negb (n =? u64 (pn + 1)) then Ret false
      else if decide (ParentHash h = Header_Hash prev) then contiguous_headers h chain
      else Ret false
  end.

(** The headers whose seal is verified: one drawn in every [checkFreq], and the
    last one. [intn i] is the [i]th value of [hc.rand.Intn(checkFreq)]. *)
Definition seal_flags (intn : nat -> nat) (len checkFreq : nat) : go (list bool) :=
  if (checkFreq =? 0)%nat then Stop Panicked
  else if (len =? 0)%nat then Stop IndexRange
  else
    let seals :=
      fold_left (fun seals i =>
                   let index := (i * checkFreq + intn i)%nat in
                   let index := if (len <=? index)%nat then (len - 1)%nat else index in
                   <[index := true]> seals)
        (seq 0 (len / checkFreq)) (replicate len false) in
    Ret (<[(len - 1)%nat := true]> seals).

(** The loop over the verifier's results. *)
Fixpoint await_results (interrupt : nat -> bool) (i : nat) (results : list (option error)) (chain : list Header)
  : go (nat * option error) :=
  match chain with
  | [] => Ret (0%nat, None)
  | _ :: chain =>
      if interrupt i then Ret (0%nat, Some (ErrMsg "aborted"))
      else
        match results with
        | [] => Stop BlockedForever
        | Some err :: _ => Ret (i, Some err)
        | None :: results => await_results interrupt (S i) results chain
        end
  end.

Definition ValidateHeaderChain `{Engine} (intn : nat -> nat) (interrupt : nat -> bool)
    (chain : list Header) (checkFreq : nat) : go (nat * option error) :=
  let! ok := match chain with [] => Ret true | h :: chain => contiguous_headers h chain end in
  if negb ok then Ret (0%nat, Some (ErrMsg "non contiguous insert"))
  else
    let! seals := seal_flags intn (length chain) checkFreq in
    await_results interrupt 0 (engine_VerifyHeaders chain seals) chain.
End HeaderChain.

(** * Facts *)

Section HeaderChainFacts.
Context {D : Type} `{LRU} (view : forall V, lru V -> gmap Hash V) `{!LRULaws view}
  `{EthCommon} `{Crypto} `{Rlp Header} `{DatabaseReader D}.

(** The hash index of the database agrees with its headers, and a hash names
    one height. *)
Definition index_wf (d : D) : Prop :=
  forall h n hd, is_u64 n -> ReadHeader d h n = Some hd -> ReadHeaderNumber d h = Some n.

(** The caches hold what the database would answer. *)
Record hc_coherent (d : D) (hc : HeaderChain) : Prop := {
  coherent_header h hd : view _ (hc_headerCache hc) !! h = Some hd ->
    exists n, is_u64 n /\ ReadHeader d h n = Some hd;
  coherent_number h n : view _ (hc_numberCache hc) !! h = Some n -> ReadHeaderNumber d h = Some n
}.

(** Everything but the caches. *)
Definition hc_same (hc hc' : HeaderChain) : Prop :=
  hc_config hc' = hc_config hc /\ hc_genesisHeader hc' = hc_genesisHeader hc /\
  hc_currentHeader hc' = hc_currentHeader hc /\ hc_currentHeaderHash hc' = hc_currentHeaderHash hc.

#[export] Instance hc_same_equivalence : Equivalence hc_same.
Proof.
  unfold hc_same. split; [intros ?|intros ? ? ?|intros ? ? ? ? ?]; intuition congruence.
Qed.

Lemma lru_Add_lookup V (c : lru V) k v k' v' :
  view V (lru_Add c k v) !! k' = Some v' -> (k' = k /\ v' = v) \/ view V c !! k' = Some v'.
Proof using LRULaws0.
  intros E. eapply lookup_weaken in E; [|apply lru_Add_view].
  apply lookup_insert_Some in E as [[-> ->]|[_ E]]; auto.
Qed.

(** A cached lookup is the database's lookup, and keeps the caches coherent. *)
Lemma GetHeader_spec d hc h n :
  index_wf d -> is_u64 n -> hc_coherent d hc ->
  hc_coherent d (GetHeader d hc h n).1 /\ hc_same hc (GetHeader d hc h n).1 /\
  (forall hd, (GetHeader d hc h n).2 = Some hd -> exists m, is_u64 m /\ ReadHeader d h m = Some hd) /\
  (forall hd, ReadHeader d h n = Some hd -> (GetHeader d hc h n).2 = Some hd).
Proof using LRULaws0.
  intros Hidx Hn [Hc1 Hc2]. unfold GetHeader.
  pose proof (lru_Get_value _ (hc_headerCache hc) h) as Hv.
  pose proof (lru_Get_view _ (hc_headerCache hc) h) as Hw.
  destruct (lru_Get (hc_headerCache hc) h) as [c cached]. simpl in Hv, Hw. subst cached.
  destruct (view Header (hc_headerCache hc) !! h) as [hd|] eqn:E; simpl.
  - split_and!; [split; simpl; rewrite ?Hw; eauto|done|naive_solver|].
    intros hd' Hr. destruct (Hc1 _ _ E) as (m & Hm & Hr').
    pose proof (Hidx _ _ _ Hm Hr') as E1. pose proof (Hidx _ _ _ Hn Hr) as E2.
    congruence.
  - destruct (ReadHeader d h n) as [hd|] eqn:Hr; simpl.
    + split_and!; [|done|naive_solver|done]. split; simpl; [|eauto].
      intros h' hd' E'. apply lru_Add_lookup in E' as [[-> ->]|E']; [eauto|].
      rewrite Hw in E'. eauto.
    + split_and!; [split; simpl; rewrite ?Hw; eauto|done|done|done].
Qed.

Lemma GetBlockNumber_spec d hc h :
  hc_coherent d hc ->
  hc_coherent d (GetBlockNumber d hc h).1 /\ hc_same hc (GetBlockNumber d hc h).1 /\
  (GetBlockNumber d hc h).2 = ReadHeaderNumber d h.
Proof using LRULaws0.
  intros [Hc1 Hc2]. unfold GetBlockNumber.
  pose proof (lru_Get_value _ (hc_numberCache hc) h) as Hv.
  pose proof (lru_Get_view _ (hc_numberCache hc) h) as Hw.
  destruct (lru_Get (hc_numberCache hc) h) as [c cached]. simpl in Hv, Hw. subst cached.
  destruct (view Z (hc_numberCache hc) !! h) as [m|] eqn:E; simpl.
  - split_and!; [split; simpl; rewrite ?Hw; eauto|done|symmetry; auto].
  - destruct (ReadHeaderNumber d h) as [m|] eqn:Hr; simpl.
    + split_and!; [|done|done]. split; simpl; [eauto|].
      intros h' m' E'. apply lru_Add_lookup in E' as [[-> ->]|E']; [done|].
      rewrite Hw in E'. eauto.
    + split_and!; [split; simpl; rewrite ?Hw; eauto|done|done].
Qed.

(** What the database answers for a hash. *)
Definition read_by_hash (d : D) (h : Hash) : option Header :=
  match ReadHeaderNumber d h with Some n => ReadHeader d h n | None => None end.

Lemma ReadHeaderNumber_u64 d h n : ReadHeaderNumber d h = Some n -> is_u64 n.
Proof.
  unfold ReadHeaderNumber. destruct (Nat.eqb_spec (length (get d (headerNumberKey h))) 8) as [E|];
    intros [= <-]. pose proof (be_val_bound (get d (headerNumberKey h))) as Hb.
  rewrite E in Hb. split; [apply be_val_nonneg|exact Hb].
Qed.

(** A lookup by hash through coherent caches. *)
Lemma GetHeaderByHash_db d hc h :
  index_wf d -> hc_coherent d hc ->
  hc_coherent d (GetHeaderByHash d hc h).1 /\ hc_same hc (GetHeaderByHash d hc h).1 /\
  (GetHeaderByHash d hc h).2 = read_by_hash d h.
Proof using LRULaws0.
  intros Hidx Hc. unfold GetHeaderByHash, read_by_hash.
  destruct (GetBlockNumber_spec d hc h Hc) as (Hc' & Hs & Hn).
  destruct (GetBlockNumber d hc h) as [hc1 num]. simpl in *. subst num.
  destruct (ReadHeaderNumber d h) as [n|] eqn:En; [|done].
  pose proof (ReadHeaderNumber_u64 _ _ _ En) as Hu.
  destruct (GetHeader_spec d hc1 h n Hidx Hu Hc') as (Hc2 & Hs2 & Hsound & Hcompl).
  split_and!; [done|by etrans|].
  destruct (GetHeader d hc1 h n).2 as [hd|] eqn:E.
  - destruct (Hsound hd eq_refl) as (m & Hm & Hr).
    pose proof (Hidx _ _ _ Hm Hr). congruence.
  - destruct (ReadHeader d h n) as [hd|]; [|done]. specialize (Hcompl hd eq_refl). congruence.
Qed.

(** The header chain's caches are transparent: with coherent caches,
    [GetHeaderByHash] answers what the database alone would answer, changes
    nothing but the caches, and leaves them coherent. *)
Lemma GetHeaderByHash_spec d hc h :
  index_wf d -> hc_coherent d hc ->
  hc_coherent d (GetHeaderByHash d hc h).1 /\ hc_same hc (GetHeaderByHash d hc h).1 /\
  (GetHeaderByHash d hc h).2 = read_by_hash d h.
Proof using LRULaws0. apply GetHeaderByHash_db. Qed.

(** ** Ancestors *)

(** The reference: follow [k] parent links. *)
Fixpoint nth_parent (d : D) (h : Hash) (n : Z) (k : nat) : option Hash :=
  match k with
  | O => Some h
  | S k =>
      match ReadHeader d h n with
      | Some hd => nth_parent d (ParentHash hd) (n - 1) k
      | None => None
      end
  end.

(** The canonical index is a chain. *)
Definition canonical_linked (d : D) : Prop :=
  forall n hd, 0 < n -> is_u64 n -> ReadHeader d (ReadCanonicalHash d n) n = Some hd ->
    ReadCanonicalHash d (n - 1) = ParentHash hd.

Lemma canonical_nth_parent d n k h :
  canonical_linked d -> is_u64 n -> Z.of_nat k <= n ->
  nth_parent d (ReadCanonicalHash d n) n k = Some h -> ReadCanonicalHash d (n - Z.of_nat k) = h.
Proof.
  intros Hl. revert n. induction k as [|k IH]; intros n Hn Hk Hp; simpl in Hp.
  - rewrite Z.sub_0_r. congruence.
  - destruct (ReadHeader d (ReadCanonicalHash d n) n) as [hd|] eqn:Hr; [|done].
    rewrite <- (Hl n hd) in Hp by (done || lia).
    replace (n - Z.of_nat (S k)) with (n - 1 - Z.of_nat k) by lia.
    apply IH; [|lia|done]. unfold is_u64 in *. lia.
Qed.

Lemma ancestor_loop_spec d hc h n k budget h' :
  index_wf d -> canonical_linked d -> hc_coherent d hc -> is_u64 n -> Z.of_nat k <= n ->
  Z.of_nat k <= budget -> nth_parent d h n k = Some h' ->
  exists hc' budget', ancestor_loop d hc h n k budget = (hc', budget', (h', n - Z.of_nat k)) /\
    hc_coherent d hc' /\ budget - Z.of_nat k <= budget'.
Proof using LRULaws0.
  intros Hidx Hl. revert hc h n budget. induction k as [|k IH]; intros hc h n budget Hc Hn Hk Hb Hp.
  { simpl in *. simplify_eq. eexists _, _. rewrite Z.sub_0_r. split_and!; [done|done|lia]. }
  cbn [ancestor_loop]. case_decide as Hcan.
  - subst h. exists hc, budget. split_and!; [|done|lia].
    rewrite u64_small by (unfold is_u64 in *; lia).
    by rewrite (canonical_nth_parent d n (S k) h' Hl Hn Hk Hp).
  - destruct (Z.eqb_spec budget 0); [lia|].
    cbn [nth_parent] in Hp. destruct (ReadHeader d h n) as [hd|] eqn:Hr; [|done].
    destruct (GetHeader_spec d hc h n Hidx Hn Hc) as (Hc1 & _ & _ & Hcompl).
    specialize (Hcompl hd Hr). destruct (GetHeader d hc h n) as [hc1 r]. cbn [fst snd] in *. subst r.
    rewrite u64_small by (unfold is_u64 in *; lia).
    destruct (IH hc1 (ParentHash hd) (n - 1) (budget - 1)) as (hc' & b' & -> & Hc' & Hb');
      [done|unfold is_u64 in *; lia|lia|lia|done|].
    exists hc', b'. split_and!; [|done|lia]. do 2 f_equal. lia.
Qed.

(** [GetAncestor], with its caches, its special case for the parent and its
    shortcut through the canonical index, agrees with following parent links one
    by one whenever the budget for non-canonical blocks suffices. *)
Lemma GetAncestor_spec d hc h n k budget h' :
  index_wf d -> canonical_linked d -> hc_coherent d hc -> is_u64 n -> 0 <= k <= n ->
  k <= budget -> nth_parent d h n (Z.to_nat k) = Some h' ->
  exists hc' budget', GetAncestor d hc h n k budget = (hc', budget', (h', n - k)) /\
    hc_coherent d hc'.
Proof using LRULaws0.
  intros Hidx Hl Hc Hn Hk Hb Hp. unfold GetAncestor.
  destruct (Z.ltb_spec n k); [lia|]. destruct (Z.eqb_spec k 1) as [->|].
  - change (Z.to_nat 1) with 1%nat in Hp. cbn [nth_parent] in Hp.
    destruct (ReadHeader d h n) as [hd|] eqn:Hr; [|done]. simplify_eq/=.
    destruct (GetHeader_spec d hc h n Hidx Hn Hc) as (Hc1 & _ & _ & Hcompl).
    specialize (Hcompl hd Hr). destruct (GetHeader d hc h n) as [hc1 r]. cbn [fst snd] in *. subst r.
    rewrite u64_small by (unfold is_u64 in *; lia). eauto.
  - destruct (ancestor_loop_spec d hc h n (Z.to_nat k) budget h') as (hc' & b' & E & Hc' & _);
      try done; try lia.
    rewrite E, Z2Nat.id by lia. eauto.
Qed.
End HeaderChainFacts.
