(* ===== verification/BlockChain.v ===== *)
(** core/blockchain.go: the block chain over the database, its caches and its
    head pointers. Locks, the wait group, metrics and log statistics are left
    out. [time.Now] and the interrupt flag as seen by a loop are arguments. *)

From stdpp Require Import sorting.
From S2P Require Import Prelude Deps Types Signing Store Schema RawDB Utxo Validation HeaderChain.
#[local] Open Scope Z_scope.

Definition bodyCacheLimit : Z := 256.
Definition blockCacheLimit : Z := 256.
Definition maxFutureBlocks : Z := 256.
Definition maxTimeFutureBlocks : Z := 30.
Definition badBlockLimit : Z := 10.

(** core/events.go, the events a chain insertion posts. *)
Inductive chain_event : Type :=
| ChainEvent (Block : Block) (Hash : Hash)
| ChainHeadEvent (Block : Block).

(** [currentBlock] and [currentFastBlock] are [atomic.Value]s, empty before the
    first store; [bc_feed] is what was sent on the two event feeds. *)
Record BlockChain (D : Type) `{LRU} : Type := mkBlockChain {
  bc_chainConfig : option Z;
  bc_db : D;
  bc_hc : HeaderChain;
  bc_genesisBlock : option Block;
  bc_currentBlock : option Block;
  bc_currentFastBlock : option Block;
  bc_bodyCache : lru Body;
  bc_bodyRLPCache : lru bytes;
  bc_blockCache : lru Block;
  bc_futureBlocks : lru Block;
  bc_badBlocks : lru Block;
  bc_running : bool;
  bc_procInterrupt : bool;
  bc_feed : list chain_event
}.
Arguments mkBlockChain {D _} _ _ _ _ _ _ _ _ _ _ _ _ _ _.
Arguments bc_chainConfig {D _} _.
Arguments bc_db {D _} _.
Arguments bc_hc {D _} _.
Arguments bc_genesisBlock {D _} _.
Arguments bc_currentBlock {D _} _.
Arguments bc_currentFastBlock {D _} _.
Arguments bc_bodyCache {D _} _.
Arguments bc_bodyRLPCache {D _} _.
Arguments bc_blockCache {D _} _.
Arguments bc_futureBlocks {D _} _.
Arguments bc_badBlocks {D _} _.
Arguments bc_running {D _} _.
Arguments bc_procInterrupt {D _} _.
Arguments bc_feed {D _} _.

(** Field updates. *)
Section Updates.
Context {D : Type} `{LRU} (b : BlockChain D).
Definition set_db (d : D) : BlockChain D :=
  mkBlockChain (bc_chainConfig b) d (bc_hc b) (bc_genesisBlock b) (bc_currentBlock b)
    (bc_currentFastBlock b) (bc_bodyCache b) (bc_bodyRLPCache b) (bc_blockCache b)
    (bc_futureBlocks b) (bc_badBlocks b) (bc_running b) (bc_procInterrupt b) (bc_feed b).
Definition set_hc (hc : HeaderChain) : BlockChain D :=
  mkBlockChain (bc_chainConfig b) (bc_db b) hc (bc_genesisBlock b) (bc_currentBlock b)
    (bc_currentFastBlock b) (bc_bodyCache b) (bc_bodyRLPCache b) (bc_blockCache b)
    (bc_futureBlocks b) (bc_badBlocks b) (bc_running b) (bc_procInterrupt b) (bc_feed b).
Definition set_genesis (g : option Block) : BlockChain D :=
  mkBlockChain (bc_chainConfig b) (bc_db b) (bc_hc b) g (bc_currentBlock b)
    (bc_currentFastBlock b) (bc_bodyCache b) (bc_bodyRLPCache b) (bc_blockCache b)
    (bc_futureBlocks b) (bc_badBlocks b) (bc_running b) (bc_procInterrupt b) (bc_feed b).
Definition set_currentBlock (c : Block) : BlockChain D :=
  mkBlockChain (bc_chainConfig b) (bc_db b) (bc_hc b) (bc_genesisBlock b) (Some c)
    (bc_currentFastBlock b) (bc_bodyCache b) (bc_bodyRLPCache b) (bc_blockCache b)
    (bc_futureBlocks b) (bc_badBlocks b) (bc_running b) (bc_procInterrupt b) (bc_feed b).
Definition set_currentFastBlock (c : Block) : BlockChain D :=
  mkBlockChain (bc_chainConfig b) (bc_db b) (bc_hc b) (bc_genesisBlock b) (bc_currentBlock b)
    (Some c) (bc_bodyCache b) (bc_bodyRLPCache b) (bc_blockCache b)
    (bc_futureBlocks b) (bc_badBlocks b) (bc_running b) (bc_procInterrupt b) (bc_feed b).
Definition set_bodyCache (c : lru Body) : BlockChain D :=
  mkBlockChain (bc_chainConfig b) (bc_db b) (bc_hc b) (bc_genesisBlock b) (bc_currentBlock b)
    (bc_currentFastBlock b) c (bc_bodyRLPCache b) (bc_blockCache b)
    (bc_futureBlocks b) (bc_badBlocks b) (bc_running b) (bc_procInterrupt b) (bc_feed b).
Definition set_bodyRLPCache (c : lru bytes) : BlockChain D :=
  mkBlockChain (bc_chainConfig b) (bc_db b) (bc_hc b) (bc_genesisBlock b) (bc_currentBlock b)
    (bc_currentFastBlock b) (bc_bodyCache b) c (bc_blockCache b)
    (bc_futureBlocks b) (bc_badBlocks b) (bc_running b) (bc_procInterrupt b) (bc_feed b).
Definition set_blockCache (c : lru Block) : BlockChain D :=
  mkBlockChain (bc_chainConfig b) (bc_db b) (bc_hc b) (bc_genesisBlock b) (bc_currentBlock b)
    (bc_currentFastBlock b) (bc_bodyCache b) (bc_bodyRLPCache b) c
    (bc_futureBlocks b) (bc_badBlocks b) (bc_running b) (bc_procInterrupt b) (bc_feed b).
Definition set_futureBlocks (c : lru Block) : BlockChain D :=
  mkBlockChain (bc_chainConfig b) (bc_db b) (bc_hc b) (bc_genesisBlock b) (bc_currentBlock b)
    (bc_currentFastBlock b) (bc_bodyCache b) (bc_bodyRLPCache b) (bc_blockCache b)
    c (bc_badBlocks b) (bc_running b) (bc_procInterrupt b) (bc_feed b).
Definition set_badBlocks (c : lru Block) : BlockChain D :=
  mkBlockChain (bc_chainConfig b) (bc_db b) (bc_hc b) (bc_genesisBlock b) (bc_currentBlock b)
    (bc_currentFastBlock b) (bc_bodyCache b) (bc_bodyRLPCache b) (bc_blockCache b)
    (bc_futureBlocks b) c (bc_running b) (bc_procInterrupt b) (bc_feed b).
Definition set_feed (f : list chain_event) : BlockChain D :=
  mkBlockChain (bc_chainConfig b) (bc_db b) (bc_hc b) (bc_genesisBlock b) (bc_currentBlock b)
    (bc_currentFastBlock b) (bc_bodyCache b) (bc_bodyRLPCache b) (bc_blockCache b)
    (bc_futureBlocks b) (bc_badBlocks b) (bc_running b) (bc_procInterrupt b) f.
(** [Stop]: the flags it raises; closing the subscriptions is outside the model. *)
Definition BC_Stop : BlockChain D :=
  if bc_running b then b
  else mkBlockChain (bc_chainConfig b) (bc_db b) (bc_hc b) (bc_genesisBlock b) (bc_currentBlock b)
    (bc_currentFastBlock b) (bc_bodyCache b) (bc_bodyRLPCache b) (bc_blockCache b)
    (bc_futureBlocks b) (bc_badBlocks b) true true (bc_feed b).
End Updates.

Section BlockChain.
Context {D : Type} `{LRU} `{EthCommon} `{Crypto} `{Rlp txdata} `{Rlp Header} `{Rlp rlpBody} `{Rlp Z}
  `{Rlp extblock} `{RlpStream} `{Database D}.

Definition BC_CurrentBlock (bc : BlockChain D) : go Block :=
  match bc_currentBlock bc with Some b => Ret b | None => Stop Panicked end.
Definition BC_CurrentFastBlock (bc : BlockChain D) : go Block :=
  match bc_currentFastBlock bc with Some b => Ret b | None => Stop Panicked end.
Definition BC_CurrentHeader (bc : BlockChain D) : go (option Header) := CurrentHeader (bc_hc bc).
Definition Genesis (bc : BlockChain D) : option Block := bc_genesisBlock bc.

(** * Lookups *)

Definition GetBlock (bc : BlockChain D) (hash : Hash) (number : Z) : BlockChain D * option Block :=
  let (c, cached) := lru_Get (bc_blockCache bc) hash in
  let bc := set_blockCache bc c in
  match cached with
  | Some block => (bc, Some block)
  | None =>
      match ReadBlock (bc_db bc) hash number with
      | None => (bc, None)
      | Some block => (set_blockCache bc (lru_Add (bc_blockCache bc) (Block_Hash block) block), Some block)
      end
  end.

Definition BC_HasBlock (bc : BlockChain D) (hash : Hash) (number : Z) : BlockChain D * bool :=
  let (bc, block) := GetBlock bc hash number in
  (bc, match block with Some _ => true | None => false end).

Definition BC_GetBlockNumber (bc : BlockChain D) (hash : Hash) : BlockChain D * option Z :=
  let (hc, number) := GetBlockNumber (bc_db bc) (bc_hc bc) hash in (set_hc bc hc, number).

Definition GetBlockByHash (bc : BlockChain D) (hash : Hash) : BlockChain D * option Block :=
  let (bc, number) := BC_GetBlockNumber bc hash in
  match number with
  | None => (bc, None)
  | Some number => GetBlock bc hash number
  end.

Definition GetBlockByNumber (bc : BlockChain D) (number : Z) : BlockChain D * option Block :=
  let hash := ReadCanonicalHash (bc_db bc) number in
  if decide (hash = zeroHash) then (bc, None) else GetBlock bc hash number.

Definition GetBody (bc : BlockChain D) (hash : Hash) : BlockChain D * option Body :=
  let (c, cached) := lru_Get (bc_bodyCache bc) hash in
  let bc := set_bodyCache bc c in
  match cached with
  | Some body => (bc, Some body)
  | None =>
      let (bc, number) := BC_GetBlockNumber bc hash in
      match number with
      | None => (bc, None)
      | Some number =>
          match ReadBody (bc_db bc) hash number with
          | None => (bc, None)
          | Some body => (set_bodyCache bc (lru_Add (bc_bodyCache bc) hash body), Some body)
          end
      end
  end.

Definition GetBodyRLP (bc : BlockChain D) (hash : Hash) : BlockChain D * bytes :=
  let (c, cached) := lru_Get (bc_bodyRLPCache bc) hash in
  let bc := set_bodyRLPCache bc c in
  match cached with
  | Some body => (bc, body)
  | None =>
      let (bc, number) := BC_GetBlockNumber bc hash in
      match number with
      | None => (bc, [])
      | Some number =>
          match ReadBodyRLP (bc_db bc) hash number with
          | [] => (bc, [])
          | body => (set_bodyRLPCache bc (lru_Add (bc_bodyRLPCache bc) hash body), body)
          end
      end
  end.

(** The loop of [GetBlocksFromHash]. *)
Fixpoint blocks_from (bc : BlockChain D) (hash : Hash) (number : Z) (n : nat)
  : BlockChain D * list Block :=
  match n with
  | O => (bc, [])
  | S n =>
      let (bc, block) := GetBlock bc hash number in
      match block with
      | None => (bc, [])
      | Some block =>
          let (bc, blocks) := blocks_from bc (Block_ParentHash block) (u64 (number - 1)) n in
          (bc, block :: blocks)
      end
  end.

Definition GetBlocksFromHash (bc : BlockChain D) (hash : Hash) (n : nat)
  : BlockChain D * list Block :=
  let (bc, number) := BC_GetBlockNumber bc hash in
  match number with
  | None => (bc, [])
  | Some number => blocks_from bc hash number n
  end.

(** The header accessors delegate to the header chain. *)
Definition BC_GetHeader (bc : BlockChain D) (hash : Hash) (number : Z)
  : BlockChain D * option Header :=
  let (hc, h) := GetHeader (bc_db bc) (bc_hc bc) hash number in (set_hc bc hc, h).
Definition BC_GetHeaderByHash (bc : BlockChain D) (hash : Hash) : BlockChain D * option Header :=
  let (hc, h) := GetHeaderByHash (bc_db bc) (bc_hc bc) hash in (set_hc bc hc, h).
Definition BC_GetHeaderByNumber (bc : BlockChain D) (number : Z) : BlockChain D * option Header :=
  let (hc, h) := GetHeaderByNumber (bc_db bc) (bc_hc bc) number in (set_hc bc hc, h).
Definition BC_HasHeader (bc : BlockChain D) (hash : Hash) (number : Z) : bool :=
  HC_HasHeader (bc_db bc) (bc_hc bc) hash number.
Definition BC_GetAncestor (bc : BlockChain D) (hash : Hash) (number ancestor maxNonCanonical : Z)
  : BlockChain D * Z * (Hash * Z) :=
  let '(hc, m, r) := GetAncestor (bc_db bc) (bc_hc bc) hash number ancestor maxNonCanonical in
  (set_hc bc hc, m, r).

#[export] Instance BlockChain_BlockReader : BlockReader (BlockChain D) := {
  br_HasBlock := BC_HasBlock;
  br_CurrentBlock := BC_CurrentBlock;
  br_GetBlock := GetBlock;
  br_GetBlockByNumber := GetBlockByNumber
}.

(** * Heads *)

Definition BC_SetCurrentHeader (bc : BlockChain D) (h : option Header) : BlockChain D :=
  let (d, hc) := SetCurrentHeader (bc_db bc) (bc_hc bc) h in set_hc (set_db bc d) hc.

Definition loadLastState (bc : BlockChain D) : go (BlockChain D * option error) :=
  let head := ReadHeadBlockHash (bc_db bc) in
  if decide (head = zeroHash) then
    Ret (bc, Some (ErrMsg "last known head block not found, might be corrupt or empty database"))
  else
    let (bc, currentBlock) := GetBlockByHash bc head in
    match currentBlock with
    | None => Ret (bc, Some (ErrMsg "can not found head block by hash, database maybe corrupt"))
    | Some currentBlock =>
        let bc := set_currentBlock bc currentBlock in
        let head := ReadHeadHeaderHash (bc_db bc) in
        let (bc, currentHeader) :=
          if decide (head = zeroHash) then (bc, Block_Header currentBlock)
          else
            let (bc, h) := BC_GetHeaderByHash bc head in
            (bc, default (Block_Header currentBlock) h) in
        let bc := BC_SetCurrentHeader bc (Some currentHeader) in
        let bc := set_currentFastBlock bc currentBlock in
        let head := ReadHeadFastBlockHash (bc_db bc) in
        if decide (head = zeroHash) then Ret (bc, None)
        else
          let (bc, block) := GetBlockByHash bc head in
          match block with
          | Some block => Ret (set_currentFastBlock bc block, None)
          | None => Ret (bc, None)
          end
    end.

Definition NewBlockChain (seed_err : option error) (db : D) (chainConfig : option Z)
  : go (BlockChain D + error) :=
  let! hc := NewHeaderChain seed_err db chainConfig in
  match hc with
  | inr err => Ret (inr err)
  | inl hc =>
      let bc := mkBlockChain chainConfig db hc None None None (lru_New bodyCacheLimit)
                  (lru_New bodyCacheLimit) (lru_New blockCacheLimit) (lru_New maxFutureBlocks)
                  (lru_New badBlockLimit) false false [] in
      let (bc, genesis) := GetBlockByNumber bc 0 in
      let bc := set_genesis bc genesis in
      match genesis with
      | None => Ret (inr ErrNoGenesis)
      | Some _ =>
          let! (bc, err) := loadLastState bc in
          match err with
          | Some err => Ret (inr err)
          | None => Ret (inl bc)
          end
      end
  end.

Definition FastSyncCommitHead (bc : BlockChain D) (hash : Hash) : BlockChain D * option error :=
  let (bc, block) := GetBlockByHash bc hash in
  match block with
  | None => (bc, Some (ErrMsg "non existent block"))
  | Some block => (set_currentBlock bc block, None)
  end.

(** [insert]. *)
Definition insert (bc : BlockChain D) (block : Block) : go (BlockChain D) :=
  let! number := Block_NumberU64 block in
  let updateHeads := negb (bool_decide (ReadCanonicalHash (bc_db bc) number = Block_Hash block)) in
  let bc := set_db bc (WriteCanonicalHash (bc_db bc) (Block_Hash block) number) in
  let bc := set_db bc (WriteHeadBlockHash (bc_db bc) (Block_Hash block)) in
  let bc := set_currentBlock bc block in
  if updateHeads then
    let bc := BC_SetCurrentHeader bc (Some (Block_Header block)) in
    let bc := set_db bc (WriteHeadFastBlockHash (bc_db bc) (Block_Hash block)) in
    Ret (set_currentFastBlock bc block)
  else Ret bc.

Definition ReplaceHead (bc : BlockChain D) (block : Block) : go (BlockChain D) := insert bc block.

(** One round of [Rollback]. The new heads are dereferenced for their hashes
    right after the store. *)
Definition rollback_one (bc : BlockChain D) (hash : Hash) : go (BlockChain D) :=
  let! currentHeader := CurrentHeader (bc_hc bc) in
  let! bc :=
    if decide (Header_Hash_ptr currentHeader = hash) then
      let! h := deref currentHeader in
      let! n := Header_NumberU64 h in
      let (bc, p) := BC_GetHeader bc (ParentHash h) (u64 (n - 1)) in
      Ret (BC_SetCurrentHeader bc p)
    else Ret bc in
  let! fast := BC_CurrentFastBlock bc in
  let! bc :=
    if decide (Block_Hash fast = hash) then
      let! n := Block_NumberU64 fast in
      let (bc, p) := GetBlock bc (Block_ParentHash fast) (u64 (n - 1)) in
      let! newFastBlock := deref p in
      let bc := set_currentFastBlock bc newFastBlock in
      Ret (set_db bc (WriteHeadFastBlockHash (bc_db bc) (Block_Hash newFastBlock)))
    else Ret bc in
  let! cur := BC_CurrentBlock bc in
  if decide (Block_Hash cur = hash) then
    let! n := Block_NumberU64 cur in
    let (bc, p) := GetBlock bc (Block_ParentHash cur) (u64 (n - 1)) in
    let! newBlock := deref p in
    let bc := set_currentBlock bc newBlock in
    Ret (set_db bc (WriteHeadBlockHash (bc_db bc) (Block_Hash newBlock)))
  else Ret bc.

Definition Rollback (bc : BlockChain D) (chain : list Hash) : go (BlockChain D) :=
  gfold rollback_one bc (rev chain).

(** * Export *)

(** [for nr := first; nr <= last; nr++]: the counter wraps when [last] is the
    largest [uint64], so the loop takes fuel; the encoder's error ends it. *)
Fixpoint export_loop (fuel : nat) (bc : BlockChain D) (nr last : Z) (out : list bytes)
  : go (BlockChain D * list bytes * option error) :=
  if last <? nr then Ret (bc, out, None)
  else
    match fuel with
    | O => Stop OutOfFuel
    | S fuel =>
        let (bc, block) := GetBlockByNumber bc nr in
        match block with
        | None => Ret (bc, out, Some (ErrMsg "export failed: not found"))
        | Some block =>
            match Block_EncodeRLP block with
            | None => Ret (bc, out, Some (ErrExternal 0))
            | Some b => export_loop fuel bc (u64 (nr + 1)) last (out ++ [b])
            end
        end
    end.

Definition ExportN (fuel : nat) (bc : BlockChain D) (first last : Z)
  : go (BlockChain D * list bytes * option error) :=
  if last <? first then Ret (bc, [], Some (ErrMsg "export failed: first is greater than last"))
  else export_loop fuel bc first last [].

Definition Export (fuel : nat) (bc : BlockChain D) : go (BlockChain D * list bytes * option error) :=
  let! cur := BC_CurrentBlock bc in
  let! n := Block_NumberU64 cur in
  ExportN fuel bc 0 n.

(** * Bad blocks *)

Definition addBadBlock (bc : BlockChain D) (block : Block) : BlockChain D :=
  set_badBlocks bc (lru_Add (bc_badBlocks bc) (Block_Hash block) block).
Definition reportBlock (bc : BlockChain D) (block : Block) (err : error) : BlockChain D :=
  addBadBlock bc block.
Definition BadBlocks (bc : BlockChain D) : list Block :=
  omap (fun hash => lru_Peek (bc_badBlocks bc) hash) (lru_Keys (bc_badBlocks bc)).

Definition PostChainEvents (bc : BlockChain D) (events : list chain_event) : BlockChain D :=
  set_feed bc (bc_feed bc ++ events).

(** * Writing blocks *)

(** [WriteDepositBlock]: no validation. *)
Definition WriteDepositBlock (bc : BlockChain D) (block : Block) : go (BlockChain D * option error) :=
  let! d := RawDB.WriteBlock (bc_db bc) block in
  Ret (set_db bc d, None).

Section Validated.
(** The validator installed by [SetValidator]; it reads the chain. *)
Context (ValidateBody : BlockChain D -> Block -> go (BlockChain D * option error)).

Definition BC_WriteBlock (bc : BlockChain D) (block : Block) : go (BlockChain D * option error) :=
  let! (bc, err) := ValidateBody bc block in
  match err with
  | Some _ => Ret (bc, err)
  | None =>
      let! d := RawDB.WriteBlock (bc_db bc) block in
      Ret (set_db bc d, None)
  end.

(** The ancestry check of [insertChain]. *)
Fixpoint contiguous_blocks (prev : Block) (chain : list Block) : go bool :=
  match chain with
  | [] => Ret true
  | b :: chain =>
      let! n := Block_NumberU64 b in
      let! pn := Block_NumberU64 prev in
      if negb (n =? u64 (pn + 1)) then Ret false
      else if decide (Block_ParentHash b = Block_Hash prev) then contiguous_blocks b chain
      else Ret false
  end.

(** The switch on the verifier's result for one block: go on, skip, or stop. *)
Inductive verdict : Type := Process | Skip | Reject (err : error).

Definition judge (now : Z) (bc : BlockChain D) (block : Block) (err : option error)
  : go (BlockChain D * verdict) :=
  let enqueue := set_futureBlocks bc (lru_Add (bc_futureBlocks bc) (Block_Hash block) block) in
  match err with
  | None => Ret (bc, Process)
  | Some ErrKnownBlock =>
      let! cur := BC_CurrentBlock bc in
      let! cn := Block_NumberU64 cur in
      let! n := Block_NumberU64 block in
      Ret (bc, if n <=? cn then Skip else Process)
  | Some ErrFutureBlock =>
      let! t := deref (Time (header block)) in
      if now + maxTimeFutureBlocks <? t then Ret (bc, Reject (ErrMsg "future block"))
      else Ret (enqueue, Skip)
  | Some e =>
      if bool_decide (e = ErrUnknownAncestor) && lru_Contains (bc_futureBlocks bc) (Block_ParentHash block)
      then Ret (enqueue, Skip)
      else Ret (reportBlock bc block e, Reject e)
  end.

(** The import loop of [insertChain]: the events so far and the last block
    written. [now] gives the clock and [interrupt] the flag at each round. *)
Fixpoint import_loop (now : nat -> Z) (interrupt : nat -> bool) (i : nat) (bc : BlockChain D)
    (results : list (option error)) (chain : list Block) (events : list chain_event)
    (lastCanon : option Block)
  : go (BlockChain D * (nat * list chain_event * option error) * option Block) :=
  match chain with
  | [] => Ret (bc, (0%nat, events, None), lastCanon)
  | block :: chain =>
      if interrupt i then Ret (bc, (0%nat, events, None), lastCanon)
      else
        match results with
        | [] => Stop BlockedForever
        | err :: results =>
            let! (bc, v) := judge (now i) bc block err in
            match v with
            | Skip => import_loop now interrupt (S i) bc results chain events lastCanon
            | Reject e => Ret (bc, (i, events, Some e), lastCanon)
            | Process =>
                let! (bc, err) := BC_WriteBlock bc block in
                match err with
                | Some _ => Ret (bc, (i, events, err), lastCanon)
                | None =>
                    import_loop now interrupt (S i) bc results chain
                      (events ++ [ChainEvent block (Block_Hash block)]) (Some block)
                end
            end
        end
  end.

(** [insertChain]; the engine is an interface value that can be nil. *)
Definition insertChain (engine : option Engine) (now : nat -> Z) (interrupt : nat -> bool)
    (bc : BlockChain D) (chain : list Block)
  : go (BlockChain D * (nat * list chain_event * option error)) :=
  match chain with
  | [] => Ret (bc, (0%nat, [], None))
  | first :: rest =>
      let! ok := contiguous_blocks first rest in
      if negb ok then Ret (bc, (0%nat, [], Some (ErrMsg "non contiguous insert")))
      else
        let! engine := deref engine in
        let results := @engine_VerifyHeaders engine (Block_Header <$> chain)
                         (replicate (length chain) true) in
        let! _ := Block_Number first in
        let! (bc, (n, events, err), lastCanon) :=
          import_loop now interrupt 0 bc results chain [] None in
        match err, lastCanon with
        | None, Some b =>
            let! cur := BC_CurrentBlock bc in
            if decide (Block_Hash cur = Block_Hash b)
            then Ret (bc, (n, events ++ [ChainHeadEvent b], None))
            else Ret (bc, (n, events, None))
        | _, _ => Ret (bc, (n, events, err))
        end
  end.

Definition InsertChain engine now interrupt (bc : BlockChain D) (chain : list Block)
  : go (BlockChain D * (nat * option error)) :=
  let! (bc, (n, events, err)) := insertChain engine now interrupt bc chain in
  Ret (PostChainEvents bc events, (n, err)).

(** [types.Number] as the order of [BlockBy.Sort]; the sort is not stable, the
    model fixes one order among blocks of equal number. *)
Definition by_number (b1 b2 : Block) : Prop :=
  default 0 (Number (header b1)) <= default 0 (Number (header b2)).
#[export] Instance by_number_dec b1 b2 : Decision (by_number b1 b2).
Proof. unfold by_number. apply _. Defined.

Definition procFutureBlocks engine now interrupt (bc : BlockChain D) : go (BlockChain D) :=
  let blocks := omap (fun hash => lru_Peek (bc_futureBlocks bc) hash) (lru_Keys (bc_futureBlocks bc)) in
  gfold (fun bc b => let! (bc, _) := InsertChain engine now interrupt bc [b] in Ret bc)
    bc (merge_sort by_number blocks).

(** One turn of [update]: the ticker, or the end. *)
Definition update_turn engine now interrupt (quit : bool) (bc : BlockChain D) : go (BlockChain D * bool) :=
  if quit then Ret (bc, true)
  else let! bc := procFutureBlocks engine now interrupt bc in Ret (bc, false).
End Validated.

(** [repair] is a panic. *)
Definition repair (head : Block) : go (option error) := Stop Panicked.

Definition getProcInterrupt (bc : BlockChain D) : bool := bc_procInterrupt bc.

Definition BC_GetBlockHashesFromHash (bc : BlockChain D) (hash : Hash) (max : nat)
  : go (BlockChain D * list Hash) :=
  let! (hc, hashes) := GetBlockHashesFromHash (bc_db bc) (bc_hc bc) hash max in
  Ret (set_hc bc hc, hashes).

Definition BC_Config (bc : BlockChain D) : option Z := bc_chainConfig bc.

(** ** Import statistics *)

Definition countTransactions (chain : list Block) : nat :=
  fold_left (fun c b => (c + length (Block_Transactions b))%nat) chain 0%nat.

Record insertStats : Type := mkInsertStats {
  st_queued : nat;
  st_processed : nat;
  st_ignored : nat;
  st_lastIndex : nat;
  st_startTime : Z
}.

Definition statsReportLimit : Z := 8 * 1000000000.

(** [report]: what is logged (blocks and transactions since the last report), and
    the statistics afterwards. [chain[index]] and [chain[st.lastIndex:index+1]] panic
    out of range. *)
Definition insertStats_report (now : Z) (st : insertStats) (chain : list Block) (index : nat)
  : go (insertStats * option (nat * nat)) :=
  if (Z.of_nat index =? Z.of_nat (length chain) - 1) || (statsReportLimit <=? now - st_startTime st) then
    let! _ := Prelude.index chain index in
    if (index + 1 <? st_lastIndex st)%nat then Stop IndexRange
    else
      let txs := countTransactions (drop (st_lastIndex st) (take (index + 1) chain)) in
      Ret (mkInsertStats 0 0 0 (index + 1) now, Some (st_processed st, txs))
  else Ret (st, None).
End BlockChain.

(** * The chain's own validator *)

(** plasma/plasma.go installs [NewUtxoBlockValidator(signer, blockchain, us)]: the
    block reader is the chain itself and the UTXO set its database. *)
Section Wiring.
Context {D G : Type} `{LRU} `{EthCommon} `{Crypto} `{!Signer G} `{Copier} `{Trie} `{Rlp txdata}
  `{Rlp Header} `{Rlp rlpBody} `{Rlp Z} `{Rlp extblock} `{RlpStream} `{Database D}.

Definition chain_ValidateBody (signer : G) (bc : BlockChain D) (block : Block)
  : go (BlockChain D * option error) :=
  let! (v, err) := ValidateBody (NewUtxoBlockValidator signer bc (bc_db bc)) block in
  Ret (bv_blcReader v, err).
End Wiring.

(** * Facts *)

Section Heads.
Context {D : Type} `{LRU} `{EthCommon} `{!EthCommonLaws} `{Crypto} `{Rlp txdata} `{Rlp Header} `{Rlp rlpBody}
  `{Rlp Z} `{Rlp extblock} `{RlpStream} `{Database D} (abs : D -> txstore) (inv : D -> Prop)
  `{!ReadSpec D abs inv} `{!WriteSpec D abs inv}.

(** A chain whose writes reach the disk at once. *)
Definition direct (d : D) : Prop := writable abs inv d /\ pending (abs d) = None.

Lemma direct_put d k v : direct d ->
  direct (put d k v) /\ committed (abs (put d k v)) = <[k := v]> (committed (abs d)).
Proof.
  intros [Hw Hp]. destruct (Put_writable abs inv d k v Hw) as (_ & Ha & Hw').
  unfold ts_write in Ha. rewrite Hp in Ha. split; [split; [done|]|]; by rewrite Ha.
Qed.

Lemma read_hash_lookup d k (h : Hash) : direct d -> committed (abs d) !! key_of k = Some (arr h) ->
  read_hash (get d (key_of k)) = h.
Proof.
  intros [[Hi _] _] E. rewrite (get_committed abs inv), E by done. apply read_hash_arr.
Qed.

(** What [insert] writes: the canonical hash and the head block, and the head
    header and the fast head when the number's canonical block [moved]. *)
Definition insert_ops (moved : bool) (block : Block) (n : Z) : list wop :=
  WPut (key_of (KCanonical n)) (arr (Block_Hash block))
    :: WPut (key_of KHeadBlock) (arr (Block_Hash block))
    :: if moved then [WPut (key_of KHeadHeader) (arr (Header_Hash (Block_Header block)));
                      WPut (key_of KHeadFastBlock) (arr (Block_Hash block))]
       else [].

Lemma insert_abs (bc : BlockChain D) block n :
  let moved := negb (bool_decide (ReadCanonicalHash (bc_db bc) n = Block_Hash block)) in
  writable abs inv (bc_db bc) -> Number (header block) = Some n -> is_u64 n ->
  exists bc', insert bc block = Ret bc' /\ writable abs inv (bc_db bc') /\
    bc_currentBlock bc' = Some block /\
    abs (bc_db bc') = ts_writes (abs (bc_db bc)) (insert_ops moved block n) /\
    (moved = true -> CurrentHeader (bc_hc bc') = Ret (Some (Block_Header block)) /\
       bc_currentFastBlock bc' = Some block).
Proof.
  intros moved Hd Hnum Hn. unfold insert, Block_NumberU64.
  rewrite (Header_NumberU64_Some _ _ Hnum Hn). cbn [gbind]. fold moved.
  unfold WriteCanonicalHash, WriteHeadBlockHash, WriteHeadFastBlockHash. cbn [set_db bc_db].
  destruct moved.
  - unfold BC_SetCurrentHeader, SetCurrentHeader, WriteHeadHeaderHash. cbn [Header_Hash_ptr set_currentBlock bc_db set_db].
    eexists. split; [done|]. split; [by do 4 apply (put_writable abs inv)|]. split; [done|].
    split; [|done]. cbn [set_currentFastBlock set_db set_hc bc_db].
    rewrite !(put_abs abs inv) by (repeat apply (put_writable abs inv); done). done.
  - eexists. split; [done|]. split; [by do 2 apply (put_writable abs inv)|]. split; [done|].
    split; [|done]. cbn [set_currentBlock set_db bc_db].
    rewrite !(put_abs abs inv) by (repeat apply (put_writable abs inv); done). done.
Qed.

(** On a database that writes at once. *)
Lemma insert_direct (bc : BlockChain D) block n :
  let moved := negb (bool_decide (ReadCanonicalHash (bc_db bc) n = Block_Hash block)) in
  direct (bc_db bc) -> Number (header block) = Some n -> is_u64 n ->
  exists bc', insert bc block = Ret bc' /\ direct (bc_db bc') /\ bc_currentBlock bc' = Some block /\
    committed (abs (bc_db bc')) = apply_wops (insert_ops moved block n) (committed (abs (bc_db bc))) /\
    (moved = true -> CurrentHeader (bc_hc bc') = Ret (Some (Block_Header block)) /\
       bc_currentFastBlock bc' = Some block).
Proof.
  intros moved [Hw Hp] Hnum Hn.
  destruct (insert_abs bc block n Hw Hnum Hn) as (bc' & E & Hw' & Hc & Ha & Hh). fold moved in Ha, Hh.
  destruct (committed_writes (abs (bc_db bc)) (insert_ops moved block n) Hp) as [Hp' Hm].
  rewrite <- Ha in Hp', Hm. exists bc'. by split_and!.
Qed.

Lemma canonical_other d d' n : direct d -> direct d' ->
  committed (abs d') !! key_of (KCanonical n) = committed (abs d) !! key_of (KCanonical n) ->
  ReadCanonicalHash d' n = ReadCanonicalHash d n.
Proof.
  intros [[Hi _] _] [[Hi' _] _] E. unfold ReadCanonicalHash.
  rewrite !(get_committed abs inv) by done. cbn [key_of] in E. by rewrite E.
Qed.

(** [ReplaceHead] (that is, [insert]) makes the block the head: it is the
    current block, the canonical block of its number and the recorded head block;
    no other number's canonical block changes; and when the number belonged to
    another block before, the head header and the fast head move to it too. *)
Lemma ReplaceHead_sets_head (bc : BlockChain D) block n :
  direct (bc_db bc) -> Number (header block) = Some n -> is_u64 n ->
  exists bc', ReplaceHead bc block = Ret bc' /\ direct (bc_db bc') /\
    bc_currentBlock bc' = Some block /\
    ReadCanonicalHash (bc_db bc') n = Block_Hash block /\
    ReadHeadBlockHash (bc_db bc') = Block_Hash block /\
    (forall m, is_u64 m -> m <> n -> ReadCanonicalHash (bc_db bc') m = ReadCanonicalHash (bc_db bc) m) /\
    (ReadCanonicalHash (bc_db bc) n <> Block_Hash block ->
       CurrentHeader (bc_hc bc') = Ret (Some (Block_Header block)) /\
       ReadHeadHeaderHash (bc_db bc') = Header_Hash (Block_Header block) /\
       bc_currentFastBlock bc' = Some block /\ ReadHeadFastBlockHash (bc_db bc') = Block_Hash block).
Proof.
  intros Hd Hnum Hn. unfold ReplaceHead.
  destruct (insert_direct bc block n Hd Hnum Hn) as (bc' & E & Hd' & Hcur & Hm & Hh).
  exists bc'. split; [done|]. split; [done|]. split; [done|].
  assert (Hne : forall m, m <> n -> KCanonical n <> KCanonical m) by congruence.
  unfold insert_ops in Hm. case_bool_decide as Hc; cbn [negb apply_wops fold_left apply_wop] in Hm, Hh.
  - split; [apply (read_hash_lookup _ (KCanonical n)); [done|rewrite Hm; by key_lookup]|].
    split; [apply (read_hash_lookup _ KHeadBlock); [done|rewrite Hm; by key_lookup]|].
    split; [|done]. intros m Hu Hmn. specialize (Hne m Hmn). apply canonical_other; [done|done|].
    rewrite Hm. by key_lookup.
  - destruct (Hh eq_refl) as (Hh' & Hf).
    split; [apply (read_hash_lookup _ (KCanonical n)); [done|rewrite Hm; by key_lookup]|].
    split; [apply (read_hash_lookup _ KHeadBlock); [done|rewrite Hm; by key_lookup]|].
    split; [|intros _; split_and!; try done].
    + intros m Hu Hmn. specialize (Hne m Hmn). apply canonical_other; [done|done|].
      rewrite Hm. by key_lookup.
    + apply (read_hash_lookup _ KHeadHeader); [done|rewrite Hm; by key_lookup].
    + apply (read_hash_lookup _ KHeadFastBlock); [done|rewrite Hm; by key_lookup].
Qed.
End Heads.
