(* ===== verification/TxPool.v ===== *)
(** core/tx_pool.go, core/tx_journal.go and core/tx_cacher.go: the pool of
    waiting transactions, its journal of local transactions, and the splitting of
    signature recovery into tasks. Locks are left out: every entry point holds the
    pool's mutex for its whole run. *)

From S2P Require Import Prelude Deps Types Signing Store Schema RawDB Utxo Validation.
#[local] Open Scope Z_scope.

(** * Configuration *)

(** Durations are in nanoseconds. *)
Record TxPoolConfig : Type := mkTxPoolConfig {
  NoLocals : bool;
  Journal : string;
  Rejournal : Z;
  PriceLimit : Z;
  PriceBump : Z;
  AccountSlots : Z;
  GlobalSlots : Z;
  AccountQueue : Z;
  GlobalQueue : Z;
  Lifetime : Z
}.

Definition time_Second : Z := 1000000000.
Definition time_Hour : Z := 3600 * time_Second.

Definition DefaultTxPoolConfig : TxPoolConfig :=
  mkTxPoolConfig false "transactions.rlp" time_Hour 1 10 16 4096 64 1024 (3 * time_Hour).

Definition sanitize (conf : TxPoolConfig) : TxPoolConfig :=
  mkTxPoolConfig (NoLocals conf) (Journal conf)
    (if Rejournal conf <? time_Second then time_Second else Rejournal conf)
    (if PriceLimit conf <? 1 then PriceLimit DefaultTxPoolConfig else PriceLimit conf)
    (if PriceBump conf <? 1 then PriceBump DefaultTxPoolConfig else PriceBump conf)
    (AccountSlots conf) (GlobalSlots conf) (AccountQueue conf) (GlobalQueue conf) (Lifetime conf).

(** * The journal *)

(** The journal's output: nothing, the discarding [devNull], or the file. *)
Inductive writer : Type := NoWriter | DevNull | FileWriter.

(** [j_file] is the file at [path], as the sequence of RLP items a stream reads
    from it; [None] when it does not exist. *)
Record txJournal : Type := mkJournal {
  j_path : string;
  j_writer : writer;
  j_file : option (list bytes)
}.

Definition newTxJournal (path : string) (file : option (list bytes)) : txJournal :=
  mkJournal path NoWriter file.

(** What the operating system answers during [load] and [rotate]. *)
Record os_answers : Type := mkOS {
  os_open : option error;
  os_close : option error;
  os_create : option error;
  os_rename : option error;
  os_reopen : option error
}.

Section Journal.
Context `{Crypto} `{Rlp txdata} `{RlpStream}.

(** [insert]. *)
Definition journal_insert (j : txJournal) (tx : Transaction) : txJournal * option error :=
  match j_writer j with
  | NoWriter => (j, Some errNoActiveJournal)
  | w =>
      match Transaction_EncodeRLP tx with
      | None => (j, Some (ErrExternal 0))
      | Some b =>
          match w with
          | FileWriter => (mkJournal (j_path j) w (Some (default [] (j_file j) ++ [b])), None)
          | _ => (j, None)
          end
      end
  end.

(** The items written by the two loops of [rotate]; the first that cannot be
    encoded stops them. *)
Fixpoint encode_all (txs : list Transaction) : list bytes + error :=
  match txs with
  | [] => inl []
  | tx :: txs =>
      match Transaction_EncodeRLP tx with
      | None => inr (ErrExternal 0)
      | Some b =>
          match encode_all txs with inl bs => inl (b :: bs) | inr e => inr e end
      end
  end.

(** [rotate]: [all] is the map of transactions per account, in some order. *)
Definition journal_rotate (os : os_answers) (j : txJournal) (all : list (Address * list Transaction))
  : txJournal * option error :=
  match j_writer j, os_close os with
  | FileWriter, Some err => (j, Some err)
  | _, _ =>
      let j := mkJournal (j_path j) NoWriter (j_file j) in
      match os_create os with
      | Some err => (j, Some err)
      | None =>
          match encode_all (concat (snd <$> all)) with
          | inr err => (j, Some err)
          | inl items =>
              match os_rename os with
              | Some err => (j, Some err)
              | None =>
                  let j := mkJournal (j_path j) NoWriter (Some items) in
                  match os_reopen os with
                  | Some err => (j, Some err)
                  | None => (mkJournal (j_path j) FileWriter (Some items), None)
                  end
              end
          end
      end
  end.

Definition journal_close (os : os_answers) (j : txJournal) : txJournal * option error :=
  match j_writer j with
  | NoWriter => (j, None)
  | DevNull => (mkJournal (j_path j) NoWriter (j_file j), None)
  | FileWriter => (mkJournal (j_path j) NoWriter (j_file j), os_close os)
  end.

(** The decoding loop of [load]: the batches handed to [add], and the failure. *)
Fixpoint journal_batches (items : list bytes) (batch : list Transaction)
  : list (list Transaction) * option error :=
  let flush := match batch with [] => [] | _ => [batch] end in
  match items with
  | [] => (flush, None)
  | b :: items =>
      match Transaction_DecodeRLP (mkTransaction (mkTxdata (None, None) (None, None) None (zeroSig, zeroSig)) None None) b with
      | None => (flush, Some (ErrExternal 0))
      | Some tx =>
          let batch := batch ++ [tx] in
          if (1024 <? length batch)%nat then
            let (bs, e) := journal_batches items [] in (batch :: bs, e)
          else journal_batches items batch
      end
  end.
End Journal.

(** * The pool *)

(** [accountSet] and [txLookup] are a set of addresses and a map from hashes.
    [tp_newTxs] is what was sent on the subscribed channel, [None] when there is
    none; [tp_feed] what was sent on the event feed. *)
Record TxPool (G : Type) : Type := mkTxPool {
  tp_config : TxPoolConfig;
  tp_signer : G;
  tp_locals : gset Address;
  tp_journal : option txJournal;
  tp_queue : list Transaction;
  tp_beats : gmap Address Z;
  tp_all : gmap Hash Transaction;
  tp_newTxs : option (list (list Transaction));
  tp_feed : list (list Transaction)
}.
Arguments mkTxPool {G} _ _ _ _ _ _ _ _ _.
Arguments tp_config {G} _.
Arguments tp_signer {G} _.
Arguments tp_locals {G} _.
Arguments tp_journal {G} _.
Arguments tp_queue {G} _.
Arguments tp_beats {G} _.
Arguments tp_all {G} _.
Arguments tp_newTxs {G} _.
Arguments tp_feed {G} _.

Section TxPool.
Context {G : Type} `{Crypto} `{!Signer G} `{Rlp txdata} `{RlpStream}.

(** ** accountSet and txLookup *)

Definition accountSet_contains (accounts : gset Address) (addr : Address) : bool :=
  bool_decide (addr ∈ accounts).
Definition accountSet_add (accounts : gset Address) (addr : Address) : gset Address :=
  {[ addr ]} ∪ accounts.
Definition accountSet_containsTx (signer : G) (accounts : gset Address) (tx : Transaction) : go bool :=
  let! (addrs, err) := Sender signer tx in
  match err with
  | None => Ret (accountSet_contains accounts addrs.1 || accountSet_contains accounts addrs.2)
  | Some _ => Ret false
  end.

Definition txLookup_Get (all : gmap Hash Transaction) (hash : Hash) : option Transaction := all !! hash.
Definition txLookup_Count (all : gmap Hash Transaction) : nat := size all.
Definition txLookup_Add (all : gmap Hash Transaction) (tx : Transaction) : gmap Hash Transaction :=
  <[Transaction_Hash tx := tx]> all.
Definition txLookup_Remove (all : gmap Hash Transaction) (hash : Hash) : gmap Hash Transaction :=
  delete hash all.

(** [newAccountSet] and [newTxLookup]; [Range] stops at the first entry for which
    [f] is false, in the order [entries] of the map. *)
Definition newAccountSet : gset Address := ∅.
Definition newTxLookup : gmap Hash Transaction := ∅.

Fixpoint txLookup_Range {S} (f : S -> Hash -> Transaction -> S * bool) (s : S)
    (entries : list (Hash * Transaction)) : S :=
  match entries with
  | [] => s
  | (key, value) :: entries =>
      let (s, more) := f s key value in
      if more then txLookup_Range f s entries else s
  end.

(** ** Entering *)

Definition set_queue_all (pool : TxPool G) (q : list Transaction) (all : gmap Hash Transaction) : TxPool G :=
  mkTxPool (tp_config pool) (tp_signer pool) (tp_locals pool) (tp_journal pool) q (tp_beats pool)
    all (tp_newTxs pool) (tp_feed pool).

Definition enqueueTx (pool : TxPool G) (hash : Hash) (tx : Transaction) : TxPool G :=
  set_queue_all pool (tp_queue pool ++ [tx])
    (match txLookup_Get (tp_all pool) hash with
     | None => txLookup_Add (tp_all pool) tx
     | Some _ => tp_all pool
     end).

Definition set_journal (pool : TxPool G) (j : option txJournal) : TxPool G :=
  mkTxPool (tp_config pool) (tp_signer pool) (tp_locals pool) j (tp_queue pool) (tp_beats pool)
    (tp_all pool) (tp_newTxs pool) (tp_feed pool).

Definition journalTx (pool : TxPool G) (tx : Transaction) : TxPool G :=
  match tp_journal pool with
  | None => pool
  | Some j => set_journal pool (Some (journal_insert j tx).1)
  end.

(** [pool.newTxs <- ...] and the feed: what was sent and not yet received. The channel
    has ten places ([Run.v] says when a send finds room). *)
Definition notify (pool : TxPool G) (tx : Transaction) : TxPool G :=
  mkTxPool (tp_config pool) (tp_signer pool) (tp_locals pool) (tp_journal pool) (tp_queue pool)
    (tp_beats pool) (tp_all pool) ((fun sent => sent ++ [[tx]]) <$> tp_newTxs pool)
    (tp_feed pool ++ [[tx]]).

Definition errKnownTx : error := ErrMsg "known transaction".

(** [add]: a full pool is noticed and nothing is done about it. *)
Definition add {V} `{TxValidator V} (v : V) (pool : TxPool G) (tx : Transaction) (local : bool)
  : go (TxPool G * option error) :=
  let hash := Transaction_Hash tx in
  match txLookup_Get (tp_all pool) hash with
  | Some _ => Ret (pool, Some errKnownTx)
  | None =>
      let! err := tv_Validate v tx in
      match err with
      | Some _ => Ret (pool, err)
      | None =>
          let pool := enqueueTx pool hash tx in
          let pool := notify pool tx in
          Ret (if local then journalTx pool tx else pool, None)
      end
  end.

Fixpoint addTxsLocked {V} `{TxValidator V} (v : V) (pool : TxPool G) (txs : list Transaction) (local : bool)
  : go (TxPool G * list (option error)) :=
  match txs with
  | [] => Ret (pool, [])
  | tx :: txs =>
      let! (pool, e) := add v pool tx local in
      let! (pool, es) := addTxsLocked v pool txs local in
      Ret (pool, e :: es)
  end.

(** [addTx] and [addTxs] take the lock around the two above. *)
Definition addTx {V} `{TxValidator V} (v : V) (pool : TxPool G) (tx : Transaction) (local : bool) :=
  add v pool tx local.
Definition addTxs {V} `{TxValidator V} (v : V) (pool : TxPool G) (txs : list Transaction) (local : bool) :=
  addTxsLocked v pool txs local.

Definition AddLocal {V} `{TxValidator V} (v : V) (pool : TxPool G) (tx : Transaction) :=
  add v pool tx (negb (NoLocals (tp_config pool))).
Definition AddRemote {V} `{TxValidator V} (v : V) (pool : TxPool G) (tx : Transaction) :=
  add v pool tx false.
Definition AddLocals {V} `{TxValidator V} (v : V) (pool : TxPool G) (txs : list Transaction) :=
  addTxsLocked v pool txs (negb (NoLocals (tp_config pool))).
Definition AddRemotes {V} `{TxValidator V} (v : V) (pool : TxPool G) (txs : list Transaction) :=
  addTxsLocked v pool txs false.

(** ** Reading *)

Definition Stats (pool : TxPool G) : nat := length (tp_queue pool).
Definition Content (pool : TxPool G) : list Transaction := tp_queue pool.
Definition Get (pool : TxPool G) (hash : Hash) : option Transaction := txLookup_Get (tp_all pool) hash.
Definition SubscribeNewTxsCh (pool : TxPool G) (sent : list (list Transaction)) : TxPool G :=
  mkTxPool (tp_config pool) (tp_signer pool) (tp_locals pool) (tp_journal pool) (tp_queue pool)
    (tp_beats pool) (tp_all pool) (Some sent) (tp_feed pool).

(** [local]: the queued transactions per local sender. A transaction whose two
    senders coincide is listed twice. *)
Definition local_txs (pool : TxPool G) : go (gmap Address (list Transaction)) :=
  gfold (fun (txs : gmap Address (list Transaction)) tx =>
           let! (addrs, err) := Sender (tp_signer pool) tx in
           match err with
           | Some _ => Ret txs
           | None =>
               Ret (fold_left (fun (txs : gmap Address (list Transaction)) addr =>
                      if accountSet_contains (tp_locals pool) addr
                      then <[addr := default [] (txs !! addr) ++ [tx]]> txs else txs)
                    (pair_list addrs) txs)
           end)
    ∅ (tp_queue pool).

(** ** Leaving *)

(** The position of the first transaction with that hash; [None] is [-1]. *)
Fixpoint find_offset (txs : list Transaction) (hash : Hash) (i : nat) : option nat :=
  match txs with
  | [] => None
  | tx :: txs => if decide (Transaction_Hash tx = hash) then Some i else find_offset txs hash (S i)
  end.

Definition removeTx (pool : TxPool G) (hash : Hash) : go (TxPool G) :=
  match txLookup_Get (tp_all pool) hash with
  | None => Ret pool
  | Some _ =>
      let all := txLookup_Remove (tp_all pool) hash in
      match find_offset (tp_queue pool) hash 0 with
      | None => Ret (set_queue_all pool (tp_queue pool) all)
      | Some i =>
          let! q := Transactions_Remove (tp_queue pool) i in
          Ret (set_queue_all pool q all)
      end
  end.

(** ** Construction *)

(** [load] with [AddLocals] as its callback: the writer discards meanwhile and
    is unset at the end. *)
Definition pool_load {V} `{TxValidator V} (os : os_answers) (v : V) (pool : TxPool G) (j : txJournal)
  : go (TxPool G * option error) :=
  match j_file j with
  | None => Ret (set_journal pool (Some j), None)
  | Some items =>
      match os_open os with
      | Some err => Ret (set_journal pool (Some j), Some err)
      | None =>
          let pool := set_journal pool (Some (mkJournal (j_path j) DevNull (j_file j))) in
          let (batches, failure) := journal_batches items [] in
          let! pool := gfold (fun pool batch => let! (pool, _) := AddLocals v pool batch in Ret pool)
                         pool batches in
          Ret (set_journal pool ((fun j => mkJournal (j_path j) NoWriter (j_file j)) <$> tp_journal pool), failure)
      end
  end.

Definition NewTxPool {V} `{TxValidator V} (os : os_answers) (file : option (list bytes)) (v : V)
    (config : TxPoolConfig) (signer : G) : go (TxPool G) :=
  let config := sanitize config in
  let pool := mkTxPool config signer newAccountSet None [] ∅ newTxLookup None [] in
  if negb (NoLocals config) && negb (bool_decide (Journal config = "")) then
    let! (pool, _) := pool_load os v pool (newTxJournal (Journal config) file) in
    let! locals := local_txs pool in
    Ret (match tp_journal pool with
         | Some j => set_journal pool (Some (journal_rotate os j (map_to_list locals)).1)
         | None => pool
         end)
  else Ret pool.

(** ** Eviction *)

(** The eviction case of [loop] ranges over the slice it removes from: [backing]
    is the array the range reads, which [Remove] permutes. One round, at
    position [j]; [removeTx] swaps the removed transaction with the last queued
    one. *)
Definition evict_remove (backing : list Transaction) (pool : TxPool G) (hash : Hash)
  : go (list Transaction * TxPool G) :=
  let! pool' := removeTx pool hash in
  match find_offset (tp_queue pool) hash 0, txLookup_Get (tp_all pool) hash with
  | Some i, Some _ =>
      let! backing := swap backing i (length (tp_queue pool) - 1) in
      Ret (backing, pool')
  | _, _ => Ret (backing, pool')
  end.

(** [now - beats[addr] > Lifetime], where a missing heartbeat is the zero time,
    [age_of_zero] before [now]. *)
Definition evict_addr (now age_of_zero : Z) (tx : Transaction) (s : list Transaction * TxPool G)
    (addr : Address) : go (list Transaction * TxPool G) :=
  let (backing, pool) := s in
  if accountSet_contains (tp_locals pool) addr then Ret s
  else
    let age := match tp_beats pool !! addr with Some t => now - t | None => age_of_zero end in
    if Lifetime (tp_config pool) <? age then evict_remove backing pool (Transaction_Hash tx)
    else Ret s.

Definition evict_one (now age_of_zero : Z) (s : list Transaction * TxPool G) (j : nat)
  : go (list Transaction * TxPool G) :=
  let (backing, pool) := s in
  let! tx := index backing j in
  let! (addrs, err) := Sender (tp_signer pool) tx in
  match err with
  | Some _ => evict_remove backing pool (Transaction_Hash tx)
  | None => gfold (evict_addr now age_of_zero tx) s (pair_list addrs)
  end.

Definition evict (now age_of_zero : Z) (pool : TxPool G) : go (TxPool G) :=
  let! (_, pool) := gfold (evict_one now age_of_zero) (tp_queue pool, pool)
                      (seq 0 (length (tp_queue pool))) in
  Ret pool.
End TxPool.

(** * Reset on a new head *)

(** [float64(x)] of a [uint64] and the rounding of a float subtraction, on the
    integers they denote: 53 significant bits, ties to even. *)
Definition round53 (z : Z) : Z :=
  let e := Z.max 0 (Z.log2 z - 52) in
  let q := z / 2 ^ e in
  let r := z mod 2 ^ e in
  let q := if 2 * r <? 2 ^ e then q
           else if 2 ^ e <? 2 * r then q + 1
           else if Z.even q then q else q + 1 in
  q * 2 ^ e.

Definition reorg_depth (oldNum newNum : Z) : Z :=
  u64 (round53 (Z.abs (round53 oldNum - round53 newNum))).

Section Reset.
Context {G R : Type} `{Crypto} `{!Signer G} `{Rlp txdata} `{Rlp Header} `{RlpStream} `{BlockReader R}.

(** One of the first two loops: collect transactions while [a] is above [bn];
    [None] when a parent is missing. *)
Fixpoint unwind (fuel : nat) (chain : R) (a : Block) (bn : Z) (txs : list Transaction)
  : go (R * option (Block * list Transaction)) :=
  let! an := Block_NumberU64 a in
  if bn <? an then
    match fuel with
    | O => Stop OutOfFuel
    | S fuel =>
        let txs := txs ++ Block_Transactions a in
        let (chain, p) := br_GetBlock chain (Block_ParentHash a) (u64 (an - 1)) in
        match p with
        | None => Ret (chain, None)
        | Some a => unwind fuel chain a bn txs
        end
    end
  else Ret (chain, Some (a, txs)).

(** The third loop, both sides at once. *)
Fixpoint unwind_both (fuel : nat) (chain : R) (rem add : Block) (discarded included : list Transaction)
  : go (R * option (list Transaction * list Transaction)) :=
  if decide (Block_Hash rem = Block_Hash add) then Ret (chain, Some (discarded, included))
  else
    match fuel with
    | O => Stop OutOfFuel
    | S fuel =>
        let discarded := discarded ++ Block_Transactions rem in
        let! rn := Block_NumberU64 rem in
        let (chain, rp) := br_GetBlock chain (Block_ParentHash rem) (u64 (rn - 1)) in
        match rp with
        | None => Ret (chain, None)
        | Some rem =>
            let included := included ++ Block_Transactions add in
            let! an := Block_NumberU64 add in
            let (chain, ap) := br_GetBlock chain (Block_ParentHash add) (u64 (an - 1)) in
            match ap with
            | None => Ret (chain, None)
            | Some add => unwind_both fuel chain rem add discarded included
            end
        end
    end.

(** The transactions to put back after a reorganisation; [None] is the early
    return on an unrooted chain. *)
Definition reorg_txs (fuel : nat) (chain : R) (oldHead newHead : Header)
  : go (R * option (list Transaction)) :=
  let! oldNum := Header_NumberU64 oldHead in
  let! newNum := Header_NumberU64 newHead in
  if 64 <? reorg_depth oldNum newNum then Ret (chain, Some [])
  else
    let (chain, remp) := br_GetBlock chain (Header_Hash oldHead) oldNum in
    let (chain, addp) := br_GetBlock chain (Header_Hash newHead) newNum in
    let! rem := deref remp in
    let! add := deref addp in
    let! an := Block_NumberU64 add in
    let! (chain, r) := unwind fuel chain rem an [] in
    match r with
    | None => Ret (chain, None)
    | Some (rem, discarded) =>
        let! rn := Block_NumberU64 rem in
        let! (chain, r) := unwind fuel chain add rn [] in
        match r with
        | None => Ret (chain, None)
        | Some (add, included) =>
            let! (chain, r) := unwind_both fuel chain rem add discarded included in
            match r with
            | None => Ret (chain, None)
            | Some (discarded, included) => Ret (chain, Some (TxDifference discarded included))
            end
        end
    end.

(** [reset]; a nil [newHead] only asks the chain for its head. *)
Definition reset {V} `{TxValidator V} (fuel : nat) (v : V) (chain : R) (pool : TxPool G)
    (oldHead newHead : option Header) : go (R * TxPool G) :=
  let! (chain, reinject) :=
    match oldHead with
    | None => Ret (chain, Some [])
    | Some oldHead =>
        let! newHead := deref newHead in
        if decide (Header_Hash oldHead = ParentHash newHead) then Ret (chain, Some [])
        else reorg_txs fuel chain oldHead newHead
    end in
  match reinject with
  | None => Ret (chain, pool)
  | Some reinject =>
      let! _ := match newHead with Some h => Ret h
                | None => let! b := br_CurrentBlock chain in Ret (Block_Header b) end in
      let! (pool, _) := addTxsLocked v pool reinject false in
      Ret (chain, pool)
  end.
Definition lockedReset {V} `{TxValidator V} (fuel : nat) (v : V) (chain : R) (pool : TxPool G)
    (oldHead newHead : option Header) : go (R * TxPool G) :=
  reset fuel v chain pool oldHead newHead.

(** ** The pool's goroutine and its end *)

(** What [loop] selects on: a new head (the event's block can be nil), the end of
    the subscription, and its three tickers. *)
Inductive pool_event : Type :=
| HeadEvent (block : option Block)
| SubErr
| ReportTick
| EvictTick (now age_of_zero : Z)
| JournalTick (os : os_answers).

(** The variables of [loop]; [NewTxPool] has the call that starts it commented out. *)
Record pool_loop : Type := mkPoolLoop {
  pl_chain : R;
  pl_pool : TxPool G;
  pl_head : Block;
  pl_prevQueued : nat
}.

(** One turn; [true] when the goroutine returns. *)
Definition loop_turn {V} `{TxValidator V} (fuel : nat) (v : V) (s : pool_loop) (ev : pool_event)
  : go (pool_loop * bool) :=
  match ev with
  | HeadEvent None => Ret (s, false)
  | HeadEvent (Some b) =>
      let! (chain, pool) := reset fuel v (pl_chain s) (pl_pool s)
                              (Some (Block_Header (pl_head s))) (Some (Block_Header b)) in
      Ret (mkPoolLoop chain pool b (pl_prevQueued s), false)
  | SubErr => Ret (s, true)
  | ReportTick =>
      Ret (mkPoolLoop (pl_chain s) (pl_pool s) (pl_head s) (length (tp_queue (pl_pool s))), false)
  | EvictTick now age_of_zero =>
      let! pool := evict now age_of_zero (pl_pool s) in
      Ret (mkPoolLoop (pl_chain s) pool (pl_head s) (pl_prevQueued s), false)
  | JournalTick os =>
      match tp_journal (pl_pool s) with
      | None => Ret (s, false)
      | Some j =>
          let! locals := local_txs (pl_pool s) in
          Ret (mkPoolLoop (pl_chain s)
                 (set_journal (pl_pool s) (Some (journal_rotate os j (map_to_list locals)).1))
                 (pl_head s) (pl_prevQueued s), false)
      end
  end.

(** [Stop]: [chainHeadSub] is the chain subscription, nil because the line of
    [NewTxPool] that sets it is commented out; [wg.Wait] returns when the
    goroutine that [NewTxPool] counted has run to its end. *)
Definition TxPool_Stop (chainHeadSub : option unit) (loop_done : bool) (os : os_answers) (pool : TxPool G)
  : go (TxPool G) :=
  let! _ := deref chainHeadSub in
  if negb loop_done then Stop BlockedForever
  else
    Ret (match tp_journal pool with
         | None => pool
         | Some j => set_journal pool (Some (journal_close os j).1)
         end).
End Reset.

(** * core/tx_cacher.go *)

(** A request covers every [inc]th transaction of a suffix. *)
Record txSenderCacherRequest : Type := mkRequest {
  req_txs : list Transaction;
  req_inc : nat
}.

(** The requests [recover] sends. *)
Definition recover_requests (threads : nat) (txs : list Transaction) : list txSenderCacherRequest :=
  match txs with
  | [] => []
  | _ =>
      let tasks := if (length txs <? threads * 4)%nat then ((length txs + 3) / 4)%nat else threads in
      (fun i => mkRequest (drop i txs) tasks) <$> seq 0 tasks
  end.

(** The transactions [cache] visits for a request: [for i := 0; i < len; i += inc].
    The increment is positive for every request [recover] sends; the fuel is the
    number of transactions. *)
Fixpoint visited (fuel : nat) (txs : list Transaction) (inc : nat) : list Transaction :=
  match fuel, txs with
  | S fuel, tx :: _ => tx :: visited fuel (drop inc txs) inc
  | _, _ => []
  end.

Definition cache_visits (r : txSenderCacherRequest) : list Transaction :=
  visited (length (req_txs r)) (req_txs r) (req_inc r).

(** [recoverFromBlocks]. *)
Definition recoverFromBlocks (threads : nat) (blocks : list Block) : list txSenderCacherRequest :=
  recover_requests threads (concat (Block_Transactions <$> blocks)).

(** * Facts *)

Section PoolFacts.
Context {G : Type} `{Crypto} `{!Signer G} `{Rlp txdata} `{RlpStream}.

Definition hashes (txs : list Transaction) : list Hash := Transaction_Hash <$> txs.

(** The queue and the lookup agree: no two queued transactions share a hash, and
    the lookup maps exactly the queued hashes, each to its transaction. *)
Record pool_wf (pool : TxPool G) : Prop := {
  wf_nodup : NoDup (hashes (tp_queue pool));
  wf_all h tx : tp_all pool !! h = Some tx <-> tx ∈ tp_queue pool /\ Transaction_Hash tx = h
}.

Lemma pool_wf_same pool pool' :
  tp_queue pool' = tp_queue pool -> tp_all pool' = tp_all pool -> pool_wf pool -> pool_wf pool'.
Proof. intros Hq Ha [? ?]. split; rewrite ?Hq, ?Ha; done. Qed.

Lemma empty_wf conf sg : pool_wf (mkTxPool conf sg ∅ None [] ∅ ∅ None []).
Proof. split; simpl; [constructor|]. intros h tx. rewrite lookup_empty. set_solver. Qed.

Lemma wf_get pool h : pool_wf pool -> tp_all pool !! h = None <-> h ∉ hashes (tp_queue pool).
Proof.
  intros [_ Hall]. rewrite eq_None_not_Some. unfold hashes. rewrite list_elem_of_fmap. split.
  - intros Hn (tx & -> & Hin). apply Hn. exists tx. by apply Hall.
  - intros Hn [tx E]. apply Hall in E as [? <-]. eauto.
Qed.

(** What [add] does, on each of its branches. *)
Lemma add_spec {V} `{TxValidator V} (v : V) (pool : TxPool G) tx local pool' e :
  add v pool tx local = Ret (pool', e) ->
  (exists tx0, tp_all pool !! Transaction_Hash tx = Some tx0 /\ pool' = pool /\ e = Some errKnownTx) \/
  (tp_all pool !! Transaction_Hash tx = None /\ tv_Validate v tx = Ret e /\ e <> None /\ pool' = pool) \/
  (tp_all pool !! Transaction_Hash tx = None /\ tv_Validate v tx = Ret None /\ e = None /\
   tp_queue pool' = tp_queue pool ++ [tx] /\
   tp_all pool' = <[Transaction_Hash tx := tx]> (tp_all pool) /\ tp_locals pool' = tp_locals pool /\
   tp_config pool' = tp_config pool /\ tp_signer pool' = tp_signer pool).
Proof.
  unfold add, txLookup_Get. intros Ha.
  destruct (tp_all pool !! Transaction_Hash tx) as [tx0|] eqn:E.
  { simplify_eq. left. eauto. }
  go_inv Ha. destruct a as [err|]; simplify_eq/=.
  { right. left. eauto. }
  right. right.
  split_and!; try done; destruct local; unfold journalTx, enqueueTx, txLookup_Get, notify, set_queue_all;
    cbn; rewrite ?E; try destruct (tp_journal pool); cbn; rewrite ?E; done.
Qed.

Lemma add_accepts {V} `{TxValidator V} (v : V) (pool : TxPool G) tx local :
  Get pool (Transaction_Hash tx) = None -> tv_Validate v tx = Ret None ->
  exists pool', add v pool tx local = Ret (pool', None) /\
    Content pool' = Content pool ++ [tx] /\ Get pool' (Transaction_Hash tx) = Some tx.
Proof.
  unfold Get, Content. intros Hn Hv. assert (exists pool', add v pool tx local = Ret (pool', None)) as [pool' E].
  { unfold add. rewrite Hn, Hv. eexists. done. }
  exists pool'. split; [done|]. destruct (add_spec _ _ _ _ _ _ E) as [(? & _ & _ & ?)|[(_ & _ & ? & _)|Hs]]; [done|done|].
  destruct Hs as (_ & _ & _ & -> & -> & _). split; [done|]. apply lookup_insert_eq.
Qed.

Lemma add_wf {V} `{TxValidator V} (v : V) (pool : TxPool G) tx local pool' e :
  pool_wf pool -> add v pool tx local = Ret (pool', e) -> pool_wf pool'.
Proof.
  intros Hwf Ha. pose proof Hwf as [Hnd Hall].
  destruct (add_spec _ _ _ _ _ _ Ha) as [(? & _ & -> & _)|[(_ & _ & _ & ->)|Hs]]; [done|done|].
  destruct Hs as (Hn & _ & _ & Hq & Hal & _). pose proof (proj1 (wf_get _ _ Hwf) Hn) as Hni.
  split; rewrite Hq, ?Hal.
  - unfold hashes. rewrite fmap_app. apply NoDup_app. split_and!; [done| |apply NoDup_singleton].
    intros h Hh. simpl. unfold hashes in Hni. set_solver.
  - intros h tx'. rewrite lookup_insert_Some, elem_of_app, list_elem_of_singleton, Hall.
    unfold hashes in Hni. rewrite list_elem_of_fmap in Hni. naive_solver.
Qed.

Lemma addTxsLocked_wf {V} `{TxValidator V} (v : V) txs : forall (pool : TxPool G) local pool' es,
  pool_wf pool -> addTxsLocked v pool txs local = Ret (pool', es) ->
  pool_wf pool' /\ tp_locals pool' = tp_locals pool /\ tp_config pool' = tp_config pool /\
  length es = length txs.
Proof.
  induction txs as [|tx txs IH]; intros pool local pool' es Hwf Ha; simpl in Ha; [by simplify_eq|].
  go_inv Ha. destruct (IH _ _ _ _ (add_wf _ _ _ _ _ _ Hwf Ha0) Ha1) as (Hwf' & Hl & Hc & Hlen).
  simpl. split_and!; [done| | |lia].
  - destruct (add_spec _ _ _ _ _ _ Ha0) as [(? & _ & -> & _)|[(_ & _ & _ & ->)|Hs]]; naive_solver congruence.
  - destruct (add_spec _ _ _ _ _ _ Ha0) as [(? & _ & -> & _)|[(_ & _ & _ & ->)|Hs]]; naive_solver congruence.
Qed.

Lemma find_offset_spec txs h i :
  match find_offset txs h i with
  | Some j => exists tx, (i <= j)%nat /\ txs !! (j - i)%nat = Some tx /\ Transaction_Hash tx = h
  | None => h ∉ hashes txs
  end.
Proof.
  revert i. induction txs as [|tx txs IH]; intros i; simpl; [set_solver|].
  case_decide as E; [exists tx; rewrite Nat.sub_diag; done|].
  specialize (IH (S i)). destruct (find_offset txs h (S i)) as [j|].
  - destruct IH as (tx' & Hle & Hl & Hh). exists tx'. split_and!; [lia| |done].
    replace (j - i)%nat with (S (j - S i)) by lia. done.
  - unfold hashes in *. set_solver.
Qed.

(** [removeTx] never stops; it takes the transaction with that hash out of the
    queue and of the lookup, and nothing else. *)
Lemma removeTx_spec pool h :
  pool_wf pool ->
  exists pool', removeTx pool h = Ret pool' /\ pool_wf pool' /\
    tp_all pool' = delete h (tp_all pool) /\
    tp_queue pool' ≡ₚ filter (fun tx => Transaction_Hash tx <> h) (tp_queue pool) /\
    tp_locals pool' = tp_locals pool /\ tp_config pool' = tp_config pool /\
    tp_signer pool' = tp_signer pool /\ tp_beats pool' = tp_beats pool.
Proof.
  intros Hwf. pose proof Hwf as [Hnd Hall]. unfold removeTx, txLookup_Get, txLookup_Remove.
  destruct (tp_all pool !! h) as [tx0|] eqn:E.
  2: { exists pool. split_and!; try done; [by rewrite delete_id|].
       apply (wf_get _ _ Hwf) in E. rewrite filter_all; [done|].
       intros tx Hin <-. apply E. unfold hashes. apply list_elem_of_fmap. eauto. }
  pose proof (find_offset_spec (tp_queue pool) h 0) as Hf.
  destruct (find_offset (tp_queue pool) h 0) as [i|].
  2: { exfalso. apply Hf. apply Hall in E as [Hin <-]. apply list_elem_of_fmap. eauto. }
  destruct Hf as (tx & _ & Hi & Hh). rewrite Nat.sub_0_r in Hi.
  destruct (Transactions_Remove_perm _ _ _ Hi) as (q & -> & Hp). simpl.
  assert (Hperm : hashes (tp_queue pool) ≡ₚ h :: hashes q).
  { unfold hashes. rewrite <- Hp. by rewrite fmap_cons, Hh. }
  rewrite Hperm in Hnd. apply NoDup_cons in Hnd as [Hnh Hnd].
  assert (Hq : q ≡ₚ filter (fun tx => Transaction_Hash tx <> h) (tp_queue pool)).
  { rewrite <- Hp, filter_cons. case_decide; [done|]. rewrite filter_all; [done|].
    intros tx' Hin' Hh'. apply Hnh. apply list_elem_of_fmap. naive_solver. }
  eexists. split; [done|]. split_and!; simpl; try done.
  split; simpl; [done|]. intros h' tx'. rewrite lookup_delete_Some, Hall, Hq, list_elem_of_filter.
  naive_solver.
Qed.
End PoolFacts.

(** ** Eviction *)

Section EvictFacts.
Context {G : Type} `{Crypto} `{!Signer G} `{Rlp txdata} `{RlpStream}.

(** The array the range reads: the queue is its prefix. *)
Definition backs (n : nat) (s : list Transaction * TxPool G) : Prop :=
  pool_wf s.2 /\ length s.1 = n /\ take (length (tp_queue s.2)) s.1 = tp_queue s.2 /\
  (length (tp_queue s.2) <= n)%nat.

(** The parts of the pool eviction reads and never writes; the array is permuted. *)
Definition same_env (s s' : list Transaction * TxPool G) : Prop :=
  s'.1 ≡ₚ s.1 /\ tp_locals s'.2 = tp_locals s.2 /\ tp_signer s'.2 = tp_signer s.2 /\
  tp_config s'.2 = tp_config s.2 /\ tp_beats s'.2 = tp_beats s.2.

Lemma same_env_refl s : same_env s s.
Proof. by split_and!. Qed.
Lemma same_env_trans s1 s2 s3 : same_env s1 s2 -> same_env s2 s3 -> same_env s1 s3.
Proof. intros (? & ? & ? & ? & ?) (Hp & ? & ? & ? & ?). split_and!; [by rewrite Hp|congruence..]. Qed.

Lemma backs_queue n s tx : backs n s -> tx ∈ tp_queue s.2 -> tx ∈ s.1.
Proof.
  intros (_ & _ & Htake & _) Htx. rewrite <- Htake in Htx. apply elem_of_take in Htx as (? & ? & _).
  by eapply list_elem_of_lookup_2.
Qed.

Lemma evict_remove_spec n backing pool h :
  backs n (backing, pool) -> exists s', evict_remove backing pool h = Ret s' /\ backs n s' /\
    same_env (backing, pool) s' /\
    (forall tx, tx ∈ tp_queue s'.2 <-> tx ∈ tp_queue pool /\ Transaction_Hash tx <> h).
Proof.
  intros (Hwf & Hlen & Htake & Hle). simpl in *. unfold evict_remove.
  destruct (removeTx_spec pool h Hwf) as (pool' & Hr & Hwf' & Hall & Hq & Hl & Hcf & Hsg & Hbt).
  assert (Hmem : forall tx, tx ∈ tp_queue pool' <-> tx ∈ tp_queue pool /\ Transaction_Hash tx <> h).
  { intros tx. rewrite Hq, list_elem_of_filter. tauto. }
  rewrite Hr. simpl. unfold removeTx, txLookup_Get in *.
  destruct (tp_all pool !! h) as [tx0|] eqn:E.
  2: { simplify_eq. destruct (find_offset _ _ _); exists (backing, pool'); split_and!; done. }
  pose proof (find_offset_spec (tp_queue pool) h 0) as Hf.
  destruct (find_offset (tp_queue pool) h 0) as [i|]; simplify_eq/=.
  2: { eexists. split; [done|]. done. }
  destruct Hf as (tx & _ & Hi & Hh). rewrite Nat.sub_0_r in Hi.
  apply gbind_Ret in Hr as (q & Hrm & [= <-]).
  apply Transactions_Remove_inv in Hrm as (l & Hsw & ->).
  destruct (swap_perm _ _ _ _ Hsw) as [Hll Hp].
  assert (Hback : backing = tp_queue pool ++ drop (length (tp_queue pool)) backing).
  { rewrite <- Htake at 1. by rewrite take_drop. }
  rewrite Hback, (swap_app_l _ _ _ _ _ Hsw). simpl.
  eexists. split; [done|]. unfold backs, same_env. simpl. split_and!; try done.
  - rewrite length_app, Hll, <- length_app, <- Hback. done.
  - rewrite length_take, Nat.min_l by lia. by rewrite take_app_le by lia.
  - rewrite length_take, ?length_app. lia.
  - by rewrite Hp.
Qed.

(** Every queued transaction has senders or a signature error. *)
Definition recoverable (sg : G) (txs : list Transaction) : Prop :=
  forall tx, tx ∈ txs -> returns (Sender sg tx).

(** An account whose transactions stay: local, or heard of within the lifetime. *)
Definition alive (now age : Z) (pool : TxPool G) (addr : Address) : Prop :=
  accountSet_contains (tp_locals pool) addr = true \/
  match tp_beats pool !! addr with Some t => now - t | None => age end <= Lifetime (tp_config pool).

Definition keeps (now age : Z) (pool : TxPool G) (tx : Transaction) : Prop :=
  exists a b, Sender (tp_signer pool) tx = Ret ((a, b), None) /\ alive now age pool a /\ alive now age pool b.

(** A step of the pass: the array permuted, the queue a subset that still holds
    what is to be kept. *)
Definition evict_ok (now age : Z) (n : nat) (s s' : list Transaction * TxPool G) : Prop :=
  backs n s' /\ same_env s s' /\ (forall tx, tx ∈ tp_queue s'.2 -> tx ∈ tp_queue s.2) /\
  (forall tx, tx ∈ tp_queue s.2 -> keeps now age s.2 tx -> tx ∈ tp_queue s'.2).

Lemma keeps_env now age s s' tx : same_env s s' -> keeps now age s.2 tx <-> keeps now age s'.2 tx.
Proof. intros (_ & Hl & Hs & Hc & Hb). unfold keeps, alive. by rewrite Hl, Hs, Hc, Hb. Qed.

Lemma evict_ok_refl now age n s : backs n s -> evict_ok now age n s s.
Proof. intros Hb. by split_and!; [|apply same_env_refl|..]. Qed.

Lemma evict_ok_trans now age n s1 s2 s3 :
  evict_ok now age n s1 s2 -> evict_ok now age n s2 s3 -> evict_ok now age n s1 s3.
Proof.
  intros (_ & He & Hq & Hk) (? & He' & Hq' & Hk'). split_and!; [done|by eapply same_env_trans|eauto|].
  intros tx Htx Hkeep. apply Hk'; [by apply Hk|]. by apply (keeps_env now age s1 s2).
Qed.

(** Taking out a transaction that is not to be kept. *)
Lemma evict_remove_ok now age n s tx :
  backs n s -> NoDup (hashes s.1) -> tx ∈ s.1 -> ~ keeps now age s.2 tx ->
  exists s', evict_remove s.1 s.2 (Transaction_Hash tx) = Ret s' /\ evict_ok now age n s s'.
Proof.
  intros Hb Hnd Htx Hno. destruct s as [backing pool].
  destruct (evict_remove_spec n backing pool (Transaction_Hash tx) Hb) as (s' & E & Hb' & He & Hq).
  exists s'. split; [done|]. split_and!; [done|done|intros x Hx; by apply Hq|].
  intros x Hx Hkeep. apply Hq. split; [done|]. intros Eh. apply Hno.
  assert (x = tx) as ->; [|done]. apply (NoDup_fmap_elem Transaction_Hash backing); try done.
  by eapply backs_queue in Hb.
Qed.

Lemma evict_addr_ok now age n s tx addr :
  backs n s -> NoDup (hashes s.1) -> tx ∈ s.1 -> (~ alive now age s.2 addr -> ~ keeps now age s.2 tx) ->
  exists s', evict_addr now age tx s addr = Ret s' /\ evict_ok now age n s s'.
Proof.
  intros Hb Hnd Htx Hno. pose proof (evict_remove_ok now age n s tx Hb Hnd Htx) as Hrm.
  destruct s as [backing pool]. unfold evict_addr. cbn [fst snd] in *. unfold alive in Hno.
  destruct (accountSet_contains _ _); [eauto using evict_ok_refl|].
  destruct (Z.ltb_spec (Lifetime (tp_config pool))
    match tp_beats pool !! addr with Some t => now - t | None => age end) as [Hlt|]; [|eauto using evict_ok_refl].
  apply Hrm, Hno. intros [?|?]; [done|lia].
Qed.

Lemma evict_one_spec now age n j s :
  backs n s -> NoDup (hashes s.1) -> recoverable (tp_signer s.2) s.1 -> (j < n)%nat ->
  exists s', evict_one now age s j = Ret s' /\ evict_ok now age n s s'.
Proof.
  destruct s as [backing pool]. intros Hb Hnd Hrec Hj. unfold evict_one. pose proof Hb as (_ & Hlen & _).
  simpl in Hlen, Hrec. destruct (lookup_lt_is_Some_2 backing j) as [tx Htx]; [lia|].
  unfold index. rewrite Htx. cbn [gbind]. apply list_elem_of_lookup_2 in Htx.
  destruct (Hrec tx Htx) as [[[a b] err] Hs]. rewrite Hs. cbn [gbind]. destruct err as [err|].
  { apply (evict_remove_ok now age n (backing, pool) tx Hb Hnd Htx).
    intros (? & ? & E & _). cbn [snd] in E. rewrite Hs in E. done. }
  assert (Hno : forall c s, c = a \/ c = b -> same_env (backing, pool) s ->
    ~ alive now age s.2 c -> ~ keeps now age s.2 tx).
  { intros c s Hc (_ & _ & Hsg & _) Ha (a' & b' & E & Ha' & Hb'). rewrite Hsg in E. cbn [snd] in E.
    rewrite Hs in E. simplify_eq. by destruct Hc as [-> | ->]. }
  destruct (evict_addr_ok now age n (backing, pool) tx a) as (s1 & E1 & S1);
    [done|done|done|apply Hno; [by left|apply same_env_refl]|].
  pose proof S1 as (Hb1 & He1 & _).
  destruct (evict_addr_ok now age n s1 tx b) as (s2 & E2 & S2);
    [done|unfold hashes; by rewrite (proj1 He1)|by rewrite (proj1 He1)|apply Hno; [by right|done]|].
  exists s2. unfold pair_list. cbn [gfold fst snd]. rewrite E1. cbn [gbind]. rewrite E2. cbn [gbind].
  split; [done|]. by eapply evict_ok_trans.
Qed.

(** The pass, from its first index to its last. *)
Lemma evict_run now age pool :
  pool_wf pool -> recoverable (tp_signer pool) (tp_queue pool) ->
  exists pool', evict now age pool = Ret pool' /\ pool_wf pool' /\ tp_locals pool' = tp_locals pool /\
    (forall tx, tx ∈ tp_queue pool' -> tx ∈ tp_queue pool) /\
    (forall tx, tx ∈ tp_queue pool -> keeps now age pool tx -> tx ∈ tp_queue pool') /\
    tp_signer pool' = tp_signer pool.
Proof.
  intros Hwf Hrec. unfold evict.
  assert (Hloop : forall js s, (forall j, j ∈ js -> (j < length (tp_queue pool))%nat) ->
    backs (length (tp_queue pool)) s -> NoDup (hashes s.1) -> recoverable (tp_signer s.2) s.1 ->
    exists s', gfold (evict_one now age) s js = Ret s' /\ evict_ok now age (length (tp_queue pool)) s s').
  { induction js as [|j js IH]; intros s Hjs Hb Hnd Hr; simpl; [eauto using evict_ok_refl|].
    destruct (evict_one_spec now age (length (tp_queue pool)) j s) as (s1 & -> & S1);
      [done|done|done|apply Hjs; set_solver|].
    pose proof S1 as (Hb1 & (Hp1 & _ & Hs1 & _) & _). simpl.
    destruct (IH s1) as (s2 & -> & S2); [intros k Hk; apply Hjs; set_solver|done|unfold hashes; by rewrite Hp1| |].
    - rewrite Hs1. intros tx Htx. apply Hr. by rewrite <- Hp1.
    - exists s2. split; [done|]. by eapply evict_ok_trans. }
  destruct (Hloop (seq 0 (length (tp_queue pool))) (tp_queue pool, pool))
    as ([bk p] & -> & Hb & (_ & Hl & Hsg & _) & Hq & Hk); [|by split_and!; [..|rewrite take_ge|]|apply Hwf|done|].
  - intros j Hj. apply elem_of_seq in Hj. lia.
  - simpl in *. exists p. split_and!; try done. apply Hb.
Qed.

(** C33. An eviction pass runs to its end, although it removes from the slice it
    ranges over: no index goes out of range, the queue and the lookup stay
    consistent, and nothing enters the pool. No transaction is dropped whose
    senders are recovered and are all local or heard of within the lifetime. *)
Theorem evict_spec now age pool :
  pool_wf pool -> recoverable (tp_signer pool) (tp_queue pool) ->
  exists pool', evict now age pool = Ret pool' /\ pool_wf pool' /\ tp_locals pool' = tp_locals pool /\
    (forall tx, tx ∈ tp_queue pool' -> tx ∈ tp_queue pool) /\
    (forall tx, tx ∈ tp_queue pool -> keeps now age pool tx -> tx ∈ tp_queue pool').
Proof.
  intros Hwf Hrec. destruct (evict_run now age pool Hwf Hrec) as (p & ? & ? & ? & ? & ? & _). eauto 10.
Qed.
End EvictFacts.

(** ** The pool as a state machine *)

Section PoolSteps.
Context {G : Type} `{Crypto} `{!Signer G} `{Rlp txdata} `{RlpStream} {V : Type} `{TxValidator V}.

(** What can happen to a pool: transactions arrive, one by one or in batches,
    and leave when sealed. The validator reads a database that changes between
    steps. *)
Inductive pool_step : TxPool G -> TxPool G -> Prop :=
| step_add v pool tx local pool' e : add v pool tx local = Ret (pool', e) -> pool_step pool pool'
| step_batch v pool txs local pool' es :
    addTxsLocked v pool txs local = Ret (pool', es) -> pool_step pool pool'
| step_remove pool h pool' : removeTx pool h = Ret pool' -> pool_step pool pool'
| step_evict now age pool pool' :
    recoverable (tp_signer pool) (tp_queue pool) -> evict now age pool = Ret pool' -> pool_step pool pool'
| step_subscribe pool sent : pool_step pool (SubscribeNewTxsCh pool sent).

Definition empty_pool (conf : TxPoolConfig) (sg : G) : TxPool G :=
  mkTxPool conf sg ∅ None [] ∅ ∅ None [].

Lemma pool_step_wf pool pool' : pool_wf pool -> pool_step pool pool' -> pool_wf pool'.
Proof.
  intros Hwf Hs. destruct Hs as [v pool tx local pool' e Ha|v pool txs local pool' es Ha|pool h pool' Hr
    |now age pool pool' Hrec He|pool sent].
  - by eapply add_wf.
  - by destruct (addTxsLocked_wf v txs pool local pool' es Hwf Ha) as [? _].
  - destruct (removeTx_spec pool h Hwf) as (p & E & Hp & _). rewrite Hr in E. by simplify_eq.
  - destruct (evict_run now age pool Hwf Hrec) as (p & E & Hp & _). rewrite He in E. by simplify_eq.
  - by apply (pool_wf_same pool).
Qed.

(** C32. In every pool reachable from the empty one, no two queued transactions
    share a hash, and the lookup maps exactly the queued hashes, each to its
    queued transaction. *)
Theorem pool_reachable_wf conf sg pool : rtc pool_step (empty_pool conf sg) pool -> pool_wf pool.
Proof.
  intros Hr. remember (empty_pool conf sg) as p0 eqn:E.
  assert (Hwf : pool_wf p0) by (rewrite E; apply empty_wf). clear E.
  induction Hr as [|p1 p2 p3 Hs _ IH]; [done|]. apply IH. by eapply pool_step_wf.
Qed.

(** [removeTx] always returns; it takes exactly the transaction with the
    given hash out of the queue and the lookup. *)
Theorem removeTx_exact (pool : TxPool G) h :
  pool_wf pool ->
  exists pool', removeTx pool h = Ret pool' /\ pool_wf pool' /\
    tp_all pool' = delete h (tp_all pool) /\
    tp_queue pool' ≡ₚ filter (fun tx => Transaction_Hash tx <> h) (tp_queue pool).
Proof.
  intros Hwf. destruct (removeTx_spec pool h Hwf) as (p & ? & ? & ? & ? & _). eauto 10.
Qed.
End PoolSteps.

(** ** The journal *)

Section JournalFacts.
Context {G : Type} `{Crypto} `{!Signer G} `{Rlp txdata} `{RlpStream} {V : Type} `{TxValidator V}.

(** The transaction [load] decodes into. *)
Definition blank_tx : Transaction :=
  mkTransaction (mkTxdata (None, None) (None, None) None (zeroSig, zeroSig)) None None.

Definition loads (items : list bytes) (tx : Transaction) : Prop :=
  exists b, b ∈ items /\ Transaction_DecodeRLP blank_tx b = Some tx.

Lemma journal_batches_spec items : forall batch b tx,
  b ∈ (journal_batches items batch).1 -> tx ∈ b -> tx ∈ batch \/ loads items tx.
Proof.
  assert (Hflush : forall batch b (tx : Transaction),
    b ∈ match batch with [] => [] | _ => [batch] end -> tx ∈ b -> tx ∈ batch).
  { intros batch b tx Hb. destruct batch; [by apply not_elem_of_nil in Hb|].
    by apply list_elem_of_singleton in Hb as ->. }
  induction items as [|it items IH]; intros batch b tx Hb Htx; cbn [journal_batches fst] in Hb.
  { left. by eapply Hflush. }
  fold blank_tx in Hb.
  destruct (Transaction_DecodeRLP blank_tx it) as [t|] eqn:E; [|left; by eapply Hflush].
  assert (Hup : loads items tx -> loads (it :: items) tx).
  { intros (b' & ? & ?). exists b'. split; [set_solver|done]. }
  assert (Ht : loads (it :: items) t) by (exists it; split; [set_solver|done]).
  destruct (1024 <? _)%nat.
  - specialize (IH [] b tx). destruct (journal_batches items []) as [bs e]. simpl in *.
    apply elem_of_cons in Hb as [->|Hb]; [|naive_solver set_solver].
    apply elem_of_app in Htx as [?|Htx]; [by left|]. apply list_elem_of_singleton in Htx as ->. by right.
  - destruct (IH _ _ _ Hb Htx) as [Hin|?]; [|auto].
    apply elem_of_app in Hin as [?|Hin]; [by left|]. apply list_elem_of_singleton in Hin as ->. by right.
Qed.

(** A pool that is loading: its journal discards, and what it holds was loaded. *)
Record loading (sg : G) (conf : TxPoolConfig) (j : txJournal) (items : list bytes) (pool : TxPool G) : Prop := {
  ld_signer : tp_signer pool = sg;
  ld_config : tp_config pool = conf;
  ld_locals : tp_locals pool = ∅;
  ld_journal : tp_journal pool = Some (mkJournal (j_path j) DevNull (j_file j));
  ld_queue tx : tx ∈ tp_queue pool -> loads items tx
}.

Lemma add_loading (v : V) sg conf j items pool tx local :
  loading sg conf j items pool -> loads items tx -> returns (tv_Validate v tx) ->
  exists pool' e, add v pool tx local = Ret (pool', e) /\ loading sg conf j items pool'.
Proof.
  intros [Hsg Hcf Hlo Hj Hq] Htx [err Hv]. unfold add.
  destruct (txLookup_Get _ _); [exists pool; eexists; split; [done|by split]|].
  rewrite Hv. simpl. destruct err as [err|]; [exists pool; eexists; split; [done|by split]|].
  do 2 eexists. split; [done|].
  destruct local; unfold journalTx, notify, enqueueTx, set_queue_all; cbn [tp_journal];
    rewrite ?Hj; cbn [journal_insert j_writer].
  - unfold set_journal. cbn.
    split; cbn; try done; [|set_solver].
    destruct (Transaction_EncodeRLP tx); done.
  - split; cbn; try done. set_solver.
Qed.

Lemma addTxs_loading (v : V) sg conf j items txs local : forall pool,
  loading sg conf j items pool ->
  (forall tx, tx ∈ txs -> loads items tx /\ returns (tv_Validate v tx)) ->
  exists pool' es, addTxsLocked v pool txs local = Ret (pool', es) /\ loading sg conf j items pool'.
Proof.
  induction txs as [|tx txs IH]; intros pool Hp Htxs; simpl; [eauto|].
  destruct (Htxs tx) as [Hl Hv]; [set_solver|].
  destruct (add_loading v sg conf j items pool tx local Hp Hl Hv) as (pool1 & e & -> & Hp1). simpl.
  destruct (IH pool1 Hp1) as (pool2 & es & -> & Hp2); [set_solver|]. simpl. eauto.
Qed.

Lemma load_loading (v : V) sg conf j items batches : forall pool,
  loading sg conf j items pool ->
  (forall b tx, b ∈ batches -> tx ∈ b -> loads items tx /\ returns (tv_Validate v tx)) ->
  exists pool', gfold (fun pool batch => let! (pool, _) := AddLocals v pool batch in Ret pool) pool batches
    = Ret pool' /\ loading sg conf j items pool'.
Proof.
  induction batches as [|b bs IH]; intros pool Hp Hb; simpl; [eauto|]. unfold AddLocals at 1.
  destruct (addTxs_loading v sg conf j items b (negb (NoLocals (tp_config pool))) pool Hp)
    as (pool1 & es & -> & Hp1); [set_solver|]. simpl. apply IH; [done|set_solver].
Qed.

(** With no local account, no transaction counts as local. *)
Lemma local_txs_empty (pool : TxPool G) :
  tp_locals pool = ∅ -> (forall tx, tx ∈ tp_queue pool -> returns (Sender (tp_signer pool) tx)) ->
  local_txs pool = Ret ∅.
Proof.
  intros Hl Hr. unfold local_txs. revert Hr. induction (tp_queue pool) as [|tx q IH]; intros Hr; [done|].
  cbn [gfold]. destruct (Hr tx) as [[addrs [err|]] ->]; [set_solver| |]; cbn [gbind].
  - apply IH. set_solver.
  - assert (Hc : forall a, accountSet_contains (tp_locals pool) a = false).
    { intros a. unfold accountSet_contains. rewrite Hl. apply bool_decide_false. set_solver. }
    match goal with |- context [fold_left ?f (pair_list addrs) ?z] =>
      assert (fold_left f (pair_list addrs) z = z) as -> end.
    { unfold pair_list. cbn [fold_left]. by rewrite !Hc. }
    apply IH. set_solver.
Qed.

Definition os_ok : os_answers := mkOS None None None None None.

(** Restarting with a journal leaves an empty journal behind, whatever it
    held: no operation ever marks an account as local, so the rotation at the end
    of [NewTxPool] writes no transaction back. *)
Lemma NewTxPool_journal (v : V) conf sg items :
  NoLocals conf = false -> Journal conf <> "" ->
  (forall tx, loads items tx -> returns (tv_Validate v tx) /\ returns (Sender sg tx)) ->
  exists pool, NewTxPool os_ok (Some items) v conf sg = Ret pool /\
    tp_journal pool = Some (mkJournal (Journal conf) FileWriter (Some [])) /\ tp_locals pool = ∅.
Proof.
  intros Hnl Hjn Hret. unfold NewTxPool, newAccountSet, newTxLookup. cbn [NoLocals sanitize Journal]. rewrite Hnl.
  rewrite bool_decide_false by done. cbn [negb andb].
  unfold pool_load. cbn [newTxJournal j_file os_open os_ok j_path].
  pose proof (journal_batches_spec items [] ) as Hb.
  destruct (journal_batches items []) as [batches failure].
  set (j := newTxJournal (Journal conf) (Some items)).
  destruct (load_loading v sg (sanitize conf) j items batches
    (set_journal (mkTxPool (sanitize conf) sg ∅ None [] ∅ ∅ None [])
       (Some (mkJournal (Journal conf) DevNull (Some items))))) as (pool & -> & Hp).
  { split; try done; simpl; set_solver. }
  { intros b tx Hbin Htx. assert (Hl : loads items tx) by (destruct (Hb b tx Hbin Htx); set_solver).
    split; [done|by apply Hret]. }
  destruct Hp as [Hsg Hcf Hlo Hj Hq]. cbn [gbind]. rewrite Hj. cbn [fmap option_fmap option_map j_path j_file].
  rewrite local_txs_empty; [|done|cbn; rewrite Hsg; intros tx Htx; by apply Hret, Hq].
  cbn [gbind tp_journal set_journal]. eexists. split; [done|].
  rewrite map_to_list_empty. cbn. done.
Qed.
End JournalFacts.

(** ** Signature recovery tasks *)

Section CacherFacts.
Lemma visited_enough inc fuel txs : (0 < inc)%nat -> (length txs <= fuel)%nat ->
  visited fuel txs inc = visited (length txs) txs inc.
Proof.
  intros Hinc. revert txs. induction fuel as [fuel IH] using lt_wf_ind. intros txs Hl.
  destruct txs as [|tx txs]; [by destruct fuel|]. destruct fuel as [|fuel]; [simpl in Hl; lia|].
  cbn [visited length]. f_equal. simpl in Hl.
  assert (length (drop inc (tx :: txs)) <= length txs)%nat by (rewrite length_drop; simpl; lia).
  rewrite (IH fuel) by lia. symmetry. apply IH; lia.
Qed.

Definition visits (inc : nat) (txs : list Transaction) : list Transaction :=
  visited (length txs) txs inc.

Lemma visits_drop inc i l : (0 < inc)%nat ->
  visits inc (drop i l) = match l !! i with
                          | Some x => x :: visits inc (drop i (drop inc l))
                          | None => []
                          end.
Proof.
  intros Hinc. unfold visits. destruct (l !! i) as [x|] eqn:E.
  - rewrite (drop_S _ x) by done. cbn [visited length]. f_equal.
    rewrite (visited_enough inc) by (rewrite ?length_drop; simpl; rewrite ?length_drop; lia).
    rewrite <- (drop_S _ x i) by done. by rewrite !drop_drop, (Nat.add_comm inc).
  - apply lookup_ge_None in E. by rewrite drop_ge.
Qed.

Lemma concat_split {A} (f : nat -> option A) (g : nat -> list A) js :
  concat ((fun i => match f i with Some x => x :: g i | None => g i end) <$> js) ≡ₚ
  omap f js ++ concat (g <$> js).
Proof.
  induction js as [|j js IH]; [done|]. cbn [fmap list_fmap concat]. rewrite IH. simpl.
  destruct (f j); simpl; solve_Permutation.
Qed.

Lemma omap_lookup_seq {A} (l : list A) n : omap (fun i => l !! i) (seq 0 n) = take n l.
Proof.
  enough (E : forall k, omap (fun i => l !! i) (seq k n) = take n (drop k l)) by apply (E 0%nat).
  induction n as [|n IH]; intros k; [done|]. cbn [seq omap list_omap].
  destruct (l !! k) as [x|] eqn:Ek.
  - rewrite (drop_S _ x) by done. simpl. by rewrite IH.
  - rewrite IH. apply lookup_ge_None in Ek. rewrite !drop_ge by lia. by rewrite !take_nil.
Qed.

(** Striding from every start visits each element once. *)
Lemma strides_cover inc l : (0 < inc)%nat ->
  concat ((fun i => visits inc (drop i l)) <$> seq 0 inc) ≡ₚ l.
Proof.
  intros Hinc. remember (length l) as n eqn:Hn. revert l Hn.
  induction n as [n IH] using lt_wf_ind. intros l ->.
  destruct l as [|x l'].
  { clear IH. induction (seq 0 inc) as [|j js IHj]; [done|]. cbn [fmap list_fmap concat]. rewrite IHj, drop_nil. done. }
  set (l := x :: l') in *.
  assert (E : (fun i => visits inc (drop i l)) <$> seq 0 inc =
    (fun i => match l !! i with
              | Some x => x :: visits inc (drop i (drop inc l))
              | None => visits inc (drop i (drop inc l)) end) <$> seq 0 inc).
  { apply list_fmap_ext. intros k i _. rewrite visits_drop by done.
    destruct (l !! i) eqn:El; [done|]. apply lookup_ge_None in El.
    by rewrite drop_drop, drop_ge by lia. }
  rewrite E, concat_split, omap_lookup_seq.
  rewrite (IH (length (drop inc l))); [by rewrite take_drop| |done].
  rewrite length_drop. simpl. lia.
Qed.

(** Signature recovery is split into tasks that together visit every
    transaction of the batch exactly once, for any positive number of threads. *)
Lemma recover_covers threads txs : (0 < threads)%nat ->
  concat (cache_visits <$> recover_requests threads txs) ≡ₚ txs.
Proof.
  intros Ht. unfold recover_requests. destruct txs as [|tx txs]; [done|].
  set (l := tx :: txs).
  set (tasks := if (length l <? threads * 4)%nat then _ else _).
  assert (0 < tasks)%nat.
  { unfold tasks. destruct (_ <? _)%nat; [|done]. apply Nat.div_str_pos. simpl. lia. }
  rewrite <- list_fmap_compose. apply (strides_cover tasks l). done.
Qed.
End CacherFacts.
