(* ===== verification/Cacher.v ===== *)
(** core/tx_cacher.go as it runs: the goroutines that take recovery requests from a
    channel, and a caller that sends them. *)

From S2P Require Import Prelude Deps Types TxPool.

(** A goroutine waits for a request, or is at index [i] of one. *)
Definition worker : Type := option (txSenderCacherRequest * nat).

(** The channel, with room for as many requests as there are goroutines; the requests
    the caller has still to send; the transactions [types.Sender] was called on. *)
Record txSenderCacher : Type := mkCacher {
  ca_sending : list txSenderCacherRequest;
  ca_tasks : list txSenderCacherRequest;
  ca_workers : list worker;
  ca_seen : list Transaction
}.

Definition newTxSenderCacher (threads : nat) : txSenderCacher := mkCacher [] [] (replicate threads None) [].

(** [recover], called once the cacher is idle. *)
Definition recover (cacher : txSenderCacher) (txs : list Transaction) : txSenderCacher :=
  mkCacher (ca_sending cacher ++ recover_requests (length (ca_workers cacher)) txs)
    (ca_tasks cacher) (ca_workers cacher) (ca_seen cacher).

(** The caller sends; a goroutine receives, handles the next transaction, or is done
    with its request. Which of them moves is up to the scheduler. [types.Sender], whose
    results the goroutine drops, is taken to return. *)
Inductive cacher_step : txSenderCacher -> txSenderCacher -> Prop :=
| cacher_send r sending tasks ws seen : (length tasks < length ws)%nat ->
    cacher_step (mkCacher (r :: sending) tasks ws seen) (mkCacher sending (tasks ++ [r]) ws seen)
| cacher_receive sending r tasks ws1 ws2 seen :
    cacher_step (mkCacher sending (r :: tasks) (ws1 ++ None :: ws2) seen)
      (mkCacher sending tasks (ws1 ++ Some (r, 0%nat) :: ws2) seen)
| cacher_sender sending tasks ws1 r i ws2 seen tx : req_txs r !! i = Some tx ->
    cacher_step (mkCacher sending tasks (ws1 ++ Some (r, i) :: ws2) seen)
      (mkCacher sending tasks (ws1 ++ Some (r, (i + req_inc r)%nat) :: ws2) (seen ++ [tx]))
| cacher_finish sending tasks ws1 r i ws2 seen : (length (req_txs r) <= i)%nat ->
    cacher_step (mkCacher sending tasks (ws1 ++ Some (r, i) :: ws2) seen)
      (mkCacher sending tasks (ws1 ++ None :: ws2) seen).

(** What a goroutine has still to do. *)
Definition rest (w : worker) : list Transaction :=
  match w with Some (r, i) => cache_visits (mkRequest (drop i (req_txs r)) (req_inc r)) | None => [] end.

(** All of it, done or not. *)
Definition work (s : txSenderCacher) : list Transaction :=
  ca_seen s ++ concat (rest <$> ca_workers s) ++ concat (cache_visits <$> ca_tasks s) ++
  concat (cache_visits <$> ca_sending s).

Definition strides_ok (s : txSenderCacher) : Prop :=
  Forall (fun r => 0 < req_inc r)%nat (ca_sending s) /\ Forall (fun r => 0 < req_inc r)%nat (ca_tasks s) /\
  Forall (fun w : worker => match w with Some (r, _) => (0 < req_inc r)%nat | None => True end) (ca_workers s).

Definition busy (w : worker) : nat := match w with Some _ => 1 | None => 0 end.

(** An upper bound for the steps left. *)
Definition steps_left (s : txSenderCacher) : nat :=
  3 * length (ca_sending s) + 2 * length (ca_tasks s) + sum_list (busy <$> ca_workers s) +
  (length (work s) - length (ca_seen s)).

Lemma rest_step r i tx : (0 < req_inc r)%nat -> req_txs r !! i = Some tx ->
  rest (Some (r, i)) = tx :: rest (Some (r, (i + req_inc r)%nat)).
Proof.
  intros Hinc Htx. unfold rest, cache_visits. cbn [req_txs req_inc].
  change (visits (req_inc r) (drop i (req_txs r)) = tx :: visits (req_inc r) (drop (i + req_inc r) (req_txs r))).
  rewrite visits_drop, Htx by done. by rewrite drop_drop, Nat.add_comm.
Qed.

(** No step loses work, or does any twice. *)
Lemma cacher_step_work s s' : cacher_step s s' -> strides_ok s -> work s' ≡ₚ work s /\ strides_ok s'.
Proof.
  intros Hs (H1 & H2 & H3). destruct Hs as [r sending tasks ws seen _|sending r tasks ws1 ws2 seen
    |sending tasks ws1 r i ws2 seen tx Htx|sending tasks ws1 r i ws2 seen Hi];
    unfold work, strides_ok; cbn [ca_sending ca_tasks ca_workers ca_seen] in *.
  - apply Forall_cons in H1 as [Hr H1]. split; [|split_and!; [done|apply Forall_app; split; [done|by apply Forall_singleton]|done]].
    rewrite fmap_app, concat_app, fmap_cons. cbn [fmap list_fmap concat]. solve_Permutation.
  - apply Forall_cons in H2 as [Hr H2]. apply Forall_app in H3 as [Hw1 Hw2]. apply Forall_cons in Hw2 as [_ Hw2].
    split; [|split_and!; [done|done|apply Forall_app; split; [done|by constructor]]].
    rewrite !fmap_app, !concat_app, !fmap_cons. cbn [concat].
    replace (rest (Some (r, 0%nat))) with (cache_visits r) by (unfold rest; rewrite drop_0; by destruct r).
    cbn [rest]. solve_Permutation.
  - apply Forall_app in H3 as [Hw1 Hw2]. apply Forall_cons in Hw2 as [Hr Hw2].
    split; [|split_and!; [done|done|apply Forall_app; split; [done|by constructor]]].
    rewrite !fmap_app, !concat_app, !fmap_cons. cbn [concat]. rewrite (rest_step r i tx) by done. cbn [app].
    solve_Permutation.
  - apply Forall_app in H3 as [Hw1 Hw2]. apply Forall_cons in Hw2 as [Hr Hw2].
    split; [|split_and!; [done|done|apply Forall_app; split; [done|by constructor]]].
    rewrite !fmap_app, !concat_app, !fmap_cons. cbn [concat].
    replace (rest (Some (r, i))) with ([] : list Transaction); [done|].
    unfold rest. by rewrite drop_ge.
Qed.

Lemma sum_list_app (l l' : list nat) : sum_list (l ++ l') = (sum_list l + sum_list l')%nat.
Proof. induction l as [|x l IH]; cbn; [done|]. rewrite IH. lia. Qed.

Lemma cacher_step_less s s' : cacher_step s s' -> strides_ok s -> (steps_left s' < steps_left s)%nat.
Proof.
  intros Hs Hok. destruct (cacher_step_work s s' Hs Hok) as [Hw _]. apply Permutation_length in Hw.
  assert (Hle : (length (ca_seen s') <= length (work s'))%nat) by (unfold work; rewrite length_app; lia).
  unfold steps_left. rewrite Hw in *.
  destruct Hs; cbn [ca_sending ca_tasks ca_workers ca_seen] in *;
    rewrite ?fmap_app, ?fmap_cons, ?sum_list_app, ?length_app in *; cbn in *; lia.
Qed.

(** Everything was handled. *)
Definition idle (s : txSenderCacher) : Prop :=
  ca_sending s = [] /\ ca_tasks s = [] /\ Forall (fun w : worker => w = None) (ca_workers s).

(** As long as there is work, something can move. *)
Lemma cacher_progress s : ca_workers s <> [] -> idle s \/ exists s', cacher_step s s'.
Proof.
  destruct s as [sending tasks ws seen]. cbn [ca_workers]. intros Hws.
  destruct (decide (Forall (fun w : worker => w = None) ws)) as [Hall|Hsome].
  - destruct ws as [|w ws]; [done|]. apply Forall_cons in Hall as Hall'. destruct Hall' as [-> _].
    destruct tasks as [|r tasks]; [destruct sending as [|r sending]|].
    + left. unfold idle. by split_and!.
    + right. eexists. apply cacher_send. cbn. lia.
    + right. eexists. apply (cacher_receive sending r tasks [] ws).
  - right. apply not_Forall_Exists in Hsome; [|apply _]. apply Exists_exists in Hsome as (w & Hin & Hw).
    destruct w as [[r i]|]; [|by destruct Hw]. apply list_elem_of_split in Hin as (ws1 & ws2 & ->).
    destruct (req_txs r !! i) as [tx|] eqn:E; eexists; [by eapply cacher_sender|].
    apply cacher_finish. by apply lookup_ge_None.
Qed.

Lemma recover_requests_ok threads txs : (0 < threads)%nat -> Forall (fun r => 0 < req_inc r)%nat (recover_requests threads txs).
Proof.
  intros Ht. unfold recover_requests. destruct txs as [|tx txs]; [constructor|].
  apply Forall_fmap, Forall_forall. intros i _. cbn [req_inc compose].
  destruct (_ <? _)%nat; [|done]. apply Nat.div_str_pos. cbn. lia.
Qed.

Lemma workers_length s s' : cacher_step s s' -> length (ca_workers s') = length (ca_workers s).
Proof. destruct 1; cbn; rewrite ?length_app; done. Qed.

(** C34. Recovering senders in the background ends, and handles every transaction
    exactly once. With any positive number of goroutines and whatever the scheduler
    does, after [recover] on a new cacher: no run has more steps than a bound that
    depends on the batch alone; and when nothing can move any more, all requests were
    sent and handled, every goroutine waits, and [types.Sender] was called exactly
    once on each transaction of the batch. [types.Sender] is taken to return: on a
    signature without V it would panic, which ends the process. *)
Theorem recover_completes threads txs n s : (0 < threads)%nat ->
  nsteps cacher_step n (recover (newTxSenderCacher threads) txs) s ->
  (n <= 3 * length (recover_requests threads txs) + length txs)%nat /\
  ((forall s', ~ cacher_step s s') -> idle s /\ ca_seen s ≡ₚ txs).
Proof.
  intros Ht Hrun. set (s0 := recover _ txs) in *.
  assert (Hreq : ca_sending s0 = recover_requests threads txs) by (cbn; by rewrite length_replicate).
  assert (Hidle : concat (rest <$> replicate threads None) = ([] : list Transaction)) by (clear; by induction threads).
  assert (Hw0 : work s0 ≡ₚ txs).
  { unfold work. rewrite Hreq. cbn [ca_seen ca_workers ca_tasks s0 recover newTxSenderCacher].
    rewrite Hidle. cbn. by apply recover_covers. }
  assert (Hok0 : strides_ok s0).
  { unfold strides_ok. rewrite Hreq. split_and!; [by apply recover_requests_ok|constructor|by apply Forall_replicate]. }
  assert (Hs0 : steps_left s0 = (3 * length (recover_requests threads txs) + length txs)%nat).
  { unfold steps_left. rewrite Hreq, (Permutation_length Hw0). cbn [ca_tasks ca_workers ca_seen s0 recover newTxSenderCacher].
    replace (sum_list (busy <$> replicate threads None)) with 0%nat by (clear; by induction threads). cbn. lia. }
  assert (Hlen : length (ca_workers s0) = threads) by (cbn; by rewrite length_replicate).
  rewrite <- Hs0. clear Hs0 Hreq Hidle. revert Hrun Hw0 Hok0 Hlen. generalize s0 as s1. clear s0.
  intros s1 Hrun. induction Hrun as [s1|n s1 s2 s3 Hstep _ IH]; intros Hw Hok Hlen.
  - split; [lia|]. intros Hstuck. destruct (cacher_progress s1) as [Hi|[s' Hs']]; [|split; [done|]|by destruct (Hstuck s')].
    { intros E. rewrite E in Hlen. cbn in Hlen. lia. }
    rewrite <- Hw. unfold work. destruct Hi as (-> & -> & Hall).
    replace (concat (rest <$> ca_workers s1)) with ([] : list Transaction); [cbn; by rewrite app_nil_r|].
    clear -Hall. induction Hall as [|w ws -> _ IH]; [done|]. cbn. by rewrite <- IH.
  - destruct (cacher_step_work s1 s2 Hstep Hok) as [Hw2 Hok2]. pose proof (cacher_step_less s1 s2 Hstep Hok).
    destruct IH as [Hn Hend]; [by rewrite Hw2|done|by rewrite (workers_length s1 s2)|]. split; [lia|done].
Qed.
