(* ===== verification/RootChain.v ===== *)
(** core/rootchain.go: the link to the contract on the root chain. The chain
    client (go-icst) and the JSON and MD5 of the standard library are arguments.
    The event loop runs against a node state that holds the chain database; the
    handlers the workers register are functions on that state. *)

From S2P Require Import Prelude Deps Types Store Schema.
#[local] Open Scope Z_scope.

(** The events the loop asks for. *)
Record DepositEvent : Type := mkDepositEvent {
  Depositor : Address;
  DepositBlock : option Z;
  Token : Address;
  ev_Amount : option Z
}.
Record BlockSubmittedEvent : Type := mkBlockSubmittedEvent {
  Root : Hash;
  LastDepositBlockNum : option Z;
  SubmittedBlockNum : option Z;
  ev_Time : option Z
}.
Inductive event_value : Type :=
| Deposit (e : DepositEvent)
| BlockSubmitted (e : BlockSubmittedEvent).

(** [chain.ContractEvent]: the root chain block and the decoded value, whose
    constructor is the event's name. *)
Record ContractEvent : Type := mkContractEvent { ev_BlockNum : Z; ev_V : event_value }.

(** [json.Marshal] and [md5.Sum]. *)
Class EventHash : Type := {
  event_json : ContractEvent -> option bytes;
  md5_Sum : bytes -> farray 16
}.

(** The chain client. *)
Class IcstChain `{Crypto} : Type := {
  icst_tx : Type;
  icst_PubKeyToAddress : PrivateKey -> bytes;
  (** [CallWithAbi] of [submitBlock(_root, blockNum)] at the contract *)
  icst_submitBlock : bytes -> string -> Hash -> Z -> icst_tx + error;
  icst_tx_Hash : icst_tx -> Hash;
  icst_ConfirmTrans : icst_tx -> bytes -> option error
}.

(** [chain.Query] of the contract's public variables, at the contract's address
    and with its ABI: the value the call left behind its pointer, and an error. *)
Class ContractQuery : Type := {
  query_uint : bytes -> string -> string -> option Z * option error;
  query_childChain : bytes -> string -> Z -> (Hash * option Z) * option error;
  query_operator : bytes -> string -> Address * option error
}.

(** * The client *)

(** [sub] maps the event names to the three handlers and is not changed after
    [NewRootChain]; [dispatch] is its use. *)
Record RootChain (W : Type) : Type := mkRootChain {
  rc_abiStr : string;
  rc_cxAddr : string;
  rc_fromBlock : Z;
  rc_depositEventHandler : option (W -> option Z -> Address -> Address -> option Z -> go (W * option error));
  rc_blockSubmittedEventHandler : option (W -> option Z -> option Z -> go (W * option error))
}.
Arguments mkRootChain {W} _ _ _ _ _.
Arguments rc_abiStr {W} _.
Arguments rc_cxAddr {W} _.
Arguments rc_fromBlock {W} _.
Arguments rc_depositEventHandler {W} _.
Arguments rc_blockSubmittedEventHandler {W} _.

(** [ethclient.Dial] and the configured start block are arguments. The goroutine
    that runs [loopEvents] starts here, before any handler is registered. *)
Definition NewRootChain {W} (dial : string -> option error) (fromBlock : Z)
    (url abiStr cxAddr : string) : RootChain W + error :=
  match dial url with
  | Some _ => inr (ErrMsg "failed to connect eth rpc endpoint")
  | None => inl (mkRootChain abiStr cxAddr fromBlock None None)
  end.

Definition RegisterDepositEventHandler {W} (rc : RootChain W) handler : RootChain W :=
  mkRootChain (rc_abiStr rc) (rc_cxAddr rc) (rc_fromBlock rc) handler (rc_blockSubmittedEventHandler rc).
Definition RegisterBlockSubmittedEventHandler {W} (rc : RootChain W) handler : RootChain W :=
  mkRootChain (rc_abiStr rc) (rc_cxAddr rc) (rc_fromBlock rc) (rc_depositEventHandler rc) handler.

Section Queries.
Context {W : Type} `{ContractQuery}.

Definition GetCurrentChildBlock (rc : RootChain W) : option Z * option error :=
  match hex_DecodeString (rc_cxAddr rc) with
  | inr err => (None, Some err)
  | inl cxAddrBytes => query_uint cxAddrBytes (rc_abiStr rc) "currentChildBlock"
  end.

Definition GetCurrentDepositBlock (rc : RootChain W) : option Z * option error :=
  match hex_DecodeString (rc_cxAddr rc) with
  | inr err => (None, Some err)
  | inl cxAddrBytes => query_uint cxAddrBytes (rc_abiStr rc) "currentDepositBlock"
  end.

Definition GetRootChainBlockByBlockNum (rc : RootChain W) (blockNum : Z) : Hash * option error :=
  match hex_DecodeString (rc_cxAddr rc) with
  | inr err => (zeroHash, Some err)
  | inl cxAddrBytes =>
      let '((ret0, _), err) := query_childChain cxAddrBytes (rc_abiStr rc) blockNum in (ret0, err)
  end.

Definition GetOperatorAddress (rc : RootChain W) : Address * option error :=
  match hex_DecodeString (rc_cxAddr rc) with
  | inr err => (zeroAddress, Some err)
  | inl cxAddrBytes => query_operator cxAddrBytes (rc_abiStr rc)
  end.
End Queries.

Definition PubKeyToAddress `{Crypto} `{!IcstChain} (privateKey : PrivateKey) : bytes :=
  icst_PubKeyToAddress privateKey.

Section SubmitBlock.
Context `{Crypto} `{!IcstChain}.

Definition SubmitBlock (cxAddr : string) (block : Block) (privateKey : PrivateKey) : go (option error) :=
  let from := PubKeyToAddress privateKey in
  let root := TxHash (Block_Header block) in
  let! number := Block_Number block in
  match icst_submitBlock from cxAddr root number with
  | inr err => Ret (Some err)
  | inl tx =>
      match crypto_Sign (icst_tx_Hash tx) privateKey with
      | inr err => Ret (Some err)
      | inl sigBytes => Ret (icst_ConfirmTrans tx sigBytes)
      end
  end.
End SubmitBlock.

(** * The starting block *)

Section FromBlock.
Context {D : Type} `{Database D}.

(** [GetFromBlock]; the loop does not call it. *)
Definition GetFromBlock (config_fromBlock : Z) (d : D) : Z + error :=
  match db_Has d FromBlockKey with
  | (_, Some err) => inr err
  | (true, None) =>
      match db_Get d FromBlockKey with
      | (_, Some err) => inr err
      | (b, None) => inl (be_val b)
      end
  | (false, None) => inl config_fromBlock
  end.

Definition PutFromBlock (d : D) (fromBlock : Z) : D * option error :=
  db_Put d FromBlockKey (big_Bytes fromBlock).
End FromBlock.

(** * The event loop *)

Record CurrentBlockEventData : Type := mkCBED {
  cb_blockNum : Z;
  cb_hashList : list bytes
}.

(** [big.NewInt(100)], where the loop always starts. *)
Definition loop_fromBlock : Z := 100.

Section EventLoop.
Context {D W : Type} `{Database D} `{EventHash}
  (w_db : W -> D) (w_set_db : W -> D -> W) (rc : RootChain W).

Definition hashEvent (event : ContractEvent) : bytes * bytes :=
  match event_json event with
  | Some jsonBytes => (arr (md5_Sum jsonBytes), jsonBytes)
  | None => ([], [])
  end.

(** An event without a registered handler is logged and dropped. *)
Definition dealWithDepositEvent (w : W) (e : DepositEvent) : go (W * option error) :=
  match rc_depositEventHandler rc with
  | None => Ret (w, None)
  | Some handler => handler w (DepositBlock e) (Depositor e) (Token e) (ev_Amount e)
  end.

Definition dealWithBlockSubmittedEvent (w : W) (e : BlockSubmittedEvent) : go (W * option error) :=
  match rc_blockSubmittedEventHandler rc with
  | None => Ret (w, None)
  | Some handler =>
      let! (w, _) := handler w (LastDepositBlockNum e) (SubmittedBlockNum e) in
      Ret (w, None)
  end.

(** [rc.sub[event.Name](event)], for the names the loop asks for. *)
Definition dispatch (w : W) (event : ContractEvent) : go (W * option error) :=
  match ev_V event with
  | Deposit e => dealWithDepositEvent w e
  | BlockSubmitted e => dealWithBlockSubmittedEvent w e
  end.

(** [DelLastBlockEventHash]. *)
Definition DelLastBlockEventHash (self : CurrentBlockEventData) (d : D) : CurrentBlockEventData * D :=
  let (d, newDbTx) := db_BeginTx d in
  if negb newDbTx then (self, d)
  else
    let d := fold_left (fun d v => (db_Delete d v).1) (cb_hashList self) d in
    match db_CommitTx d with
    | (d, Some _) => (self, (db_RollbackTx d).1)
    | (d, None) => (mkCBED (cb_blockNum self) [], d)
    end.

(** The variables of [loopEvents] and the node's state. *)
Record loop_state : Type := mkLoop {
  ls_w : W;
  ls_fromBlock : Z;
  ls_data : CurrentBlockEventData
}.

Definition ls_set_db (s : loop_state) (d : D) : loop_state :=
  mkLoop (w_set_db (ls_w s) d) (ls_fromBlock s) (ls_data s).

(** The body of the inner loop for an event and the one after it. The handler's
    error is dropped. *)
Definition handle_event (s : loop_state) (p : ContractEvent * option ContractEvent)
  : go (loop_state * option error) :=
  let (event, next) := p in
  let (key, value) := hashEvent event in
  let s := mkLoop (ls_w s) (ls_fromBlock s)
             (mkCBED (ev_BlockNum event) (cb_hashList (ls_data s) ++ [key])) in
  match db_Has (w_db (ls_w s)) key with
  | (_, Some err) => Ret (s, Some err)
  | (true, None) => Ret (s, None)
  | (false, None) =>
      let! (w, _) := dispatch (ls_w s) event in
      let s := mkLoop w (ls_fromBlock s) (ls_data s) in
      match db_Put (w_db (ls_w s)) key value with
      | (d, Some err) => Ret (ls_set_db s d, Some err)
      | (d, None) =>
          let s := ls_set_db s d in
          let last_of_block :=
            match next with
            | None => true
            | Some e => negb (cb_blockNum (ls_data s) =? ev_BlockNum e)
            end in
          if last_of_block then
            let fromBlock := i64 (u64 (ev_BlockNum event + 1)) in
            match PutFromBlock (w_db (ls_w s)) fromBlock with
            | (d, Some err) => Ret (ls_set_db (mkLoop (ls_w s) fromBlock (ls_data s)) d, Some err)
            | (d, None) =>
                let (data, d) := DelLastBlockEventHash (ls_data s) d in
                Ret (ls_set_db (mkLoop (ls_w s) fromBlock data) d, None)
            end
          else Ret (s, None)
      end
  end.

(** [events[i]] with [events[i+1]]. *)
Definition with_next (events : list ContractEvent) : list (ContractEvent * option ContractEvent) :=
  imap (fun i e => (e, events !! S i)) events.

(** One round of the outer loop, on the events [GetContractEvents] returned. *)
Definition loop_round (s : loop_state) (events : list ContractEvent) : go (loop_state * option error) :=
  eloop handle_event s (with_next events).

(** [loopEvents] for a number of rounds, once the contract's address is decoded
    (it returns at once when it cannot be). [GetContractEvents] is the client's
    answer in a round, from a block on; its error ends the loop, as any other
    error does. *)
Fixpoint loop_rounds (GetContractEvents : nat -> Z -> list ContractEvent + error) (round : nat)
    (rounds : nat) (s : loop_state) : go (loop_state * option error) :=
  match rounds with
  | O => Ret (s, None)
  | S rounds =>
      match GetContractEvents round (ls_fromBlock s) with
      | inr err => Ret (s, Some err)
      | inl events =>
          let! (s, err) := loop_round s events in
          match err with
          | Some _ => Ret (s, err)
          | None => loop_rounds GetContractEvents (S round) rounds s
          end
      end
  end.

Definition loopEvents GetContractEvents (rounds : nat) (w : W) : go (loop_state * option error) :=
  let s := mkLoop w loop_fromBlock (mkCBED 0 []) in
  match hex_DecodeString (rc_cxAddr rc) with
  | inr err => Ret (s, Some err)
  | inl _ => loop_rounds GetContractEvents 0 rounds s
  end.
End EventLoop.
