(* ===== verification/Operator.v ===== *)
(** core/operator.go and core/validator.go: the two workers that write blocks.
    Channels are the lists of what was sent on them; a send on a nil channel
    never completes. [time.Now().Unix()] is an argument. *)

From S2P Require Import Prelude Deps Types Signing Store Schema RawDB Utxo Validation HeaderChain.
From S2P Require Import BlockChain TxPool RootChain.
#[local] Open Scope Z_scope.

Definition childBlockInterval : Z := 1000.

Definition errDbRace : error :=
  ErrMsg "database race detected, there should be no tx pending when plasma operator commit a block".

Record Operator (D G : Type) `{LRU} `{Crypto} : Type := mkOperator {
  op_Addr : Address;
  op_privateKey : PrivateKey;
  op_chain : BlockChain D;
  op_txPool : TxPool G;
  op_TxsCh : list (list Transaction);
  op_currentChildBlock : Z;
  op_newBlockCh : option (list Block)
}.
Arguments mkOperator {D G _ _} _ _ _ _ _ _ _.
Arguments op_Addr {D G _ _} _.
Arguments op_privateKey {D G _ _} _.
Arguments op_chain {D G _ _} _.
Arguments op_txPool {D G _ _} _.
Arguments op_TxsCh {D G _ _} _.
Arguments op_currentChildBlock {D G _ _} _.
Arguments op_newBlockCh {D G _ _} _.

(** [ch <- x]: the list holds what was sent and not yet received. A send on a nil
    channel blocks for ever; that one on a full channel waits for the receiver is left
    to [Run.v] ([within_cap], [cap_step]). *)
Definition send {A} (ch : option (list A)) (x : A) : go (option (list A)) :=
  match ch with Some sent => Ret (Some (sent ++ [x])) | None => Stop BlockedForever end.

Section UtxoUpdate.
Context {U : Type} `{UtxoReaderWriter U}.

(** The output record the loops of [WriteBlock] build. *)
Definition new_utxo (number : Z) (txIdx outIdx : nat) (out : TxOut) : UTXO :=
  mkUTXO (mkUTXOID number (u32 (Z.of_nat txIdx)) (byte_of (Z.of_nat outIdx)))
    (mkTxOut (Owner out) (Amount out)).

(** [Operator]: a failed deletion ends the loop. *)
Definition del_input (u : U) (p : option UTXO) : go (U * option error) :=
  let! in_ := deref p in
  Ret (utxo_Del u (UTXO_ID in_)).

(** [Validator]: a failed deletion is logged. *)
Definition del_input_lax (u : U) (p : option UTXO) : go (U * option error) :=
  let! in_ := deref p in
  Ret ((utxo_Del u (UTXO_ID in_)).1, None).

Definition put_output (number : Z) (txIdx : nat) (u : U) (p : nat * option TxOut) : go (U * option error) :=
  let! out := deref p.2 in
  utxo_Put u (new_utxo number txIdx p.1 out).

Definition apply_tx `{Copier} (del : U -> option UTXO -> go (U * option error)) (block : Block) (u : U)
    (p : nat * Transaction) : go (U * option error) :=
  let (txIdx, tx) := p in
  let! (u, err) := eloop del u (GetInsCopy tx) in
  match err with
  | Some _ => Ret (u, err)
  | None =>
      let! number := Block_NumberU64 block in
      eloop (put_output number txIdx) u (imap pair (GetOutsCopy tx))
  end.

Definition apply_block `{Copier} (del : U -> option UTXO -> go (U * option error)) (u : U) (block : Block)
  : go (U * option error) :=
  eloop (apply_tx del block) u (imap pair (Block_Transactions block)).
End UtxoUpdate.

Section Workers.
Context {D G : Type} `{LRU} `{EthCommon} `{Crypto} `{!Signer G} `{Copier} `{Trie} `{Rlp txdata}
  `{Rlp Header} `{Rlp rlpBody} `{Rlp Z} `{Rlp extblock} `{RlpStream} `{Database D}.

(** [o.chain.db.RollbackTx()], its error logged. *)
Definition rollback_db (bc : BlockChain D) : BlockChain D := set_db bc (db_RollbackTx (bc_db bc)).1.

(** The end of both [WriteBlock]s: update the UTXO set and commit; roll back on
    an error. *)
Definition finish_block (del : D -> option UTXO -> go (D * option error)) (bc : BlockChain D) (block : Block)
  : go (BlockChain D * option error) :=
  let! (d, err) := apply_block del (bc_db bc) block in
  let bc := set_db bc d in
  match err with
  | Some _ => Ret (rollback_db bc, err)
  | None =>
      let (d, err) := db_CommitTx (bc_db bc) in
      let bc := set_db bc d in
      match err with
      | Some _ => Ret (rollback_db bc, err)
      | None => Ret (bc, None)
      end
  end.

(** The beginning: open a transaction, write the block, move the head. The
    number decides between the validated and the unvalidated write. *)
Definition start_block (signer : G) (bc : BlockChain D) (block : Block)
  : go (BlockChain D * option error) :=
  let (d, newDbTx) := db_BeginTx (bc_db bc) in
  let bc := set_db bc d in
  if negb newDbTx then Ret (bc, Some errDbRace)
  else
    let! num := deref (Number (Block_Header block)) in
    let blockNum := big_Int64 num in
    let! (bc, err) :=
      if negb (Z.rem blockNum 1000 =? 0) then WriteDepositBlock bc block
      else BC_WriteBlock (chain_ValidateBody signer) bc block in
    match err with
    | Some _ => Ret (rollback_db bc, err)
    | None =>
        let! cur := BC_CurrentBlock bc in
        let! cn := Block_Number cur in
        let! bc := if cn <? num then ReplaceHead bc block else Ret bc in
        Ret (bc, None)
    end.

(** * Operator *)

Definition op_set_chain (o : Operator D G) (bc : BlockChain D) : Operator D G :=
  mkOperator (op_Addr o) (op_privateKey o) bc (op_txPool o) (op_TxsCh o) (op_currentChildBlock o) (op_newBlockCh o).
Definition op_set_pool (o : Operator D G) (p : TxPool G) : Operator D G :=
  mkOperator (op_Addr o) (op_privateKey o) (op_chain o) p (op_TxsCh o) (op_currentChildBlock o) (op_newBlockCh o).
Definition op_set_child (o : Operator D G) (n : Z) : Operator D G :=
  mkOperator (op_Addr o) (op_privateKey o) (op_chain o) (op_txPool o) (op_TxsCh o) n (op_newBlockCh o).
Definition op_set_newBlockCh (o : Operator D G) (ch : option (list Block)) : Operator D G :=
  mkOperator (op_Addr o) (op_privateKey o) (op_chain o) (op_txPool o) (op_TxsCh o) (op_currentChildBlock o) ch.
Definition op_set_TxsCh (o : Operator D G) (ch : list (list Transaction)) : Operator D G :=
  mkOperator (op_Addr o) (op_privateKey o) (op_chain o) (op_txPool o) ch (op_currentChildBlock o) (op_newBlockCh o).

Definition NewOperator `{!IcstChain} (chain : BlockChain D) (pool : TxPool G) (privateKey : PrivateKey)
  : go (Operator D G) :=
  let from := icst_PubKeyToAddress privateKey in
  let! h := BC_CurrentHeader chain in
  let! h := deref h in
  let! currentBlockNum := Header_NumberU64 h in
  Ret (mkOperator (BytesToAddress from) privateKey chain pool []
         (currentBlockNum / childBlockInterval * childBlockInterval) (Some [])).

Definition SetOperbase (o : Operator D G) (operbase : Address) : Operator D G :=
  mkOperator operbase (op_privateKey o) (op_chain o) (op_txPool o) (op_TxsCh o) (op_currentChildBlock o) (op_newBlockCh o).

Definition SubscribeNewBlockCh (o : Operator D G) (ch : option (list Block)) : Operator D G :=
  op_set_newBlockCh o ch.

(** One tick of [start], and [AddTxs]. *)
Definition start_tick (o : Operator D G) : Operator D G :=
  match Content (op_txPool o) with
  | [] => o
  | txs => op_set_TxsCh o (op_TxsCh o ++ [txs])
  end.
Definition AddTxs (o : Operator D G) (txs : list Transaction) : Operator D G :=
  match txs with
  | [] => o
  | _ => op_set_TxsCh o (op_TxsCh o ++ [txs])
  end.

Definition WriteBlock (signer : G) (o : Operator D G) (block : Block) : go (Operator D G * option error) :=
  let! (bc, err) := start_block signer (op_chain o) block in
  let o := op_set_chain o bc in
  match err with
  | Some _ => Ret (o, err)
  | None =>
      let! ch := send (op_newBlockCh o) block in
      let o := op_set_newBlockCh o ch in
      let! (bc, err) := finish_block del_input (op_chain o) block in
      Ret (op_set_chain o bc, err)
  end.

Definition constructDepositBlock (now : Z) (o : Operator D G) (depositBlockNum : option Z) (tx : Transaction)
  : go Block :=
  let! parent := BC_CurrentBlock (op_chain o) in
  let! _ := Block_Number parent in
  NewBlock (mkHeader (Block_Hash parent) (op_Addr o) zeroHash depositBlockNum (Some now) []) [tx].

Definition SealDeposit (signer : G) (now : Z) (o : Operator D G) (depositBlockNum : option Z) (tx : Transaction)
  : go (Operator D G * option error) :=
  let! block := constructDepositBlock now o depositBlockNum tx in
  WriteBlock signer o block.

(** The transaction made for a deposit: two unused inputs, fee 1. *)
Definition deposit_tx (depositor : Address) (amount : option Z) : Transaction :=
  let txOut1 := mkTxOut depositor amount in
  let txOut2 := mkTxOut zeroAddress (Some 0) in
  let txIn := mkUTXO (mkUTXOID 0 0 Byte.x00) (mkTxOut zeroAddress (Some 0)) in
  NewTransaction (Some txIn) (Some txIn) (Some txOut1) (Some txOut2) (Some 1).

Definition handleDepositEvent (signer : G) (now : Z) (o : Operator D G) (depositBlockNum : option Z)
    (depositor token : Address) (amount : option Z) : go (Operator D G * option error) :=
  SealDeposit signer now o depositBlockNum (deposit_tx depositor amount).

(** [constructBlock]: takes the next number before anything is known to
    succeed; the parent hash is left zero. *)
Definition constructBlock (now : Z) (o : Operator D G) (txs : list Transaction)
  : go (Operator D G * Block) :=
  let nextChildBlock := u64 (op_currentChildBlock o + childBlockInterval) in
  let o := op_set_child o nextChildBlock in
  let! b := NewBlock (mkHeader zeroHash (op_Addr o) zeroHash (Some nextChildBlock) (Some now) []) txs in
  Ret (o, b).

Definition remove_txs (pool : TxPool G) (txs : list Transaction) : go (TxPool G) :=
  gfold (fun pool tx => removeTx pool (Transaction_Hash tx)) pool txs.

Definition Seal `{!IcstChain} (cxAddr : string) (signer : G) (now : Z) (o : Operator D G)
    (txs : list Transaction) : go (Operator D G * option error) :=
  let! (o, block) := constructBlock now o txs in
  let! (o, err) := WriteBlock signer o block in
  match err with
  | Some _ => Ret (o, err)
  | None =>
      let! pool := remove_txs (op_txPool o) (Block_Transactions block) in
      let o := op_set_pool o pool in
      let! err := SubmitBlock cxAddr block (op_privateKey o) in
      Ret (o, err)
  end.

(** One turn of [processTxs]: seal the next batch, log a failure. *)
Definition processTxs_one `{!IcstChain} (cxAddr : string) (signer : G) (now : Z) (o : Operator D G)
  : go (Operator D G) :=
  match op_TxsCh o with
  | [] => Ret o
  | txs :: rest =>
      let! (o, _) := Seal cxAddr signer now (op_set_TxsCh o rest) txs in
      Ret o
  end.

(** [completeBlockSubmit] reads two numbers for its log and does nothing. *)
Definition completeBlockSubmit (o : Operator D G) (lastBlockNum submittedBlockNum : option Z)
  : go (Operator D G * option error) :=
  let! b := BC_CurrentBlock (op_chain o) in
  let! _ := Block_Number b in
  let! _ := deref submittedBlockNum in
  Ret (o, None).

Definition Op_ProcessRemoteTxs {V} `{TxValidator V} (v : V) (o : Operator D G) (txs : list Transaction)
  : go (Operator D G) :=
  let! (pool, _) := AddRemotes v (op_txPool o) txs in
  Ret (op_set_pool o pool).

Definition Op_ProcessRemoteBlock (o : Operator D G) (block : Block) : Operator D G := o.
End Workers.

(** * Validator *)

Record Validator (D : Type) `{LRU} : Type := mkValidator {
  va_chain : BlockChain D;
  va_NewTxsCh : list (list Transaction);
  va_currentChildBlock : Z;
  va_newBlockCh : option (list Block)
}.
Arguments mkValidator {D _} _ _ _ _.
Arguments va_chain {D _} _.
Arguments va_NewTxsCh {D _} _.
Arguments va_currentChildBlock {D _} _.
Arguments va_newBlockCh {D _} _.

Section ValidatorWorker.
Context {D G : Type} `{LRU} `{EthCommon} `{Crypto} `{!Signer G} `{Copier} `{Trie} `{Rlp txdata}
  `{Rlp Header} `{Rlp rlpBody} `{Rlp Z} `{Rlp extblock} `{RlpStream} `{Database D}.

Definition NewValidator (chain : BlockChain D) : go (Validator D) :=
  let! h := BC_CurrentHeader chain in
  let! h := deref h in
  let! currentBlockNum := Header_NumberU64 h in
  Ret (mkValidator chain []
         (if currentBlockNum mod childBlockInterval =? 0 then currentBlockNum
          else u64 (u64 (currentBlockNum / childBlockInterval + 1) * childBlockInterval)) None).

(** [NewTxsCh] has a buffer of ten, and no code receives from it. *)
Definition Va_ProcessRemoteTxs (v : Validator D) (txs : list Transaction) : go (Validator D) :=
  if (10 <=? length (va_NewTxsCh v))%nat then Stop BlockedForever
  else Ret (mkValidator (va_chain v) (va_NewTxsCh v ++ [txs]) (va_currentChildBlock v) (va_newBlockCh v)).

Definition Va_SubscribeNewBlockCh (v : Validator D) (ch : option (list Block)) : Validator D :=
  mkValidator (va_chain v) (va_NewTxsCh v) (va_currentChildBlock v) ch.

Definition va_set_chain (v : Validator D) (bc : BlockChain D) : Validator D :=
  mkValidator bc (va_NewTxsCh v) (va_currentChildBlock v) (va_newBlockCh v).

(** [ProcessRemoteBlock]: on success the transaction stays open. *)
Definition Va_ProcessRemoteBlock (signer : G) (v : Validator D) (block : Block) : go (Validator D) :=
  let (d, newDbTx) := db_BeginTx (bc_db (va_chain v)) in
  let v := va_set_chain v (set_db (va_chain v) d) in
  if negb newDbTx then Ret v
  else
    let! (bc, err) := BC_WriteBlock (chain_ValidateBody signer) (va_chain v) block in
    match err with
    | Some _ => Ret (va_set_chain v (rollback_db bc))
    | None =>
        let v := va_set_chain v bc in
        match va_newBlockCh v with
        | None => Ret v
        | Some sent => Ret (Va_SubscribeNewBlockCh v (Some (sent ++ [block])))
        end
    end.

Definition Va_WriteBlock (signer : G) (v : Validator D) (block : Block) : go (Validator D * option error) :=
  let! (bc, err) := start_block signer (va_chain v) block in
  let v := va_set_chain v bc in
  match err with
  | Some _ => Ret (v, err)
  | None =>
      let! n := Block_NumberU64 block in
      let v := mkValidator (va_chain v) (va_NewTxsCh v) n (va_newBlockCh v) in
      let! ch := send (va_newBlockCh v) block in
      let v := Va_SubscribeNewBlockCh v ch in
      let! (bc, err) := finish_block del_input_lax (va_chain v) block in
      Ret (va_set_chain v bc, err)
  end.
End ValidatorWorker.
