(* ===== verification/Conservation.v ===== *)
(** What writing a block does to the ledger: the database-level UTXO update of
    core/operator.go refines an update of a finite map, and validated blocks
    conserve value up to their fees. *)

From S2P Require Import Prelude Deps Types Signing Store Schema RawDB Utxo Validation HeaderChain.
From S2P Require Import BlockChain TxPool RootChain Operator.
#[local] Open Scope Z_scope.

(** * The abstract ledger update *)

Definition supply (L : ledger) : Z := map_sum snd L.

Definition out_id (n : Z) (k : nat) (j : nat) : UTXOID :=
  mkUTXOID n (u32 (Z.of_nat k)) (byte_of (Z.of_nat j)).

(** Spend the two inputs, create the two outputs. *)
Definition ledger_tx (n : Z) (k : nat) (i1 i2 : UTXO) (o1 o2 : TxOut) (L : ledger) : ledger :=
  <[out_id n k 1 := (Owner o2, out_amount o2)]>
    (<[out_id n k 0 := (Owner o1, out_amount o1)]>
      (delete (UTXO_ID i2) (delete (UTXO_ID i1) L))).

Definition ledger_step (n : Z) (L : ledger) (p : nat * Transaction) : ledger :=
  match Ins (tx_data p.2), Outs (tx_data p.2) with
  | (Some i1, Some i2), (Some o1, Some o2) => ledger_tx n p.1 i1 i2 o1 o2 L
  | _, _ => L
  end.

Definition ledger_block (n : Z) (txs : list Transaction) (L : ledger) : ledger :=
  fold_left (ledger_step n) (imap pair txs) L.

Definition fees (txs : list Transaction) : Z :=
  sumZ ((fun tx => default 0 (data_Fee (tx_data tx))) <$> txs).

Lemma fees_cons tx txs : fees (tx :: txs) = default 0 (data_Fee (tx_data tx)) + fees txs.
Proof. done. Qed.

(** Identifiers the update of block [n] creates are unused, and no entry carries
    block 0. *)
Definition fresh_block (n : Z) (L : ledger) : Prop := forall id, BlockNum id = n -> L !! id = None.

Section Balance.
(** Everything a transaction needs from the ledger before the block. *)
Definition tx_balanced (L : ledger) (tx : Transaction) : Prop :=
  exists i1 i2 o1 o2 f, tx_parts tx i1 i2 o1 o2 f /\ UTXO_ID i1 <> UTXO_ID i2 /\
    (BlockNum (UTXO_ID i1) <> 0 -> is_Some (L !! UTXO_ID i1)) /\
    (BlockNum (UTXO_ID i2) <> 0 -> is_Some (L !! UTXO_ID i2)) /\
    in_amount L i1 + in_amount L i2 = out_amount o1 + out_amount o2 + f.

Lemma delete_input L i :
  fresh_block 0 L -> (BlockNum (UTXO_ID i) <> 0 -> is_Some (L !! UTXO_ID i)) ->
  supply (delete (UTXO_ID i) L) = supply L - in_amount L i.
Proof.
  intros H0 Hin. unfold in_amount. destruct (Z.eqb_spec (BlockNum (UTXO_ID i)) 0) as [Hz|Hz].
  - rewrite delete_id by auto. lia.
  - destruct (Hin Hz) as [[o a] E]. rewrite E. simpl. unfold supply. by rewrite (map_sum_delete _ _ _ _ E).
Qed.

Lemma insert_output L id o a : L !! id = None -> supply (<[id := (o, a)]> L) = supply L + a.
Proof. intros E. unfold supply. rewrite map_sum_insert by done. simpl. lia. Qed.

Lemma out_id_inj n k j k' j' :
  Z.of_nat k < 2 ^ 32 -> Z.of_nat k' < 2 ^ 32 -> (j < 256)%nat -> (j' < 256)%nat ->
  out_id n k j = out_id n k' j' -> k = k' /\ j = j'.
Proof.
  intros Hk Hk' Hj Hj' [= Ek Ej].
  rewrite !u32_small in Ek by (unfold is_u32; lia).
  apply (f_equal byteZ) in Ej. rewrite !byteZ_of, !Z.mod_small in Ej by lia. lia.
Qed.

(** Spending a balanced transaction takes its fee out of the supply. *)
Lemma ledger_tx_supply n k i1 i2 o1 o2 f L :
  fresh_block 0 L -> L !! out_id n k 0 = None -> L !! out_id n k 1 = None ->
  UTXO_ID i1 <> UTXO_ID i2 ->
  (BlockNum (UTXO_ID i1) <> 0 -> is_Some (L !! UTXO_ID i1)) ->
  (BlockNum (UTXO_ID i2) <> 0 -> is_Some (L !! UTXO_ID i2)) ->
  in_amount L i1 + in_amount L i2 = out_amount o1 + out_amount o2 + f ->
  Z.of_nat k < 2 ^ 32 ->
  supply (ledger_tx n k i1 i2 o1 o2 L) = supply L - f.
Proof.
  intros H0 Hf0 Hf1 Hne Hi1 Hi2 Hb Hk. unfold ledger_tx.
  assert (Hne01 : out_id n k 0 <> out_id n k 1).
  { intros E. apply out_id_inj in E as [_ E]; [done|lia|lia|lia|lia]. }
  set (L1 := delete (UTXO_ID i1) L). set (L2 := delete (UTXO_ID i2) L1).
  assert (HL2 : forall id, L !! id = None -> L2 !! id = None).
  { intros id E. unfold L2, L1. by rewrite !lookup_delete_None, E; auto. }
  rewrite insert_output, insert_output; [|by apply HL2|rewrite lookup_insert_ne by done; by apply HL2].
  assert (Hi2' : in_amount L1 i2 = in_amount L i2).
  { unfold in_amount, L1. by rewrite lookup_delete_ne. }
  unfold L2. rewrite delete_input, Hi2'; unfold L1.
  - rewrite delete_input by done. lia.
  - intros id E. rewrite lookup_delete_None. auto.
  - intros E. rewrite lookup_delete_ne by done. auto.
Qed.

Lemma in_amount_agree L L' i :
  (BlockNum (UTXO_ID i) <> 0 -> L' !! UTXO_ID i = L !! UTXO_ID i) -> in_amount L' i = in_amount L i.
Proof. unfold in_amount. intros E. destruct (Z.eqb_spec (BlockNum (UTXO_ID i)) 0); [done|]. by rewrite E. Qed.

Lemma balanced_real L0 txs id :
  Forall (tx_balanced L0) txs -> id ∈ all_real_ids txs -> is_Some (L0 !! id) /\ BlockNum id <> 0.
Proof.
  intros Hbal Hid. unfold all_real_ids in Hid. apply list_elem_of_In, in_concat in Hid as (l & Hl & Hid).
  apply list_elem_of_In, list_elem_of_fmap in Hl as (t & -> & Ht). apply list_elem_of_In in Hid.
  rewrite Forall_forall in Hbal. apply Hbal in Ht as (i1 & i2 & o1 & o2 & f & (Hi & _) & _ & H1 & H2 & _).
  unfold real_ids, real_of in Hid. rewrite Hi in Hid. simpl in Hid.
  apply list_elem_of_filter in Hid as [Hz Hid]. split; [|done].
  apply list_elem_of_In in Hid as [<-|[<-|[]]]; auto.
Qed.

Lemma ledger_tx_other n k i1 i2 o1 o2 L id :
  BlockNum id <> n -> id <> UTXO_ID i1 -> id <> UTXO_ID i2 ->
  ledger_tx n k i1 i2 o1 o2 L !! id = L !! id.
Proof.
  intros Hn H1 H2. unfold ledger_tx. rewrite !lookup_insert_ne by (intros <-; by apply Hn).
  by rewrite !lookup_delete_ne.
Qed.

(** The block as a whole: transactions are checked against the state before the
    block, so they must not share inputs nor spend each other's outputs. *)
Lemma ledger_block_supply_from n txs : forall k L0 L,
  0 < n -> fresh_block n L0 -> fresh_block 0 L ->
  (forall id, id ∈ all_real_ids txs -> L !! id = L0 !! id) ->
  (forall k' j, (k <= k')%nat -> Z.of_nat k' < 2 ^ 32 -> (j < 2)%nat -> L !! out_id n k' j = None) ->
  Forall (tx_balanced L0) txs -> NoDup (all_real_ids txs) ->
  Z.of_nat (k + length txs) <= 2 ^ 32 ->
  supply (fold_left (ledger_step n) (imap (fun i tx => ((k + i)%nat, tx)) txs) L) = supply L - fees txs.
Proof.
  induction txs as [|tx txs IH]; intros k L0 L Hn Hfr H0 Hag Hout Hbal Hnd Hlen.
  { cbn. unfold fees. simpl. lia. }
  apply Forall_cons in Hbal as [(i1 & i2 & o1 & o2 & f & Hp & Hne & Hi1 & Hi2 & Hb) Hbal].
  unfold all_real_ids in Hag, Hnd. simpl in Hag, Hnd, Hlen.
  apply NoDup_app in Hnd as (_ & Hdis & Hnd).
  assert (Hreal : forall i, i = i1 \/ i = i2 -> BlockNum (UTXO_ID i) <> 0 -> UTXO_ID i ∈ real_ids tx).
  { intros i Hi Hz. unfold real_ids. destruct Hp as (-> & _). unfold real_of. simpl.
    apply list_elem_of_filter. split; [done|]. destruct Hi as [-> | ->]; set_solver. }
  assert (Hag' : forall i, i = i1 \/ i = i2 -> BlockNum (UTXO_ID i) <> 0 -> L !! UTXO_ID i = L0 !! UTXO_ID i).
  { intros i Hi Hz. apply Hag, elem_of_app. left. auto. }
  cbn [imap fold_left]. rewrite Nat.add_0_r. unfold ledger_step at 2. simpl.
  pose proof Hp as (Hpi & Hpo & Hpf & _). rewrite Hpi, Hpo.
  assert (Hs : supply (ledger_tx n k i1 i2 o1 o2 L) = supply L - f).
  { apply ledger_tx_supply; try done; try (apply Hout; lia).
    - intros Hz. rewrite Hag' by auto. auto.
    - intros Hz. rewrite Hag' by auto. auto.
    - rewrite !(in_amount_agree L0 L) by auto. done.
    - lia. }
  rewrite imap_pair_S, (IH (S k) L0).
  - rewrite Hs, fees_cons, Hpf. simpl. lia.
  - done.
  - done.
  - intros id Hid. destruct (decide (id = UTXO_ID i1)) as [->|H1];
      [|destruct (decide (id = UTXO_ID i2)) as [->|H2]].
    3: { rewrite ledger_tx_other by (done || lia). auto. }
    all: unfold ledger_tx; rewrite !lookup_insert_ne by (intros E'; rewrite <- E' in Hid; simpl in Hid; lia);
      rewrite !lookup_delete_None; auto.
  - intros id Hid. destruct (balanced_real L0 txs id Hbal Hid) as [Hin Hz].
    assert (Hidr : id ∉ real_ids tx) by (intros Hx; by apply (Hdis id)).
    rewrite ledger_tx_other; [apply Hag, elem_of_app; by right| | |].
    + intros Hbn. rewrite Hfr in Hin by done. by destruct Hin.
    + intros ->. apply Hidr, Hreal; auto.
    + intros ->. apply Hidr, Hreal; auto.
  - intros k' j Hk' Hk2 Hj. unfold ledger_tx.
    rewrite !lookup_insert_ne by (intros E'; apply out_id_inj in E' as [? _]; lia).
    rewrite !lookup_delete_None. right. right. apply Hout; lia.
  - done.
  - done.
  - simpl. lia.
Qed.

Lemma ledger_block_supply n txs L :
  0 < n -> fresh_block n L -> fresh_block 0 L -> Forall (tx_balanced L) txs ->
  NoDup (all_real_ids txs) -> Z.of_nat (length txs) <= 2 ^ 32 ->
  supply (ledger_block n txs L) = supply L - fees txs.
Proof.
  intros Hn Hfr H0 Hbal Hnd Hlen. unfold ledger_block.
  rewrite <- (ledger_block_supply_from n txs 0 L L); try done.
  intros k' j _ _ _. by apply Hfr.
Qed.
End Balance.

(** * The database update refines it *)

Section InTx.
Context {D : Type} `{EthCommon} `{Database D} (abs : D -> txstore) (inv : D -> Prop)
  `{!DatabaseSpec D abs inv}.

(** [d] is in a transaction begun at the committed state [m]. *)
Record in_tx (m : gmap bytes bytes) (d : D) : Prop := {
  in_tx_inv : inv d;
  in_tx_open : is_Some (pending (abs d));
  in_tx_committed : committed (abs d) = m
}.

Lemma in_tx_write m d o (r : D * option error) :
  in_tx m d -> refines_write abs inv d o r ->
  r.2 = None /\ in_tx m r.1 /\ eventual (abs r.1) = apply_wop (eventual (abs d)) o.
Proof.
  intros [Hi Ho Hc] [Hi' Hr]. destruct r as [d' [e|]]; simpl in *.
  { destruct Hr as [_ Hn]. rewrite Hn in Ho. by destruct Ho. }
  split; [done|]. rewrite Hr. split; [|apply eventual_write].
  split; [done| |]; rewrite Hr; [by apply pending_write|by rewrite committed_write].
Qed.

Lemma in_tx_Put m d k v : in_tx m d ->
  (db_Put d k v).2 = None /\ in_tx m (db_Put d k v).1 /\
  eventual (abs (db_Put d k v).1) = <[k := v]> (eventual (abs d)).
Proof. intros Hd. apply (in_tx_write m d (WPut k v)); [done|]. apply spec_Put, Hd. Qed.

Lemma in_tx_Delete m d k : in_tx m d ->
  (db_Delete d k).2 = None /\ in_tx m (db_Delete d k).1 /\
  eventual (abs (db_Delete d k).1) = delete k (eventual (abs d)).
Proof. intros Hd. apply (in_tx_write m d (WDel k)); [done|]. apply spec_Delete, Hd. Qed.

Lemma in_tx_writable m d : in_tx m d -> writable abs inv d.
Proof. intros [? ? ?]. split; auto. Qed.

(** A run of writes to the tables other than the UTXO table. *)
Definition quiet (m0 : gmap bytes bytes) (d d' : D) : Prop :=
  in_tx m0 d' /\ ledger_of (eventual (abs d')) = ledger_of (eventual (abs d)) /\
  (utxos_wf (eventual (abs d)) -> utxos_wf (eventual (abs d'))).

Lemma quiet_refl m0 d : in_tx m0 d -> quiet m0 d d.
Proof. intros Hd. by split_and!. Qed.

Lemma quiet_trans m0 d1 d2 d3 : quiet m0 d1 d2 -> quiet m0 d2 d3 -> quiet m0 d1 d3.
Proof. intros (? & E1 & W1) (? & E2 & W2). split_and!; [done|congruence|auto]. Qed.

Lemma quiet_put m0 d k v : in_tx m0 d -> key_ok k -> (forall id, k <> KUtxo id) ->
  quiet m0 d (put d (key_of k) v).
Proof.
  intros Hd Hk Hne. unfold put. destruct (in_tx_Put m0 d (key_of k) v Hd) as (_ & Hd' & E).
  split_and!; [done| |]; rewrite E; [by apply ledger_other|]. intros Hw. by apply utxos_wf_other.
Qed.
End InTx.

Section Refinement.
Context {D : Type} `{EthCommon} `{!EthCommonLaws} `{Crypto} `{Copier} `{!CopierLaws} `{Database D}
  (abs : D -> txstore) (inv : D -> Prop) `{!DatabaseSpec D abs inv}.

Abbreviation L_of d := (ledger_of (eventual (abs d))).

(** One step of the UTXO update: still in the transaction, the ledger updated,
    the records well formed. *)
Definition steps_to (m0 : gmap bytes bytes) (d d' : D) (f : ledger -> ledger) : Prop :=
  in_tx abs inv m0 d' /\ L_of d' = f (L_of d) /\ utxos_wf (eventual (abs d')).

Lemma steps_trans m0 d1 d2 d3 f g :
  steps_to m0 d1 d2 f -> steps_to m0 d2 d3 g -> steps_to m0 d1 d3 (fun L => g (f L)).
Proof. intros (H1' & E1 & W1) (H2' & E2 & W2). split_and!; [done|by rewrite E2, E1|done]. Qed.

Lemma del_input_step m0 d i :
  in_tx abs inv m0 d -> utxos_wf (eventual (abs d)) -> UTXOID_okb (UTXO_ID i) = true ->
  exists d', del_input d (Some i) = Ret (d', None) /\ del_input_lax d (Some i) = Ret (d', None) /\
    steps_to m0 d d' (delete (UTXO_ID i)).
Proof.
  intros Hd Hw Hok. unfold del_input, del_input_lax. cbn [deref gbind]. rewrite UTXOSet_Del_eq.
  destruct (in_tx_Delete abs inv m0 d (utxo_okey (UTXO_ID i)) Hd) as (E1 & Hd' & E2).
  destruct (db_Delete d _) as [d' e]. simpl in *. subst e. exists d'. split_and!; try done.
  split_and!; [done| |]; rewrite E2; [by apply ledger_delete|by apply utxos_wf_delete].
Qed.

Lemma new_utxo_ok n k j o : is_u64 n -> UTXOID_okb (UTXO_ID (new_utxo n k j o)) = true.
Proof.
  intros Hn. apply UTXOID_ok_key. split; [done|]. simpl. unfold u32, is_u32.
  apply Z.mod_pos_bound. lia.
Qed.

Lemma put_output_step m0 d n k j o a :
  in_tx abs inv m0 d -> utxos_wf (eventual (abs d)) -> is_u64 n -> Amount o = Some a -> 0 <= a ->
  exists d', put_output n k d (j, Some o) = Ret (d', None) /\
    steps_to m0 d d' (<[out_id n k j := (Owner o, out_amount o)]>).
Proof.
  intros Hd Hw Hn Ha Hpos. unfold put_output. cbn [deref gbind fst snd].
  rewrite (UTXOSet_Put_eq d (new_utxo n k j o) a) by done.
  pose proof (new_utxo_ok n k j o Hn) as Hok.
  destruct (in_tx_Put abs inv m0 d (utxo_okey (UTXO_ID (new_utxo n k j o)))
    (arr (Owner o) ++ big_Bytes a) Hd) as (E1 & Hd' & E2).
  change (Owner (utxo_TxOut (new_utxo n k j o))) with (Owner o).
  destruct (db_Put d _ _) as [d' e]. simpl in E1, Hd', E2. subst e. exists d'. split; [done|].
  split_and!; [done| |]; rewrite E2.
  - rewrite ledger_insert, utxo_out_of_written by done. unfold out_amount. rewrite Ha. simpl.
    by rewrite Z.abs_eq.
  - apply utxos_wf_insert; [done| |done]. rewrite length_app, length_arr. lia.
Qed.

(** A transaction whose outputs carry amounts, none negative. *)
Definition tx_applicable (tx : Transaction) : Prop :=
  exists i1 i2 o1 o2 f a1 a2, tx_parts tx i1 i2 o1 o2 f /\
    Amount o1 = Some a1 /\ Amount o2 = Some a2 /\ 0 <= a1 /\ 0 <= a2.

Definition good_del (del : D -> option UTXO -> go (D * option error)) : Prop :=
  forall m0 d i, in_tx abs inv m0 d -> utxos_wf (eventual (abs d)) -> UTXOID_okb (UTXO_ID i) = true ->
    exists d', del d (Some i) = Ret (d', None) /\ steps_to m0 d d' (delete (UTXO_ID i)).

Lemma del_input_good : good_del del_input.
Proof. intros m0 d i H1' H2' H3'. destruct (del_input_step m0 d i H1' H2' H3') as (d' & ? & _ & ?). eauto. Qed.
Lemma del_input_lax_good : good_del del_input_lax.
Proof. intros m0 d i H1' H2' H3'. destruct (del_input_step m0 d i H1' H2' H3') as (d' & _ & ? & ?). eauto. Qed.

Lemma apply_tx_step del m0 d block n k tx :
  good_del del -> in_tx abs inv m0 d -> utxos_wf (eventual (abs d)) ->
  Number (header block) = Some n -> is_u64 n -> tx_applicable tx ->
  exists d', apply_tx del block d (k, tx) = Ret (d', None) /\
    steps_to m0 d d' (fun L => ledger_step n L (k, tx)).
Proof.
  intros Hdel Hd Hw Hnum Hn (i1 & i2 & o1 & o2 & f & a1 & a2 & (Hi & Ho & _ & Hok1 & Hok2) & Ha1 & Ha2 & Hp1 & Hp2).
  unfold apply_tx, ledger_step. cbn [fst snd]. rewrite GetInsCopy_pair, GetOutsCopy_pair, Hi, Ho.
  unfold pair_list. cbn [fst snd].
  change (imap pair [Some o1; Some o2]) with [(0%nat, Some o1); (1%nat, Some o2)]. cbn [eloop].
  destruct (Hdel m0 d i1 Hd Hw Hok1) as (d1 & -> & S1). cbn [gbind].
  destruct (Hdel m0 d1 i2) as (d2 & -> & S2); [apply S1|apply S1|done|]. cbn [gbind].
  unfold Block_NumberU64. rewrite (Header_NumberU64_Some _ _ Hnum Hn). cbn [gbind].
  destruct (put_output_step m0 d2 n k 0 o1 a1) as (d3 & -> & S3); [apply S2|apply S2|done|done|done|]. cbn [gbind].
  destruct (put_output_step m0 d3 n k 1 o2 a2) as (d4 & -> & S4); [apply S3|apply S3|done|done|done|]. cbn [gbind].
  exists d4. split; [done|].
  exact (steps_trans _ _ _ _ _ _ (steps_trans _ _ _ _ _ _ (steps_trans _ _ _ _ _ _ S1 S2) S3) S4).
Qed.

(** Applying a block at the database is [ledger_block] on the ledger. *)
Lemma apply_block_step del m0 d block n :
  good_del del -> in_tx abs inv m0 d -> utxos_wf (eventual (abs d)) ->
  Number (header block) = Some n -> is_u64 n -> Forall tx_applicable (transactions block) ->
  exists d', apply_block del d block = Ret (d', None) /\
    steps_to m0 d d' (ledger_block n (transactions block)).
Proof.
  intros Hdel Hd Hw Hnum Hn Hall. unfold apply_block, Block_Transactions, ledger_block.
  assert (Hall' : Forall (fun p => tx_applicable p.2) (imap pair (transactions block))).
  { apply Forall_lookup. intros j [k tx] E. rewrite list_lookup_imap in E.
    apply fmap_Some in E as (x & E & [= -> ->]). rewrite Forall_lookup in Hall. eauto. }
  revert Hall'. generalize (imap pair (transactions block)) as ps. intros ps. clear Hall.
  revert d Hd Hw. induction ps as [|[k tx] ps IH]; intros d Hd Hw Hps.
  { exists d. split; [done|]. by split_and!. }
  apply Forall_cons in Hps as [Htx Hps]. cbn [eloop].
  destruct (apply_tx_step del m0 d block n k tx) as (d1 & -> & S1); [done..|]. cbn [gbind].
  destruct (IH d1) as (d2 & -> & S2); [apply S1|apply S1|done|].
  exists d2. split; [done|]. exact (steps_trans _ _ _ _ _ _ S1 S2).
Qed.
End Refinement.

(** * The workers *)

Section Workers.
Context {D G : Type} `{LRU} `{EthCommon} `{!EthCommonLaws} `{Crypto} `{!Signer G} `{Copier} `{!CopierLaws}
  `{Trie} `{Rlp txdata} `{Rlp Header} `{Rlp rlpBody} `{Rlp Z} `{Rlp extblock} `{RlpStream} `{Database D}
  (abs : D -> txstore) (inv : D -> Prop) `{!DatabaseSpec D abs inv}.

(** The ledger a chain has committed. *)
Definition chain_ledger (bc : BlockChain D) : ledger := ledger_of (committed (abs (bc_db bc))).

(** Between two blocks: no transaction open, a head block in place. *)
Record ready (bc : BlockChain D) : Prop := {
  ready_inv : inv (bc_db bc);
  ready_closed : pending (abs (bc_db bc)) = None;
  ready_wf : utxos_wf (committed (abs (bc_db bc)));
  ready_head : exists cur cn, bc_currentBlock bc = Some cur /\ Number (header cur) = Some cn
}.

(** A block the workers can process without hitting a nil pointer. *)
Record block_ok (signer : G) (block : Block) (n : Z) : Prop := {
  blk_header : Header_okb (header block) = true;
  blk_number : Number (header block) = Some n;
  blk_range : 0 < n < 2 ^ 63;
  blk_txs : n mod 1000 = 0 -> Forall (tx_checkable signer) (transactions block);
  blk_outs : Forall tx_applicable (transactions block);
  blk_len : Z.of_nat (length (transactions block)) <= 2 ^ 32
}.

Lemma block_number_u64 signer block n : block_ok signer block n -> is_u64 n.
Proof. intros [_ _ Hr _ _ _]. unfold is_u64. lia. Qed.

Lemma WriteBlock_quiet m0 d block n :
  in_tx abs inv m0 d -> Header_okb (header block) = true -> Number (header block) = Some n -> is_u64 n ->
  exists d', RawDB.WriteBlock d block = Ret d' /\ quiet abs inv m0 d d'.
Proof.
  intros Hd Hok Hnum Hn. unfold RawDB.WriteBlock, Block_NumberU64, WriteBody, WriteBodyRLP, WriteHeader, Block_Header.
  rewrite CopyHeader_ok by done. rewrite (Header_NumberU64_Some _ _ Hnum Hn). cbn [gbind].
  eexists. split; [done|].
  eapply quiet_trans; [eapply quiet_trans|].
  - apply (quiet_put abs inv m0 d (KBody n (Block_Hash block))); [done|exact Hn|done].
  - eapply (quiet_put abs inv m0 _ (KHeaderNumber _)); [|exact I|done].
    apply (quiet_put abs inv m0 d (KBody n (Block_Hash block))); [done|exact Hn|done].
  - eapply (quiet_put abs inv m0 _ (KHeader n _)); [|exact Hn|done].
    apply (quiet_put abs inv m0 _ (KHeaderNumber _)); [|exact I|done].
    apply (quiet_put abs inv m0 d (KBody n (Block_Hash block))); [done|exact Hn|done].
Qed.

Lemma insert_quiet m0 (bc : BlockChain D) block n :
  in_tx abs inv m0 (bc_db bc) -> Number (header block) = Some n -> is_u64 n ->
  exists bc', ReplaceHead bc block = Ret bc' /\ quiet abs inv m0 (bc_db bc) (bc_db bc') /\
    bc_currentBlock bc' = Some block.
Proof.
  intros Hd Hnum Hn. unfold ReplaceHead, insert, Block_NumberU64.
  rewrite (Header_NumberU64_Some _ _ Hnum Hn). cbn [gbind].
  set (d1 := WriteCanonicalHash (bc_db bc) (Block_Hash block) n).
  set (d2 := WriteHeadBlockHash d1 (Block_Hash block)).
  assert (Q1 : quiet abs inv m0 (bc_db bc) d1).
  { apply (quiet_put abs inv m0 _ (KCanonical n)); [done|exact Hn|done]. }
  assert (Q2 : quiet abs inv m0 (bc_db bc) d2).
  { eapply quiet_trans; [exact Q1|]. apply (quiet_put abs inv m0 _ KHeadBlock); [apply Q1|exact I|done]. }
  case_match.
  - eexists. split; [done|]. split; [|done]. cbn.
    eapply quiet_trans; [exact Q2|]. eapply quiet_trans.
    + apply (quiet_put abs inv m0 _ KHeadHeader); [apply Q2|exact I|done].
    + apply (quiet_put abs inv m0 _ KHeadFastBlock); [|exact I|done].
      apply (quiet_put abs inv m0 _ KHeadHeader); [apply Q2|exact I|done].
  - eexists. split; [done|]. by split.
Qed.

Lemma HasBlock_db (bc : BlockChain D) h n :
  bc_db (BC_HasBlock bc h n).1 = bc_db bc /\ bc_currentBlock (BC_HasBlock bc h n).1 = bc_currentBlock bc.
Proof.
  unfold BC_HasBlock, GetBlock. destruct (lru_Get _ _) as [c [b|]]; [done|]. cbn.
  destruct (ReadBlock _ _ _); done.
Qed.

(** The conditions a validated block met, against the committed ledger. *)
Definition block_valid (signer : G) (bc : BlockChain D) (block : Block) (n : Z) : Prop :=
  (BC_HasBlock bc (Block_Hash block) n).2 = false /\
  txs_root (transactions block) = TxHash (header block) /\
  Forall (fun tx => Validate (NewUtxoTxValidator signer (bc_db bc)) tx = Ret None) (transactions block) /\
  NoDup (all_real_ids (transactions block)).

Lemma chain_ValidateBody_spec signer (bc : BlockChain D) block n :
  us_inv abs inv (bc_db bc) -> block_ok signer block n -> n mod 1000 = 0 ->
  exists bc' e, chain_ValidateBody signer bc block = Ret (bc', e) /\
    bc_db bc' = bc_db bc /\ bc_currentBlock bc' = bc_currentBlock bc /\
    (e = None <-> block_valid signer bc block n).
Proof.
  intros Hinv Hok Hmod. unfold chain_ValidateBody, ValidateBody, block_valid, Block_NumberU64, Block_Header.
  rewrite (Header_NumberU64_Some _ n (blk_number _ _ _ Hok) (block_number_u64 _ _ _ Hok)).
  rewrite CopyHeader_ok by apply Hok. cbn [gbind bv_blcReader NewUtxoBlockValidator br_HasBlock BlockChain_BlockReader].
  destruct (HasBlock_db bc (Block_Hash block) n) as [E1 E2].
  destruct (BC_HasBlock bc (Block_Hash block) n) as [bc1 known]. cbn [fst snd] in *.
  destruct known.
  { exists bc1, (Some ErrKnownBlock). split_and!; try done. naive_solver. }
  unfold Block_Transactions. rewrite DeriveSha_total. cbn [gbind].
  case_decide as Hroot.
  2: { eexists bc1, _. split; [done|]. split_and!; try done. naive_solver. }
  destruct (validateTx_spec (us_view abs) (us_inv abs inv)
    (mkUtxoBlockValidator bc1 (bc_db bc) (NewUtxoTxValidator signer (bc_db bc))) (transactions block))
    as (e & Hv & Hiff); [done|done|by apply Hok|].
  cbn [bv_utxoReader bv_txValidator NewUtxoBlockValidator]. rewrite Hv. cbn [gbind].
  exists bc1, e. split_and!; try done. rewrite Hiff. naive_solver.
Qed.

Lemma valid_tx_balanced signer d tx :
  us_inv abs inv d -> tx_checkable signer tx -> Validate (NewUtxoTxValidator signer d) tx = Ret None ->
  tx_balanced (us_view abs d) tx.
Proof.
  intros Hinv [(i1 & i2 & o1 & o2 & f & Hp) [[senders serr] Hs]] Hv.
  destruct (Validate_spec (us_view abs) (us_inv abs inv) (NewUtxoTxValidator signer d) tx
    i1 i2 o1 o2 f senders serr Hinv Hp Hs) as (e & He & Hiff).
  rewrite Hv in He. injection He as <-. destruct (proj1 Hiff eq_refl) as [_ Hr].
  exists i1, i2, o1, o2, f. destruct Hr as [_ _ Hne Ho1 Ho2 _ _ Hb]. cbn [tv_utxoReader] in *.
  split_and!; try done; intros Hz; [destruct (Ho1 Hz) as [? ->]|destruct (Ho2 Hz) as [? ->]]; done.
Qed.

(** The chain once the transaction is open. *)
Definition begun (bc : BlockChain D) : BlockChain D := set_db bc (db_BeginTx (bc_db bc)).1.

Lemma begun_in_tx bc : ready bc ->
  (db_BeginTx (bc_db bc)).2 = true /\
  in_tx abs inv (committed (abs (bc_db bc))) (bc_db (begun bc)) /\
  eventual (abs (bc_db (begun bc))) = committed (abs (bc_db bc)) /\
  us_inv abs inv (bc_db (begun bc)) /\ us_view abs (bc_db (begun bc)) = chain_ledger bc.
Proof.
  intros [Hi Hc Hw _]. destruct (spec_BeginTx (bc_db bc) Hi) as [Hi' Hb]. rewrite Hc in Hb.
  destruct Hb as [E1 E2]. unfold begun, us_inv, us_view, chain_ledger, eventual. cbn [bc_db set_db].
  rewrite E2. cbn. split_and!; try done. split; [done|rewrite E2; by eexists|by rewrite E2].
Qed.

(** After a rollback the committed state is what it was. *)
Lemma rollback_ready m0 bc : in_tx abs inv m0 (bc_db bc) -> utxos_wf m0 ->
  (exists cur cn, bc_currentBlock bc = Some cur /\ Number (header cur) = Some cn) ->
  ready (rollback_db bc) /\ committed (abs (bc_db (rollback_db bc))) = m0.
Proof.
  intros [Hi [ops Ho] Hc] Hw Hh. destruct (spec_RollbackTx (bc_db bc) Hi) as [Hi' Hr].
  rewrite Ho in Hr. destruct Hr as [_ E]. unfold rollback_db.
  split; [|cbn; by rewrite E]. split; cbn; rewrite ?E; cbn; try done. by rewrite Hc.
Qed.

Lemma number_rem n : 0 < n < 2 ^ 63 -> (Z.rem (big_Int64 n) 1000 =? 0) = bool_decide (n mod 1000 = 0).
Proof.
  intros Hn. unfold big_Int64. rewrite (proj2 (Z.ltb_ge _ _)) by lia.
  rewrite Z.abs_eq, i64_small by lia. rewrite Z.rem_mod_nonneg by lia.
  destruct (Z.eqb_spec (n mod 1000) 0); [by rewrite bool_decide_true|by rewrite bool_decide_false].
Qed.

Lemma start_block_spec signer (bc : BlockChain D) block n :
  ready bc -> block_ok signer block n ->
  exists bc' e, start_block signer bc block = Ret (bc', e) /\
    (e = None <-> (n mod 1000 = 0 -> block_valid signer (begun bc) block n)) /\
    (exists cur cn, bc_currentBlock bc' = Some cur /\ Number (header cur) = Some cn) /\
    match e with
    | None => quiet abs inv (committed (abs (bc_db bc))) (bc_db (begun bc)) (bc_db bc')
    | Some _ => ready bc' /\ committed (abs (bc_db bc')) = committed (abs (bc_db bc))
    end.
Proof.
  intros Hr Hok. destruct (begun_in_tx bc Hr) as (Hb & Htx & Hev & Hus & Hview).
  pose proof (ready_wf _ Hr) as Hw. destruct (ready_head _ Hr) as (cur & cn & Hcur & Hcn).
  pose proof (block_number_u64 _ _ _ Hok) as Hu.
  unfold start_block. fold (begun bc).
  destruct (db_BeginTx (bc_db bc)) as [d1 b1] eqn:Ebegin. cbn [snd] in Hb. subst b1. cbn [negb].
  replace (set_db bc d1) with (begun bc) by (unfold begun; by rewrite Ebegin).
  unfold Block_Header. rewrite CopyHeader_ok by apply Hok. rewrite (blk_number _ _ _ Hok). cbn [deref gbind].
  rewrite number_rem by apply Hok.
  assert (Hcur1 : bc_currentBlock (begun bc) = Some cur) by done.
  (* the write, validated or not *)
  assert (Hwrite : exists bc1 e,
    (if negb (bool_decide (n mod 1000 = 0)) then WriteDepositBlock (begun bc) block
     else BC_WriteBlock (chain_ValidateBody signer) (begun bc) block) = Ret (bc1, e) /\
    (e = None <-> (n mod 1000 = 0 -> block_valid signer (begun bc) block n)) /\
    bc_currentBlock bc1 = Some cur /\
    quiet abs inv (committed (abs (bc_db bc))) (bc_db (begun bc)) (bc_db bc1)).
  { destruct (WriteBlock_quiet _ (bc_db (begun bc)) block n Htx) as (d' & Hw' & Hq);
      [apply Hok|apply Hok|done|].
    case_bool_decide as Hm; cbn [negb].
    - unfold BC_WriteBlock.
      destruct (chain_ValidateBody_spec signer (begun bc) block n Hus Hok Hm) as (bc1 & e & -> & Ed & Ec & Hiff).
      cbn [gbind]. destruct e as [e|].
      + exists bc1, (Some e). split_and!; [done|naive_solver|congruence|].
        rewrite Ed. by apply quiet_refl.
      + rewrite Ed, Hw'. cbn [gbind]. eexists _, None. split; [done|]. cbn.
        split_and!; [naive_solver|congruence|done].
    - unfold WriteDepositBlock. rewrite Hw'. cbn [gbind]. eexists _, None. split; [done|]. cbn.
      split_and!; [naive_solver|congruence|done]. }
  destruct Hwrite as (bc1 & e & -> & Hiff & Hcur' & Hq). cbn [gbind]. destruct e as [e|].
  { exists (rollback_db bc1), (Some e). split; [done|]. split; [done|].
    split; [cbn; eauto|]. apply rollback_ready; [apply Hq|done|eauto]. }
  unfold BC_CurrentBlock. rewrite Hcur'. cbn [gbind]. unfold Block_Number. rewrite Hcn. cbn [deref gbind].
  destruct (cn <? n).
  - destruct (insert_quiet _ bc1 block n (proj1 Hq) (blk_number _ _ _ Hok) Hu) as (bc2 & -> & Hq2 & Hc2).
    cbn [gbind]. exists bc2, None. split; [done|]. split; [done|]. split.
    + exists block, n. split; [done|apply Hok].
    + by eapply quiet_trans.
  - exists bc1, None. split; [done|]. split; [done|]. split; [eauto|done].
Qed.

Lemma finish_block_spec del (bc0 bc : BlockChain D) signer block n :
  good_del abs inv del -> ready bc0 -> block_ok signer block n ->
  quiet abs inv (committed (abs (bc_db bc0))) (bc_db (begun bc0)) (bc_db bc) ->
  (exists cur cn, bc_currentBlock bc = Some cur /\ Number (header cur) = Some cn) ->
  exists bc' e, finish_block del bc block = Ret (bc', e) /\ ready bc' /\
    match e with
    | None => chain_ledger bc' = ledger_block n (transactions block) (chain_ledger bc0)
    | Some _ => committed (abs (bc_db bc')) = committed (abs (bc_db bc0)) /\
                exists d, is_Some (pending (abs d)) /\ inv d /\ (db_CommitTx d).2 = e
    end.
Proof.
  intros Hdel Hr Hok (Htx & Hled & Hwf) Hcur.
  destruct (begun_in_tx bc0 Hr) as (_ & _ & Hev & _ & _). rewrite Hev in Hled, Hwf.
  pose proof (ready_wf _ Hr) as Hw0.
  destruct (apply_block_step abs inv del _ (bc_db bc) block n Hdel Htx (Hwf Hw0) (blk_number _ _ _ Hok)
    (block_number_u64 _ _ _ Hok) (blk_outs _ _ _ Hok)) as (d' & E & Htx' & Hled' & Hwf').
  unfold finish_block. rewrite E. cbn [gbind set_db bc_db].
  destruct Htx' as [Hi' [ops Ho'] Hc'].
  destruct (spec_CommitTx d' Hi') as [Hi2 Hcm]. rewrite Ho' in Hcm.
  destruct (db_CommitTx d') as [d2 [e|]] eqn:Ecm; cbn [fst snd] in *.
  - destruct (rollback_ready (committed (abs (bc_db bc0))) (set_db (set_db bc d') d2)) as [Hrd Hcd].
    + split; cbn; [done|rewrite Hcm, Ho'; by eexists|by rewrite Hcm].
    + done.
    + done.
    + eexists _, (Some e). split; [done|]. split_and!; [done|done|].
      exists d'. split_and!; [by eexists|done|by rewrite Ecm].
  - eexists _, None. split; [done|]. split.
    + split; cbn; rewrite ?Hcm; try done.
    + unfold chain_ledger. cbn. rewrite Hcm. cbn. by rewrite Hled', Hled.
Qed.

(** The consensus rules of a block over a ledger. *)
Definition block_rules (signer : G) (L : ledger) (txs : list Transaction) : Prop :=
  Forall (fun tx => exists senders i1 i2 o1 o2 f, tx_parts tx i1 i2 o1 o2 f /\
            Sender signer tx = Ret (senders, None) /\
            tx_rules L senders i1 i2 o1 o2 f (Transaction_Size tx)) txs /\
  NoDup (all_real_ids txs).

Lemma Validate_rules signer d tx :
  us_inv abs inv d -> tx_checkable signer tx ->
  Validate (NewUtxoTxValidator signer d) tx = Ret None <->
  exists senders i1 i2 o1 o2 f, tx_parts tx i1 i2 o1 o2 f /\ Sender signer tx = Ret (senders, None) /\
    tx_rules (us_view abs d) senders i1 i2 o1 o2 f (Transaction_Size tx).
Proof.
  intros Hinv [(i1 & i2 & o1 & o2 & f & Hp) [[senders serr] Hs]].
  destruct (Validate_spec (us_view abs) (us_inv abs inv) (NewUtxoTxValidator signer d) tx
    i1 i2 o1 o2 f senders serr Hinv Hp Hs) as (e & He & Hiff).
  rewrite He. split.
  - intros [= ->]. destruct (proj1 Hiff eq_refl) as [-> Hr]. exists senders, i1, i2, o1, o2, f. done.
  - intros (s' & j1 & j2 & p1 & p2 & g & (Hi & Ho & Hf & _) & Hs' & Hr).
    destruct Hp as (Hi' & Ho' & Hf' & _). rewrite Hs in Hs'. rewrite Hi' in Hi. rewrite Ho' in Ho.
    simplify_eq. f_equal. by apply Hiff.
Qed.

Lemma block_valid_rules signer bc block n :
  ready bc -> block_ok signer block n -> n mod 1000 = 0 ->
  block_valid signer (begun bc) block n <->
  (BC_HasBlock (begun bc) (Block_Hash block) n).2 = false /\
  txs_root (transactions block) = TxHash (header block) /\
  block_rules signer (chain_ledger bc) (transactions block).
Proof.
  intros Hr Hok Hmod. destruct (begun_in_tx bc Hr) as (_ & _ & _ & Hus & Hview).
  unfold block_valid, block_rules. rewrite <- Hview.
  assert (E : Forall (fun tx => Validate (NewUtxoTxValidator signer (bc_db (begun bc))) tx = Ret None)
                (transactions block) <->
              Forall (fun tx => exists senders i1 i2 o1 o2 f, tx_parts tx i1 i2 o1 o2 f /\
                Sender signer tx = Ret (senders, None) /\
                tx_rules (us_view abs (bc_db (begun bc))) senders i1 i2 o1 o2 f (Transaction_Size tx))
                (transactions block)).
  { rewrite !Forall_forall. pose proof (blk_txs _ _ _ Hok Hmod) as Hck. rewrite Forall_forall in Hck.
    split; intros Hall tx Hin; apply (Validate_rules signer _ tx Hus (Hck tx Hin)); auto. }
  rewrite E. tauto.
Qed.

Lemma rules_balanced signer L txs : block_rules signer L txs -> Forall (tx_balanced L) txs.
Proof.
  intros [Hall _]. eapply Forall_impl; [exact Hall|]. cbn.
  intros tx (senders & i1 & i2 & o1 & o2 & f & Hp & _ & [_ _ Hne Ho1 Ho2 _ _ Hb]).
  exists i1, i2, o1, o2, f. split_and!; try done; intros Hz; [destruct (Ho1 Hz) as [? ->]|destruct (Ho2 Hz) as [? ->]]; done.
Qed.

(** A failure that is the disk's, not the block's. *)
Definition commit_failure (e : option error) : Prop :=
  exists d, is_Some (pending (abs d)) /\ inv d /\ (db_CommitTx d).2 = e.

(** What a worker's [WriteBlock] does to the chain it holds: the start, then
    the update and the commit. *)
Lemma chain_write_spec del signer (bc : BlockChain D) block n :
  good_del abs inv del -> ready bc -> block_ok signer block n ->
  exists bc1 e1, start_block signer bc block = Ret (bc1, e1) /\
    match e1 with
    | Some _ => ready bc1 /\ committed (abs (bc_db bc1)) = committed (abs (bc_db bc)) /\
                n mod 1000 = 0 /\ ~ block_valid signer (begun bc) block n
    | None =>
        (n mod 1000 = 0 -> block_valid signer (begun bc) block n) /\
        exists bc2 e2, finish_block del bc1 block = Ret (bc2, e2) /\ ready bc2 /\
          match e2 with
          | None => chain_ledger bc2 = ledger_block n (transactions block) (chain_ledger bc)
          | Some _ => committed (abs (bc_db bc2)) = committed (abs (bc_db bc)) /\ commit_failure e2
          end
    end.
Proof.
  intros Hdel Hr Hok. destruct (start_block_spec signer bc block n Hr Hok) as (bc1 & e1 & E1 & Hiff & Hcur & Hm).
  exists bc1, e1. split; [done|]. destruct e1 as [e1|].
  - destruct Hm as [Hr1 Hc1]. split_and!; [done|done| |].
    + destruct (decide (n mod 1000 = 0)); [done|]. exfalso. assert (Some e1 = None); [|done]. apply Hiff. done.
    + intros Hv. assert (Some e1 = None); [|done]. apply Hiff. done.
  - split; [by apply Hiff|].
    by apply (finish_block_spec del bc bc1 signer block n Hdel Hr Hok Hm Hcur).
Qed.

(** The operator's [WriteBlock] runs to its end, and either commits exactly the
    ledger update of the block, or leaves the committed state as it was. *)
Lemma WriteBlock_spec signer (o : Operator D G) block n sent :
  ready (op_chain o) -> block_ok signer block n -> op_newBlockCh o = Some sent ->
  exists o' e, WriteBlock signer o block = Ret (o', e) /\ ready (op_chain o') /\
    op_txPool o' = op_txPool o /\ op_currentChildBlock o' = op_currentChildBlock o /\
    op_privateKey o' = op_privateKey o /\ op_TxsCh o' = op_TxsCh o /\
    (exists sent', op_newBlockCh o' = Some sent') /\
    match e with
    | None => (n mod 1000 = 0 -> block_valid signer (begun (op_chain o)) block n) /\
              chain_ledger (op_chain o') = ledger_block n (transactions block) (chain_ledger (op_chain o))
    | Some _ => committed (abs (bc_db (op_chain o'))) = committed (abs (bc_db (op_chain o))) /\
                ((n mod 1000 = 0 /\ ~ block_valid signer (begun (op_chain o)) block n) \/ commit_failure e)
    end.
Proof.
  intros Hr Hok Hch. unfold WriteBlock.
  destruct (chain_write_spec del_input signer (op_chain o) block n (del_input_good abs inv) Hr Hok)
    as (bc1 & e1 & -> & Hm).
  cbn [gbind]. destruct e1 as [e1|].
  { destruct Hm as (Hr1 & Hc1 & Hn & Hv). eexists _, (Some e1). split; [done|]. cbn. split_and!; eauto. }
  destruct Hm as (Hv & bc2 & e2 & E2 & Hr2 & Hm2).
  cbn [op_newBlockCh op_set_chain]. rewrite Hch. cbn [send gbind op_set_newBlockCh op_chain op_set_chain].
  rewrite E2. cbn [gbind]. eexists _, e2. split; [done|]. cbn. split_and!; eauto.
  destruct e2; naive_solver.
Qed.


(** The validator node's [WriteBlock], once somebody listens to its blocks:
    it returns, is atomic, updates the ledger like the operator's, and checks the
    consensus rules of blocks at multiples of 1000; it fails only on those, or
    when the disk does. *)
Lemma Va_WriteBlock_spec signer (v : Validator D) block n sent :
  ready (va_chain v) -> block_ok signer block n -> va_newBlockCh v = Some sent ->
  exists v' e, Va_WriteBlock signer v block = Ret (v', e) /\ ready (va_chain v') /\
    match e with
    | None => (n mod 1000 = 0 -> block_valid signer (begun (va_chain v)) block n) /\
              chain_ledger (va_chain v') = ledger_block n (transactions block) (chain_ledger (va_chain v)) /\
              va_currentChildBlock v' = n
    | Some _ => committed (abs (bc_db (va_chain v'))) = committed (abs (bc_db (va_chain v))) /\
                ((n mod 1000 = 0 /\ ~ block_valid signer (begun (va_chain v)) block n) \/ commit_failure e)
    end.
Proof.
  intros Hr Hok Hch. unfold Va_WriteBlock.
  destruct (chain_write_spec del_input_lax signer (va_chain v) block n (del_input_lax_good abs inv) Hr Hok)
    as (bc1 & e1 & -> & Hm).
  cbn [gbind]. destruct e1 as [e1|].
  { destruct Hm as (Hr1 & Hc1 & Hn & Hv). eexists _, (Some e1). split; [done|]. cbn. split_and!; auto. }
  destruct Hm as (Hv & bc2 & e2 & E2 & Hr2 & Hm2).
  unfold Block_NumberU64. rewrite (Header_NumberU64_Some _ n (blk_number _ _ _ Hok) (block_number_u64 _ _ _ Hok)).
  cbn [gbind va_newBlockCh va_set_chain]. rewrite Hch. cbn [send gbind Va_SubscribeNewBlockCh va_chain va_set_chain].
  rewrite E2. cbn [gbind]. eexists _, e2. split; [done|]. cbn. split; [done|].
  destruct e2; naive_solver.
Qed.
End Workers.

(** * The validator node *)

Section Validator.
Context {D G : Type} `{LRU} `{EthCommon} `{!EthCommonLaws} `{Crypto} `{!Signer G} `{Copier} `{!CopierLaws}
  `{Trie} `{Rlp txdata} `{Rlp Header} `{Rlp rlpBody} `{Rlp Z} `{Rlp extblock} `{RlpStream}
  `{Database D} (abs : D -> txstore) (inv : D -> Prop) `{!DatabaseSpec D abs inv}.

Lemma start_block_busy signer (bc : BlockChain D) block :
  inv (bc_db bc) -> is_Some (pending (abs (bc_db bc))) ->
  start_block signer bc block = Ret (set_db bc (bc_db bc), Some errDbRace).
Proof.
  intros Hi [ops Ho]. destruct (spec_BeginTx (bc_db bc) Hi) as [_ Hb]. rewrite Ho in Hb.
  unfold start_block. by rewrite Hb.
Qed.

(** Blocks handed to the validator one after the other, through [WriteBlock] ([inl])
    or through [ProcessRemoteBlock] ([inr]), and what each call reports. *)
Fixpoint va_serve (signer : G) (v : Validator D) (calls : list (Block + Block))
  : go (Validator D * list (option error)) :=
  match calls with
  | [] => Ret (v, [])
  | inl block :: calls =>
      let! (v, e) := Va_WriteBlock signer v block in
      let! (v, es) := va_serve signer v calls in
      Ret (v, e :: es)
  | inr block :: calls =>
      let! v := Va_ProcessRemoteBlock signer v block in
      let! (v, es) := va_serve signer v calls in
      Ret (v, None :: es)
  end.

Lemma va_set_chain_same (v : Validator D) : va_set_chain v (set_db (va_chain v) (bc_db (va_chain v))) = v.
Proof. by destruct v as [[] ? ? ?]. Qed.

(** With a database transaction open, no block changes anything. *)
Lemma va_serve_busy signer (v : Validator D) calls :
  inv (bc_db (va_chain v)) -> is_Some (pending (abs (bc_db (va_chain v)))) ->
  va_serve signer v calls = Ret (v, (fun c => if c is inl _ then Some errDbRace else None) <$> calls).
Proof.
  intros Hi Ho. induction calls as [|[block|block] calls IH]; cbn [va_serve fmap list_fmap]; [done| |].
  - unfold Va_WriteBlock. rewrite start_block_busy by done. cbn [gbind]. by rewrite va_set_chain_same, IH.
  - unfold Va_ProcessRemoteBlock. destruct Ho as [ops Ho]. destruct (spec_BeginTx (bc_db (va_chain v)) Hi) as [_ Hb].
    rewrite Ho in Hb. rewrite Hb. cbn [negb gbind]. by rewrite va_set_chain_same, IH.
Qed.

(** C40. A valid child block handled by the validator's [ProcessRemoteBlock] is never
    committed. The call returns with the database transaction open and the committed
    content as it was; from then on, and in whatever way the rest of the validator
    changes while its database stays this one, every sequence of blocks handed to
    [WriteBlock] and [ProcessRemoteBlock] leaves the validator exactly as it is, each
    [WriteBlock] reporting the race error. *)
Theorem ProcessRemoteBlock_stuck signer (v : Validator D) block n :
  ready abs inv (va_chain v) -> block_ok signer block n -> n mod 1000 = 0 ->
  block_valid signer (begun (va_chain v)) block n ->
  exists v', Va_ProcessRemoteBlock signer v block = Ret v' /\
    committed (abs (bc_db (va_chain v'))) = committed (abs (bc_db (va_chain v))) /\
    is_Some (pending (abs (bc_db (va_chain v')))) /\
    forall w calls, bc_db (va_chain w) = bc_db (va_chain v') ->
      va_serve signer w calls = Ret (w, (fun c => if c is inl _ then Some errDbRace else None) <$> calls).
Proof.
  intros Hr Hok Hn Hv. destruct (begun_in_tx abs inv (va_chain v) Hr) as (Hb & Htx & Hev & Hus & Hview).
  unfold Va_ProcessRemoteBlock. destruct (db_BeginTx (bc_db (va_chain v))) as [d1 b1] eqn:E.
  cbn [snd] in Hb. subst b1. cbn [negb].
  assert (Ebeg : set_db (va_chain v) d1 = begun (va_chain v)) by (unfold begun; by rewrite E).
  cbn [va_chain va_set_chain]. rewrite Ebeg. unfold BC_WriteBlock.
  destruct (chain_ValidateBody_spec abs inv signer (begun (va_chain v)) block n Hus Hok Hn)
    as (bc1 & e & -> & Ed & _ & Hiff).
  cbn [gbind]. rewrite (proj2 Hiff Hv).
  destruct (WriteBlock_quiet abs inv _ (bc_db (begun (va_chain v))) block n Htx) as (d' & Hw' & Hq);
    [apply Hok|apply Hok|by eapply block_number_u64|].
  rewrite Ed, Hw'. cbn [gbind]. destruct Hq as [[Hi' Ho' Hc'] _].
  assert (Hbusy : forall (w : Validator D) calls, bc_db (va_chain w) = d' ->
    va_serve signer w calls = Ret (w, (fun c => if c is inl _ then Some errDbRace else None) <$> calls)).
  { intros w calls <-. by apply va_serve_busy. }
  destruct (va_newBlockCh (va_set_chain _ _)) as [sent|]; eexists; split_and!; done.
Qed.

(** A validator checks nothing of a block between child blocks. *)
Lemma Va_WriteBlock_unchecked signer (v : Validator D) block n sent :
  ready abs inv (va_chain v) -> block_ok signer block n -> n mod 1000 <> 0 -> va_newBlockCh v = Some sent ->
  (forall d, inv d -> is_Some (pending (abs d)) -> (db_CommitTx d).2 = None) ->
  exists v', Va_WriteBlock signer v block = Ret (v', None) /\
    chain_ledger abs (va_chain v') = ledger_block n (transactions block) (chain_ledger abs (va_chain v)).
Proof.
  intros Hr Hok Hn Hch Hdisk. unfold Va_WriteBlock.
  destruct (chain_write_spec abs inv del_input_lax signer (va_chain v) block n (del_input_lax_good abs inv) Hr Hok)
    as (bc1 & [e1|] & -> & Hm); cbn [gbind].
  { by destruct Hm as (_ & _ & ? & _). }
  destruct Hm as (_ & bc2 & e2 & E2 & Hr2 & Hm2).
  unfold Block_NumberU64. rewrite (Header_NumberU64_Some _ n (blk_number _ _ _ Hok) (block_number_u64 _ _ _ Hok)).
  cbn [gbind va_newBlockCh va_set_chain]. rewrite Hch. cbn [send gbind Va_SubscribeNewBlockCh va_chain va_set_chain].
  rewrite E2. cbn [gbind]. destruct e2 as [e2|]; [|by eexists].
  destruct Hm2 as (_ & d & Hp & Hi & He). rewrite Hdisk in He by done. done.
Qed.

(** Blocks whose number is not a multiple of 1000 are committed unchecked: a
    validator that receives such a block from a peer applies any transactions it
    carries, whether or not their inputs exist, are owned, signed, or pay for the
    outputs. Only a failing disk stops it. *)
Lemma unchecked_block_accepted signer (v : Validator D) block n sent :
  ready abs inv (va_chain v) -> block_ok signer block n -> n mod 1000 <> 0 -> va_newBlockCh v = Some sent ->
  (forall d, inv d -> is_Some (pending (abs d)) -> (db_CommitTx d).2 = None) ->
  exists v', Va_WriteBlock signer v block = Ret (v', None) /\
    chain_ledger abs (va_chain v') = ledger_block n (transactions block) (chain_ledger abs (va_chain v)).
Proof. apply Va_WriteBlock_unchecked. Qed.

(** An output without an amount (JSON leaves it nil) passes [Validate] like
    an unused one, and then stops the worker that applies the block with a nil
    dereference, inside the open database transaction. *)
Lemma nil_amount_accepted_then_stops signer m0 d d' block n k tx i1 i2 o1 o2 f senders :
  us_inv abs inv d -> tx_parts tx i1 i2 o1 o2 f -> Amount o1 = None ->
  Sender signer tx = Ret (senders, None) ->
  tx_rules (us_view abs d) senders i1 i2 o1 o2 f (Transaction_Size tx) ->
  in_tx abs inv m0 d' -> utxos_wf (eventual (abs d')) -> Number (header block) = Some n -> is_u64 n ->
  Validate (NewUtxoTxValidator signer d) tx = Ret None /\
  apply_tx del_input block d' (k, tx) = Stop NilDeref.
Proof.
  intros Hus Hp Ha Hs Hr Hd Hw Hnum Hn. split.
  - destruct (Validate_spec (us_view abs) (us_inv abs inv) (NewUtxoTxValidator signer d) tx
      i1 i2 o1 o2 f senders None Hus Hp Hs) as (e & He & Hiff).
    rewrite He. f_equal. by apply Hiff.
  - destruct Hp as (Hi & Ho & _ & Hok1 & Hok2). unfold apply_tx.
    rewrite GetInsCopy_pair, GetOutsCopy_pair, Hi, Ho. unfold pair_list. cbn [fst snd].
    change (imap pair [Some o1; Some o2]) with [(0%nat, Some o1); (1%nat, Some o2)]. cbn [eloop].
    destruct (del_input_good abs inv m0 d' i1 Hd Hw Hok1) as (d1 & -> & S1). cbn [gbind].
    destruct (del_input_good abs inv m0 d1 i2 (proj1 S1) (proj2 (proj2 S1)) Hok2) as (d2 & -> & S2). cbn [gbind].
    unfold Block_NumberU64. rewrite (Header_NumberU64_Some _ _ Hnum Hn). cbn [gbind].
    unfold put_output, new_utxo. cbn [deref gbind fst snd]. rewrite Ha. reflexivity.
Qed.
End Validator.
