(* ===== verification/Sealing.v ===== *)
(** The operator's life: sealing pool transactions into numbered blocks, crediting
    deposits, and what goes wrong around them. *)

From S2P Require Import Prelude Deps Types Signing Store Schema RawDB Utxo Validation HeaderChain.
From S2P Require Import BlockChain TxPool RootChain Operator Conservation.
#[local] Open Scope Z_scope.

(** Where the entries of an updated ledger come from. *)
Lemma ledger_block_origin n txs L id :
  is_Some (ledger_block n txs L !! id) -> BlockNum id = n \/ is_Some (L !! id).
Proof.
  unfold ledger_block. generalize (imap pair txs) as ps. intros ps. revert L.
  induction ps as [|[k tx] ps IH]; intros L Hs; [by right|]. simpl in Hs.
  destruct (IH _ Hs) as [|Hl]; [by left|]. clear Hs. unfold ledger_step in Hl. cbn [fst snd] in Hl.
  destruct (Ins (tx_data tx)) as [[i1|] [i2|]], (Outs (tx_data tx)) as [[o1|] [o2|]]; auto.
  unfold ledger_tx in Hl. destruct Hl as [x Hl].
  apply lookup_insert_Some in Hl as [[<- _]|[_ Hl]]; [by left|].
  apply lookup_insert_Some in Hl as [[<- _]|[_ Hl]]; [by left|].
  apply lookup_delete_Some in Hl as [_ Hl]. apply lookup_delete_Some in Hl as [_ Hl]. eauto.
Qed.

Section PoolRemoval.
Context {D G : Type} `{LRU} `{Crypto} `{!Signer G} `{Rlp txdata} `{RlpStream}.

(** Taking a list of transactions out of the pool. *)
Lemma remove_txs_spec txs : forall (pool : TxPool G), pool_wf pool ->
  exists pool', remove_txs pool txs = Ret pool' /\ pool_wf pool' /\
    tp_queue pool' ≡ₚ filter (fun tx => Transaction_Hash tx ∉ hashes txs) (tp_queue pool) /\
    tp_locals pool' = tp_locals pool /\ tp_signer pool' = tp_signer pool.
Proof.
  induction txs as [|tx txs IH]; intros pool Hwf.
  { exists pool. split_and!; try done. rewrite filter_all; [done|]. intros x _. cbn. set_solver. }
  unfold remove_txs. cbn [gfold].
  destruct (removeTx_spec pool (Transaction_Hash tx) Hwf) as (p1 & -> & Hwf1 & _ & Hq1 & Hl1 & _ & Hs1 & _). cbn [gbind].
  destruct (IH p1 Hwf1) as (p2 & E2 & Hwf2 & Hq2 & Hl2 & Hs2). exists p2. unfold remove_txs in E2. rewrite E2.
  split_and!; try done; [|congruence|congruence]. rewrite Hq2, Hq1, list_filter_filter.
  rewrite (list_filter_iff _ (fun x => Transaction_Hash x ∉ hashes (tx :: txs))); [done|].
  intros x. unfold hashes. rewrite fmap_cons, not_elem_of_cons. tauto.
Qed.
End PoolRemoval.

Section Operator.
Context {D G : Type} `{LRU} `{EthCommon} `{!EthCommonLaws} `{Crypto} `{!Signer G} `{Copier} `{!CopierLaws}
  `{Trie} `{Rlp txdata} `{Rlp Header} `{Rlp rlpBody} `{Rlp Z} `{Rlp extblock} `{RlpStream} `{!IcstChain}
  `{Database D} (abs : D -> txstore) (inv : D -> Prop) `{!DatabaseSpec D abs inv}.

Abbreviation op_ledger o := (chain_ledger abs (op_chain o)).

(** The operator between two actions: a consistent database, head and pool, and
    no output of a block it has yet to number. *)
Record op_inv (o : Operator D G) : Prop := {
  oi_ready : ready abs inv (op_chain o);
  oi_pool : pool_wf (op_txPool o);
  oi_ch : exists sent, op_newBlockCh o = Some sent;
  oi_child : op_currentChildBlock o mod 1000 = 0 /\ 0 <= op_currentChildBlock o;
  oi_ids id : is_Some (op_ledger o !! id) ->
    BlockNum id <> 0 /\ (BlockNum id mod 1000 = 0 -> BlockNum id <= op_currentChildBlock o)
}.

(** Transactions the operator can process: no nil pointer, amounts set. *)
Record batch_ok (signer : G) (txs : list Transaction) : Prop := {
  bo_check : Forall (tx_checkable signer) txs;
  bo_outs : Forall tx_applicable txs;
  bo_len : Z.of_nat (length txs) <= 2 ^ 32
}.

Lemma constructBlock_spec now (o : Operator D G) txs :
  0 <= op_currentChildBlock o -> op_currentChildBlock o + 1000 < 2 ^ 63 ->
  let n := op_currentChildBlock o + 1000 in
  constructBlock now o txs =
  Ret (op_set_child o n,
       mkBlock (mkHeader zeroHash (op_Addr o) (txs_root txs) (Some n) (Some now) []) txs None None (Some 0)).
Proof.
  intros H0' H1' n. unfold constructBlock, childBlockInterval.
  rewrite u64_small by (unfold is_u64; lia). rewrite NewBlock_total. done.
Qed.

Lemma constructed_ok signer now n addr txs :
  0 < n < 2 ^ 63 -> 0 <= now -> batch_ok signer txs ->
  block_ok signer (mkBlock (mkHeader zeroHash addr (txs_root txs) (Some n) (Some now) []) txs None None (Some 0)) n.
Proof.
  intros Hn Hnow [Hck Hout Hlen]. split; try done.
  unfold Header_okb, big_okb. cbn [header Number Time].
  by rewrite (proj2 (Z.leb_le 0 n)), (proj2 (Z.leb_le 0 now)) by lia.
Qed.

(** Why a batch is not committed: a rule is broken, the disk failed, or the chain
    already has a block of these transactions under the next number. *)
Definition seal_refused (signer : G) (o : Operator D G) (txs : list Transaction) (e : option error) : Prop :=
  ~ block_rules signer (op_ledger o) txs \/ commit_failure abs inv e \/
  exists b, transactions b = txs /\
    (BC_HasBlock (begun (op_chain o)) (Block_Hash b) (op_currentChildBlock o + 1000)).2 = true.

Lemma SubmitBlock_returns cxAddr block key n : Number (header block) = Some n ->
  returns (SubmitBlock cxAddr block key).
Proof.
  intros Hn. unfold SubmitBlock, Block_Number. rewrite Hn. cbn [deref gbind]. repeat case_match; by eexists.
Qed.

(** No output carries the next number, nor 0. *)
Lemma op_inv_fresh (o : Operator D G) m :
  op_inv o -> m = op_currentChildBlock o + 1000 \/ m = 0 -> fresh_block m (op_ledger o).
Proof.
  intros [_ _ _ [Hmod _] Hids] Hm id Hid. destruct (op_ledger o !! id) eqn:E; [|done].
  destruct (Hids id) as [Hz Hle]; [by rewrite E|]. destruct Hm as [-> | ->]; [|done].
  rewrite Hid in Hle. assert ((op_currentChildBlock o + 1000) mod 1000 = 0) by dlia. lia.
Qed.

(** The invariant after the counter moved and outputs of the new number, at most,
    were created. *)
Lemma op_inv_next (o o' : Operator D G) :
  op_inv o -> ready abs inv (op_chain o') -> pool_wf (op_txPool o') -> (exists sent, op_newBlockCh o' = Some sent) ->
  op_currentChildBlock o' = op_currentChildBlock o + 1000 ->
  (forall id, is_Some (op_ledger o' !! id) -> BlockNum id = op_currentChildBlock o + 1000 \/ is_Some (op_ledger o !! id)) ->
  op_inv o'.
Proof.
  intros [_ _ _ [Hmod Hcc] Hids] Hr Hp Hch Hcb Horig. split; [done|done|done|rewrite Hcb; dlia|].
  intros id Hid. rewrite Hcb. destruct (Horig id Hid) as [->|Hold]; [lia|].
  destruct (Hids id Hold) as [Hz Hle]. split; [done|]. intros Hm. specialize (Hle Hm). lia.
Qed.

(** Sealing: the operator's invariant is kept; either the block is committed,
    then its transactions followed the rules over the ledger before, the supply
    shrinks by their fees and the pool loses them; or nothing changed but the
    block counter. *)
Lemma Seal_spec cxAddr signer now (o : Operator D G) txs :
  op_inv o -> batch_ok signer txs -> 0 <= now -> op_currentChildBlock o + 1000 < 2 ^ 63 ->
  let n := op_currentChildBlock o + 1000 in
  exists o' e, Seal cxAddr signer now o txs = Ret (o', e) /\ op_inv o' /\
    op_currentChildBlock o' = n /\
    (op_TxsCh o' = op_TxsCh o /\ tp_signer (op_txPool o') = tp_signer (op_txPool o)) /\
    ((block_rules signer (op_ledger o) txs /\ op_ledger o' = ledger_block n txs (op_ledger o) /\
      supply (op_ledger o') = supply (op_ledger o) - fees txs /\
      tp_queue (op_txPool o') ≡ₚ
        filter (fun tx => Transaction_Hash tx ∉ hashes txs) (tp_queue (op_txPool o))) \/
     (e <> None /\ committed (abs (bc_db (op_chain o'))) = committed (abs (bc_db (op_chain o))) /\
      op_txPool o' = op_txPool o /\ seal_refused signer o txs e)).
Proof.
  intros Hi Hb Hnow Hmax n. pose proof Hi as [Hr Hpool [sent Hch] [Hmod Hcc] _]. unfold Seal.
  rewrite constructBlock_spec by done. fold n. cbn [gbind].
  set (block := mkBlock _ _ _ _ _).
  assert (Hn : n mod 1000 = 0) by (unfold n; dlia).
  assert (Hok : block_ok signer block n) by (apply constructed_ok; [unfold n; lia|done|done]).
  destruct (WriteBlock_spec abs inv signer (op_set_child o n) block n sent Hr Hok Hch)
    as (o1 & e1 & -> & Hr1 & Hp1 & Hcb1 & Hk1 & Ht1 & Hch1 & Hm).
  cbn [gbind op_set_child op_txPool op_chain op_currentChildBlock op_privateKey op_TxsCh] in *.
  destruct e1 as [e1|].
  { destruct Hm as [Hc1 Hwhy]. exists o1, (Some e1). split; [done|].
    split; [|split; [done|split; [by rewrite Hp1|right; split_and!; [done..|]]]].
    - apply (op_inv_next o); try done; [by rewrite Hp1|]. intros id Hid. right.
      unfold chain_ledger in *. by rewrite <- Hc1.
    - destruct Hwhy as [[_ Hv]|Hf]; [|right; by left]. unfold seal_refused.
      rewrite (block_valid_rules abs inv signer (op_chain o) block n Hr Hok Hn) in Hv.
      destruct (BC_HasBlock (begun (op_chain o)) (Block_Hash block) n).2 eqn:Eb;
        [right; right; by exists block|left; intros Hrules; by apply Hv]. }
  destruct Hm as [Hv Hled]. specialize (Hv Hn).
  apply (block_valid_rules abs inv signer (op_chain o) block n Hr Hok Hn) in Hv as (_ & _ & Hrules).
  cbn [transactions block] in Hled, Hrules.
  destruct (remove_txs_spec txs (op_txPool o1)) as (pool & Hrm & Hwfp & Hq & _ & Hsg); [by rewrite Hp1|].
  unfold Block_Transactions. cbn [transactions block]. rewrite Hrm. cbn [gbind].
  destruct (SubmitBlock_returns cxAddr block (op_privateKey (op_set_pool o1 pool)) n eq_refl) as [e ->].
  cbn [gbind]. exists (op_set_pool o1 pool), e. split; [done|].
  split; [|split; [done|split; [by rewrite <- Hp1|left]]].
  - apply (op_inv_next o); try done. cbn [op_set_pool op_chain]. rewrite Hled. by apply ledger_block_origin.
  - cbn [op_set_pool op_chain op_txPool]. rewrite Hled, <- Hp1. split_and!; try done.
    apply ledger_block_supply; [unfold n; lia|apply op_inv_fresh; auto|apply op_inv_fresh; auto| |apply Hrules|apply Hb].
    by apply (rules_balanced signer).
Qed.


(** ** Deposits *)

Definition deposit_ledger (n : Z) (depositor : Address) (amount : Z) (L : ledger) : ledger :=
  <[out_id n 0 1 := (zeroAddress, 0)]>
    (<[out_id n 0 0 := (depositor, amount)]> (delete (mkUTXOID 0 0 Byte.x00) L)).

Lemma deposit_block_ledger n depositor amount L :
  ledger_block n [deposit_tx depositor (Some amount)] L = deposit_ledger n depositor amount L.
Proof.
  unfold ledger_block, ledger_step, deposit_ledger, ledger_tx, out_amount. cbn.
  by rewrite delete_delete_eq.
Qed.

Lemma deposit_applicable depositor amount : 0 <= amount -> tx_applicable (deposit_tx depositor (Some amount)).
Proof. intros Ha. do 7 eexists. split; [by split_and!|]. by split_and!. Qed.

(** Handling a deposit is writing a block of its one transaction. *)
Lemma handleDepositEvent_block signer now (o : Operator D G) n depositor token amount :
  ready abs inv (op_chain o) -> 0 < n < 2 ^ 63 -> n mod 1000 <> 0 -> 0 <= amount -> 0 <= now ->
  exists block, block_ok signer block n /\ transactions block = [deposit_tx depositor (Some amount)] /\
    blk_hash block = None /\
    handleDepositEvent signer now o (Some n) depositor token (Some amount) = WriteBlock signer o block.
Proof.
  intros Hr Hn Hm Ha Hnow. unfold handleDepositEvent, SealDeposit, constructDepositBlock, BC_CurrentBlock.
  destruct (ready_head _ _ _ Hr) as (cur & cn & -> & Hcn). cbn [gbind]. unfold Block_Number. rewrite Hcn.
  cbn [deref gbind]. rewrite NewBlock_total. cbn [gbind]. eexists. split_and!. 4: done. 2,3: done.
  split; try done.
  - unfold Header_okb, big_okb. cbn.
    by rewrite (proj2 (Z.leb_le 0 n)), (proj2 (Z.leb_le 0 now)) by lia.
  - cbn. apply Forall_singleton. by apply deposit_applicable.
Qed.

(** A deposit event with a number between two child blocks credits the depositor,
    whatever the ledger held: nothing looks for an earlier deposit of that
    number. It fails only when the disk does. *)
Lemma handleDepositEvent_spec signer now (o : Operator D G) n depositor token amount :
  op_inv o -> 0 < n < 2 ^ 63 -> n mod 1000 <> 0 -> 0 <= amount -> 0 <= now ->
  exists o' e, handleDepositEvent signer now o (Some n) depositor token (Some amount) = Ret (o', e) /\
    op_inv o' /\ op_TxsCh o' = op_TxsCh o /\ op_txPool o' = op_txPool o /\
    match e with
    | None => op_ledger o' = deposit_ledger n depositor amount (op_ledger o)
    | Some _ => committed (abs (bc_db (op_chain o'))) = committed (abs (bc_db (op_chain o))) /\
                commit_failure abs inv e
    end.
Proof.
  intros [Hr Hpool [sent Hch] Hcc Hids] Hn Hm Ha Hnow.
  destruct (handleDepositEvent_block signer now o n depositor token amount Hr Hn Hm Ha Hnow)
    as (block & Hok & Htxs & _ & ->).
  destruct (WriteBlock_spec abs inv signer o block n sent Hr Hok Hch)
    as (o1 & e1 & -> & Hr1 & Hp1 & Hcb1 & Hk1 & Ht1 & Hch1 & Hres).
  exists o1, e1. split; [done|]. destruct e1 as [e1|].
  - destruct Hres as [Hc [[? _]|Hf]]; [done|]. split; [|done].
    assert (E : op_ledger o1 = op_ledger o) by (unfold chain_ledger; by rewrite Hc).
    split; rewrite ?Hp1, ?Hcb1, ?E; done.
  - destruct Hres as [_ Hled]. rewrite Htxs in Hled. split_and!; [|done|done|].
    + split; rewrite ?Hp1, ?Hcb1; try done. intros id Hid. rewrite Hled in Hid.
      destruct (ledger_block_origin _ _ _ _ Hid) as [->|Hold]; [lia|auto].
    + by rewrite Hled, deposit_block_ledger.
Qed.

Lemma deposit_supply n depositor amount L :
  0 < n -> fresh_block 0 L -> fresh_block n L ->
  supply (deposit_ledger n depositor amount L) = supply L + amount.
Proof.
  intros Hn H0' Hf. unfold deposit_ledger. rewrite delete_id by (by apply H0').
  rewrite insert_output, insert_output; [lia|by apply Hf|].
  rewrite lookup_insert_ne; [by apply Hf|]. intros E. apply out_id_inj in E as [_ ?]; lia.
Qed.

(** A deposit event at a number between two child blocks credits the
    depositor with the full amount in output 0 of transaction 0 of that block. It
    fails only if the disk fails to commit, and the operator's invariant is kept.
    The supply grows by the amount if the block number was unused. *)
Lemma deposit_credits signer now (o : Operator D G) n depositor token amount :
  op_inv o -> 0 < n < 2 ^ 63 -> n mod 1000 <> 0 -> 0 <= amount -> 0 <= now ->
  exists o' e, handleDepositEvent signer now o (Some n) depositor token (Some amount) = Ret (o', e) /\
    op_inv o' /\
    match e with
    | Some _ => committed (abs (bc_db (op_chain o'))) = committed (abs (bc_db (op_chain o))) /\
                commit_failure abs inv e
    | None => op_ledger o' !! mkUTXOID n 0 Byte.x00 = Some (depositor, amount) /\
              (fresh_block n (op_ledger o) -> supply (op_ledger o') = supply (op_ledger o) + amount)
    end.
Proof.
  intros Hi Hn Hm Ha Hnow.
  destruct (handleDepositEvent_spec signer now o n depositor token amount Hi Hn Hm Ha Hnow) as (o' & e & E & Hi' & _ & _ & Hr).
  exists o', e. split; [done|]. split; [done|]. destruct e; [done|]. rewrite Hr. split.
  - unfold deposit_ledger. rewrite lookup_insert_ne; [apply lookup_insert_eq|].
    change (mkUTXOID n 0 Byte.x00) with (out_id n 0 0). intros E'. apply out_id_inj in E' as [_ ?]; lia.
  - intros Hf. apply deposit_supply; [lia| |done]. apply op_inv_fresh; auto.
Qed.

(** Deposits are not idempotent: handling a deposit again after the
    depositor spent it brings the spent output back, so that the supply grows
    twice by one deposit. The event loop always starts at root chain block 100
    and deletes the hashes of handled events, so a restart does exactly this. *)
Lemma deposit_replay_mints signer now (o : Operator D G) n depositor token amount :
  op_inv o -> 0 < n < 2 ^ 63 -> n mod 1000 <> 0 -> 0 <= amount -> 0 <= now ->
  op_ledger o !! mkUTXOID n 0 Byte.x00 = None -> op_ledger o !! mkUTXOID n 0 Byte.x01 = Some (zeroAddress, 0) ->
  exists o' e, handleDepositEvent signer now o (Some n) depositor token (Some amount) = Ret (o', e) /\
    (e = None -> op_ledger o' = <[mkUTXOID n 0 Byte.x00 := (depositor, amount)]> (op_ledger o) /\
                 supply (op_ledger o') = supply (op_ledger o) + amount).
Proof.
  intros Hi Hn Hm Ha Hnow Hspent Hzero.
  destruct (handleDepositEvent_spec signer now o n depositor token amount Hi Hn Hm Ha Hnow) as (o' & e & E & _ & _ & _ & Hr).
  exists o', e. split; [done|]. intros ->.
  assert (Hl : op_ledger o' = <[mkUTXOID n 0 Byte.x00 := (depositor, amount)]> (op_ledger o)).
  { rewrite Hr. unfold deposit_ledger.
    change (out_id n 0 0) with (mkUTXOID n 0 Byte.x00). change (out_id n 0 1) with (mkUTXOID n 0 Byte.x01).
    rewrite delete_id.
    2: { destruct (op_ledger o !! mkUTXOID 0 0 Byte.x00) eqn:El; [|done].
         destruct (oi_ids o Hi (mkUTXOID 0 0 Byte.x00)) as [? _]; [by rewrite El|]. by cbn in *. }
    rewrite insert_insert_ne by congruence. by rewrite (insert_id (op_ledger o)). }
  split; [done|]. rewrite Hl. by rewrite insert_output.
Qed.

(** ** A conflict in the pool blocks sealing for good *)

Fixpoint seal_rounds (cxAddr : string) (signer : G) (now : nat -> Z) (k : nat) (o : Operator D G)
  : go (Operator D G * list (option error)) :=
  match k with
  | O => Ret (o, [])
  | S k =>
      let! (o, e) := Seal cxAddr signer (now k) o (Content (op_txPool o)) in
      let! (o, es) := seal_rounds cxAddr signer now k o in
      Ret (o, e :: es)
  end.

(** Two pool transactions that spend the same output stop the operator:
    every round that seals the pool's content fails, removes nothing from the pool
    and commits nothing, however often it is repeated. *)
Lemma conflict_blocks_sealing cxAddr signer now k : forall (o : Operator D G),
  op_inv o -> batch_ok signer (Content (op_txPool o)) -> (forall i, 0 <= now i) ->
  op_currentChildBlock o + 1000 * Z.of_nat k < 2 ^ 63 ->
  ~ NoDup (all_real_ids (Content (op_txPool o))) ->
  exists o' es, seal_rounds cxAddr signer now k o = Ret (o', es) /\
    Forall (fun e => e <> None) es /\ length es = k /\
    op_txPool o' = op_txPool o /\ committed (abs (bc_db (op_chain o'))) = committed (abs (bc_db (op_chain o))).
Proof.
  induction k as [|k IH]; intros o Hi Hb Hnow Hmax Hdup; [eauto 10|]. cbn [seal_rounds].
  destruct (Seal_spec cxAddr signer (now k) o (Content (op_txPool o)) Hi Hb (Hnow k) ltac:(lia))
    as (o1 & e1 & -> & Hi1 & Hcb & _ & [[[_ Hnd] _]|(He & Hc & Hp & _)]); [done|]. cbn [gbind].
  destruct (IH o1) as (o2 & es & -> & Hall & Hlen & Hp2 & Hc2);
    [done|by rewrite Hp|done|rewrite Hcb; lia|by rewrite Hp|].
  cbn [gbind]. exists o2, (e1 :: es). split_and!; [done|by constructor|simpl; lia|congruence|congruence].
Qed.
End Operator.
