(* ===== verification/Run.v ===== *)
(** The operator as a state machine: the goroutines of core/operator.go and of the
    pool interleave as steps, and no run of them creates value. *)

From S2P Require Import Prelude Deps Types Signing Store Schema RawDB Utxo Validation HeaderChain.
From S2P Require Import BlockChain TxPool RootChain Operator Conservation Sealing.
#[local] Open Scope Z_scope.

Section Run.
Context {D G : Type} `{LRU} `{EthCommon} `{!EthCommonLaws} `{Crypto} `{!Signer G} `{Copier} `{!CopierLaws}
  `{Trie} `{Rlp txdata} `{Rlp Header} `{Rlp rlpBody} `{Rlp Z} `{Rlp extblock} `{RlpStream} `{!IcstChain}
  `{Database D} (abs : D -> txstore) (inv : D -> Prop) `{!DatabaseSpec D abs inv}
  (cxAddr : string) (signer : G).

Abbreviation op_ledger o := (chain_ledger abs (op_chain o)).

(** No nil pointer in it, amounts set. *)
Definition tx_fine (tx : Transaction) : Prop := tx_checkable signer tx /\ tx_applicable tx.

(** The validator of the operator's pool reads the operator's database. *)
Abbreviation pool_validator o := (NewUtxoTxValidator signer (bc_db (op_chain o))).

(** One step, and the value a deposit event brings in with it. The actions of the
    goroutines interleave, each of them whole: a tick of [start], [AddTxs], a turn of
    [processTxs], a deposit event, transactions from a peer, one posted to the node's
    own HTTP server, an eviction pass, a submission event. The channels hold what
    was sent and not yet received. *)
Inductive op_step : Operator D G -> Z -> Operator D G -> Prop :=
| run_tick o :
    Z.of_nat (length (tp_queue (op_txPool o))) <= 2 ^ 32 -> op_step o 0 (start_tick o)
| run_AddTxs o txs :
    batch_ok signer txs -> op_step o 0 (AddTxs o txs)
| run_processTxs o now o' :
    0 <= now -> op_currentChildBlock o + 1000 < 2 ^ 63 ->
    processTxs_one cxAddr signer now o = Ret o' -> op_step o 0 o'
| run_deposit o now n depositor token amount o' e :
    0 <= now -> 0 < n < 2 ^ 63 -> n mod 1000 <> 0 -> 0 <= amount -> fresh_block n (op_ledger o) ->
    handleDepositEvent signer now o (Some n) depositor token (Some amount) = Ret (o', e) -> op_step o amount o'
| run_remote o txs o' :
    Forall tx_fine txs -> Op_ProcessRemoteTxs (pool_validator o) o txs = Ret o' -> op_step o 0 o'
| run_local o tx pool e :
    tx_fine tx -> AddLocal (pool_validator o) (op_txPool o) tx = Ret (pool, e) -> op_step o 0 (op_set_pool o pool)
| run_evict o now age pool :
    evict now age (op_txPool o) = Ret pool -> op_step o 0 (op_set_pool o pool)
| run_submitted o last submitted o' e :
    completeBlockSubmit o last submitted = Ret (o', e) -> op_step o 0 o'.

(** A run, and all that was deposited in it. *)
Inductive op_run : Operator D G -> Z -> Operator D G -> Prop :=
| run_nil o : op_run o 0 o
| run_cons o a o1 b o2 : op_step o a o1 -> op_run o1 b o2 -> op_run o (a + b) o2.

Record run_inv (o : Operator D G) : Prop := {
  ri_op : op_inv abs inv o;
  ri_signer : tp_signer (op_txPool o) = signer;
  ri_queue : Forall tx_fine (tp_queue (op_txPool o));
  ri_batches : Forall (batch_ok signer) (op_TxsCh o)
}.

(** ** Entering the pool *)

Lemma Validate_returns d tx : us_inv abs inv d -> tx_checkable signer tx ->
  returns (Validate (NewUtxoTxValidator signer d) tx).
Proof.
  intros Hd [(i1 & i2 & o1 & o2 & f & Hp) [[senders serr] Hs]].
  destruct (Validate_spec (us_view abs) (us_inv abs inv) (NewUtxoTxValidator signer d) tx
    i1 i2 o1 o2 f senders serr Hd Hp Hs) as (e & -> & _). by eexists.
Qed.

Lemma addTxs_fine d txs local : us_inv abs inv d -> Forall tx_fine txs ->
  forall (pool : TxPool G), pool_wf pool -> Forall tx_fine (tp_queue pool) ->
  exists pool' es, addTxsLocked (NewUtxoTxValidator signer d) pool txs local = Ret (pool', es) /\
    pool_wf pool' /\ Forall tx_fine (tp_queue pool') /\ tp_signer pool' = tp_signer pool.
Proof.
  intros Hd. induction 1 as [|tx txs Htx _ IH]; intros pool Hwf Hq; cbn [addTxsLocked]; [eauto 10|].
  destruct (Validate_returns d tx Hd (proj1 Htx)) as [err Hv].
  assert (Hadd : exists p1 e1, add (NewUtxoTxValidator signer d) pool tx local = Ret (p1, e1)).
  { unfold add. destruct (txLookup_Get _ _); [eauto|]. cbn [tv_Validate UtxoTxValidator_TxValidator].
    rewrite Hv. destruct err; cbn [gbind]; eauto. }
  destruct Hadd as (p1 & e1 & E). rewrite E. cbn [gbind].
  assert (Hp1 : Forall tx_fine (tp_queue p1) /\ tp_signer p1 = tp_signer pool).
  { destruct (add_spec _ _ _ _ _ _ E) as [(? & _ & -> & _)|[(_ & _ & _ & ->)|Hs]]; [done|done|].
    destruct Hs as (_ & _ & _ & -> & _ & _ & _ & ->). split; [|done].
    apply Forall_app. by split; [|apply Forall_singleton]. }
  destruct (IH p1 (add_wf _ _ _ _ _ _ Hwf E) (proj1 Hp1)) as (p2 & es & -> & Hwf2 & Hq2 & Hs2).
  cbn [gbind]. exists p2, (e1 :: es). split_and!; try done. rewrite Hs2. apply Hp1.
Qed.

(** ** Each action returns and keeps the invariant *)

Lemma op_set_TxsCh_inv (o : Operator D G) ch : op_inv abs inv o -> op_inv abs inv (op_set_TxsCh o ch).
Proof. intros [? ? ? ? ?]. by split. Qed.

Lemma op_set_pool_inv (o : Operator D G) pool : op_inv abs inv o -> pool_wf pool -> op_inv abs inv (op_set_pool o pool).
Proof. intros [? ? ? ? ?] ?. by split. Qed.

Lemma fine_batch (txs : list Transaction) : Forall tx_fine txs -> Z.of_nat (length txs) <= 2 ^ 32 -> batch_ok signer txs.
Proof. intros Hf Hl. split; [..|done]; (eapply Forall_impl; [exact Hf|]); by intros tx []. Qed.

Lemma send_batch (o : Operator D G) txs : run_inv o -> batch_ok signer txs ->
  run_inv (op_set_TxsCh o (op_TxsCh o ++ [txs])).
Proof.
  intros [Hi Hs Hq Hb] Htx. split; [by apply op_set_TxsCh_inv|done|done|].
  apply Forall_app. by split; [|apply Forall_singleton].
Qed.

(** [fees] of accepted batches are not negative. *)
Lemma rules_fees L txs : block_rules signer L txs -> 0 <= fees txs.
Proof.
  intros [Hall _]. induction Hall as [|tx txs Htx _ IH]; [done|]. rewrite fees_cons.
  destruct Htx as (? & ? & ? & ? & ? & f & (_ & _ & -> & _) & _ & Hr). pose proof (rule_fee _ _ _ _ _ _ _ _ Hr).
  simpl. lia.
Qed.

Lemma processTxs_run now (o : Operator D G) : run_inv o -> 0 <= now -> op_currentChildBlock o + 1000 < 2 ^ 63 ->
  exists o', processTxs_one cxAddr signer now o = Ret o' /\ run_inv o' /\ supply (op_ledger o') <= supply (op_ledger o).
Proof.
  intros [Hi Hs Hq Hb] Hnow Hmax. unfold processTxs_one. destruct (op_TxsCh o) as [|txs rest] eqn:Ech.
  { exists o. split_and!; [done| |lia]. split; try done. by rewrite Ech. }
  apply Forall_cons in Hb as [Htx Hb].
  destruct (Seal_spec abs inv cxAddr signer now (op_set_TxsCh o rest) txs (op_set_TxsCh_inv o rest Hi) Htx Hnow Hmax)
    as (o1 & e & -> & Hi1 & _ & [Hch Hsg] & Hr). cbn [gbind]. exists o1. split; [done|].
  cbn [op_set_TxsCh op_TxsCh op_txPool op_chain] in *.
  destruct Hr as [(Hrules & _ & Hsup & Hqp)|(_ & Hc & Hp & _)].
  - split; [split; [done|congruence| |by rewrite Hch]|].
    + rewrite Hqp. rewrite Forall_forall in Hq |- *. intros tx [_ Hin]%list_elem_of_filter. by apply Hq.
    + rewrite Hsup. pose proof (rules_fees _ _ Hrules). lia.
  - split; [split; [done|congruence|by rewrite Hp|by rewrite Hch]|].
    unfold chain_ledger. rewrite Hc. lia.
Qed.

Lemma deposit_run now (o : Operator D G) n depositor token amount :
  run_inv o -> 0 <= now -> 0 < n < 2 ^ 63 -> n mod 1000 <> 0 -> 0 <= amount -> fresh_block n (op_ledger o) ->
  exists o' e, handleDepositEvent signer now o (Some n) depositor token (Some amount) = Ret (o', e) /\
    run_inv o' /\ supply (op_ledger o') <= supply (op_ledger o) + amount.
Proof.
  intros [Hi Hs Hq Hb] Hnow Hn Hm Ha Hf.
  destruct (handleDepositEvent_spec abs inv signer now o n depositor token amount Hi Hn Hm Ha Hnow)
    as (o' & e & E & Hi' & Hch & Hp & Hr).
  exists o', e. split; [done|]. split; [split; rewrite ?Hp, ?Hch; done|].
  destruct e as [e|].
  - destruct Hr as [Hc _]. unfold chain_ledger. rewrite Hc. lia.
  - rewrite Hr, deposit_supply; [lia|lia| |done]. eapply op_inv_fresh; [exact Hi|by right].
Qed.

Lemma remote_run (o : Operator D G) txs : run_inv o -> Forall tx_fine txs ->
  exists o', Op_ProcessRemoteTxs (pool_validator o) o txs = Ret o' /\ run_inv o' /\ op_ledger o' = op_ledger o.
Proof.
  intros [Hi Hs Hq Hb] Htx. unfold Op_ProcessRemoteTxs, AddRemotes.
  destruct (oi_ready _ _ _ Hi) as [Hinv _ Hw _].
  destruct (addTxs_fine (bc_db (op_chain o)) txs false (conj Hinv Hw) Htx (op_txPool o) (oi_pool _ _ _ Hi) Hq)
    as (pool & es & -> & Hwf & Hq' & Hs').
  cbn [gbind]. eexists. split; [done|]. split; [|done].
  split; cbn; [by apply op_set_pool_inv|congruence|done|done].
Qed.

Lemma local_run (o : Operator D G) tx : run_inv o -> tx_fine tx ->
  exists pool e, AddLocal (pool_validator o) (op_txPool o) tx = Ret (pool, e) /\ run_inv (op_set_pool o pool).
Proof.
  intros [Hi Hs Hq Hb] Htx. unfold AddLocal. destruct (oi_ready _ _ _ Hi) as [Hinv _ Hw _].
  destruct (addTxs_fine (bc_db (op_chain o)) [tx] (negb (NoLocals (tp_config (op_txPool o)))) (conj Hinv Hw)
    (proj2 (Forall_singleton _ _) Htx) (op_txPool o) (oi_pool _ _ _ Hi) Hq) as (pool & es & E & Hwf & Hq' & Hs').
  cbn [addTxsLocked] in E. apply gbind_Ret in E as [[p1 e1] [E1 E]]. injection E as <- _.
  exists p1, e1. split; [done|]. split; cbn; [by apply op_set_pool_inv|congruence|done|done].
Qed.

Lemma evict_op_run now age (o : Operator D G) : run_inv o ->
  exists pool, evict now age (op_txPool o) = Ret pool /\ run_inv (op_set_pool o pool).
Proof.
  intros [Hi Hs Hq Hb]. rewrite Forall_forall in Hq.
  assert (Hrec : recoverable (tp_signer (op_txPool o)) (tp_queue (op_txPool o))).
  { intros tx Htx. rewrite Hs. apply (Hq tx Htx). }
  destruct (evict_run now age (op_txPool o) (oi_pool _ _ _ Hi) Hrec) as (pool & E & Hwf & _ & Hsub & _ & Hsg).
  exists pool. split; [done|]. split; cbn; [by apply op_set_pool_inv|congruence| |done].
  apply Forall_forall. auto.
Qed.

(** ** Runs *)

Lemma op_step_inv o a o' : run_inv o -> op_step o a o' ->
  run_inv o' /\ 0 <= a /\ supply (op_ledger o') <= supply (op_ledger o) + a.
Proof.
  intros Hi Hs.
  destruct Hs as [o Hl|o txs Hb|o now o' Hnow Hmax E|o now n depositor token amount o' e Hnow Hn Hm Ha Hf E
    |o txs o' Htx E|o tx pool e Htx E|o now age pool E|o last submitted o' e E].
  - assert (Hr : run_inv (start_tick o) /\ op_chain (start_tick o) = op_chain o).
    { unfold start_tick. destruct (Content (op_txPool o)) as [|tx txs] eqn:Ec; [done|]. split; [|done].
      apply send_batch; [done|]. rewrite <- Ec. apply fine_batch; [apply Hi|done]. }
    destruct Hr as [Hr ->]. split_and!; [done|lia|lia].
  - assert (Hr : run_inv (AddTxs o txs) /\ op_chain (AddTxs o txs) = op_chain o).
    { unfold AddTxs. destruct txs; [done|]. split; [|done]. by apply send_batch. }
    destruct Hr as [Hr ->]. split_and!; [done|lia|lia].
  - destruct (processTxs_run now o Hi Hnow Hmax) as (o1 & E1 & Hr & Hsup). rewrite E in E1.
    injection E1 as <-. split_and!; [done|lia|lia].
  - destruct (deposit_run now o n depositor token amount Hi Hnow Hn Hm Ha Hf) as (o1 & e1 & E1 & Hr & Hsup).
    rewrite E in E1. injection E1 as <- <-. split_and!; [done|lia|lia].
  - destruct (remote_run o txs Hi Htx) as (o1 & E1 & Hr & Hl). rewrite E in E1. injection E1 as <-.
    rewrite Hl. split_and!; [done|lia|lia].
  - destruct (local_run o tx Hi Htx) as (p & e1 & E1 & Hr). rewrite E in E1. injection E1 as <- _.
    cbn [op_set_pool op_chain]. split_and!; [done|lia|lia].
  - destruct (evict_op_run now age o Hi) as (p & E1 & Hr). rewrite E in E1. injection E1 as <-.
    cbn [op_set_pool op_chain]. split_and!; [done|lia|lia].
  - unfold completeBlockSubmit in E. go_inv E. split_and!; [done|lia|lia].
Qed.

Lemma op_run_inv o d o' : op_run o d o' -> run_inv o ->
  run_inv o' /\ supply (op_ledger o') <= supply (op_ledger o) + d.
Proof.
  induction 1 as [o|o a o1 b o2 Hs _ IH]; intros Hi; [split; [done|lia]|].
  destruct (op_step_inv o a o1 Hi Hs) as (Hi1 & _ & Hsup). destruct (IH Hi1). split; [done|lia].
Qed.


(** ** Channels with ten places *)

(** The buffer [NewOperator], [NewBlockHandler] and [NewTxHandler] make for [TxsCh],
    for the announced blocks and for the new transactions. *)
Definition chan_cap : nat := 10.

Definition buffered {A} (ch : option (list A)) : nat := length (default [] ch).

(** A send that finds the buffer full waits: what was sent fits in it. *)
Record within_cap (o : Operator D G) : Prop := {
  wc_TxsCh : (length (op_TxsCh o) <= chan_cap)%nat;
  wc_newBlockCh : (buffered (op_newBlockCh o) <= chan_cap)%nat;
  wc_newTxs : (buffered (tp_newTxs (op_txPool o)) <= chan_cap)%nat
}.

(** The receives of [broadcastBlock] and [broadcastTxs]. *)
Inductive recv_step : Operator D G -> Operator D G -> Prop :=
| recv_block o b rest :
    op_newBlockCh o = Some (b :: rest) -> recv_step o (op_set_newBlockCh o (Some rest))
| recv_txs o txs rest :
    tp_newTxs (op_txPool o) = Some (txs :: rest) -> recv_step o (op_set_pool o (SubscribeNewTxsCh (op_txPool o) rest)).

(** The operator with its channels bounded: an action takes place when all it sends
    finds room. (A batch from a peer with more than ten new transactions enters the
    pool one by one, with receives in between: as steps of one transaction each.) *)
Inductive cap_step : Operator D G -> Operator D G -> Prop :=
| cap_act o a o' : op_step o a o' -> within_cap o' -> cap_step o o'
| cap_recv o o' : recv_step o o' -> cap_step o o'.

Lemma recv_inv o o' : recv_step o o' -> run_inv o -> run_inv o'.
Proof.
  intros [o1 b rest E|o1 txs rest E] [[Hr Hp Hch Hc Hids] Hs Hq Hb]; (split; [split|..]); try done; [by eexists|].
  by apply (pool_wf_same (op_txPool o1)).
Qed.

Lemma recv_cap o o' : recv_step o o' -> within_cap o -> within_cap o'.
Proof.
  intros [o1 b rest E|o1 txs rest E] [Ht Hb Hn]; rewrite ?E in *; split; cbn in *; try done; rewrite ?E in *; cbn in *; lia.
Qed.

Lemma cap_run_inv o o' : rtc cap_step o o' -> run_inv o -> within_cap o -> run_inv o' /\ within_cap o'.
Proof.
  induction 1 as [o|o o1 o2 Hs _ IH]; intros Hi Hc; [done|]. destruct Hs as [o a o1 Hs Hc1|o o1 Hs].
  - apply IH; [|done]. by destruct (op_step_inv o a o1 Hi Hs).
  - apply IH; [by eapply recv_inv|by eapply recv_cap].
Qed.

(** The two receivers empty their channels, and change nothing else. *)
Lemma recv_blocks bs : forall o, op_newBlockCh o = Some bs -> rtc recv_step o (op_set_newBlockCh o (Some [])).
Proof.
  induction bs as [|b bs IH]; intros o E.
  - replace (op_set_newBlockCh o (Some [])) with o; [apply rtc_refl|]. destruct o; cbn in *. by subst.
  - eapply rtc_l; [by apply (recv_block o b bs)|]. by apply (IH (op_set_newBlockCh o (Some bs))).
Qed.

Lemma recv_all_txs ts : forall o, tp_newTxs (op_txPool o) = Some ts ->
  rtc recv_step o (op_set_pool o (SubscribeNewTxsCh (op_txPool o) [])).
Proof.
  induction ts as [|t ts IH]; intros o E.
  - replace (op_set_pool o (SubscribeNewTxsCh (op_txPool o) [])) with o; [apply rtc_refl|].
    destruct o as [? ? ? [] ? ? ?]; cbn in *. by subst.
  - eapply rtc_l; [by apply (recv_txs o t ts)|]. by apply (IH (op_set_pool o (SubscribeNewTxsCh (op_txPool o) ts))).
Qed.

Lemma drain_receivers o : run_inv o ->
  exists o1, rtc recv_step o o1 /\ op_newBlockCh o1 = Some [] /\ buffered (tp_newTxs (op_txPool o1)) = 0%nat /\
    op_chain o1 = op_chain o /\ op_TxsCh o1 = op_TxsCh o /\ Content (op_txPool o1) = Content (op_txPool o) /\
    op_currentChildBlock o1 = op_currentChildBlock o.
Proof.
  intros [[_ _ [bs Hbs] _ _] _ _ _]. pose proof (recv_blocks bs o Hbs) as Hr. set (o1 := op_set_newBlockCh o (Some [])) in *.
  destruct (tp_newTxs (op_txPool o1)) as [ts|] eqn:Et.
  - eexists. split; [etrans; [exact Hr|by apply (recv_all_txs ts)]|]. by split_and!.
  - exists o1. split; [done|]. rewrite Et. by split_and!.
Qed.

(** *** How much each action sends *)

Lemma WriteBlock_sends o b o' e sent : WriteBlock signer o b = Ret (o', e) -> op_newBlockCh o = Some sent ->
  (buffered (op_newBlockCh o') <= S (length sent))%nat /\ op_TxsCh o' = op_TxsCh o /\ op_txPool o' = op_txPool o.
Proof.
  intros E Hch. unfold WriteBlock in E. apply gbind_Ret in E as [[bc e1] [_ E]]. destruct e1 as [e1|].
  { injection E as <- _. cbn. rewrite Hch. cbn. split_and!; [lia|done|done]. }
  cbn [op_newBlockCh op_set_chain] in E. rewrite Hch in E. cbn [send gbind] in E.
  apply gbind_Ret in E as [[bc2 e2] [_ E]]. injection E as <- _. cbn. rewrite length_app. cbn. split_and!; [lia|done|done].
Qed.

Lemma removeTx_newTxs (pool pool' : TxPool G) h : removeTx pool h = Ret pool' -> tp_newTxs pool' = tp_newTxs pool.
Proof.
  unfold removeTx. intros E. destruct (txLookup_Get _ _); [|by injection E as <-].
  destruct (find_offset _ _ _); [|by injection E as <-]. apply gbind_Ret in E as [q [_ E]]. by injection E as <-.
Qed.

Lemma Seal_sends now o txs o' e sent : Seal cxAddr signer now o txs = Ret (o', e) -> op_newBlockCh o = Some sent ->
  (buffered (op_newBlockCh o') <= S (length sent))%nat /\ op_TxsCh o' = op_TxsCh o /\
  tp_newTxs (op_txPool o') = tp_newTxs (op_txPool o).
Proof.
  intros E Hch. unfold Seal in E. apply gbind_Ret in E as [[o1 b] [E1 E]].
  assert (Ho1 : exists n, o1 = op_set_child o n).
  { unfold constructBlock in E1. go_inv E1. by eexists. }
  destruct Ho1 as [n ->]. apply gbind_Ret in E as [[o2 e2] [E2 E]].
  destruct (WriteBlock_sends _ _ _ _ sent E2 Hch) as (Hb & Ht & Hp).
  destruct e2 as [e2|]; [injection E as <- _; by rewrite Hp|].
  apply gbind_Ret in E as [pool [E3 E]]. apply gbind_Ret in E as [e3 [_ E]]. injection E as <- _.
  cbn [op_set_pool op_newBlockCh op_TxsCh op_txPool]. split_and!; [done|done|]. cbn [op_set_child op_txPool] in Hp. rewrite <- Hp.
  unfold remove_txs in E3. pattern pool. eapply gfold_invariant; [| |exact E3]; [|done].
  intros p tx p' Hi Er. cbn beta in *. by rewrite (removeTx_newTxs p p' _ Er).
Qed.

Lemma add_sends {V} `{TxValidator V} (v : V) (pool pool' : TxPool G) tx local e : add v pool tx local = Ret (pool', e) ->
  (buffered (tp_newTxs pool') <= S (buffered (tp_newTxs pool)))%nat.
Proof.
  unfold add. intros E. destruct (txLookup_Get _ _); [injection E as <- _; lia|].
  apply gbind_Ret in E as [[err|] [_ E]]; injection E as <- _; [lia|].
  assert (Hn : (buffered (tp_newTxs (notify (enqueueTx pool (Transaction_Hash tx) tx) tx)) <= S (buffered (tp_newTxs pool)))%nat).
  { cbn. unfold buffered. destruct (tp_newTxs pool); cbn; [rewrite length_app; cbn; lia|lia]. }
  destruct local; [|done]. unfold journalTx. by destruct (tp_journal _).
Qed.

Lemma addTxs_sends {V} `{TxValidator V} (v : V) txs local : forall (pool pool' : TxPool G) es,
  addTxsLocked v pool txs local = Ret (pool', es) ->
  (buffered (tp_newTxs pool') <= length txs + buffered (tp_newTxs pool))%nat.
Proof.
  induction txs as [|tx txs IH]; intros pool pool' es E; cbn [addTxsLocked] in E; [by injection E as <- _|].
  apply gbind_Ret in E as [[p1 e1] [E1 E]]. apply gbind_Ret in E as [[p2 es2] [E2 E]]. injection E as <- _.
  pose proof (add_sends _ _ _ _ _ _ E1). specialize (IH _ _ _ E2). cbn [length]. lia.
Qed.

Lemma evict_newTxs now age (pool pool' : TxPool G) : evict now age pool = Ret pool' -> tp_newTxs pool' = tp_newTxs pool.
Proof.
  unfold evict. intros E. apply gbind_Ret in E as [[q p] [E E']]. injection E' as <-.
  change (tp_newTxs (q, p).2 = tp_newTxs pool). generalize dependent (q, p). intros s.
  assert (Hrm : forall back (p1 : TxPool G) h s', evict_remove back p1 h = Ret s' -> tp_newTxs p1 = tp_newTxs pool -> tp_newTxs s'.2 = tp_newTxs pool).
  { intros back p1 h s' Er Hp. unfold evict_remove in Er. apply gbind_Ret in Er as [p2 [E2 Er]].
    apply removeTx_newTxs in E2. rewrite Hp in E2.
    destruct (find_offset _ _ _); [destruct (txLookup_Get _ _)|]; [apply gbind_Ret in Er as [back' [_ Er]]|..];
      by injection Er as <-. }
  set (I := fun s : list Transaction * TxPool G => tp_newTxs s.2 = tp_newTxs pool) in *.
  apply (gfold_invariant I); [|done]. intros [back p1] j s' Hp Ej. cbn [snd] in Hp. unfold evict_one in Ej.
  apply gbind_Ret in Ej as [tx [_ Ej]]. apply gbind_Ret in Ej as [[addrs [err|]] [_ Ej]]; [by eapply Hrm|].
  revert Ej. apply (gfold_invariant I); [|done]. intros [back2 p2] a s2 Hp2 Ea. unfold evict_addr in Ea.
  destruct (accountSet_contains _ _); [by injection Ea as <-|]. destruct (_ <? _); [by eapply Hrm|by injection Ea as <-].
Qed.

(** The two receivers have emptied their channels. *)
Record received_all (o : Operator D G) : Prop := {
  ra_inv : run_inv o;
  ra_TxsCh : (length (op_TxsCh o) <= chan_cap)%nat;
  ra_blocks : op_newBlockCh o = Some [];
  ra_newTxs : buffered (tp_newTxs (op_txPool o)) = 0%nat
}.

Lemma seal_fits now o : received_all o -> 0 <= now -> op_currentChildBlock o + 1000 < 2 ^ 63 ->
  exists o', processTxs_one cxAddr signer now o = Ret o' /\ within_cap o' /\ op_TxsCh o' = tail (op_TxsCh o).
Proof.
  intros [Hi Hcap Hb Hn] Hnow Hmax. destruct (processTxs_run now o Hi Hnow Hmax) as (o' & E & _).
  exists o'. split; [done|]. unfold processTxs_one in E. destruct (op_TxsCh o) as [|txs rest] eqn:Eo.
  { injection E as <-. split; [|by rewrite Eo]. split; rewrite ?Eo, ?Hb, ?Hn; cbn; lia. }
  apply gbind_Ret in E as [[o2 e2] [E2 E]]. injection E as <-.
  destruct (Seal_sends _ _ _ _ _ [] E2 Hb) as (Hb2 & Ht2 & Hn2). cbn in Hb2, Ht2, Hn2, Hcap.
  split; [|done]. split; rewrite ?Ht2, ?Hn2, ?Hn; unfold chan_cap in *; lia.
Qed.

Lemma deposit_fits now o n depositor token amount : received_all o ->
  0 <= now -> 0 < n < 2 ^ 63 -> n mod 1000 <> 0 -> 0 <= amount ->
  exists o' e, handleDepositEvent signer now o (Some n) depositor token (Some amount) = Ret (o', e) /\ within_cap o'.
Proof.
  intros [Hi Hcap Hb Hn] Hnow Hnn Hm Ha.
  destruct (handleDepositEvent_block abs inv signer now o n depositor token amount (oi_ready _ _ _ (ri_op _ Hi)) Hnn Hm Ha Hnow)
    as (block & _ & _ & _ & Eb).
  destruct (handleDepositEvent_spec abs inv signer now o n depositor token amount (ri_op _ Hi) Hnn Hm Ha Hnow)
    as (o' & e & E & _). exists o', e. split; [done|]. rewrite Eb in E.
  destruct (WriteBlock_sends _ _ _ _ [] E Hb) as (Hb2 & Ht2 & Hp2). cbn in Hb2.
  split; rewrite ?Ht2, ?Hp2, ?Hn; unfold chan_cap in *; lia.
Qed.

(** Changes of the pool alone, with at most ten sends. *)
Lemma pool_fits o pool : received_all o -> (buffered (tp_newTxs pool) <= chan_cap)%nat -> within_cap (op_set_pool o pool).
Proof. intros [Hi Hcap Hb Hn] Hp. split; cbn; rewrite ?Hb; cbn; unfold chan_cap in *; lia. Qed.

Lemma remote_fits o txs : received_all o -> Forall tx_fine txs -> (length txs <= chan_cap)%nat ->
  exists o', Op_ProcessRemoteTxs (pool_validator o) o txs = Ret o' /\ within_cap o'.
Proof.
  intros Ho Htx Hl. destruct (remote_run o txs (ra_inv _ Ho) Htx) as (o' & E & _). exists o'. split; [done|].
  unfold Op_ProcessRemoteTxs in E. apply gbind_Ret in E as [[pool es] [Ep E]]. injection E as <-.
  apply pool_fits; [done|]. pose proof (addTxs_sends _ _ _ _ _ _ Ep) as Hs. rewrite (ra_newTxs _ Ho) in Hs. lia.
Qed.

Lemma local_fits o tx : received_all o -> tx_fine tx ->
  exists pool e, AddLocal (pool_validator o) (op_txPool o) tx = Ret (pool, e) /\ within_cap (op_set_pool o pool).
Proof.
  intros Ho Htx. destruct (local_run o tx (ra_inv _ Ho) Htx) as (pool & e & E & _). exists pool, e. split; [done|].
  apply pool_fits; [done|]. pose proof (add_sends _ _ _ _ _ _ E) as Hs. rewrite (ra_newTxs _ Ho) in Hs. unfold chan_cap. lia.
Qed.

Lemma evict_fits now age o : received_all o ->
  exists pool, evict now age (op_txPool o) = Ret pool /\ within_cap (op_set_pool o pool).
Proof.
  intros Ho. destruct (evict_op_run now age o (ra_inv _ Ho)) as (pool & E & _). exists pool. split; [done|].
  apply pool_fits; [done|]. rewrite (evict_newTxs _ _ _ _ E), (ra_newTxs _ Ho). unfold chan_cap. lia.
Qed.

Lemma tick_fits o : received_all o -> (length (op_TxsCh o) < chan_cap)%nat -> within_cap (start_tick o).
Proof.
  intros [Hi Hcap Hb Hn] Hlt. unfold start_tick.
  destruct (Content (op_txPool o)); split; cbn; rewrite ?length_app, ?Hb, ?Hn; cbn; unfold chan_cap in *; lia.
Qed.

(** C30. The operator does not come to a stop as long as its transactions have no nil
    pointer, fee or output amount. In every state its actions reach with channels of
    ten places, an action waiting until what it sends fits: the receives of
    [broadcastBlock] and [broadcastTxs] lead to a state with the same chain, pool and
    batches in which sealing the next batch, a deposit event of a number that is no
    multiple of 1000 (block numbers staying below 2^63), up to ten transactions
    from a peer, one from the HTTP server and an eviction pass all return, neither
    panicking nor exiting, with all they send inside the buffers; so does the tick
    unless ten batches wait, of which sealing takes one. *)
Theorem operator_never_stops (o0 o : Operator D G) :
  run_inv o0 -> within_cap o0 -> rtc cap_step o0 o ->
  exists o1, rtc recv_step o o1 /\
    op_chain o1 = op_chain o /\ Content (op_txPool o1) = Content (op_txPool o) /\ op_TxsCh o1 = op_TxsCh o /\
    (forall now, 0 <= now -> op_currentChildBlock o + 1000 < 2 ^ 63 ->
       exists o', processTxs_one cxAddr signer now o1 = Ret o' /\ within_cap o' /\ op_TxsCh o' = tail (op_TxsCh o)) /\
    (forall now n depositor token amount, 0 <= now -> 0 < n < 2 ^ 63 -> n mod 1000 <> 0 -> 0 <= amount ->
       exists o' e, handleDepositEvent signer now o1 (Some n) depositor token (Some amount) = Ret (o', e) /\ within_cap o') /\
    (forall txs, Forall tx_fine txs -> (length txs <= chan_cap)%nat ->
       exists o', Op_ProcessRemoteTxs (pool_validator o1) o1 txs = Ret o' /\ within_cap o') /\
    (forall tx, tx_fine tx ->
       exists pool e, AddLocal (pool_validator o1) (op_txPool o1) tx = Ret (pool, e) /\ within_cap (op_set_pool o1 pool)) /\
    (forall now age, exists pool, evict now age (op_txPool o1) = Ret pool /\ within_cap (op_set_pool o1 pool)) /\
    ((length (op_TxsCh o) < chan_cap)%nat -> within_cap (start_tick o1)).
Proof.
  intros Hi Hc Hrun. destruct (cap_run_inv o0 o Hrun Hi Hc) as [Ho [Hcap _ _]].
  destruct (drain_receivers o Ho) as (o1 & Hr & Hb & Hn & Hch & Ht & Hp & Hcc). exists o1.
  assert (Ho1 : run_inv o1) by (clear -Hr Ho; induction Hr; eauto using recv_inv).
  assert (Hra : received_all o1) by (split; [done|by rewrite Ht|done|done]).
  rewrite <- Hcc, <- Ht. split_and!; [done|done|done|done|..].
  - intros now. by apply seal_fits.
  - intros now n depositor token amount. by apply deposit_fits.
  - intros txs. by apply remote_fits.
  - intros tx. by apply local_fits.
  - intros now age. by apply evict_fits.
  - by apply tick_fits.
Qed.

(** ** Starting and stopping *)

(** The operator with its quit channel and the goroutines that run: those of [start]
    and those of [processTxs]. *)
Record proc : Type := mkProc {
  pr_op : Operator D G;
  pr_quit : bool;
  pr_starts : nat;
  pr_sealers : nat
}.

Definition Operator_Start (p : proc) : proc :=
  mkProc (pr_op p) (pr_quit p) (S (pr_starts p)) (S (pr_sealers p)).

(** Closing a channel again panics. *)
Definition Operator_Stop (p : proc) : go proc :=
  if pr_quit p then Stop Panicked else Ret (mkProc (pr_op p) true (pr_starts p) (pr_sealers p)).

(** A turn of the [select] of [start], with a tick due or not; [pick] says which case
    is taken when both are ready. The goroutine waits if neither is. *)
Definition start_select (tick pick : bool) (p : proc) : proc :=
  if pr_quit p && negb (tick && pick) then mkProc (pr_op p) (pr_quit p) (pred (pr_starts p)) (pr_sealers p)
  else if tick then mkProc (start_tick (pr_op p)) (pr_quit p) (pr_starts p) (pr_sealers p)
  else p.

(** After [Stop], once the due ticks are taken the ticking goroutine ends; the pool is
    no longer read; and the sealing goroutine stays, as [TxsCh] is never closed. *)
Lemma Operator_Stop_spec (o : Operator D G) ticks :
  let p := Operator_Start (mkProc o false 0 0) in
  exists p1, Operator_Stop p = Ret p1 /\ Operator_Stop p1 = Stop Panicked /\
    let p2 := start_select false false (Nat.iter ticks (start_select true true) p1) in
    pr_starts p2 = 0%nat /\ pr_sealers p2 = 1%nat /\ pr_op p2 = Nat.iter ticks start_tick o.
Proof.
  cbv zeta. eexists. split; [reflexivity|]. split; [reflexivity|].
  set (p1 := mkProc _ _ _ _).
  assert (E : Nat.iter ticks (start_select true true) p1 = mkProc (Nat.iter ticks start_tick o) true 1 1).
  { induction ticks as [|ticks IH]; [done|]. cbn [Nat.iter nat_rect]. unfold Nat.iter in *. by rewrite IH. }
  by rewrite E.
Qed.
End Run.
