(* ===== verification/Merkle.v ===== *)
(** core/merkle.go, and [merkleProof] of core/operator.go: a Merkle tree of nodes
    linked by pointers. The nodes live in a heap, a pointer is an index into it. *)

From S2P Require Import Prelude Deps Types.
#[local] Open Scope Z_scope.

(** * The code *)

Record tnode : Type := mkTnode {
  t_hash : bytes;
  t_p : option nat;
  t_l : option nat;
  t_r : option nat
}.

Record MerkleTree : Type := mkMerkleTree {
  leaves : list nat;
  root : option nat
}.

Definition hashLen : nat := 32.
Definition emptyHash : bytes := replicate hashLen Byte.x00.

(** [&tnode{...}]. *)
Definition alloc (h : list tnode) (n : tnode) : list tnode * nat := (h ++ [n], length h).

(** [x.p = q]. *)
Definition set_p (h : list tnode) (a : nat) (q : nat) : go (list tnode) :=
  let! x := index h a in
  Ret (<[a := mkTnode (t_hash x) (Some q) (t_l x) (t_r x)]> h).

Section Merkle.
Context `{Crypto}.

(** [crypto.Keccak256(a, b)]. *)
Definition keccak2 (a b : bytes) : bytes := arr (keccak256 (a ++ b)).

(** [buildTree]; the fuel bounds the depth, the number of hashes is enough. *)
Fixpoint buildTree (fuel : nat) (h : list tnode) (lvs : list nat) (hashs : list bytes)
  : go (list tnode * list nat * nat) :=
  match hashs with
  | [x] =>
      let (h, leaf) := alloc h (mkTnode x None None None) in
      Ret (h, lvs ++ [leaf], leaf)
  | _ =>
      match fuel with
      | O => Stop OutOfFuel
      | S fuel =>
          let half := (length hashs / 2)%nat in
          let! (h, lvs, l) := buildTree fuel h lvs (take half hashs) in
          let! (h, lvs, r) := buildTree fuel h lvs (drop half hashs) in
          let! ln := index h l in
          let! rn := index h r in
          let rootHash := keccak2 (t_hash ln) (t_hash rn) in
          let (h, root) := alloc h (mkTnode [] None None None) in
          let! h := set_p h l root in
          let! h := set_p h r root in
          Ret (<[root := mkTnode rootHash None (Some l) (Some r)]> h, lvs, root)
      end
  end.

(** [NewMerkleTree]: nil for no hashes, one empty hash added to an odd number. *)
Definition NewMerkleTree (hashs : list bytes) : go (list tnode * option MerkleTree) :=
  match hashs with
  | [] => Ret ([], None)
  | _ =>
      let hashs := if negb (length hashs mod 2 =? 0)%nat then hashs ++ [emptyHash] else hashs in
      let! (h, lvs, root) := buildTree (length hashs) [] [] hashs in
      Ret (h, Some (mkMerkleTree lvs (Some root)))
  end.

(** The loop of [Proof], up the parent pointers. *)
Fixpoint climb_proof (fuel : nat) (h : list tnode) (leaf : nat) : go (list bytes) :=
  let! n := index h leaf in
  match t_p n with
  | None => Ret []
  | Some p =>
      match fuel with
      | O => Stop OutOfFuel
      | S fuel =>
          let! pn := index h p in
          let! sib := deref (if decide (t_l pn = Some leaf) then t_r pn else t_l pn) in
          let! sn := index h sib in
          let! rest := climb_proof fuel h p in
          Ret (t_hash sn :: rest)
      end
  end.

Definition Proof_ (h : list tnode) (mt : MerkleTree) (leafIdx : Z) : go (list bytes) :=
  if Z.of_nat (length (leaves mt)) <=? leafIdx then Ret []
  else if leafIdx <? 0 then Stop IndexRange
  else
    let! leaf := index (leaves mt) (Z.to_nat leafIdx) in
    climb_proof (length h) h leaf.

(** The loop of [Verify]: the hash and the index so far. *)
Definition verify_step (s : bytes * Z) (proofElement : bytes) : bytes * Z :=
  let (computedHash, leafIdx) := s in
  (if Z.rem leafIdx 2 =? 0 then keccak2 computedHash proofElement
   else keccak2 proofElement computedHash, Z.quot leafIdx 2).

Definition Verify (leafHash rootHash : bytes) (leafIdx : Z) (proof : list bytes) : bool :=
  bool_decide ((fold_left verify_step proof (leafHash, leafIdx)).1 = rootHash).

(** [merkleProof] of core/operator.go. *)
Definition merkleProof `{Rlp txdata} (b : Block) (txIdx : Z) : go (list bytes) :=
  let hashs := (fun tx => arr (Transaction_Hash tx)) <$> Block_Transactions b in
  let! (h, mtree) := NewMerkleTree hashs in
  let! mtree := deref mtree in
  Proof_ h mtree txIdx.

(** * The tree as a value *)

Inductive tree : Type := Leaf (x : bytes) | Node (l r : tree).

Fixpoint tree_hash (t : tree) : bytes :=
  match t with Leaf x => x | Node l r => keccak2 (tree_hash l) (tree_hash r) end.

Fixpoint tree_leaves (t : tree) : list bytes :=
  match t with Leaf x => [x] | Node l r => tree_leaves l ++ tree_leaves r end.

Fixpoint tree_size (t : tree) : nat :=
  match t with Leaf _ => 1 | Node l r => tree_size l + tree_size r + 1 end.

(** Sibling hashes from the [i]th leaf up. *)
Fixpoint tree_path (t : tree) (i : nat) : list bytes :=
  match t with
  | Leaf _ => []
  | Node l r =>
      if (i <? length (tree_leaves l))%nat then tree_path l i ++ [tree_hash r]
      else tree_path r (i - length (tree_leaves l)) ++ [tree_hash l]
  end.

(** Where the nodes of a tree lie: children before their parent, the root last. *)
Fixpoint layout (base : nat) (par : option nat) (t : tree) : list tnode :=
  match t with
  | Leaf x => [mkTnode x par None None]
  | Node l r =>
      let top := (base + tree_size l + tree_size r)%nat in
      layout base (Some top) l ++ layout (base + tree_size l) (Some top) r ++
      [mkTnode (tree_hash t) par (Some (base + tree_size l - 1)%nat)
         (Some (base + tree_size l + tree_size r - 1)%nat)]
  end.

Fixpoint leaf_addrs (base : nat) (t : tree) : list nat :=
  match t with
  | Leaf _ => [base]
  | Node l r => leaf_addrs base l ++ leaf_addrs (base + tree_size l) r
  end.

(** The tree [buildTree] makes. *)
Inductive builds : list bytes -> tree -> Prop :=
| builds_leaf x : builds [x] (Leaf x)
| builds_node hs l r :
    (2 <= length hs)%nat -> builds (take (length hs / 2) hs) l -> builds (drop (length hs / 2) hs) r ->
    builds hs (Node l r).
End Merkle.

(** * The code builds that tree *)

Section MerkleFacts.
Context `{Crypto}.

Lemma tree_size_pos t : (0 < tree_size t)%nat.
Proof. destruct t; simpl; lia. Qed.

(** The last node of a layout is the tree's root. *)
Definition root_node (base : nat) (par : option nat) (t : tree) : tnode :=
  match t with
  | Leaf x => mkTnode x par None None
  | Node l r => mkTnode (tree_hash t) par (Some (base + tree_size l - 1)%nat)
                  (Some (base + tree_size l + tree_size r - 1)%nat)
  end.

Definition below (base : nat) (t : tree) : list tnode :=
  match t with
  | Leaf _ => []
  | Node l r =>
      let top := (base + tree_size l + tree_size r)%nat in
      layout base (Some top) l ++ layout (base + tree_size l) (Some top) r
  end.

Lemma layout_split base par t : layout base par t = below base t ++ [root_node base par t].
Proof. destruct t; [done|]. cbn [layout below root_node]. by rewrite app_assoc. Qed.

Lemma length_layout base par t : length (layout base par t) = tree_size t.
Proof.
  revert base par. induction t as [|l IHl r IHr]; intros base par; [done|].
  cbn [layout tree_size]. rewrite !length_app, IHl, IHr. simpl. lia.
Qed.

Lemma length_below base t : length (below base t) = (tree_size t - 1)%nat.
Proof.
  pose proof (length_layout base None t) as E. rewrite layout_split, length_app in E. simpl in E. lia.
Qed.

Lemma root_node_hash base par t : t_hash (root_node base par t) = tree_hash t.
Proof. by destruct t. Qed.

Lemma length_leaf_addrs base t : length (leaf_addrs base t) = length (tree_leaves t).
Proof.
  revert base. induction t as [|l IHl r IHr]; intros base; [done|]. simpl. by rewrite !length_app, IHl, IHr.
Qed.

Lemma layout_lookup_root h post base par t :
  length h = base ->
  (h ++ layout base par t ++ post) !! (base + tree_size t - 1)%nat = Some (root_node base par t).
Proof.
  intros <-. pose proof (tree_size_pos t). rewrite lookup_app_r by lia.
  rewrite lookup_app_l by (rewrite length_layout; lia).
  rewrite layout_split. apply list_lookup_middle. rewrite length_below. lia.
Qed.

(** Setting the root's parent changes the layout's parent argument. *)
Lemma set_p_layout h post base t q :
  length h = base ->
  set_p (h ++ layout base None t ++ post) (base + tree_size t - 1) q =
  Ret (h ++ layout base (Some q) t ++ post).
Proof.
  intros Hb. unfold set_p, index. rewrite layout_lookup_root by done. simpl. f_equal.
  pose proof (tree_size_pos t). rewrite insert_app_r_alt by lia. f_equal.
  rewrite !(layout_split base). rewrite <- !app_assoc, insert_app_r_alt by (rewrite length_below; lia).
  f_equal. rewrite length_below. replace (_ - _ - _)%nat with 0%nat by lia. by destruct t.
Qed.

(** One unfolding of [buildTree] on two hashes or more. *)
Lemma buildTree_step fuel h lvs hs : (2 <= length hs)%nat ->
  buildTree (S fuel) h lvs hs =
  let half := (length hs / 2)%nat in
  let! (h, lvs, l) := buildTree fuel h lvs (take half hs) in
  let! (h, lvs, r) := buildTree fuel h lvs (drop half hs) in
  let! ln := index h l in
  let! rn := index h r in
  let rootHash := keccak2 (t_hash ln) (t_hash rn) in
  let (h, root) := alloc h (mkTnode [] None None None) in
  let! h := set_p h l root in
  let! h := set_p h r root in
  Ret (<[root := mkTnode rootHash None (Some l) (Some r)]> h, lvs, root).
Proof. intros Hlen. destruct hs as [|x [|y hs]]; simpl in Hlen; [lia|lia|done]. Qed.

(** Filling in the root above two subtrees gives the tree's layout. *)
Lemma insert_root h l r top m : top = (length h + (tree_size l + tree_size r))%nat -> m = (length h + tree_size l)%nat ->
  insert top (mkTnode (keccak2 (tree_hash l) (tree_hash r)) None
      (Some (m - 1)%nat) (Some (m + tree_size r - 1)%nat))
    ((h ++ layout (length h) (Some top) l) ++ layout m (Some top) r ++ [mkTnode [] None None None]) =
  h ++ layout (length h) None (Node l r).
Proof.
  intros -> ->. cbn [layout]. rewrite <- !app_assoc.
  rewrite !insert_app_r_alt by (rewrite ?length_layout; lia). rewrite !length_layout.
  match goal with |- context [insert ?k _ [_]] => replace k with 0%nat by lia end.
  rewrite Nat.add_assoc. done.
Qed.

Lemma buildTree_spec hs t : builds hs t -> forall fuel h lvs, (length hs <= S fuel)%nat ->
  buildTree fuel h lvs hs =
  Ret (h ++ layout (length h) None t, lvs ++ leaf_addrs (length h) t, (length h + tree_size t - 1)%nat).
Proof.
  intros Hb. induction Hb as [x|hs l r Hlen Hl IHl Hr IHr]; intros fuel h lvs Hf.
  { cbn. destruct fuel; cbn; repeat f_equal; lia. }
  destruct fuel as [|fuel]; [lia|].
  pose proof (Nat.div_lt (length hs) 2 ltac:(lia) ltac:(lia)) as Hdiv.
  assert (Hdiv1 : (1 <= length hs / 2)%nat) by (apply Nat.div_le_lower_bound; lia).
  rewrite buildTree_step by done. cbv zeta.
  rewrite IHl by (rewrite length_take; lia). cbn [gbind].
  rewrite IHr by (rewrite length_drop; lia). cbn [gbind].
  rewrite !length_app, length_layout.
  set (b := length h). set (m := (b + tree_size l)%nat).
  pose proof (tree_size_pos l). pose proof (tree_size_pos r).
  rewrite <- app_assoc. unfold index at 1.
  rewrite (layout_lookup_root h (layout m None r) b None l) by done. cbn [gbind].
  assert (Hidx : (h ++ layout b None l ++ layout m None r) !! (m + tree_size r - 1)%nat = Some (root_node m None r)).
  { rewrite app_assoc, <- (app_nil_r (layout m None r)). apply layout_lookup_root.
    by rewrite length_app, length_layout. }
  unfold index at 1. rewrite Hidx. cbn [gbind]. rewrite !root_node_hash. cbn [alloc].
  unfold alloc. rewrite !length_app, !length_layout. fold b.
  set (top := (b + (tree_size l + tree_size r))%nat).
  rewrite <- !app_assoc.
  rewrite (set_p_layout h (layout m None r ++ _) b l top) by done. cbn [gbind].
  rewrite (app_assoc h), (set_p_layout (h ++ layout b (Some top) l) _ m r top)
    by (rewrite length_app, length_layout; done).
  cbn [gbind]. f_equal. unfold b at 2. rewrite insert_root by done.
  cbn [tree_size leaf_addrs]. fold b m. f_equal. unfold top; lia.
Qed.

(** ** Proofs *)

Lemma root_node_p base par t : t_p (root_node base par t) = par.
Proof. by destruct t. Qed.

(** The step of [Proof]'s loop out of a child of a node. *)
Lemma climb_step fuel H' base par l r (left : bool) :
  let m := (base + tree_size l)%nat in
  let top := (m + tree_size r)%nat in
  let child := if left then (m - 1)%nat else (top - 1)%nat in
  H' !! (m - 1)%nat = Some (root_node base (Some top) l) ->
  H' !! (top - 1)%nat = Some (root_node m (Some top) r) ->
  H' !! top = Some (root_node base par (Node l r)) ->
  climb_proof (S fuel) H' child =
  let! rest := climb_proof fuel H' top in
  Ret ((if left then tree_hash r else tree_hash l) :: rest).
Proof.
  intros m top child Hl Hr Ht. pose proof (tree_size_pos l). pose proof (tree_size_pos r).
  assert (Hchild : exists n, H' !! child = Some n /\ t_p n = Some top).
  { unfold child. destruct left; eexists; (split; [eassumption|apply root_node_p]). }
  destruct Hchild as (n & Hn & Hp).
  cbn [climb_proof]. unfold index. rewrite Hn. cbn [gbind]. rewrite Hp, Ht. cbn [gbind root_node t_l t_r].
  fold m. fold top. unfold child. destruct left.
  - rewrite decide_True by done. cbn [deref gbind]. rewrite Hr. cbn [gbind]. by rewrite root_node_hash.
  - rewrite decide_False by (unfold m, top; intros [=]; lia). cbn [deref gbind]. rewrite Hl. cbn [gbind].
    by rewrite root_node_hash.
Qed.

(** From a leaf the loop collects the siblings up to the tree's root. *)
Lemma climb_tree t : forall base par pre post i a fuel,
  length pre = base -> leaf_addrs base t !! i = Some a ->
  climb_proof (fuel + length (tree_path t i)) (pre ++ layout base par t ++ post) a =
  let! rest := climb_proof fuel (pre ++ layout base par t ++ post) (base + tree_size t - 1) in
  Ret (tree_path t i ++ rest).
Proof.
  induction t as [x|l IHl r IHr]; intros base par pre post i a fuel Hb Ha.
  { simpl in Ha. destruct i; [|done]. injection Ha as Ha. subst a. cbn [tree_path length tree_size layout].
    rewrite Nat.add_0_r, Nat.add_sub. cbn [app]. by destruct (climb_proof _ _ _). }
  pose proof (tree_size_pos l). pose proof (tree_size_pos r).
  set (m := (base + tree_size l)%nat). set (top := (m + tree_size r)%nat).
  set (H' := pre ++ layout base par (Node l r) ++ post).
  assert (EL : H' = pre ++ layout base (Some top) l ++
    (layout m (Some top) r ++ [root_node base par (Node l r)] ++ post)).
  { unfold H'. cbn [layout]. rewrite <- !app_assoc. done. }
  assert (ER : H' = (pre ++ layout base (Some top) l) ++ layout m (Some top) r ++
    ([root_node base par (Node l r)] ++ post)).
  { rewrite EL. by rewrite <- !app_assoc. }
  assert (Hm : length (pre ++ layout base (Some top) l) = m) by (rewrite length_app, length_layout; lia).
  assert (Kl : H' !! (m - 1)%nat = Some (root_node base (Some top) l)).
  { rewrite EL. by apply layout_lookup_root. }
  assert (Kr : H' !! (top - 1)%nat = Some (root_node m (Some top) r)).
  { rewrite ER. by apply layout_lookup_root. }
  assert (Kt : H' !! top = Some (root_node base par (Node l r))).
  { unfold H'. replace top with (base + tree_size (Node l r) - 1)%nat by (cbn [tree_size]; unfold top, m; lia).
    by apply layout_lookup_root. }
  replace (base + tree_size (Node l r) - 1)%nat with top by (cbn [tree_size]; unfold top, m; lia).
  cbn [tree_path leaf_addrs] in *.
  destruct (Nat.ltb_spec i (length (tree_leaves l))) as [Hi|Hi].
  - rewrite lookup_app_l in Ha by (by rewrite length_leaf_addrs).
    rewrite length_app. cbn [length]. replace (fuel + (length (tree_path l i) + 1))%nat
      with (S fuel + length (tree_path l i))%nat by lia.
    rewrite EL, (IHl base (Some top) pre _ i a (S fuel) Hb Ha), <- EL.
    fold m. pose proof (climb_step fuel H' base par l r true Kl Kr Kt) as K. cbv zeta in K.
    fold m in K. fold top in K. rewrite K.
    destruct (climb_proof fuel H' top); [|done]. cbn [gbind]. by rewrite <- app_assoc.
  - rewrite lookup_app_r in Ha by (by rewrite length_leaf_addrs). rewrite length_leaf_addrs in Ha.
    rewrite length_app. cbn [length].
    set (i' := (i - length (tree_leaves l))%nat) in *.
    replace (fuel + (length (tree_path r i') + 1))%nat with (S fuel + length (tree_path r i'))%nat by lia.
    rewrite ER, (IHr m (Some top) _ _ i' a (S fuel) Hm Ha), <- ER.
    fold top. pose proof (climb_step fuel H' base par l r false Kl Kr Kt) as K. cbv zeta in K.
    fold m in K. fold top in K. rewrite K.
    destruct (climb_proof fuel H' top); [|done]. cbn [gbind]. by rewrite <- app_assoc.
Qed.

Lemma tree_path_size t i : (length (tree_path t i) < tree_size t)%nat.
Proof.
  revert i. induction t as [|l IHl r IHr]; intros i; [simpl; lia|]. cbn [tree_path tree_size].
  case_match; rewrite length_app; [specialize (IHl i)|specialize (IHr (i - length (tree_leaves l))%nat)]; simpl; lia.
Qed.

(** The leaves [NewMerkleTree] works with. *)
Definition padded (hashs : list bytes) : list bytes :=
  if negb (length hashs mod 2 =? 0)%nat then hashs ++ [emptyHash] else hashs.

Lemma builds_exists hs : hs <> [] -> exists t, builds hs t.
Proof.
  remember (length hs) as n eqn:Hn. revert hs Hn. induction n as [n IH] using lt_wf_ind. intros hs -> Hne.
  destruct hs as [|x [|y hs]]; [done|eexists; constructor|]. set (l := x :: y :: hs) in *.
  assert (Hl : (2 <= length l)%nat) by (simpl; lia).
  pose proof (Nat.div_lt (length l) 2 ltac:(lia) ltac:(lia)).
  assert (1 <= length l / 2)%nat by (apply Nat.div_le_lower_bound; lia).
  destruct (IH (length (take (length l / 2) l))) with (hs := take (length l / 2) l) as [tl Htl];
    [rewrite length_take; lia|done| |].
  { intros E. apply (f_equal length) in E. rewrite length_take in E. change (length []) with 0%nat in E. lia. }
  destruct (IH (length (drop (length l / 2) l))) with (hs := drop (length l / 2) l) as [tr Htr];
    [rewrite length_drop; lia|done| |].
  { intros E. apply (f_equal length) in E. rewrite length_drop in E. change (length []) with 0%nat in E. lia. }
  exists (Node tl tr). by constructor.
Qed.

Lemma builds_leaves hs t : builds hs t -> tree_leaves t = hs.
Proof. induction 1 as [|hs l r _ _ IHl _ IHr]; [done|]. simpl. by rewrite IHl, IHr, take_drop. Qed.

(** The tree the code builds holds the padded leaves; its root node carries the
    tree's hash, and [Proof] returns the sibling path of the leaf. *)
Lemma NewMerkleTree_spec hashs : hashs <> [] ->
  exists t h mt r, tree_leaves t = padded hashs /\ builds (padded hashs) t /\
    NewMerkleTree hashs = Ret (h, Some mt) /\ root mt = Some r /\
    (exists rn, h !! r = Some rn /\ t_hash rn = tree_hash t) /\
    length (leaves mt) = length (padded hashs) /\
    forall i, (i < length (padded hashs))%nat -> Proof_ h mt (Z.of_nat i) = Ret (tree_path t i).
Proof.
  intros Hne. assert (Hp : padded hashs <> []).
  { unfold padded. case_match; [|done]. by destruct hashs. }
  destruct (builds_exists (padded hashs) Hp) as [t Hb].
  pose proof (builds_leaves _ _ Hb) as Hleaves.
  assert (E : NewMerkleTree hashs = Ret (layout 0 None t, Some (mkMerkleTree (leaf_addrs 0 t) (Some (tree_size t - 1)%nat)))).
  { unfold NewMerkleTree. destruct hashs as [|x hashs]; [done|]. fold (padded (x :: hashs)).
    by rewrite (buildTree_spec _ t Hb) by lia. }
  exists t, (layout 0 None t). eexists _, _. split_and!; [done|done|exact E|done| | |].
  - exists (root_node 0 None t). split; [|apply root_node_hash].
    pose proof (layout_lookup_root [] [] 0 None t eq_refl) as K. rewrite app_nil_r in K. exact K.
  - cbn. by rewrite length_leaf_addrs, Hleaves.
  - intros i Hi. unfold Proof_. cbn [leaves]. rewrite length_leaf_addrs, Hleaves.
    rewrite (proj2 (Z.leb_gt _ _)), (proj2 (Z.ltb_ge _ _)), Nat2Z.id by lia.
    destruct (lookup_lt_is_Some_2 (leaf_addrs 0 t) i) as [a Ha]; [by rewrite length_leaf_addrs, Hleaves|].
    unfold index. rewrite Ha. cbn [gbind].
    pose proof (tree_path_size t i) as Hsz. rewrite length_layout.
    pose proof (climb_tree t 0 None [] [] i a (tree_size t - length (tree_path t i)) eq_refl Ha) as K.
    rewrite Nat.sub_add, app_nil_r in K by lia. cbn [app] in K. rewrite K.
    pose proof (layout_lookup_root [] [] 0 None t eq_refl) as Kr. rewrite app_nil_r in Kr. cbn [app] in Kr.
    destruct (tree_size t - length (tree_path t i))%nat; cbn [climb_proof]; unfold index; rewrite Kr; cbn [gbind];
      rewrite root_node_p; cbn [gbind]; by rewrite app_nil_r.
Qed.

(** ** Verification *)

Inductive perfect : nat -> tree -> Prop :=
| perfect_leaf x : perfect 0 (Leaf x)
| perfect_node k l r : perfect k l -> perfect k r -> perfect (S k) (Node l r).

Lemma builds_perfect k : forall hs t, length hs = (2 ^ k)%nat -> builds hs t -> perfect k t.
Proof.
  induction k as [|k IH]; intros hs t Hlen Hb.
  - destruct Hb as [|hs l r H2]; [constructor|]. simpl in Hlen. lia.
  - assert (Hpow : (0 < 2 ^ k)%nat) by (apply Nat.neq_0_lt_0, Nat.pow_nonzero; lia).
    cbn [Nat.pow] in Hlen. assert (Hhalf : (length hs / 2 = 2 ^ k)%nat).
    { rewrite Hlen, Nat.mul_comm. by apply Nat.div_mul. }
    destruct Hb as [x|hs l r H2 Hl Hr]; [simpl in Hlen; lia|]. rewrite Hhalf in Hl, Hr.
    constructor; [eapply IH, Hl; rewrite length_take; lia|eapply IH, Hr; rewrite length_drop; lia].
Qed.

Lemma perfect_leaves k t : perfect k t -> length (tree_leaves t) = (2 ^ k)%nat.
Proof. induction 1 as [|k l r _ IHl _ IHr]; [done|]. cbn [tree_leaves]. rewrite length_app, IHl, IHr. simpl. lia. Qed.

Lemma pow2_Z k : Z.of_nat (2 ^ k)%nat = 2 ^ Z.of_nat k.
Proof. by rewrite Nat2Z.inj_pow. Qed.

Lemma verify_step_even c e j : 0 <= j -> j mod 2 = 0 -> verify_step (c, j) e = (keccak2 c e, j / 2).
Proof.
  intros Hj Hm. unfold verify_step. rewrite Z.rem_mod_nonneg, Hm, Z.quot_div_nonneg by lia. done.
Qed.
Lemma verify_step_odd c e j : 0 <= j -> j mod 2 = 1 -> verify_step (c, j) e = (keccak2 e c, j / 2).
Proof.
  intros Hj Hm. unfold verify_step. rewrite Z.rem_mod_nonneg, Hm, Z.quot_div_nonneg by lia. done.
Qed.

(** An index below a node of height [k + 1] goes left or right by bit [k]. *)
Lemma index_split j k i : 0 <= j -> j mod 2 ^ (k + 1) = i -> 0 <= k ->
  (i < 2 ^ k -> j mod 2 ^ k = i /\ (j / 2 ^ k) mod 2 = 0) /\
  (2 ^ k <= i -> j mod 2 ^ k = i - 2 ^ k /\ (j / 2 ^ k) mod 2 = 1).
Proof.
  intros Hj Hi Hk. rewrite Z.pow_add_r, Z.pow_1_r in Hi by lia.
  assert (Hp : 0 < 2 ^ k) by (apply Z.pow_pos_nonneg; lia).
  rewrite Z.rem_mul_r in Hi by lia. pose proof (Z.mod_pos_bound j (2 ^ k) Hp).
  pose proof (Z.mod_pos_bound (j / 2 ^ k) 2 ltac:(lia)).
  split; intros Hc; (assert ((j / 2 ^ k) mod 2 = 0 \/ (j / 2 ^ k) mod 2 = 1) as [E|E] by lia); rewrite E in *; lia.
Qed.

Lemma verify_path k t : perfect k t -> forall i j x,
  0 <= j -> j mod 2 ^ Z.of_nat k = Z.of_nat i -> tree_leaves t !! i = Some x ->
  fold_left verify_step (tree_path t i) (x, j) = (tree_hash t, j / 2 ^ Z.of_nat k).
Proof.
  induction 1 as [y|k l r Hl IHl Hr IHr]; intros i j x Hj Hm Hx.
  { simpl in Hx. destruct i; [|done]. injection Hx as ->. cbn [tree_path fold_left tree_hash].
    change (2 ^ Z.of_nat 0) with 1. by rewrite Z.div_1_r. }
  pose proof (perfect_leaves _ _ Hl) as Ll. pose proof (pow2_Z k) as P2.
  rewrite Nat2Z.inj_succ, <- Z.add_1_r in *.
  destruct (index_split j (Z.of_nat k) (Z.of_nat i) Hj Hm ltac:(lia)) as [Hleft Hright].
  assert (Hdiv : 0 <= j / 2 ^ Z.of_nat k) by (apply Z.div_pos; lia).
  cbn [tree_path tree_hash tree_leaves] in *. rewrite Z.pow_add_r, Z.pow_1_r, <- Z.div_div by lia.
  destruct (Nat.ltb_spec i (length (tree_leaves l))) as [Hi|Hi]; rewrite fold_left_app.
  - destruct Hleft as [E1 E2]; [lia|]. rewrite lookup_app_l in Hx by done.
    rewrite (IHl i j x Hj E1 Hx). cbn [fold_left]. by apply verify_step_even.
  - destruct Hright as [E1 E2]; [lia|]. rewrite lookup_app_r in Hx by done.
    rewrite (IHr (i - length (tree_leaves l))%nat j x Hj) by (done || lia).
    cbn [fold_left]. by apply verify_step_odd.
Qed.

(** ** Binding *)

(** The strings the tree's inner nodes hash, and those [Verify] hashes. *)
Fixpoint tree_inputs (t : tree) : list bytes :=
  match t with
  | Leaf _ => []
  | Node l r => (tree_hash l ++ tree_hash r) :: tree_inputs l ++ tree_inputs r
  end.

Fixpoint verify_inputs (s : bytes * Z) (proof : list bytes) : list bytes :=
  match proof with
  | [] => []
  | e :: proof =>
      (if Z.rem s.2 2 =? 0 then s.1 ++ e else e ++ s.1) :: verify_inputs (verify_step s e) proof
  end.

(** A string of the first list and one of the second differ and have one Keccak hash. *)
Definition collides (A B : list bytes) : Prop :=
  exists a b : bytes, a ∈ A /\ b ∈ B /\ a <> b /\ keccak256 a = keccak256 b.

Lemma collides_mono A A' B B' : A ⊆ A' -> B ⊆ B' -> collides A B -> collides A' B'.
Proof. intros HA HB (a & b & ? & ? & ?). exists a, b. set_solver. Qed.

Lemma keccak2_inj A B a b c d : length a = length c -> (a ++ b) ∈ A -> (c ++ d) ∈ B ->
  keccak2 a b = keccak2 c d -> (a = c /\ b = d) \/ collides A B.
Proof.
  intros Hl HA HB E. apply farray_eq in E. destruct (decide (a ++ b = c ++ d)) as [E'|Hne].
  - left. by apply app_inj_1 in E'.
  - right. by exists (a ++ b), (c ++ d).
Qed.

Lemma verify_inputs_app proof e s :
  verify_inputs s (proof ++ [e]) = verify_inputs s proof ++ verify_inputs (fold_left verify_step proof s) [e].
Proof. revert s. induction proof as [|e' proof IH]; intros s; [done|]. cbn. by rewrite IH. Qed.

Lemma tree_hash_length t : Forall (fun x => length x = 32%nat) (tree_leaves t) -> length (tree_hash t) = 32%nat.
Proof.
  destruct t; cbn [tree_leaves tree_hash]; intros Hall; [|apply length_arr].
  by apply Forall_cons in Hall as [? _].
Qed.

Lemma verify_length proof x j : length x = 32%nat ->
  length (fold_left verify_step proof (x, j)).1 = 32%nat.
Proof.
  revert x j. induction proof as [|e proof IH]; intros x j Hx; [done|]. cbn [fold_left verify_step].
  apply IH. case_match; apply length_arr.
Qed.

Lemma verify_index k : forall proof x j, 0 <= j -> length proof = k ->
  (fold_left verify_step proof (x, j)).2 = j / 2 ^ Z.of_nat k.
Proof.
  induction k as [|k IH]; intros proof x j Hj Hl.
  - destruct proof; [|done]. change (2 ^ Z.of_nat 0) with 1. by rewrite Z.div_1_r.
  - destruct proof as [|e proof]; [done|]. cbn [fold_left verify_step].
    rewrite Z.quot_div_nonneg by lia. rewrite IH by (simpl in Hl; lia || apply Z.div_pos; lia).
    rewrite Z.div_div by lia. f_equal. rewrite Nat2Z.inj_succ, Z.pow_succ_r by lia. done.
Qed.

(** A proof that verifies against a perfect tree's root shows the leaf that is
    there, or hashes a string that collides with one the tree hashed. *)
Lemma verify_binding k t : perfect k t -> Forall (fun x => length x = 32%nat) (tree_leaves t) ->
  forall proof i j x y, 0 <= j -> j mod 2 ^ Z.of_nat k = Z.of_nat i -> tree_leaves t !! i = Some y ->
    length x = 32%nat -> Forall (fun e => length e = 32%nat) proof -> length proof = k ->
    (fold_left verify_step proof (x, j)).1 = tree_hash t ->
    (x = y /\ proof = tree_path t i) \/ collides (verify_inputs (x, j) proof) (tree_inputs t).
Proof.
  induction 1 as [z|k l r Hl IHl Hr IHr]; intros H32 proof i j x y Hj Hm Hy Hx Hpf Hlen Hv.
  { destruct proof; [|done]. destruct i; [|done]. simpl in *. simplify_eq. auto. }
  destruct proof as [|e proof _] using rev_ind; [done|].
  rewrite length_app in Hlen. simpl in Hlen. assert (Hlen' : length proof = k) by lia. clear Hlen.
  apply Forall_app in Hpf as [Hpf He]. apply Forall_cons in He as [He _].
  cbn [tree_leaves] in H32, Hy. apply Forall_app in H32 as [H32l H32r].
  pose proof (perfect_leaves _ _ Hl) as Ll. pose proof (pow2_Z k) as P2.
  rewrite Nat2Z.inj_succ, <- Z.add_1_r in Hm.
  destruct (index_split j (Z.of_nat k) (Z.of_nat i) Hj Hm ltac:(lia)) as [Hleft Hright].
  rewrite fold_left_app in Hv. cbn [fold_left] in Hv. rewrite verify_inputs_app. cbn [tree_inputs].
  pose proof (verify_index k proof x j Hj Hlen') as Hidx. pose proof (verify_length proof x j Hx) as Hc.
  destruct (fold_left verify_step proof (x, j)) as [c j'] eqn:Ef. cbn [fst snd] in *. subst j'.
  assert (Hdiv : 0 <= j / 2 ^ Z.of_nat k) by (apply Z.div_pos; lia).
  cbn [tree_path tree_hash verify_inputs fst snd] in *.
  destruct (Nat.ltb_spec i (length (tree_leaves l))) as [Hi|Hi].
  - destruct Hleft as [E1 E2]; [lia|]. rewrite lookup_app_l in Hy by done.
    rewrite verify_step_even in Hv by done. cbn [fst] in Hv. rewrite Z.rem_mod_nonneg, E2 by lia.
    destruct (keccak2_inj (verify_inputs (x, j) proof ++ [c ++ e])
      ((tree_hash l ++ tree_hash r) :: tree_inputs l ++ tree_inputs r) c e (tree_hash l) (tree_hash r))
      as [[-> ->]|?]; [rewrite Hc; symmetry; by apply tree_hash_length|set_solver|set_solver|done| |by right].
    destruct (IHl H32l proof i j x y) as [[-> ->]|?]; try done; [by rewrite Ef|by left|right].
    eapply collides_mono; [| |done]; set_solver.
  - destruct Hright as [E1 E2]; [lia|]. rewrite lookup_app_r in Hy by done.
    rewrite verify_step_odd in Hv by done. cbn [fst] in Hv. rewrite Z.rem_mod_nonneg, E2 by lia.
    destruct (keccak2_inj (verify_inputs (x, j) proof ++ [e ++ c])
      ((tree_hash l ++ tree_hash r) :: tree_inputs l ++ tree_inputs r) e c (tree_hash l) (tree_hash r))
      as [[-> ->]|?]; [rewrite He; symmetry; by apply tree_hash_length|set_solver|set_solver|done| |by right].
    destruct (IHr H32r proof (i - length (tree_leaves l))%nat j x y) as [[-> ->]|?];
      try done; [lia|by rewrite Ef|by left|right].
    eapply collides_mono; [| |done]; set_solver.
Qed.

(** ** What the code promises *)

(** [NewMerkleTree] and [Proof] return for every non-empty list of hashes: the
    linked nodes form a tree over the padded leaves, its root node carries the
    tree's hash, and the proof of a leaf is the list of sibling hashes on its way
    up. Indices past the end give no proof. *)
Lemma merkle_tree_refines hashs : hashs <> [] ->
  exists t h mt r rn, tree_leaves t = padded hashs /\ NewMerkleTree hashs = Ret (h, Some mt) /\
    root mt = Some r /\ h !! r = Some rn /\ t_hash rn = tree_hash t /\
    (forall i, (i < length (padded hashs))%nat -> Proof_ h mt (Z.of_nat i) = Ret (tree_path t i)) /\
    (forall i, Z.of_nat (length (padded hashs)) <= i -> Proof_ h mt i = Ret []).
Proof.
  intros Hne. destruct (NewMerkleTree_spec hashs Hne)
    as (t & h & mt & r & Hl & _ & E & Hr & (rn & Hrn & Hh) & Hlen & Hproof).
  exists t, h, mt, r, rn. split_and!; try done. intros i Hi. unfold Proof_.
  by rewrite Hlen, (proj2 (Z.leb_le _ _)).
Qed.

(** C16. With a power of two leaves (after padding), the proof [Proof] makes for a
    leaf passes [Verify] against the tree's root. *)
Theorem merkle_proof_verifies hashs k i x : hashs <> [] -> length (padded hashs) = (2 ^ k)%nat ->
  padded hashs !! i = Some x ->
  exists h mt r rn proof, NewMerkleTree hashs = Ret (h, Some mt) /\ root mt = Some r /\ h !! r = Some rn /\
    Proof_ h mt (Z.of_nat i) = Ret proof /\ Verify x (t_hash rn) (Z.of_nat i) proof = true.
Proof.
  intros Hne Hk Hx. destruct (NewMerkleTree_spec hashs Hne)
    as (t & h & mt & r & Hl & Hb & E & Hr & (rn & Hrn & Hh) & Hlen & Hproof).
  pose proof (lookup_lt_Some _ _ _ Hx) as Hi.
  exists h, mt, r, rn, (tree_path t i). split_and!; try done; [by apply Hproof|].
  unfold Verify. apply bool_decide_eq_true. rewrite Hh.
  rewrite (verify_path k t (builds_perfect k _ _ Hk Hb) i (Z.of_nat i) x); [done|lia| |by rewrite Hl].
  rewrite Z.mod_small; [done|]. rewrite <- pow2_Z. lia.
Qed.

(** C28. A proof binds the leaf: with a power of two leaves of 32 bytes, a proof of
    the tree's height that [Verify] accepts at an index shows the leaf that is at
    that index, and is the proof [Proof] makes; otherwise one of the strings
    [Verify] hashed collides, under Keccak, with one hashed to build the tree. *)
Theorem merkle_proof_binds hashs k i x y proof :
  hashs <> [] -> length (padded hashs) = (2 ^ k)%nat -> Forall (fun h => length h = 32%nat) hashs ->
  padded hashs !! i = Some y -> length x = 32%nat -> Forall (fun e => length e = 32%nat) proof ->
  length proof = k ->
  exists t h mt r rn, tree_leaves t = padded hashs /\ NewMerkleTree hashs = Ret (h, Some mt) /\
    root mt = Some r /\ h !! r = Some rn /\ t_hash rn = tree_hash t /\
    (Verify x (t_hash rn) (Z.of_nat i) proof = true ->
       (x = y /\ Proof_ h mt (Z.of_nat i) = Ret proof) \/
       collides (verify_inputs (x, Z.of_nat i) proof) (tree_inputs t)).
Proof.
  intros Hne Hk H32 Hy Hx Hpf Hlen. destruct (NewMerkleTree_spec hashs Hne)
    as (t & h & mt & r & Hl & Hb & E & Hr & (rn & Hrn & Hh) & _ & Hproof).
  exists t, h, mt, r, rn. split_and!; try done. unfold Verify. intros Hv%bool_decide_eq_true.
  pose proof (lookup_lt_Some _ _ _ Hy) as Hi.
  destruct (verify_binding k t (builds_perfect k _ _ Hk Hb)) with (proof := proof) (i := i)
    (j := Z.of_nat i) (x := x) (y := y) as [[-> ->]|?]; try done; [| lia | | by rewrite Hl | by rewrite <- Hh | | by right].
  - rewrite Hl. unfold padded. case_match; [|done]. apply Forall_app. split; [done|].
    apply Forall_cons. split; [reflexivity|constructor].
  - rewrite Z.mod_small; [done|]. rewrite <- pow2_Z. lia.
  - left. split; [done|]. by apply Hproof.
Qed.

(** With six leaves (and so with five), the code's own proof of leaf 1 does
    not verify, unless a string [Verify] hashes collides with one of the tree's:
    the tree splits its leaves in halves of three, while [Verify] reads left and
    right off the binary index. *)
Lemma merkle_six_leaves_fail h0 h1 h2 h3 h4 h5 :
  length h0 = 32%nat -> length h1 = 32%nat -> length h2 = 32%nat -> h1 <> h2 ->
  exists t h mt r rn proof, tree_leaves t = [h0; h1; h2; h3; h4; h5] /\
    NewMerkleTree [h0; h1; h2; h3; h4; h5] = Ret (h, Some mt) /\
    root mt = Some r /\ h !! r = Some rn /\ t_hash rn = tree_hash t /\ Proof_ h mt 1 = Ret proof /\
    (Verify h1 (t_hash rn) 1 proof = true -> collides (verify_inputs (h1, 1) proof) (tree_inputs t)).
Proof.
  intros L0 L1 L2 Hne.
  pose (half a b c := Node (Leaf a) (Node (Leaf b) (Leaf c))).
  exists (Node (half h0 h1 h2) (half h3 h4 h5)). do 5 eexists. split_and!; [reflexivity..|].
  unfold Verify. intros Hv%bool_decide_eq_true.
  assert (L : forall a b, length (keccak2 a b) = 32%nat) by (intros; apply length_arr).
  match goal with |- collides ?A ?B => set (VI := A); set (TI := B) end.
  assert (HV : VI = [h2 ++ h1; keccak2 h2 h1 ++ h0; keccak2 (keccak2 h2 h1) h0 ++ keccak2 h3 (keccak2 h4 h5)]) by reflexivity.
  assert (HT : TI = [keccak2 h0 (keccak2 h1 h2) ++ keccak2 h3 (keccak2 h4 h5); h0 ++ keccak2 h1 h2; h1 ++ h2;
    h3 ++ keccak2 h4 h5; h4 ++ h5]) by reflexivity.
  assert (Hv' : keccak2 (keccak2 (keccak2 h2 h1) h0) (keccak2 h3 (keccak2 h4 h5)) =
    keccak2 (keccak2 h0 (keccak2 h1 h2)) (keccak2 h3 (keccak2 h4 h5))) by exact Hv. clearbody VI TI.
  destruct (fun Hl HA HB => keccak2_inj VI TI _ _ _ _ Hl HA HB Hv') as [[E _]|?]; [by rewrite !L|set_solver..| |done].
  destruct (fun Hl HA HB => keccak2_inj VI TI _ _ _ _ Hl HA HB E) as [[E1 E2]|?]; [by rewrite L|set_solver..| |done].
  rewrite <- E1 in E2.
  destruct (fun Hl HA HB => keccak2_inj VI TI h2 h1 h1 h2 Hl HA HB E2) as [[-> _]|?]; [by rewrite L1, L2|set_solver..|done|done].
Qed.
End MerkleFacts.
