(* ===== verification/Bloom.v ===== *)
(** core/types/bloom9.go: the 2048-bit Bloom filter. A filter is an array of 256
    bytes; the code converts it to a big integer, sets three bits per item and
    writes the integer's bytes back, aligned to the right. *)

From S2P Require Import Prelude Deps.
#[local] Open Scope Z_scope.

Definition BloomByteLength : nat := 256.
Definition BloomBitLength : Z := 8 * Z.of_nat BloomByteLength.

Abbreviation Bloom := (farray BloomByteLength) (only parsing).

(** The [bytesBacked] interface, and the types of it the code passes. *)
Class bytesBacked (A : Type) : Type := { bb_Bytes : A -> go bytes }.

#[export] Instance bigInt_bytesBacked : bytesBacked (option Z) := {
  bb_Bytes p := let! z := deref p in Ret (big_Bytes z)
}.
#[export] Instance farray_bytesBacked n : bytesBacked (farray n) := {
  bb_Bytes a := Ret (arr a)
}.

(** [SetBytes]: bytes in front of the copied ones keep their old content. *)
Definition Bloom_SetBytes (b : Bloom) (d : bytes) : go Bloom :=
  if (BloomByteLength <? length d)%nat then Stop Panicked
  else Ret (default b (farray_of BloomByteLength
                         (copy_at (arr b) (BloomByteLength - length d) d))).

Definition BytesToBloom (b : bytes) : go Bloom :=
  Bloom_SetBytes (zero_array BloomByteLength) b.

Definition Bloom_Big (b : Bloom) : Z := be_val (arr b).
Definition Bloom_Bytes (b : Bloom) : bytes := arr b.

Section Bloom.
Context `{Crypto} `{Hexutil}.

(** The loop of [bloom9] at [i = 0, 2, 4]; the indices are within the hash. *)
Definition bloom9_bit (h : bytes) (i : nat) : go Z :=
  let! lo := index h (i + 1) in
  let! hi := index h i in
  Ret (Z.land (byteZ lo + Z.shiftl (byteZ hi) 8) 2047).

Definition bloom9 (b : bytes) : go Z :=
  let h := arr (keccak256 b) in
  gfold (fun r i => let! bit := bloom9_bit h i in Ret (Z.lor r (Z.shiftl 1 bit)))
        0 [0%nat; 2%nat; 4%nat].

Definition Bloom_Add (b : Bloom) (d : option Z) : go Bloom :=
  let bin := be_val (arr b) in
  let! data := bb_Bytes d in
  let! bits := bloom9 data in
  Bloom_SetBytes b (big_Bytes (Z.lor bin bits)).

Definition BloomLookup {A} `{bytesBacked A} (bin : Bloom) (topic : A) : go bool :=
  let bloom := Bloom_Big bin in
  let! data := bb_Bytes topic in
  let! cmp := bloom9 data in
  Ret (Z.land bloom cmp =? cmp).

Definition Bloom_Test (b : Bloom) (test : option Z) : go bool := BloomLookup b test.
Definition Bloom_TestBytes (b : Bloom) (test : bytes) : go bool :=
  Bloom_Test b (Some (be_val test)).

Definition Bloom_MarshalText (b : Bloom) : bytes * option error :=
  hexutil_Bytes_MarshalText (arr b).

Definition Bloom_UnmarshalText (b : Bloom) (input : bytes) : Bloom * option error :=
  let (out, err) := hexutil_UnmarshalFixedText "Bloom" input (arr b) in
  (default b (farray_of BloomByteLength out), err).

(** * Facts *)

Lemma BloomBitLength_pow : BloomBitLength = 2 ^ 11.
Proof. done. Qed.

Lemma bloom9_bit_range h i : (i + 1 < length h)%nat ->
  exists bit, bloom9_bit h i = Ret bit /\ 0 <= bit < BloomBitLength.
Proof.
  intros Hi. unfold bloom9_bit, index.
  assert (Hi' : (i < length h)%nat) by lia.
  apply lookup_lt_is_Some_2 in Hi as [lo ->], Hi' as [hi ->]. cbn [gbind].
  eexists. split; [done|]. change 2047 with (Z.ones 11). rewrite Z.land_ones by lia.
  rewrite BloomBitLength_pow. by apply Z.mod_pos_bound.
Qed.

(** [bloom9] sets three bits below 2048, whatever it hashes. *)
Lemma bloom9_bits data : exists i j k,
  bloom9 data = Ret (Z.lor (Z.lor (Z.shiftl 1 i) (Z.shiftl 1 j)) (Z.shiftl 1 k)) /\
  0 <= i < BloomBitLength /\ 0 <= j < BloomBitLength /\ 0 <= k < BloomBitLength.
Proof.
  unfold bloom9. pose proof (length_arr (keccak256 data)) as Hl.
  destruct (bloom9_bit_range (arr (keccak256 data)) 0) as (i & Ei & Hi); [lia|].
  destruct (bloom9_bit_range (arr (keccak256 data)) 2) as (j & Ej & Hj); [lia|].
  destruct (bloom9_bit_range (arr (keccak256 data)) 4) as (k & Ek & Hk); [lia|].
  exists i, j, k. cbn [gfold]. rewrite Ei. cbn [gbind]. rewrite Ej. cbn [gbind].
  rewrite Ek. cbn [gbind]. by rewrite Z.lor_0_l.
Qed.

Lemma bit_range i n : 0 <= i < n -> 0 <= Z.shiftl 1 i < 2 ^ n.
Proof. intros Hi. rewrite Z.shiftl_1_l. split; [lia|]. apply Z.pow_lt_mono_r; lia. Qed.

Lemma lor_range a b n : 0 <= n -> 0 <= a < 2 ^ n -> 0 <= b < 2 ^ n -> 0 <= Z.lor a b < 2 ^ n.
Proof.
  intros Hn Ha Hb. assert (0 <= Z.lor a b) as Hp by (apply Z.lor_nonneg; lia).
  split; [done|]. destruct (Z.eq_dec (Z.lor a b) 0) as [->|Hne]; [lia|].
  apply Z.log2_lt_pow2; [lia|]. rewrite Z.log2_lor by lia.
  assert (forall x, 0 <= x < 2 ^ n -> x = 0 \/ Z.log2 x < n) as Hlog.
  { intros x Hx. destruct (Z.eq_dec x 0); [by left|right]. apply Z.log2_lt_pow2; lia. }
  apply Z.max_lub_lt; [destruct (Hlog a Ha) as [->|]|destruct (Hlog b Hb) as [->|]]; try done.
  all: rewrite ?Z.lor_0_l, ?Z.lor_0_r in Hne; simpl (Z.log2 0).
  - destruct (Hlog b Hb); [lia|]. pose proof (Z.log2_nonneg b). lia.
  - destruct (Hlog a Ha); [lia|]. pose proof (Z.log2_nonneg a). lia.
Qed.

Lemma bloom9_range data : exists c, bloom9 data = Ret c /\ 0 <= c < 2 ^ BloomBitLength.
Proof.
  destruct (bloom9_bits data) as (i & j & k & -> & Hi & Hj & Hk). eexists. split; [done|].
  repeat apply lor_range; try (rewrite BloomBitLength_pow; lia); by apply bit_range.
Qed.

Lemma Bloom_Big_range (b : Bloom) : 0 <= Bloom_Big b < 2 ^ BloomBitLength.
Proof.
  unfold Bloom_Big. pose proof (be_val_nonneg (arr b)). pose proof (be_val_bound (arr b)) as Hb.
  rewrite length_arr in Hb. change 256 with (2 ^ 8) in Hb. rewrite <- Z.pow_mul_r in Hb by lia.
  done.
Qed.

(** A prefix of the bytes whose value fits in the rest is zero. *)
Lemma be_val_high_zero l k : be_val (l ++ k) < 256 ^ Z.of_nat (length k) -> be_val l = 0.
Proof.
  rewrite be_val_app. intros Hlt. pose proof (be_val_nonneg l). pose proof (be_val_nonneg k).
  assert (0 < 256 ^ Z.of_nat (length k)) by (apply Z.pow_pos_nonneg; lia). nia.
Qed.

(** Writing back a value that is not smaller than the old one is exact: the bytes
    [SetBytes] leaves alone are zero. *)
Lemma Bloom_SetBytes_Big (b : Bloom) v : Bloom_Big b <= v < 2 ^ BloomBitLength ->
  exists b', Bloom_SetBytes b (big_Bytes v) = Ret b' /\ Bloom_Big b' = v.
Proof.
  intros Hv. pose proof (Bloom_Big_range b) as Hb. unfold Bloom_SetBytes.
  assert (Hl : (length (big_Bytes v) <= BloomByteLength)%nat).
  { apply length_big_Bytes_le. rewrite Z.abs_eq by lia.
    change 256 with (2 ^ 8). rewrite <- Z.pow_mul_r by lia. apply Hv. }
  destruct (Nat.ltb_spec BloomByteLength (length (big_Bytes v))) as [|_]; [lia|].
  set (k := (BloomByteLength - length (big_Bytes v))%nat).
  assert (Hc : copy_at (arr b) k (big_Bytes v) = take k (arr b) ++ big_Bytes v).
  { unfold copy_at. rewrite (drop_ge (arr b)), app_nil_r; [done|]. rewrite length_arr. unfold k. lia. }
  assert (Hlen : length (copy_at (arr b) k (big_Bytes v)) = BloomByteLength).
  { rewrite Hc, length_app, length_take, length_arr. unfold k. lia. }
  eexists. split; [done|].
  assert (Hf : exists b', farray_of BloomByteLength (copy_at (arr b) k (big_Bytes v)) = Some b' /\
                          arr b' = copy_at (arr b) k (big_Bytes v)).
  { assert (E : (length (copy_at (arr b) k (big_Bytes v)) =? BloomByteLength)%nat = true)
      by (by apply Nat.eqb_eq).
    exists (FArray _ E). split; [apply (farray_of_arr (FArray _ E))|done]. }
  destruct Hf as (b' & -> & Hb'). cbn [from_option id]. unfold Bloom_Big.
  rewrite Hb', Hc, be_val_app, be_val_Bytes, Z.abs_eq by lia.
  cut (be_val (take k (arr b)) = 0); [lia|].
  apply (be_val_high_zero _ (drop k (arr b))). rewrite take_drop.
  eapply Z.le_lt_trans; [apply Hv|]. rewrite length_drop, length_arr.
  replace (BloomByteLength - k)%nat with (length (big_Bytes v)) by (unfold k; lia).
  pose proof (be_val_bound (big_Bytes v)) as Hbd. rewrite be_val_Bytes in Hbd. lia.
Qed.

(** Adding one item ors its bits into the filter's integer. *)
Lemma Bloom_Add_Big (b : Bloom) d : exists c b',
  bloom9 (big_Bytes d) = Ret c /\ Bloom_Add b (Some d) = Ret b' /\
  Bloom_Big b' = Z.lor (Bloom_Big b) c.
Proof.
  destruct (bloom9_range (big_Bytes d)) as (c & Ec & Hc). pose proof (Bloom_Big_range b) as Hb.
  unfold Bloom_Add. cbn [bb_Bytes bigInt_bytesBacked deref gbind]. rewrite Ec. cbn [gbind].
  destruct (Bloom_SetBytes_Big b (Z.lor (Bloom_Big b) c)) as (b' & E & Hb').
  - split; [|apply lor_range; try lia; by rewrite BloomBitLength_pow].
    pose proof (Z.add_lor_land (Bloom_Big b) c). pose proof (Z.land_nonneg (Bloom_Big b) c).
    assert (Z.land (Bloom_Big b) c <= c); [|lia].
    apply Z.ldiff_le; [lia|]. apply Z.bits_inj'. intros i Hi.
    rewrite Z.ldiff_spec, Z.land_spec, Z.bits_0. by destruct (Z.testbit (Bloom_Big b) i), (Z.testbit c i).
  - eauto.
Qed.

(** An item tests positive exactly when its bits are set. *)
Lemma Bloom_Test_bits (b : Bloom) d c : bloom9 (big_Bytes d) = Ret c ->
  exists r, Bloom_Test b (Some d) = Ret r /\
    (r = true <-> forall i, 0 <= i -> Z.testbit c i = true -> Z.testbit (Bloom_Big b) i = true).
Proof.
  intros Ec. unfold Bloom_Test, BloomLookup. cbn [bb_Bytes bigInt_bytesBacked deref gbind].
  rewrite Ec. cbn [gbind]. eexists. split; [done|]. rewrite Z.eqb_eq. split.
  - intros E i _ Hi. rewrite <- E, Z.land_spec in Hi. by apply andb_true_iff in Hi as [? _].
  - intros Hi. apply Z.bits_inj'. intros i Hi0. rewrite Z.land_spec.
    destruct (Z.testbit c i) eqn:E; [rewrite Hi by done; done|by rewrite andb_false_r].
Qed.

(** Adding a list of items sets exactly their bits. *)
Lemma Bloom_Adds_Big (ds : list Z) (b : Bloom) : exists b',
  gfold (fun b d => Bloom_Add b (Some d)) b ds = Ret b' /\
  forall i, 0 <= i -> Z.testbit (Bloom_Big b') i = true <->
    Z.testbit (Bloom_Big b) i = true \/
    exists d c, d ∈ ds /\ bloom9 (big_Bytes d) = Ret c /\ Z.testbit c i = true.
Proof.
  revert b. induction ds as [|d ds IH]; intros b.
  - exists b. split; [done|]. intros i _. set_solver.
  - destruct (Bloom_Add_Big b d) as (c & b1 & Ec & E1 & Hb1). cbn [gfold]. rewrite E1. cbn [gbind].
    destruct (IH b1) as (b' & E' & Hb'). exists b'. split; [done|]. intros i Hi.
    rewrite (Hb' i Hi), Hb1, Z.lor_spec, orb_true_iff. split.
    + intros [[Hb|Hc]|(d' & c' & Hd & Hc)]; [by left|right; exists d, c; set_solver|].
      right. exists d', c'. set_solver.
    + intros [Hb|(d' & c' & Hd & Ec' & Hc)]; [by left; left|].
      apply elem_of_cons in Hd as [->|Hd]; [|right; eauto].
      left; right. congruence.
Qed.

(** The filter has no false negatives and no operation of it panics: from any
    filter, adding any items returns a filter in which exactly the bits of the old
    filter and the items' bits, all below 2048, are set, so that every item added
    and every item that tested positive before tests positive. *)
Lemma Bloom_no_false_negatives (b : Bloom) (ds : list Z) :
  exists b', gfold (fun b d => Bloom_Add b (Some d)) b ds = Ret b' /\
    (forall i, 0 <= i -> Z.testbit (Bloom_Big b') i = true ->
       i < BloomBitLength /\
       (Z.testbit (Bloom_Big b) i = true \/
        exists d c, d ∈ ds /\ bloom9 (big_Bytes d) = Ret c /\ Z.testbit c i = true)) /\
    forall d, d ∈ ds \/ Bloom_Test b (Some d) = Ret true -> Bloom_Test b' (Some d) = Ret true.
Proof.
  destruct (Bloom_Adds_Big ds b) as (b' & E & Hbits). exists b'. split; [done|]. split.
  - intros i Hi Ht. split; [|by apply Hbits].
    destruct (Z.lt_ge_cases i BloomBitLength) as [|Hge]; [done|].
    pose proof (Bloom_Big_range b') as Hr.
    rewrite <- (Z.mod_small _ _ Hr), Z.mod_pow2_bits_high in Ht; [done|].
    by rewrite BloomBitLength_pow in *.
  - intros d Hd. destruct (bloom9_range (big_Bytes d)) as (c & Ec & _).
    destruct (Bloom_Test_bits b d c Ec) as (r & Er & Hr).
    destruct (Bloom_Test_bits b' d c Ec) as (r' & Er' & Hr'). rewrite Er'. f_equal.
    apply Hr'. intros i Hi Hc. apply Hbits; [done|]. destruct Hd as [Hd|Ht]; [right; eauto|left].
    rewrite Er in Ht. injection Ht as Ht. by apply Hr.
Qed.
End Bloom.
