(* ===== verification/Genesis.v ===== *)
(** core/genesis.go: the genesis block, and the start of a node on its database:
    an empty one, one that holds a genesis block, one that holds a chain. The
    output of [fmt.Println] is left out. *)

From S2P Require Import Prelude Deps Types Store Schema RawDB HeaderChain BlockChain.
#[local] Open Scope Z_scope.

(** go-ethereum's [params], as far as the program names it: the configurations
    are opaque but for the chain id. *)
Class Params : Type := {
  ChainConfig : Type;
  config_ChainID : ChainConfig -> option Z;
  MainnetChainConfig : ChainConfig;
  TestnetChainConfig : ChainConfig;
  RinkebyChainConfig : ChainConfig;
  AllEthashProtocolChanges : ChainConfig;
  AllCliqueProtocolChanges : ChainConfig;
  MainnetGenesisHash : Hash;
  TestnetGenesisHash : Hash
}.

Record GenesisAccount : Type := mkGenesisAccount {
  acc_Code : bytes;
  acc_Storage : gmap Hash Hash;
  acc_Balance : option Z;
  acc_Nonce : Z;
  acc_PrivateKey : bytes
}.

Abbreviation GenesisAlloc := (gmap Address GenesisAccount) (only parsing).

Record Genesis `{Params} : Type := mkGenesis {
  g_Config : option ChainConfig;
  g_Nonce : Z;       (* uint64 *)
  g_Timestamp : Z;   (* uint64 *)
  g_ExtraData : bytes;
  g_Coinbase : Address;
  g_Alloc : GenesisAlloc;
  g_Number : Z;      (* uint64 *)
  g_ParentHash : Hash
}.

(** An account with a balance only. *)
Definition account (balance : option Z) : GenesisAccount := mkGenesisAccount [] ∅ balance 0 [].

(** [json.Unmarshal] into a map with [UnprefixedAddress] keys is an argument; the
    loop copies its entries under the same bytes. On an error the receiver keeps
    its content. *)
Definition GenesisAlloc_UnmarshalJSON (unmarshal : bytes -> GenesisAlloc + error)
    (ga : GenesisAlloc) (data : bytes) : GenesisAlloc * option error :=
  match unmarshal data with
  | inr err => (ga, Some err)
  | inl m => (fold_left (fun ga e => <[e.1 := e.2]> ga) (map_to_list m) ∅, None)
  end.

(** * Storage keys in hexadecimal *)

(** [bytes.TrimPrefix(text, "0x")]. *)
Definition trim_0x (text : bytes) : bytes :=
  match text with
  | Byte.x30 :: Byte.x78 :: rest => rest
  | _ => text
  end.

Definition storageJSON_UnmarshalText (h : Hash) (text : bytes) : Hash * option error :=
  let text := trim_0x text in
  if (64 <? length text)%nat then (h, Some (ErrMsg "too many hex characters in storage key/value"))
  else
    let offset := (32 - length text / 2)%nat in
    let (dst, ok) := hex_Decode text in
    (default h (farray_of 32 (copy_at (arr h) offset dst)),
     if ok then None else Some (ErrMsg "invalid hex storage key/value")).

Definition storageJSON_MarshalText `{Hexutil} (h : Hash) : bytes * option error :=
  hexutil_Bytes_MarshalText (arr h).

(** * The genesis block *)

Section Genesis.
Context {D : Type} `{Params} `{Hexutil} `{EthCommon} `{Crypto} `{Trie} `{Rlp txdata} `{Rlp Header}
  `{Rlp rlpBody} `{Rlp Z} `{RlpStream} `{Database D}.

Definition configOrDefault (g : option Genesis) (ghash : Hash) : option ChainConfig :=
  match g with
  | Some g => g_Config g
  | None =>
      if decide (ghash = MainnetGenesisHash) then Some MainnetChainConfig
      else if decide (ghash = TestnetGenesisHash) then Some TestnetChainConfig
      else Some AllEthashProtocolChanges
  end.

(** The database argument of [ToBlock] is not used. *)
Definition ToBlock (g : Genesis) : go Block :=
  let head := mkHeader (g_ParentHash g) (g_Coinbase g) zeroHash
                (Some (g_Number g)) (Some (g_Timestamp g)) (g_ExtraData g) in
  NewBlock head [].

Definition Commit (g : Genesis) (d : D) : go (D * option Block * option error) :=
  let! block := ToBlock g in
  let! number := Block_Number block in
  if negb (number =? 0) then
    Ret (d, None, Some (ErrMsg "can't commit genesis block with number > 0"))
  else
    let! d := WriteBlock d block in
    let! number := Block_NumberU64 block in
    let d := WriteCanonicalHash d (Block_Hash block) number in
    let d := WriteHeadBlockHash d (Block_Hash block) in
    let d := WriteHeadHeaderHash d (Block_Hash block) in
    Ret (d, Some (Block_Hash_store block), None).

Definition MustCommit (g : Genesis) (d : D) : go (D * option Block) :=
  let! (d, block, err) := Commit g d in
  match err with Some _ => Stop Panicked | None => Ret (d, block) end.

Definition GenesisBlockForTesting (d : D) (addr : Address) (balance : option Z)
  : go (D * option Block) :=
  MustCommit (mkGenesis _ None 0 0 [] zeroAddress {[ addr := account balance ]} 0 zeroHash) d.

Definition DefaultGenesisBlock : go Genesis :=
  let! extra := hexutil_MustDecode
    "0x11bbe8db4e347b4e8c937c1c8370e4b5ed33adb3db69cbdb7a38e1e50b1b82fa" in
  Ret (mkGenesis _ (Some MainnetChainConfig) 66 0 extra zeroAddress ∅ 0 zeroHash).

Definition DefaultTestnetGenesisBlock : go Genesis :=
  let! extra := hexutil_MustDecode
    "0x3535353535353535353535353535353535353535353535353535353535353535" in
  Ret (mkGenesis _ (Some TestnetChainConfig) 66 0 extra zeroAddress ∅ 0 zeroHash).

Definition DefaultRinkebyGenesisBlock : go Genesis :=
  let! extra := hexutil_MustDecode
    "0x52657370656374206d7920617574686f7269746168207e452e436172746d616e42eb768f2244c8811c63729a21a3569731535f067ffc57839b00206d1ad20c69a1981b489f772031b279182d99e65703f0076e4812653aab85fca0f00000000000000000000000000000000000000000000000000000000000000000000000000000000000000000000000000000000000000000000000000000000000" in
  Ret (mkGenesis _ (Some RinkebyChainConfig) 0 1492009146 extra zeroAddress ∅ 0 zeroHash).

(** [config] is a copy of [*params.AllCliqueProtocolChanges], whose [Clique] field
    is a pointer: the assignment to [config.Clique.Period] changes the shared
    object. [clique] is its period, returned as the call leaves it. *)
Definition DeveloperGenesisBlock (clique : Z) (period : Z) (faucet : Address) : Z * Genesis :=
  let precompile (i : Z) := (BytesToAddress [byte_of i], account (Some 1)) in
  let alloc := fold_left (fun (m : GenesisAlloc) e => <[e.1 := e.2]> m)
                 (map precompile [1; 2; 3; 4; 5; 6; 7; 8]
                    ++ [(faucet, account (Some (2 ^ 256 - 9)))]) ∅ in
  (period, mkGenesis _ (Some AllCliqueProtocolChanges) 0 0
             (replicate 32 Byte.x00 ++ arr faucet ++ replicate 65 Byte.x00)
             zeroAddress alloc 0 zeroHash).

(** [decodePrealloc]: the addresses are big integers whose bytes are cut to 20. *)
Definition decodePrealloc `{Rlp (list (Z * Z))} (data : bytes) : go GenesisAlloc :=
  match rlp_DecodeBytes data with
  | None => Stop Panicked
  | Some p =>
      Ret (fold_left (fun (ga : GenesisAlloc) acct =>
                        <[BytesToAddress (big_Bytes acct.1) := account (Some acct.2)]> ga) p ∅)
  end.

(** [SetupGenesisBlock]: the block's hash is taken even when [Commit] returned nil
    with an error. *)
Definition SetupGenesisBlock (d : D) (genesis : option Genesis)
  : go (D * (option ChainConfig * Hash * option error)) :=
  if bool_decide (is_Some genesis /\ (genesis ≫= g_Config) = None) then
    Ret (d, (Some AllEthashProtocolChanges, zeroHash, Some errGenesisNoConfig))
  else
    let stored := ReadCanonicalHash d 0 in
    if decide (stored = zeroHash) then
      let! genesis := match genesis with Some g => Ret g | None => DefaultGenesisBlock end in
      let! (d, block, err) := Commit genesis d in
      let! block := deref block in
      Ret (d, (g_Config genesis, Block_Hash block, err))
    else
      match genesis with
      | Some g =>
          let! block := ToBlock g in
          if decide (Block_Hash block = stored) then
            Ret (d, (Some MainnetChainConfig, zeroHash, None))
          else Ret (d, (g_Config g, Block_Hash block, Some GenesisMismatchError))
      | None => Ret (d, (Some MainnetChainConfig, zeroHash, None))
      end.
End Genesis.
