(* ===== verification/Restart.v ===== *)
(** Starting a node: what [NewHeaderChain], [NewBlockChain] and [loadLastState]
    recover from a database, through the caches; a fresh database that
    [SetupGenesisBlock] fills, and a database a chain was written to. *)

From S2P Require Import Prelude Deps Types Store Schema RawDB HeaderChain BlockChain Genesis.
#[local] Open Scope Z_scope.

Section Restart.
Context {D : Type} `{LRU} (view : forall V, lru V -> gmap Hash V) `{!LRULaws view}
  `{EthCommon} `{!EthCommonLaws} `{Crypto} `{Rlp txdata} `{Rlp Header} `{Rlp rlpBody}
  `{Rlp Z} `{Rlp extblock} `{RlpStream} `{Database D} (abs : D -> txstore) (inv : D -> Prop)
  `{!ReadSpec D abs inv} `{!WriteSpec D abs inv}.

(** * The tables of headers and bodies *)

Definition is_table (k : dbkey) : bool :=
  match k with KHeader _ _ | KBody _ _ | KHeaderNumber _ => true | _ => false end.

(** Two databases with the same headers, bodies and hash index. *)
Definition tables_same (d d' : D) : Prop :=
  (forall h, ReadHeaderNumber d' h = ReadHeaderNumber d h) /\
  forall h n, is_u64 n -> ReadHeader d' h n = ReadHeader d h n /\ ReadBlock d' h n = ReadBlock d h n.

Lemma tables_same_lookup (d d' : D) : direct abs inv d -> direct abs inv d' ->
  (forall k, key_ok k -> is_table k = true ->
     committed (abs d') !! key_of k = committed (abs d) !! key_of k) -> tables_same d d'.
Proof.
  intros [[Hi _] _] [[Hi' _] _] Hk.
  assert (Hg : forall k, key_ok k -> is_table k = true -> get d' (key_of k) = get d (key_of k)).
  { intros k Hok Ht. rewrite !(get_committed abs inv), Hk by done. done. }
  split.
  - intros h. pose proof (Hg (KHeaderNumber h) I eq_refl) as E. cbn [key_of] in E.
    unfold ReadHeaderNumber. by rewrite E.
  - intros h n Hn. pose proof (Hg (KHeader n h) Hn eq_refl) as E1.
    pose proof (Hg (KBody n h) Hn eq_refl) as E2. cbn [key_of] in E1, E2.
    assert (ER : ReadHeader d' h n = ReadHeader d h n) by (unfold ReadHeader, ReadHeaderRLP; by rewrite E1).
    split; [done|]. unfold ReadBlock, ReadBody, ReadBodyRLP. by rewrite ER, E2.
Qed.

Lemma tables_same_put (d : D) k v : direct abs inv d -> key_ok k -> is_table k = false ->
  tables_same d (put d (key_of k) v).
Proof.
  intros Hd Hk Ht. destruct (direct_put abs inv d (key_of k) v Hd) as [Hd' E].
  apply tables_same_lookup; [done|done|]. intros k' Hk' Ht'. rewrite E.
  apply lookup_key_ne; [done|done|congruence].
Qed.

(** A database a chain can start from: headers sit under their keys with both
    integers set, and their hashes are indexed. *)
Record tables_wf (d : D) : Prop := {
  wf_headers : headers_wf d;
  wf_time h n hd : is_u64 n -> ReadHeader d h n = Some hd -> Time hd <> None;
  wf_index : index_wf d
}.

Lemma tables_wf_same (d d' : D) : tables_same d d' -> tables_wf d -> tables_wf d'.
Proof.
  intros [Hn Hh] [W1 W2 W3]. split.
  - intros n h hd Hu. rewrite (proj1 (Hh h n Hu)). by apply W1.
  - intros h n hd Hu. rewrite (proj1 (Hh h n Hu)). by apply W2.
  - intros h n hd Hu. rewrite (proj1 (Hh h n Hu)), Hn. by apply W3.
Qed.

(** * The caches of a block chain *)

Record bc_coherent (d : D) (bc : BlockChain D) : Prop := {
  coherent_hc : hc_coherent view d (bc_hc bc);
  coherent_block h b : view _ (bc_blockCache bc) !! h = Some b ->
    exists n, is_u64 n /\ ReadBlock d h n = Some b
}.

Lemma bc_coherent_same (d d' : D) bc : tables_same d d' -> bc_coherent d bc -> bc_coherent d' bc.
Proof.
  intros [Hn Hh] [[C1 C2] C3]. split; [split|].
  - intros h hd E. destruct (C1 h hd E) as (n & Hu & R). exists n. by rewrite (proj1 (Hh h n Hu)).
  - intros h n E. rewrite Hn. by apply C2.
  - intros h b E. destruct (C3 h b E) as (n & Hu & R). exists n. by rewrite (proj2 (Hh h n Hu)).
Qed.

(** The heads, the database and the configuration: everything but the caches. *)
Definition bc_heads (bc : BlockChain D) :=
  (bc_chainConfig bc, bc_db bc, bc_genesisBlock bc, bc_currentBlock bc, bc_currentFastBlock bc,
   hc_genesisHeader (bc_hc bc), hc_currentHeader (bc_hc bc), hc_currentHeaderHash (bc_hc bc)).

Lemma ReadBlock_header (d : D) h n b : ReadBlock d h n = Some b -> exists hd,
  ReadHeader d h n = Some hd /\ header b = CopyHeader (CopyHeader hd) /\ blk_hash b = None.
Proof.
  unfold ReadBlock. destruct (ReadHeader d h n) as [hd|] eqn:E; [|done].
  destruct (ReadBody d h n) as [body|]; [|done]. intros [= <-]. exists hd. done.
Qed.

(** A stored block's hash is its key, its header the stored one. *)
Lemma ReadBlock_Hash (d : D) h n b : tables_wf d -> is_u64 n -> ReadBlock d h n = Some b ->
  ReadHeader d h n = Some (header b) /\ Block_Header b = header b /\ Block_Hash b = h.
Proof.
  intros [Wh Wt _] Hu Hb. destruct (ReadBlock_header _ _ _ _ Hb) as (hd & Hr & Hh & Hn).
  destruct (Wh _ _ _ Hu Hr) as (Hnum & Hhash & _). specialize (Wt h n hd Hu Hr).
  assert (E : CopyHeader hd = hd) by (destruct hd as [ph cb th [nu|] [ti|] ex]; done).
  rewrite !E in Hh. unfold Block_Hash, Block_Header. rewrite Hn, Hh, E. done.
Qed.

Lemma index_unique (d : D) h n m b b' : tables_wf d -> is_u64 n -> is_u64 m ->
  ReadBlock d h n = Some b -> ReadBlock d h m = Some b' -> b = b'.
Proof.
  intros [_ _ Wi] Hn Hm Hb Hb'. destruct (ReadBlock_header _ _ _ _ Hb) as (? & R & _).
  destruct (ReadBlock_header _ _ _ _ Hb') as (? & R' & _).
  pose proof (Wi _ _ _ Hn R). pose proof (Wi _ _ _ Hm R'). congruence.
Qed.

(** [GetBlock] finds a stored block, cached or not; caches stay coherent. *)
Lemma GetBlock_spec (d : D) bc h n : bc_db bc = d -> tables_wf d -> is_u64 n -> bc_coherent d bc ->
  bc_coherent d (GetBlock bc h n).1 /\ bc_heads (GetBlock bc h n).1 = bc_heads bc /\
  forall b, ReadBlock d h n = Some b -> (GetBlock bc h n).2 = Some b.
Proof using LRULaws0.
  intros Hdb Hwf Hn [Ch Cb]. unfold GetBlock.
  pose proof (lru_Get_value _ (bc_blockCache bc) h) as Hv.
  pose proof (lru_Get_view _ (bc_blockCache bc) h) as Hw.
  destruct (lru_Get (bc_blockCache bc) h) as [c cached]. simpl in Hv, Hw. subst cached.
  destruct (view Block (bc_blockCache bc) !! h) as [b'|] eqn:E; simpl.
  - destruct (Cb _ _ E) as (m & Hm & Hb').
    split_and!; [split; [done|simpl; rewrite Hw; done]|done|].
    intros b Hb. by rewrite (index_unique d h n m b b').
  - rewrite Hdb. destruct (ReadBlock d h n) as [b|] eqn:Hb; simpl.
    + split_and!; [|done|done]. split; [done|]. simpl.
      intros h' b' E'. apply (lru_Add_lookup view) in E' as [[-> ->]|E'].
      * exists n. destruct (ReadBlock_Hash d h n b Hwf Hn Hb) as (_ & _ & ->). done.
      * rewrite Hw in E'. by apply Cb.
    + split_and!; [split; [done|simpl; rewrite Hw; done]|done|done].
Qed.

Lemma GetBlockByHash_spec (d : D) bc h : bc_db bc = d -> tables_wf d -> bc_coherent d bc ->
  bc_coherent d (GetBlockByHash bc h).1 /\ bc_heads (GetBlockByHash bc h).1 = bc_heads bc /\
  forall n b, ReadHeaderNumber d h = Some n -> ReadBlock d h n = Some b ->
    (GetBlockByHash bc h).2 = Some b.
Proof using LRULaws0.
  intros Hdb Hwf [Ch Cb]. unfold GetBlockByHash, BC_GetBlockNumber. rewrite Hdb.
  destruct (GetBlockNumber_spec view d (bc_hc bc) h Ch) as (Ch' & (S1 & S2 & S3 & S4) & En).
  destruct (GetBlockNumber d (bc_hc bc) h) as [hc num]. simpl in *. rewrite En.
  assert (Hs : bc_heads (set_hc bc hc) = bc_heads bc) by (unfold bc_heads; simpl; by rewrite S2, S3, S4).
  destruct (ReadHeaderNumber d h) as [n|] eqn:Hn; [|done].
  pose proof (ReadHeaderNumber_u64 d h n Hn) as Hu.
  destruct (GetBlock_spec d (set_hc bc hc) h n) as (C' & Hh & Hv); try done.
  split_and!; [done|by rewrite Hh|]. intros n' b [= <-] Hb. by apply Hv.
Qed.

(** * Starting from a database *)

(** The header the chain takes as its head: the recorded one when it is stored,
    the head block's otherwise. *)
Definition head_header (d : D) (b : Block) : Header :=
  if decide (ReadHeadHeaderHash d = zeroHash) then Block_Header b
  else default (Block_Header b) (read_by_hash d (ReadHeadHeaderHash d)).

(** A stored block that [hash] names. *)
Definition block_at (d : D) (hash : Hash) (b : Block) : Prop :=
  hash <> zeroHash /\ exists n, ReadHeaderNumber d hash = Some n /\ ReadBlock d hash n = Some b.

(** What a node needs to start: well-formed tables, a canonical genesis block and
    a recorded head block, both stored. *)
Record startable (d : D) (g b : Block) : Prop := {
  st_direct : direct abs inv d;
  st_wf : tables_wf d;
  st_genesis : block_at d (ReadCanonicalHash d 0) g;
  st_genesis_0 : ReadHeaderNumber d (ReadCanonicalHash d 0) = Some 0;
  st_head : block_at d (ReadHeadBlockHash d) b
}.

Lemma hc_coherent_New (d : D) cfg gh cur hash n1 n2 :
  hc_coherent view d (mkHeaderChain _ cfg gh cur hash (lru_New n1) (lru_New n2)).
Proof using LRULaws0.
  split; simpl; intros h x E; rewrite lru_New_view, lookup_empty in E; done.
Qed.

Lemma hc_coherent_caches (d : D) hc hc' :
  hc_headerCache hc' = hc_headerCache hc -> hc_numberCache hc' = hc_numberCache hc ->
  hc_coherent view d hc -> hc_coherent view d hc'.
Proof. intros E1 E2 [C1 C2]. split; [rewrite E1|rewrite E2]; done. Qed.

(** The header of a block that a hash names. *)
Lemma block_at_header (d : D) h b : tables_wf d -> block_at d h b ->
  read_by_hash d h = Some (header b) /\ Block_Header b = header b /\ Block_Hash b = h.
Proof.
  intros Hwf (_ & n & Hn & Hb). pose proof (ReadHeaderNumber_u64 d h n Hn) as Hu.
  destruct (ReadBlock_Hash d h n b Hwf Hu Hb) as (Hr & Hc & Hh).
  unfold read_by_hash. by rewrite Hn.
Qed.

(** The header chain comes up with the genesis block's header and the head's. *)
Lemma NewHeaderChain_starts (d : D) g b cfg : startable d g b ->
  exists hc, NewHeaderChain None d cfg = Ret (inl hc) /\ hc_coherent view d hc /\
    hc_genesisHeader hc = Some (header g) /\ hc_currentHeader hc = Some (Some (header b)).
Proof using LRULaws0.
  intros [Hd Hwf Hg Hg0 Hb]. unfold NewHeaderChain, GetHeaderByNumber.
  destruct (block_at_header d _ g Hwf Hg) as (Hgr & _ & _).
  destruct (block_at_header d _ b Hwf Hb) as (Hbr & _ & _).
  unfold read_by_hash in Hgr. rewrite Hg0 in Hgr.
  destruct Hg as (Hgz & _), Hb as (Hbz & _). rewrite decide_False by done.
  set (hc0 := mkHeaderChain _ cfg None None zeroHash _ _).
  destruct (GetHeader_spec view d hc0 (ReadCanonicalHash d 0) 0 (wf_index d Hwf)) as (C1 & _ & _ & E1);
    [done|apply hc_coherent_New|].
  specialize (E1 _ Hgr). destruct (GetHeader d hc0 (ReadCanonicalHash d 0) 0) as [hc1 gh].
  cbn [fst snd] in C1, E1. subst gh. cbn match. rewrite decide_False by done.
  set (hc2 := hc_set_current _ _ _).
  destruct (GetHeaderByHash_db view d hc2 (ReadHeadBlockHash d) (wf_index d Hwf)) as (C2 & S2 & E2).
  { by apply (hc_coherent_caches d hc1). }
  destruct (GetHeaderByHash d hc2 (ReadHeadBlockHash d)) as [hc3 ch]. cbn [fst snd] in C2, S2, E2.
  rewrite E2, Hbr. cbn [CurrentHeader hc_set_current hc_currentHeader gbind].
  eexists. split; [done|]. split; [by apply (hc_coherent_caches d hc3)|].
  split; [|done]. simpl. destruct S2 as (_ & -> & _). done.
Qed.

Lemma BC_GetHeaderByHash_spec (d : D) bc h : bc_db bc = d -> tables_wf d -> bc_coherent d bc ->
  exists bc', BC_GetHeaderByHash bc h = (bc', read_by_hash d h) /\
    bc_coherent d bc' /\ bc_heads bc' = bc_heads bc.
Proof using LRULaws0.
  intros Hdb Hwf [Ch Cb]. unfold BC_GetHeaderByHash. rewrite Hdb.
  destruct (GetHeaderByHash_db view d (bc_hc bc) h (wf_index d Hwf) Ch) as (C & (S1 & S2 & S3 & S4) & E).
  destruct (GetHeaderByHash d (bc_hc bc) h) as [hc hd]. simpl in *. subst hd.
  exists (set_hc bc hc). split_and!; [done|by split|]. unfold bc_heads. simpl. by rewrite S2, S3, S4.
Qed.

(** The choice of the head header in [loadLastState]. *)
Definition load_header (bc : BlockChain D) (b : Block) : BlockChain D * Header :=
  if decide (ReadHeadHeaderHash (bc_db bc) = zeroHash) then (bc, Block_Header b)
  else let (bc, h) := BC_GetHeaderByHash bc (ReadHeadHeaderHash (bc_db bc)) in
       (bc, default (Block_Header b) h).

Lemma load_header_spec (d : D) bc b : bc_db bc = d -> tables_wf d -> bc_coherent d bc ->
  exists bc', load_header bc b = (bc', head_header d b) /\
    bc_coherent d bc' /\ bc_heads bc' = bc_heads bc.
Proof using LRULaws0.
  intros Hdb Hwf Hc. unfold load_header, head_header. rewrite Hdb. case_decide; [by exists bc|].
  destruct (BC_GetHeaderByHash_spec d bc (ReadHeadHeaderHash d) Hdb Hwf Hc) as (bc' & -> & C & Hh).
  by exists bc'.
Qed.

(** The last step of [loadLastState]: the fast head. *)
Definition load_fast (bc : BlockChain D) : go (BlockChain D * option error) :=
  let head := ReadHeadFastBlockHash (bc_db bc) in
  if decide (head = zeroHash) then Ret (bc, None)
  else let (bc, block) := GetBlockByHash bc head in
       match block with
       | Some block => Ret (set_currentFastBlock bc block, None)
       | None => Ret (bc, None)
       end.

Lemma load_fast_spec (d : D) bc : bc_db bc = d -> tables_wf d -> bc_coherent d bc ->
  exists bc', load_fast bc = Ret (bc', None) /\ bc_coherent d bc' /\
    (forall b, bc_heads (set_currentFastBlock bc' b) = bc_heads (set_currentFastBlock bc b)) /\
    (ReadHeadFastBlockHash d = zeroHash -> bc_currentFastBlock bc' = bc_currentFastBlock bc) /\
    (forall f, block_at d (ReadHeadFastBlockHash d) f -> bc_currentFastBlock bc' = Some f).
Proof using LRULaws0.
  intros Hdb Hwf Hc. unfold load_fast. rewrite Hdb. case_decide as Hz.
  - exists bc. split_and!; try done. by intros f [? _].
  - destruct (GetBlockByHash_spec d bc (ReadHeadFastBlockHash d) Hdb Hwf Hc) as (C & Hh & E).
    destruct (GetBlockByHash bc (ReadHeadFastBlockHash d)) as [bc1 blk]. cbn [fst snd] in C, Hh, E.
    unfold bc_heads in Hh. injection Hh as F1 F2 F3 F4 F5 F6 F7 F8.
    destruct blk as [blk|]; eexists; (split; [done|]).
    + destruct C as [Ch Cb]. split_and!; [by split| |done|].
      * unfold bc_heads. cbn. congruence.
      * intros f (_ & n & Hn & Hb). specialize (E n f Hn Hb). by simplify_eq.
    + split_and!; [done| |done|].
      * unfold bc_heads. cbn. congruence.
      * intros f (_ & n & Hn & Hb). by specialize (E n f Hn Hb).
Qed.

(** [loadLastState] after its early returns. *)
Lemma loadLastState_head (bc : BlockChain D) b : ReadHeadBlockHash (bc_db bc) <> zeroHash ->
  (GetBlockByHash bc (ReadHeadBlockHash (bc_db bc))).2 = Some b ->
  loadLastState bc =
    let bc := set_currentBlock (GetBlockByHash bc (ReadHeadBlockHash (bc_db bc))).1 b in
    let (bc, h) := load_header bc b in
    load_fast (set_currentFastBlock (BC_SetCurrentHeader bc (Some h)) b).
Proof.
  intros Hz E. unfold loadLastState, load_header, load_fast. rewrite decide_False by done.
  destruct (GetBlockByHash bc (ReadHeadBlockHash (bc_db bc))) as [bc1 cur]. cbn [snd] in E. subst cur. done.
Qed.

(** [loadLastState] restores the head block; the only write is the head header. *)
Lemma loadLastState_restores (d : D) g b bc : startable d g b -> bc_db bc = d -> bc_coherent d bc ->
  exists bc', loadLastState bc = Ret (bc', None) /\ bc_coherent (bc_db bc') bc' /\
    bc_chainConfig bc' = bc_chainConfig bc /\ bc_genesisBlock bc' = bc_genesisBlock bc /\
    bc_currentBlock bc' = Some b /\
    hc_currentHeader (bc_hc bc') = Some (Some (head_header d b)) /\
    bc_db bc' = WriteHeadHeaderHash d (Header_Hash (head_header d b)) /\
    (ReadHeadFastBlockHash d = zeroHash -> bc_currentFastBlock bc' = Some b) /\
    (forall f, block_at d (ReadHeadFastBlockHash d) f -> bc_currentFastBlock bc' = Some f).
Proof using All.
  intros Hst Hdb Hc. pose proof Hst as [Hd Hwf _ _ Hb].
  destruct Hb as (Hbz & n & Hn & Hrb).
  destruct (GetBlockByHash_spec d bc (ReadHeadBlockHash d) Hdb Hwf Hc) as (C1 & H1' & E1).
  specialize (E1 n b Hn Hrb). rewrite (loadLastState_head bc b); [|by rewrite Hdb|by rewrite Hdb].
  rewrite Hdb. cbn zeta. set (bc1 := (GetBlockByHash bc (ReadHeadBlockHash d)).1) in *.
  unfold bc_heads in H1'. injection H1' as F1 F2 F3 F4 F5 F6 F7 F8. rewrite Hdb in F2.
  destruct (load_header_spec d (set_currentBlock bc1 b) b F2 Hwf) as (bc2 & -> & C2 & H2').
  { destruct C1 as [Ch Cb]. by split. }
  unfold bc_heads in H2'. injection H2' as G1 G2 G3 G4 G5 G6 G7 G8. cbn in G1, G2, G3, G4.
  set (hh := head_header d b) in *.
  unfold BC_SetCurrentHeader, SetCurrentHeader. cbn [Header_Hash_ptr]. rewrite G2, F2.
  set (d' := WriteHeadHeaderHash d (Header_Hash hh)).
  assert (Ht : tables_same d d') by (by apply (tables_same_put d KHeadHeader)).
  assert (Hf : ReadHeadFastBlockHash d' = ReadHeadFastBlockHash d).
  { destruct (direct_put abs inv d (key_of KHeadHeader) (arr (Header_Hash hh)) Hd) as [[[Hi' _] _] E].
    unfold ReadHeadFastBlockHash. destruct Hd as [[Hi _] _]. rewrite !(get_committed abs inv) by done.
    unfold d', WriteHeadHeaderHash. cbn [key_of] in E. rewrite E.
    change headHeaderKey with (key_of KHeadHeader). change headFastBlockKey with (key_of KHeadFastBlock). by key_lookup. }
  set (bc3 := set_currentFastBlock _ b).
  destruct (load_fast_spec d' bc3 eq_refl (tables_wf_same _ _ Ht Hwf)) as (bc' & -> & C4 & H4' & E4 & E4').
  { apply (bc_coherent_same _ _ _ Ht). destruct C2 as [Ch Cb]. split; [|done].
    by apply (hc_coherent_caches d (bc_hc bc2)). }
  specialize (H4' b). unfold bc_heads in H4'. cbn in H4'. injection H4' as K1 K2 K3 K4 K6 K7 K8.
  rewrite Hf in E4, E4'. exists bc'. rewrite K2. split_and!; try done; try congruence.
  intros f (Hz & m & Hm & Hmb). apply E4'. split; [done|]. exists m. destruct Ht as [Ht1 Ht2].
  rewrite Ht1. split; [done|]. by rewrite (proj2 (Ht2 _ m (ReadHeaderNumber_u64 d _ _ Hm))).
Qed.

(** A node comes back where it stopped: [NewBlockChain] returns a chain whose
    heads are the stored ones and whose caches agree with the disk, and changes
    nothing in the database but the record of the head header. *)
Lemma NewBlockChain_starts (d : D) g b cfg : startable d g b ->
  exists bc, NewBlockChain None d cfg = Ret (inl bc) /\
    bc_chainConfig bc = cfg /\ BlockChain.Genesis bc = Some g /\ BC_CurrentBlock bc = Ret b /\
    BC_CurrentHeader bc = Ret (Some (head_header d b)) /\
    (ReadHeadFastBlockHash d = zeroHash -> BC_CurrentFastBlock bc = Ret b) /\
    (forall f, block_at d (ReadHeadFastBlockHash d) f -> BC_CurrentFastBlock bc = Ret f) /\
    bc_coherent (bc_db bc) bc /\
    bc_db bc = WriteHeadHeaderHash d (Header_Hash (head_header d b)).
Proof using All.
  intros Hst. destruct (NewHeaderChain_starts d g b cfg Hst) as (hc & Ehc & Chc & _ & _).
  pose proof Hst as [Hd Hwf (Hgz & n & Hgn & Hgb) Hg0 _]. rewrite Hg0 in Hgn. injection Hgn as <-.
  unfold NewBlockChain. rewrite Ehc. cbn [gbind]. unfold GetBlockByNumber.
  set (bc0 := mkBlockChain _ _ _ _ _ _ _ _ _ _ _ _ _ _). change (bc_db bc0) with d.
  rewrite decide_False by done.
  destruct (GetBlock_spec d bc0 (ReadCanonicalHash d 0) 0) as (C1 & H1' & E1); [done|done|done| |].
  { split; [done|]. intros h x E. cbn in E. by rewrite lru_New_view, lookup_empty in E. }
  specialize (E1 g Hgb). destruct (GetBlock bc0 (ReadCanonicalHash d 0) 0) as [bc1 blk].
  cbn [fst snd] in C1, H1', E1. subst blk. unfold bc_heads in H1'. injection H1' as F1 F2 F3 F4 F5 F6 F7 F8.
  destruct (loadLastState_restores d g b (set_genesis bc1 (Some g)) Hst F2) as
    (bc & E & C & Hcfg & Hgen & Hcur & Hhd & Hdb & Hf1 & Hf2).
  { destruct C1 as [Ch Cb]. by split. }
  cbn match. rewrite E. cbn [gbind]. exists bc.
  unfold BC_CurrentBlock, BC_CurrentHeader, CurrentHeader, BC_CurrentFastBlock, BlockChain.Genesis.
  rewrite Hcfg, Hgen, Hcur, Hhd. split_and!; try done.
  - intros Hz. by rewrite (Hf1 Hz).
  - intros f Hf. by rewrite (Hf2 f Hf).
Qed.

(** * Storing a block *)

Section Stored.
Context `{!RlpLaws Header Header_ok} `{!RlpLaws rlpBody rlpBody_ok}.

(** The tables of [d'] are those of [d] with the block written. *)
Definition tables_with (d d' : D) (b : Block) (n : Z) : Prop :=
  forall k, key_ok k -> is_table k = true ->
    committed (abs d') !! key_of k =
      apply_wops (body_op b n :: header_ops (header b) n) (committed (abs d)) !! key_of k.

Lemma tables_with_reads (d d' : D) b n : inv d -> inv d' -> tables_with d d' b n -> is_u64 n ->
  Header_okb (header b) = true -> Block_Hash b = Header_Hash (header b) ->
  (forall h m, is_u64 m -> ReadHeader d' h m =
     if decide (h = Block_Hash b /\ m = n) then Some (header b) else ReadHeader d h m) /\
  (forall h, ReadHeaderNumber d' h = if decide (h = Block_Hash b) then Some n else ReadHeaderNumber d h) /\
  (forall h m, is_u64 m -> h <> Block_Hash b -> ReadBlock d' h m = ReadBlock d h m).
Proof using Type*.
  intros Hi Hi' Ht Hn Hok Hh. unfold tables_with, body_op, header_ops, apply_wops in Ht.
  cbn [fold_left apply_wop] in Ht. rewrite <- Hh in Ht.
  assert (HR : forall h m, is_u64 m -> ReadHeader d' h m =
     if decide (h = Block_Hash b /\ m = n) then Some (header b) else ReadHeader d h m).
  { intros h m Hm. pose proof (Ht (KHeader m h) Hm eq_refl) as E. case_decide as Heq.
    - destruct Heq as [-> ->]. rewrite Hh. apply (ReadHeader_written abs inv); [done|done|].
      rewrite Hh in E. rewrite E. by key_lookup.
    - unfold ReadHeader, ReadHeaderRLP. rewrite !(get_committed abs inv) by done.
      assert (KHeader n (Block_Hash b) <> KHeader m h) by (intros [= <- <-]; by apply Heq).
      revert E. key_lookup. cbn [key_of]. by intros ->. }
  split; [done|]. split.
  - intros h. pose proof (Ht (KHeaderNumber h) I eq_refl) as E. unfold ReadHeaderNumber.
    rewrite !(get_committed abs inv) by done. revert E. case_decide as Heq.
    + subst h. key_lookup. cbn [key_of]. intros ->. cbn [from_option id]. unfold encodeBlockNumber.
      rewrite length_be_put. cbn [Nat.eqb negb]. by rewrite be_val_put, Z.mod_small.
    + assert (KHeaderNumber (Block_Hash b) <> KHeaderNumber h) by congruence.
      key_lookup. cbn [key_of]. by intros ->.
  - intros h m Hm Hne. unfold ReadBlock. rewrite HR by done. rewrite decide_False by naive_solver.
    unfold ReadBody, ReadBodyRLP. pose proof (Ht (KBody m h) Hm eq_refl) as E.
    rewrite !(get_committed abs inv) by done.
    assert (KBody n (Block_Hash b) <> KBody m h) by congruence.
    revert E. key_lookup. cbn [key_of]. by intros ->.
Qed.

(** A block with a new hash written to well-formed tables: they stay well formed,
    the block reads back, and so does every block that was there. *)
Lemma tables_with_wf (d d' : D) b n ds : inv d -> inv d' -> tables_with d d' b n -> is_u64 n ->
  n <> 2 ^ 64 - 1 -> Number (header b) = Some n -> Header_okb (header b) = true ->
  body_decodes (tx_data <$> transactions b) ds -> Block_Hash b = Header_Hash (header b) ->
  tables_wf d -> ReadHeaderNumber d (Block_Hash b) = None ->
  tables_wf d' /\
  (forall h x, h <> Block_Hash b -> block_at d h x -> block_at d' h x) /\
  (Block_Hash b <> zeroHash -> exists b', block_at d' (Block_Hash b) b' /\
     header b' = header b /\ tx_data <$> transactions b' = ds).
Proof using Type*.
  intros Hi Hi' Ht Hn Hmax Hnum Hok Htxs Hh Hwf Hfresh.
  destruct (tables_with_reads d d' b n Hi Hi' Ht Hn Hok Hh) as (HR & HN & HB).
  assert (Hnone : forall m hd, is_u64 m -> ReadHeader d (Block_Hash b) m = Some hd -> False).
  { intros m hd Hm E. pose proof (wf_index d Hwf _ _ _ Hm E). congruence. }
  split_and!.
  - split.
    + intros m h hd Hm. rewrite HR by done. case_decide as Heq; [|by apply Hwf].
      destruct Heq as [-> ->]. intros [= <-]. by rewrite Hh.
    + intros h m hd Hm. rewrite HR by done. case_decide as Heq; [|by apply Hwf].
      intros [= <-]. intros E. unfold Header_okb in Hok. rewrite E, andb_false_r in Hok. done.
    + intros h m hd Hm. rewrite HR, HN by done. case_decide as Heq.
      * destruct Heq as [-> ->]. intros _. by rewrite decide_True.
      * case_decide as Heq2; [|by apply Hwf]. subst h. intros E. destruct (Hnone m hd Hm E).
  - intros h x Hne (Hz & m & Hm & Hx). split; [done|]. exists m.
    rewrite HN, decide_False by done. split; [done|].
    rewrite HB; [done|exact (ReadHeaderNumber_u64 d h m Hm)|done].
  - intros Hz. destruct (ReadBody_written abs inv d' b n ds Hi' Htxs) as (body & Eb & Hs).
    { unfold body_op. rewrite (Ht (KBody n (Block_Hash b)) Hn eq_refl).
      unfold body_op, header_ops, apply_wops. cbn [fold_left apply_wop]. by key_lookup. }
    exists (WithBody (NewBlockWithHeader (header b)) (Transactions body)). split; [|split; [|done]].
    + split; [done|]. exists n. rewrite HN, decide_True by done. split; [done|].
      unfold ReadBlock. rewrite HR, decide_True, Eb by done. done.
    + cbn. by rewrite !(CopyHeader_ok (header b)).
Qed.

(** * A fresh node *)

Section Fresh.
Context `{Params} `{Hexutil} `{Trie}.

(** The genesis block a specification describes. *)
Lemma ToBlock_total (g : Genesis) : exists b, ToBlock g = Ret b /\
  Number (header b) = Some (g_Number g) /\ Time (header b) = Some (g_Timestamp g) /\
  transactions b = [] /\ Block_Hash b = Header_Hash (header b).
Proof. eexists. split; [done|]. by split_and!. Qed.

Lemma Commit_db (g : Genesis) (d : D) b : direct abs inv d -> ToBlock g = Ret b ->
  g_Number g = 0 -> 0 <= g_Timestamp g ->
  exists d', Commit g d = Ret (d', Some (Block_Hash_store b), None) /\ direct abs inv d' /\
    committed (abs d') =
      <[key_of KHeadHeader := arr (Block_Hash b)]>
        (<[key_of KHeadBlock := arr (Block_Hash b)]>
           (<[key_of (KCanonical 0) := arr (Block_Hash b)]>
              (apply_wops (body_op b 0 :: header_ops (header b) 0) (committed (abs d))))).
Proof using Type*.
  intros Hd Eb Hnum Htime. destruct (ToBlock_total g) as (b' & Eb' & Hn & Ht & _ & _).
  rewrite Eb in Eb'. injection Eb' as <-. rewrite Hnum in Hn.
  assert (Hok : Header_okb (header b) = true).
  { unfold Header_okb. rewrite Hn, Ht. cbn [big_okb]. by apply Z.leb_le. }
  destruct (WriteBlock_abs abs inv d b 0 (proj1 Hd) Hok Hn) as (d1 & Ew & Hw1 & Ha); [done|].
  destruct (committed_writes (abs d) (body_op b 0 :: header_ops (header b) 0) (proj2 Hd)) as [Hp Hc].
  rewrite <- Ha in Hp, Hc. assert (Hd1 : direct abs inv d1) by done.
  unfold Commit. rewrite Eb. cbn [gbind]. unfold Block_Number, Block_NumberU64.
  rewrite Hn. cbn [deref gbind Z.eqb negb]. rewrite Ew. cbn [gbind].
  rewrite (Header_NumberU64_Some _ 0 Hn) by done. cbn [gbind].
  unfold WriteCanonicalHash, WriteHeadBlockHash, WriteHeadHeaderHash.
  destruct (direct_put abs inv d1 (key_of (KCanonical 0)) (arr (Block_Hash b)) Hd1) as [Hd2 E2].
  destruct (direct_put abs inv _ (key_of KHeadBlock) (arr (Block_Hash b)) Hd2) as [Hd3 E3].
  destruct (direct_put abs inv _ (key_of KHeadHeader) (arr (Block_Hash b)) Hd3) as [Hd4 E4].
  rewrite E3, E2, Hc in E4. eexists. split; [done|]. split; [exact Hd4|exact E4].
Qed.

(** The database [Commit] leaves on an empty one can be started from. *)
Lemma Commit_startable (g : Genesis) (d d' : D) b : direct abs inv d -> committed (abs d) = ∅ ->
  ToBlock g = Ret b -> g_Number g = 0 -> 0 <= g_Timestamp g -> Block_Hash b <> zeroHash ->
  Commit g d = Ret (d', Some (Block_Hash_store b), None) ->
  ReadCanonicalHash d' 0 = Block_Hash b /\ ReadHeadHeaderHash d' = Block_Hash b /\
  exists b', startable d' b' b' /\ header b' = header b /\ transactions b' = [].
Proof using Type*.
  intros Hd Hempty Eb Hnum Htime Hz Ec.
  destruct (Commit_db g d b Hd Eb Hnum Htime) as (d2 & Ec2 & Hd' & Hm). rewrite Ec in Ec2. injection Ec2 as <-.
  destruct (ToBlock_total g) as (b2 & Eb2 & Hn & Ht & Htxs & Hh).
  rewrite Eb in Eb2. injection Eb2 as <-. rewrite Hnum in Hn.
  assert (Hk0 : key_ok (KCanonical 0)) by done.
  assert (Hcan : ReadCanonicalHash d' 0 = Block_Hash b).
  { apply (read_hash_lookup abs inv d' (KCanonical 0)); [done|]. rewrite Hm. by key_lookup. }
  assert (Hhead : ReadHeadBlockHash d' = Block_Hash b).
  { apply (read_hash_lookup abs inv d' KHeadBlock); [done|]. rewrite Hm. by key_lookup. }
  assert (Hhh : ReadHeadHeaderHash d' = Block_Hash b).
  { apply (read_hash_lookup abs inv d' KHeadHeader); [done|]. rewrite Hm. by key_lookup. }
  split; [done|]. split; [done|].
  assert (Hget : forall k, get d k = []).
  { intros k. rewrite (get_committed abs inv), Hempty by apply Hd. done. }
  assert (Hnh : forall h n, ReadHeader d h n = None).
  { intros h n. unfold ReadHeader, ReadHeaderRLP. by rewrite Hget. }
  destruct (tables_with_wf d d' b 0 []) as (Hwf & _ & Hb'); try done; try apply Hd; try apply Hd'.
  - intros k Hk Htab. rewrite Hm. by rewrite !lookup_key_ne by (done || by intros <-).
  - unfold Header_okb. rewrite Hn, Ht. cbn [big_okb]. by apply Z.leb_le.
  - rewrite Htxs. by apply body_decodes_ok.
  - split; [intros n h hd _|intros h n hd _|intros h n hd _]; by rewrite Hnh.
  - unfold ReadHeaderNumber. by rewrite Hget.
  - destruct (Hb' Hz) as (b' & Hat & Hhd & Hs). exists b'.
    pose proof Hat as (_ & m & Hm0 & Hr). split_and!; [|done|].
    + split; rewrite ?Hcan, ?Hhead; try done.
      destruct (ReadBlock_Hash d' _ m b' Hwf (ReadHeaderNumber_u64 d' _ m Hm0) Hr) as (Hrh & _ & _).
      destruct (wf_headers d' Hwf _ _ _ (ReadHeaderNumber_u64 d' _ m Hm0) Hrh) as (E & _).
      rewrite Hhd, Hn in E. by injection E as <-.
    + by apply fmap_nil_inv in Hs.
Qed.

(** The specification a call of [SetupGenesisBlock] uses. *)
Definition genesis_used (genesis : option Genesis) (g : Genesis) : Prop :=
  match genesis with
  | Some g' => g' = g /\ g_Config g <> None
  | None => DefaultGenesisBlock = Ret g
  end.

Lemma config_present (genesis : option Genesis) g : genesis_used genesis g ->
  bool_decide (is_Some genesis /\ (genesis ≫= g_Config) = None) = false.
Proof. intros Hg. apply bool_decide_eq_false. destruct genesis as [g'|]; naive_solver. Qed.

(** [SetupGenesisBlock] on a database that holds a genesis block changes nothing
    and compares hashes. *)
Lemma SetupGenesisBlock_stored (d : D) genesis : ReadCanonicalHash d 0 <> zeroHash ->
  match genesis with
  | Some g => forall b, g_Config g <> None -> ToBlock g = Ret b ->
      SetupGenesisBlock d (Some g) =
        if decide (Block_Hash b = ReadCanonicalHash d 0)
        then Ret (d, (Some MainnetChainConfig, zeroHash, None))
        else Ret (d, (g_Config g, Block_Hash b, Some GenesisMismatchError))
  | None => SetupGenesisBlock d None = Ret (d, (Some MainnetChainConfig, zeroHash, None))
  end.
Proof.
  intros Hz. destruct genesis as [g|].
  - intros b Hc Eb. unfold SetupGenesisBlock.
    rewrite (config_present (Some g) g) by done. rewrite decide_False, Eb by done. done.
  - unfold SetupGenesisBlock. rewrite bool_decide_eq_false_2 by (intros [[? [=]] _]).
    by rewrite decide_False.
Qed.

(** C19. A node starts on an empty database and starts again on what it left:
    [SetupGenesisBlock] commits the genesis block (the given one, or the default)
    and reports its hash; [NewBlockChain] then comes up with that block as genesis
    and as head; calling [SetupGenesisBlock] again reports no error and writes
    nothing; and asking for a genesis block with another hash is refused. *)
Theorem fresh_node_starts (d : D) genesis g b cfg :
  direct abs inv d -> committed (abs d) = ∅ -> genesis_used genesis g ->
  g_Number g = 0 -> 0 <= g_Timestamp g -> ToBlock g = Ret b -> Block_Hash b <> zeroHash ->
  exists d', SetupGenesisBlock d genesis = Ret (d', (g_Config g, Block_Hash b, None)) /\
    (exists bc b', NewBlockChain None d' cfg = Ret (inl bc) /\
       header b' = header b /\ transactions b' = [] /\
       BlockChain.Genesis bc = Some b' /\ BC_CurrentBlock bc = Ret b' /\
       BC_CurrentHeader bc = Ret (Some (header b)) /\ startable d' b' b') /\
    SetupGenesisBlock d' genesis = Ret (d', (Some MainnetChainConfig, zeroHash, None)) /\
    (forall g2 b2, g_Config g2 <> None -> ToBlock g2 = Ret b2 -> Block_Hash b2 <> Block_Hash b ->
       SetupGenesisBlock d' (Some g2) =
         Ret (d', (g_Config g2, Block_Hash b2, Some GenesisMismatchError))).
Proof using All.
  intros Hd Hempty Hg Hnum Htime Eb Hz.
  destruct (Commit_db g d b Hd Eb Hnum Htime) as (d' & Ec & Hd' & _). exists d'.
  destruct (Commit_startable g d d' b Hd Hempty Eb Hnum Htime Hz Ec) as (Hcan & Hhh & b' & Hst & Hhd & Htx).
  assert (Hz' : ReadCanonicalHash d' 0 <> zeroHash) by (by rewrite Hcan).
  split_and!.
  - unfold SetupGenesisBlock. rewrite (config_present _ g) by done.
    assert (E0 : ReadCanonicalHash d 0 = zeroHash).
    { unfold ReadCanonicalHash. rewrite (get_committed abs inv), Hempty by apply Hd. done. }
    rewrite E0, decide_True by done.
    assert (Eg : match genesis with Some g => Ret g | None => DefaultGenesisBlock end = Ret g).
    { destruct genesis as [g'|]; [by destruct Hg as [-> _]|done]. }
    rewrite Eg. cbn [gbind]. rewrite Ec. done.
  - destruct (NewBlockChain_starts d' b' b' cfg Hst) as (bc & E & _ & Eg & Ecur & Ehd & _).
    exists bc, b'. split_and!; try done. rewrite Ehd. do 2 f_equal.
    destruct (block_at_header d' _ b' (st_wf _ _ _ Hst) (st_genesis _ _ _ Hst)) as (Hr & _ & _).
    unfold head_header. rewrite Hhh, decide_False, <- Hcan, Hr by done. done.
  - destruct genesis as [g'|]; [|by apply (SetupGenesisBlock_stored d' None)].
    destruct Hg as [-> Hc]. rewrite (SetupGenesisBlock_stored d' (Some g) Hz' b Hc Eb).
    by rewrite decide_True.
  - intros g2 b2 Hc2 Eb2 Hne. rewrite (SetupGenesisBlock_stored d' (Some g2) Hz' b2 Hc2 Eb2).
    rewrite decide_False; [done|]. by rewrite Hcan.
Qed.
End Fresh.
End Stored.
End Restart.
