(* ===== verification/Recovery.v ===== *)
(** The operator after a restart: a block the operator wrote in a database
    transaction is the head of the chain a new process loads, the ledger is the
    one it committed, and the numbering of blocks goes on from there. *)

From S2P Require Import Prelude Deps Types Signing Store Schema RawDB Utxo Validation HeaderChain.
From S2P Require Import BlockChain TxPool RootChain Operator Conservation Genesis Restart.
#[local] Open Scope Z_scope.

(** * The UTXO update leaves the other tables alone *)

Definition is_utxo (k : dbkey) : bool := match k with KUtxo _ => true | _ => false end.

(** [encodeBlockNumber] and [PutUint32] keep the low bits: every UTXO key is the
    key of an id in range. *)
Lemma be_put_mod n z : be_put n (z mod 256 ^ Z.of_nat n) = be_put n z.
Proof.
  revert z. induction n as [|n IH]; intros z; [done|]. unfold be_put; fold be_put.
  rewrite Nat2Z.inj_succ, Z.pow_succ_r by lia. f_equal.
  - rewrite Z.rem_mul_r by lia. rewrite (Z.add_comm (z mod 256)), (Z.mul_comm 256), Z.div_add_l by lia.
    rewrite (Z.div_small (z mod 256)) by (apply Z.mod_pos_bound; lia). rewrite Z.add_0_r. apply IH.
  - f_equal. unfold byte_of. rewrite Z.rem_mul_r, Z.mul_comm by lia.
    by rewrite Z.mod_add, Z.mod_mod by lia.
Qed.

Lemma utxoKey_norm b t o :
  utxoKey b t o = key_of (KUtxo (mkUTXOID (u64 b) (u32 t) o)).
Proof.
  cbn [key_of BlockNum TxIndex OutIndex]. rewrite !utxoKey_layout. unfold u64, u32.
  by rewrite <- (be_put_mod 8 b), <- (be_put_mod 4 t).
Qed.

Lemma utxoKey_ne b t o k : key_ok k -> is_utxo k = false -> utxoKey b t o <> key_of k.
Proof.
  intros Hk Hu. rewrite utxoKey_norm. apply key_ne; [|done|by intros <-].
  split; [apply u64_range|apply Z.mod_pos_bound; cbn; lia].
Qed.

Section Recovery.
Context {D G : Type} `{LRU} (view : forall V, lru V -> gmap Hash V) `{!LRULaws view}
  `{EthCommon} `{!EthCommonLaws} `{Crypto} `{!Signer G} `{Copier} `{!CopierLaws}
  `{Trie} `{Rlp txdata} `{Rlp Header} `{Rlp rlpBody} `{Rlp Z} `{Rlp extblock} `{RlpStream} `{Database D}
  (abs : D -> txstore) (inv : D -> Prop) `{!DatabaseSpec D abs inv}
  `{!RlpLaws Header Header_ok} `{!RlpLaws rlpBody rlpBody_ok} `{!RlpNilLaws}.

(** [d'] is in the same transaction as [d], with the same pending content outside
    the UTXO table. *)
Definition utxo_only (m0 : gmap bytes bytes) (d d' : D) : Prop :=
  in_tx abs inv m0 d' /\
  forall k, key_ok k -> is_utxo k = false ->
    eventual (abs d') !! key_of k = eventual (abs d) !! key_of k.

Lemma utxo_only_Put m0 d d' b t o v : utxo_only m0 d d' ->
  utxo_only m0 d (db_Put d' (utxoKey b t o) v).1.
Proof.
  intros [Htx Hk]. destruct (in_tx_Put abs inv m0 d' (utxoKey b t o) v Htx) as (_ & Htx' & E).
  split; [done|]. intros k Hok Hu. rewrite E. cbn [apply_wop].
  rewrite lookup_insert_ne by (by apply utxoKey_ne). by apply Hk.
Qed.

Lemma utxo_only_Delete m0 d d' b t o : utxo_only m0 d d' ->
  utxo_only m0 d (db_Delete d' (utxoKey b t o)).1.
Proof.
  intros [Htx Hk]. destruct (in_tx_Delete abs inv m0 d' (utxoKey b t o) Htx) as (_ & Htx' & E).
  split; [done|]. intros k Hok Hu. rewrite E. cbn [apply_wop].
  rewrite lookup_delete_ne by (by apply utxoKey_ne). by apply Hk.
Qed.

(** Both loops over the inputs delete UTXO records only. *)
Definition utxo_del (del : D -> option UTXO -> go (D * option error)) : Prop :=
  forall m0 d d1 i d2 e, utxo_only m0 d d1 -> del d1 i = Ret (d2, e) -> utxo_only m0 d d2.

Lemma del_input_utxo : utxo_del del_input.
Proof.
  intros m0 d d1 i d2 e Hs Ei. unfold del_input in Ei. apply gbind_Ret in Ei as [x [_ Ei]].
  injection Ei as Ei. apply (f_equal fst) in Ei. cbn in Ei. subst d2. by apply utxo_only_Delete.
Qed.

Lemma del_input_lax_utxo : utxo_del del_input_lax.
Proof.
  intros m0 d d1 i d2 e Hs Ei. unfold del_input_lax in Ei. apply gbind_Ret in Ei as [x [_ Ei]].
  injection Ei as Ei _. cbn in Ei. subst d2. by apply utxo_only_Delete.
Qed.

Lemma apply_tx_utxo_only del m0 d block d1 p d2 e : utxo_del del -> utxo_only m0 d d1 ->
  apply_tx del block d1 p = Ret (d2, e) -> utxo_only m0 d d2.
Proof.
  intros Hdel Hd. destruct p as [k tx]. unfold apply_tx. intros E. apply gbind_Ret in E as [[d3 e3] [E3 E]].
  assert (Hd3 : utxo_only m0 d d3).
  { eapply (eloop_invariant (utxo_only m0 d)); [|exact Hd|exact E3].
    intros s i s' e' Hs Ei. by eapply Hdel. }
  destruct e3; [by simplify_eq|]. apply gbind_Ret in E as [num [_ E]].
  eapply (eloop_invariant (utxo_only m0 d)); [|exact Hd3|exact E].
  intros s i s' e' Hs Ei. unfold put_output in Ei. apply gbind_Ret in Ei as [out [_ Ei]].
  cbn [utxo_Put UTXOSet_UtxoReaderWriter] in Ei. unfold UTXOSet_Put, WriteUTXO in Ei.
  apply gbind_Ret in Ei as [am [_ Ei]]. injection Ei as Ei. apply (f_equal fst) in Ei. cbn in Ei. subst s'.
  by apply utxo_only_Put.
Qed.

Lemma apply_block_utxo_only del m0 d block d' e : utxo_del del -> in_tx abs inv m0 d ->
  apply_block del d block = Ret (d', e) -> utxo_only m0 d d'.
Proof.
  intros Hdel Hd E. eapply (eloop_invariant (utxo_only m0 d)); [|by split|exact E].
  intros s p s' e' Hs Ep. by eapply apply_tx_utxo_only.
Qed.

(** * The writes of a block's transaction *)

Definition moved (d : D) (block : Block) (n : Z) : bool :=
  negb (bool_decide (ReadCanonicalHash d n = Block_Hash block)).

(** Everything but the UTXO update: the block, and the head if it moves. *)
Definition chain_ops (d : D) (block : Block) (n : Z) : list wop :=
  body_op block n :: header_ops (header block) n ++ insert_ops (moved d block n) block n.
Definition block_ops (cn : Z) (d : D) (block : Block) (n : Z) : list wop :=
  if cn <? n then chain_ops d block n else body_op block n :: header_ops (header block) n.

Lemma ReadCanonicalHash_in_tx m0 d d' n : in_tx abs inv m0 d' -> inv d -> committed (abs d) = m0 ->
  ReadCanonicalHash d' n = ReadCanonicalHash d n.
Proof.
  intros [Hi' _ Hc'] Hi Hc. unfold ReadCanonicalHash.
  rewrite !(get_committed abs inv) by done. by rewrite Hc', Hc.
Qed.

(** The first half of [start_block]: the block is in the transaction. *)
Lemma stored_in_tx signer (bc : BlockChain D) block n bc1 :
  ready abs inv bc -> block_ok signer block n ->
  (if negb (bool_decide (n mod 1000 = 0)) then WriteDepositBlock (begun bc) block
   else BC_WriteBlock (chain_ValidateBody signer) (begun bc) block) = Ret (bc1, None) ->
  writable abs inv (bc_db bc1) /\ bc_currentBlock bc1 = bc_currentBlock bc /\
  in_tx abs inv (committed (abs (bc_db bc))) (bc_db bc1) /\
  abs (bc_db bc1) = ts_writes (abs (bc_db (begun bc))) (body_op block n :: header_ops (header block) n).
Proof.
  intros Hr Hok E. destruct (begun_in_tx abs inv bc Hr) as (_ & Htx & _ & Hus & _).
  pose proof (block_number_u64 _ _ _ Hok) as Hu.
  destruct (WriteBlock_abs abs inv (bc_db (begun bc)) block n) as (d' & Ew & Hw & Ha);
    [by eapply in_tx_writable|apply Hok|apply Hok|done|].
  destruct (WriteBlock_quiet abs inv _ (bc_db (begun bc)) block n Htx) as (d2 & Ew2 & Hq & _);
    [apply Hok|apply Hok|done|]. rewrite Ew in Ew2. injection Ew2 as <-.
  case_bool_decide as Hm; cbn [negb] in E.
  - unfold BC_WriteBlock in E.
    destruct (chain_ValidateBody_spec abs inv signer (begun bc) block n Hus Hok Hm) as (bc2 & e & Ev & Ed & Ec & _).
    rewrite Ev in E. cbn [gbind] in E. destruct e as [e|]; [done|]. rewrite Ed, Ew in E. cbn [gbind] in E.
    injection E as <-. by split_and!.
  - unfold WriteDepositBlock in E. rewrite Ew in E. cbn [gbind] in E. injection E as <-. by split_and!.
Qed.

Lemma start_block_writes signer (bc : BlockChain D) block n cur cn bc' :
  ready abs inv bc -> block_ok signer block n -> bc_currentBlock bc = Some cur ->
  Number (header cur) = Some cn -> start_block signer bc block = Ret (bc', None) ->
  in_tx abs inv (committed (abs (bc_db bc))) (bc_db bc') /\
  eventual (abs (bc_db bc')) = apply_wops (block_ops cn (bc_db bc) block n) (committed (abs (bc_db bc))).
Proof.
  intros Hr Hok Hcur Hcn E. destruct (begun_in_tx abs inv bc Hr) as (Hb & Htx & Hev & Hus & _).
  pose proof (block_number_u64 _ _ _ Hok) as Hu. unfold start_block in E.
  destruct (db_BeginTx (bc_db bc)) as [d1 b1] eqn:Eb. cbn [snd] in Hb. subst b1. cbn [negb] in E.
  replace (set_db bc d1) with (begun bc) in E by (unfold begun; by rewrite Eb).
  unfold Block_Header in E. rewrite CopyHeader_ok in E by apply Hok. rewrite (blk_number _ _ _ Hok) in E.
  cbn [deref gbind] in E. rewrite number_rem in E by apply Hok.
  apply gbind_Ret in E as [[bc1 e1] [E1 E]]. destruct e1 as [e1|]; [done|].
  destruct (stored_in_tx signer bc block n bc1 Hr Hok E1) as (Hw1 & Hc1 & Htx1 & Ha1).
  unfold BC_CurrentBlock in E. rewrite Hc1, Hcur in E. cbn [gbind] in E.
  unfold Block_Number in E. rewrite Hcn in E. cbn [deref gbind] in E. unfold block_ops.
  destruct (cn <? n).
  2: { cbn [gbind] in E. injection E as <-. split; [done|]. by rewrite Ha1, eventual_writes, Hev. }
  destruct (insert_abs abs inv bc1 block n Hw1 (blk_number _ _ _ Hok) Hu) as (bc2 & E2 & Hw2 & _ & Ha2 & _).
  destruct (insert_quiet abs inv _ bc1 block n Htx1 (blk_number _ _ _ Hok) Hu) as (bc3 & E3 & Hq & _).
  unfold ReplaceHead in E, E3. rewrite E2 in E, E3. cbn [gbind] in E. injection E as <-. injection E3 as <-.
  split; [apply Hq|]. rewrite Ha2, eventual_writes, Ha1, eventual_writes, Hev.
  rewrite (ReadCanonicalHash_in_tx _ (bc_db bc) _ n Htx1 (ready_inv _ _ _ Hr) eq_refl).
  unfold chain_ops. rewrite app_comm_cons, apply_wops_app. done.
Qed.

(** When both halves of a worker's [WriteBlock] succeed these writes are
    committed, with the UTXO update. *)
Lemma chain_write_committed del signer (bc bc1 bc2 : BlockChain D) block n cur cn :
  utxo_del del -> ready abs inv bc -> block_ok signer block n -> bc_currentBlock bc = Some cur ->
  Number (header cur) = Some cn -> start_block signer bc block = Ret (bc1, None) ->
  finish_block del bc1 block = Ret (bc2, None) ->
  inv (bc_db bc2) /\ pending (abs (bc_db bc2)) = None /\
  forall k, key_ok k -> is_utxo k = false ->
    committed (abs (bc_db bc2)) !! key_of k =
      apply_wops (block_ops cn (bc_db bc) block n) (committed (abs (bc_db bc))) !! key_of k.
Proof.
  intros Hdel Hr Hok Hcur Hcn E1 E2.
  destruct (start_block_writes signer _ block n cur cn bc1 Hr Hok Hcur Hcn E1) as [Htx Hev].
  unfold finish_block in E2. apply gbind_Ret in E2 as [[d3 e3] [E3 E2]]. destruct e3; [done|].
  destruct (apply_block_utxo_only _ _ _ _ _ _ Hdel Htx E3) as [Htx3 Hk]. cbn [bc_db set_db] in E2.
  destruct (spec_CommitTx d3 (in_tx_inv _ _ _ _ Htx3)) as [Hi Hc].
  destruct (in_tx_open _ _ _ _ Htx3) as [ops Ho]. rewrite Ho in Hc.
  destruct (db_CommitTx d3) as [d4 [e|]] eqn:Ec; [done|]. cbn [fst snd] in *. injection E2 as <-.
  cbn [bc_db set_db]. rewrite Hc. cbn [pending committed]. split_and!; [done|done|].
  intros k Hkok Hu. by rewrite Hk, Hev.
Qed.

Lemma WriteBlock_committed signer (o o' : Operator D G) block n cur cn :
  ready abs inv (op_chain o) -> block_ok signer block n -> bc_currentBlock (op_chain o) = Some cur ->
  Number (header cur) = Some cn -> cn < n -> WriteBlock signer o block = Ret (o', None) ->
  inv (bc_db (op_chain o')) /\ pending (abs (bc_db (op_chain o'))) = None /\
  forall k, key_ok k -> is_utxo k = false ->
    committed (abs (bc_db (op_chain o'))) !! key_of k =
      apply_wops (chain_ops (bc_db (op_chain o)) block n) (committed (abs (bc_db (op_chain o)))) !! key_of k.
Proof.
  intros Hr Hok Hcur Hcn Hlt E. unfold WriteBlock in E.
  apply gbind_Ret in E as [[bc1 e1] [E1 E]]. destruct e1 as [e1|]; [done|].
  apply gbind_Ret in E as [ch [_ E]]. cbn [op_chain op_set_newBlockCh op_set_chain] in E.
  apply gbind_Ret in E as [[bc2 e2] [E2 E]]. injection E as <- ->. cbn [op_chain op_set_chain].
  pose proof (chain_write_committed del_input signer _ bc1 bc2 block n cur cn del_input_utxo Hr Hok Hcur Hcn E1 E2) as Hc.
  unfold block_ops in Hc. by rewrite (proj2 (Z.ltb_lt cn n) Hlt) in Hc.
Qed.

(** * Restarting *)

(** A block the database has not seen. *)
Record new_block (d : D) (block : Block) (n : Z) : Prop := {
  nb_hash : Block_Hash block = Header_Hash (header block);
  nb_nonzero : Block_Hash block <> zeroHash;
  nb_unknown : ReadHeaderNumber d (Block_Hash block) = None;
  nb_canonical : ReadCanonicalHash d n <> Block_Hash block
}.

(** The database a successful [WriteBlock] leaves can be started from. *)
Lemma WriteBlock_startable signer (o o' : Operator D G) block n cur cn g b :
  startable abs inv (bc_db (op_chain o)) g b -> ready abs inv (op_chain o) -> block_ok signer block n ->
  forallb txdata_okb (fill_txdata <$> (tx_data <$> transactions block)) = true -> new_block (bc_db (op_chain o)) block n ->
  bc_currentBlock (op_chain o) = Some cur -> Number (header cur) = Some cn -> cn < n ->
  WriteBlock signer o block = Ret (o', None) ->
  exists b', startable abs inv (bc_db (op_chain o')) g b' /\
    header b' = header block /\ tx_data <$> transactions b' = fill_txdata <$> (tx_data <$> transactions block) /\
    ReadHeadBlockHash (bc_db (op_chain o')) = Block_Hash block /\
    ReadHeadHeaderHash (bc_db (op_chain o')) = Block_Hash block.
Proof using All.
  intros [Hd Hwf Hg Hg0 _] Hr Hok Htxs [Hh Hz Hun Hcan] Hcur Hcn Hlt E.
  destruct (WriteBlock_committed signer o o' block n cur cn Hr Hok Hcur Hcn Hlt E) as (Hi' & Hp' & Hm).
  set (d := bc_db (op_chain o)) in *. set (d' := bc_db (op_chain o')) in *.
  pose proof (block_number_u64 _ _ _ Hok) as Hu. pose proof (blk_range _ _ _ Hok) as Hn.
  assert (Hd' : direct abs inv d').
  { split; [|done]. split; [done|]. right. destruct Hd as [[_ [Ho|Ho]] Hp]; [|exact Ho].
    rewrite Hp in Ho. by destruct Ho. }
  assert (Em : moved d block n = true) by (unfold moved; by rewrite bool_decide_false).
  unfold chain_ops, insert_ops in Hm. rewrite Em, app_comm_cons in Hm. setoid_rewrite apply_wops_app in Hm.
  set (m1 := apply_wops (body_op block n :: header_ops (header block) n) (committed (abs d))) in *.
  cbn [apply_wops fold_left apply_wop] in Hm.
  assert (Hkn : key_ok (KCanonical n)) by done.
  assert (Htw : tables_with abs d d' block n).
  { intros k Hk Ht. rewrite Hm by (destruct k; done). by rewrite !lookup_key_ne by (done || by intros <-). }
  destruct (tables_with_wf abs inv d d' block n _ (proj1 (proj1 Hd)) Hi' Htw Hu ltac:(lia) (blk_number _ _ _ Hok)
    (blk_header _ _ _ Hok) (body_decodes_fill _ Htxs) Hh Hwf Hun) as (Hwf' & Hold & Hnew).
  destruct (Hnew Hz) as (b' & Hb' & Hhd & Hs). exists b'.
  assert (Hhead : ReadHeadBlockHash d' = Block_Hash block).
  { apply (read_hash_lookup abs inv d' KHeadBlock); [done|]. rewrite Hm by done. by key_lookup. }
  assert (Hhh : ReadHeadHeaderHash d' = Block_Hash block).
  { apply (read_hash_lookup abs inv d' KHeadHeader); [done|]. rewrite Hm by done.
    key_lookup. unfold Block_Header. by rewrite CopyHeader_ok, Hh by apply Hok. }
  assert (Hc0 : ReadCanonicalHash d' 0 = ReadCanonicalHash d 0).
  { apply (canonical_other abs inv); [done|done|]. assert (Hk0 : key_ok (KCanonical 0)) by done.
    rewrite Hm by done. assert (KCanonical n <> KCanonical 0) by (intros [=]; lia).
    unfold m1, body_op, header_ops, apply_wops. cbn [fold_left apply_wop]. by key_lookup. }
  assert (Hgne : ReadCanonicalHash d 0 <> Block_Hash block) by (intros Ex; rewrite Ex in Hg0; congruence).
  pose proof (Hold _ _ Hgne Hg) as Hg'.
  split_and!; try done. split; rewrite ?Hc0, ?Hhead; try done.
  destruct (tables_with_reads abs inv d d' block n) as (_ & HN & _); try done; try apply Hok; try apply Hd.
  by rewrite HN, decide_False.
Qed.

Lemma WriteBlock_ledger signer (o o' : Operator D G) block n :
  ready abs inv (op_chain o) -> block_ok signer block n -> WriteBlock signer o block = Ret (o', None) ->
  chain_ledger abs (op_chain o') = ledger_block n (transactions block) (chain_ledger abs (op_chain o)).
Proof.
  intros Hr Hok E. destruct (op_newBlockCh o) as [sent|] eqn:Ech.
  - destruct (WriteBlock_spec abs inv signer o block n sent Hr Hok Ech) as (o2 & e & E2 & _ & _ & _ & _ & _ & _ & Hm).
    rewrite E in E2. injection E2 as <- <-. apply Hm.
  - unfold WriteBlock in E. apply gbind_Ret in E as [[bc1 [e1|]] [_ E]]; [done|].
    cbn [op_newBlockCh op_set_chain] in E. rewrite Ech in E. done.
Qed.

(** [NewOperator] counts from the head header's number. *)
Lemma NewOperator_child `{!IcstChain} (bc : BlockChain D) (pool : TxPool G) key h n :
  BC_CurrentHeader bc = Ret (Some h) -> Number h = Some n -> is_u64 n ->
  exists o : Operator D G, NewOperator bc pool key = Ret o /\ op_currentChildBlock o = n / 1000 * 1000.
Proof.
  intros Hh Hn Hu. unfold NewOperator. rewrite Hh. cbn [gbind deref].
  rewrite (Header_NumberU64_Some _ _ Hn Hu). cbn [gbind]. by eexists.
Qed.

(** C17. The operator survives a restart. When it has written a block above its
    head, in one transaction with the UTXO update, a process started on the
    database comes up with the same genesis block, with that block (its header, and
    its transactions with zeros for the integers that were nil) as head block and its header as head header, and with the ledger
    that was committed; a new operator on that chain counts its blocks from the
    last multiple of 1000 not above the block; and the database can be written and
    restarted from again. *)
Theorem operator_restart `{!IcstChain} signer (o o' : Operator D G) block n cur cn g b cfg
    (pool : TxPool G) key :
  startable abs inv (bc_db (op_chain o)) g b -> ready abs inv (op_chain o) -> block_ok signer block n ->
  forallb txdata_okb (fill_txdata <$> (tx_data <$> transactions block)) = true -> new_block (bc_db (op_chain o)) block n ->
  bc_currentBlock (op_chain o) = Some cur -> Number (header cur) = Some cn -> cn < n ->
  WriteBlock signer o block = Ret (o', None) ->
  exists bc b', NewBlockChain None (bc_db (op_chain o')) cfg = Ret (inl bc) /\
    BlockChain.Genesis bc = Some g /\ BC_CurrentBlock bc = Ret b' /\
    header b' = header block /\ tx_data <$> transactions b' = fill_txdata <$> (tx_data <$> transactions block) /\
    BC_CurrentHeader bc = Ret (Some (header block)) /\
    chain_ledger abs bc = ledger_block n (transactions block) (chain_ledger abs (op_chain o)) /\
    startable abs inv (bc_db (op_chain o')) g b' /\
    exists o2 : Operator D G, NewOperator bc pool key = Ret o2 /\ op_currentChildBlock o2 = n / 1000 * 1000.
Proof using All.
  intros Hst Hr Hok Htxs Hnb Hcur Hcn Hlt E.
  destruct (WriteBlock_startable signer o o' block n cur cn g b Hst Hr Hok Htxs Hnb Hcur Hcn Hlt E)
    as (b' & Hst' & Hhd & Hs & Hhead & Hhh).
  destruct (NewBlockChain_starts view abs inv _ g b' cfg Hst') as (bc & Ebc & _ & Hg & Hc & Hh & _ & _ & _ & Hdb).
  assert (Ehh : head_header (bc_db (op_chain o')) b' = header block).
  { unfold head_header. rewrite Hhh, decide_False by apply Hnb.
    pose proof (st_head _ _ _ _ _ Hst') as Hat. rewrite Hhead in Hat.
    destruct (block_at_header _ _ b' (st_wf _ _ _ _ _ Hst') Hat) as (Hrd & _ & _). by rewrite Hrd. }
  rewrite Ehh in Hh, Hdb. exists bc, b'. rewrite Hh. split_and!; try done.
  - rewrite <- (WriteBlock_ledger signer o o' block n Hr Hok E). unfold chain_ledger. rewrite Hdb.
    destruct (direct_put abs inv _ (key_of KHeadHeader) (arr (Header_Hash (header block))) (st_direct _ _ _ _ _ Hst'))
      as [_ Em]. unfold WriteHeadHeaderHash. cbn [key_of] in Em. rewrite Em. by apply (ledger_other _ KHeadHeader).
  - apply (NewOperator_child bc pool key (header block)); [done|apply Hok|by eapply block_number_u64].
Qed.
End Recovery.
