(* ===== verification/Network.v ===== *)
(** network/p2p.go and network/p2phandlers: what a node remembers of its peers,
    and the gossip and download of transactions and blocks. libp2p, the sets of
    gopkg.in/fatih/set and the order in which Go ranges over a map are arguments;
    a message sent is recorded in the host. *)

From S2P Require Import Prelude Deps Types RootChain.
#[local] Open Scope Z_scope.

(** [ipeer.ID] is a string. *)
Abbreviation PeerID := string (only parsing).

(** gopkg.in/fatih/set, with hashes as elements; [Pop]'s item is not used. *)
Class HashSet : Type := {
  hset : Type;
  hset_New : hset;
  hset_Has : hset -> Hash -> bool;
  hset_Size : hset -> Z;
  hset_Add : hset -> Hash -> hset;
  hset_Pop : hset -> hset
}.

(** Its documentation: a finite set; [Pop] deletes an item, any one. *)
Class HashSetLaws `{HashSet} (view : hset -> gset Hash) : Prop := {
  hset_New_view : view hset_New = ∅;
  hset_Has_view s h : hset_Has s h = bool_decide (h ∈ view s);
  hset_Size_view s : hset_Size s = Z.of_nat (size (view s));
  hset_Add_view s h : view (hset_Add s h) = {[ h ]} ∪ view s;
  hset_Pop_view s : view s <> ∅ -> exists x, x ∈ view s /\ view (hset_Pop s) = view s ∖ {[ x ]}
}.

(** [for k, v := range m]: some order of the entries. *)
Class GoRange : Type := { go_range : forall {A : Type}, list A -> list A }.
Class GoRangeLaws `{GoRange} : Prop := {
  go_range_perm {A} (l : list A) : go_range l ≡ₚ l
}.

(** What the network answers during a call: opening a stream of a protocol to a
    peer, writing a message on it, reading the reply. *)
Record Net : Type := mkNet {
  net_NewStream : string -> PeerID -> option error;
  net_WriteMsg : string -> PeerID -> bytes -> option error;
  net_ReadMsg : string -> PeerID -> bytes -> bytes * option error
}.

Definition maxKnownTxs : Z := 32768.
Definition maxKnownBlocks : Z := 1000.

Record RemotePeerCache `{HashSet} : Type := mkRemotePeerCache {
  pc_peerid : PeerID;
  pc_KnownTxs : hset;
  pc_KnownBlock : hset
}.

(** [lh_sent] is what was written on streams: protocol, peer, message. *)
Record P2PLocalHost `{HashSet} : Type := mkP2PLocalHost {
  lh_Port : Z;
  lh_RemotePeerCaches : gmap PeerID RemotePeerCache;
  lh_sent : list (string * PeerID * bytes)
}.

Section Host.
Context `{HashSet} `{GoRange}.

Definition set_caches (lh : P2PLocalHost) (m : gmap PeerID RemotePeerCache) : P2PLocalHost :=
  mkP2PLocalHost _ (lh_Port lh) m (lh_sent lh).
Definition log_sent (lh : P2PLocalHost) (proto : string) (peerid : PeerID) (msg : bytes) : P2PLocalHost :=
  mkP2PLocalHost _ (lh_Port lh) (lh_RemotePeerCaches lh) (lh_sent lh ++ [(proto, peerid, msg)]).

(** [bootstrapConnect]: the parse error of an address is dropped, and the nil
    result dereferenced; a failed connection is printed. The peers connected to. *)
Definition bootstrapConnect (InfoFromP2pAddr : string -> option PeerID) (Connect : PeerID -> option error)
    (bootstrapPeers : list string) : go (list PeerID) :=
  gfold (fun connected peerAddr =>
           let! peerinfo := deref (InfoFromP2pAddr peerAddr) in
           Ret match Connect peerinfo with
               | Some _ => connected
               | None => connected ++ [peerinfo]
               end) [] bootstrapPeers.

(** [startP2P]: a host without peers; a host that cannot be made ends the process. *)
Definition startP2P (makeRoutedHost : Z -> option error) (port : Z) : go P2PLocalHost :=
  match makeRoutedHost port with
  | Some _ => Stop Fatal
  | None => Ret (mkP2PLocalHost _ port ∅ [])
  end.

(** [connectHandler]: a peer that connects again starts with empty sets. *)
Definition connectHandler (lh : P2PLocalHost) (peerid : PeerID) : P2PLocalHost :=
  set_caches lh (<[peerid := mkRemotePeerCache _ peerid hset_New hset_New]> (lh_RemotePeerCaches lh)).

(** * Messages; [data] is [rlp.EncodeToBytes] of the argument *)

Definition SendMsg (net : Net) (lh : P2PLocalHost) (proto : string) (peerid : PeerID) (data : option bytes)
  : go (P2PLocalHost * option error) :=
  match data with
  | None => Ret (lh, Some (ErrMsg "rlp"))
  | Some bytes =>
      match net_NewStream net proto peerid with
      | Some _ => Stop Fatal
      | None =>
          match net_WriteMsg net proto peerid bytes with
          | Some err => Ret (lh, Some err)
          | None => Ret (log_sent lh proto peerid bytes, None)
          end
      end
  end.

Definition Request (net : Net) (lh : P2PLocalHost) (proto : string) (peerid : PeerID) (data : option bytes)
  : go (P2PLocalHost * (bytes * option error)) :=
  let! (lh, err) := SendMsg net lh proto peerid data in
  match err, data with
  | None, Some bytes => Ret (lh, net_ReadMsg net proto peerid bytes)
  | _, _ => Ret (lh, ([], err))
  end.

(** [Response] on the stream of a request: the message written, if it could be. *)
Definition Response (write : bytes -> option error) (data : option bytes) : option bytes * option error :=
  match data with
  | None => (None, Some (ErrMsg "rlp"))
  | Some bytes =>
      match write bytes with
      | Some err => (None, Some err)
      | None => (Some bytes, None)
      end
  end.

(** * Peers *)

Definition peer_caches (lh : P2PLocalHost) : list RemotePeerCache :=
  go_range ((map_to_list (lh_RemotePeerCaches lh)).*2).

Definition PeerIDsWithoutTx (lh : P2PLocalHost) (hash : Hash) : list PeerID :=
  pc_peerid <$> filter (fun c => hset_Has (pc_KnownTxs c) hash = false) (peer_caches lh).
Definition PeerIDsWithoutBlock (lh : P2PLocalHost) (hash : Hash) : list PeerID :=
  pc_peerid <$> filter (fun c => hset_Has (pc_KnownBlock c) hash = false) (peer_caches lh).
Definition PeerIDs (lh : P2PLocalHost) : list PeerID := pc_peerid <$> peer_caches lh.

(** [for s.Size() >= max { s.Pop() }]. *)
Fixpoint pop_until (fuel : nat) (max : Z) (s : hset) : go hset :=
  if max <=? hset_Size s then
    match fuel with
    | O => Stop OutOfFuel
    | S fuel => pop_until fuel max (hset_Pop s)
    end
  else Ret s.

Definition mark_known (max : Z) (s : hset) (hash : Hash) : go hset :=
  let! s := pop_until (Z.to_nat (hset_Size s)) max s in
  Ret (hset_Add s hash).

Section Marking.
Context `{Crypto} `{Rlp txdata} `{Rlp Header}.

Definition MarkTxs (lh : P2PLocalHost) (peerid : PeerID) (txs : list Transaction) : go P2PLocalHost :=
  match lh_RemotePeerCaches lh !! peerid with
  | None => Ret lh
  | Some c =>
      let! known := gfold (fun s tx => mark_known maxKnownTxs s (Transaction_Hash tx)) (pc_KnownTxs c) txs in
      Ret (set_caches lh (<[peerid := mkRemotePeerCache _ (pc_peerid c) known (pc_KnownBlock c)]>
                            (lh_RemotePeerCaches lh)))
  end.

Definition MarkBlock (lh : P2PLocalHost) (peerid : PeerID) (block : Block) : go P2PLocalHost :=
  match lh_RemotePeerCaches lh !! peerid with
  | None => Ret lh
  | Some c =>
      let! known := mark_known maxKnownBlocks (pc_KnownBlock c) (Block_Hash block) in
      Ret (set_caches lh (<[peerid := mkRemotePeerCache _ (pc_peerid c) (pc_KnownTxs c) known]>
                            (lh_RemotePeerCaches lh)))
  end.
End Marking.
End Host.

(** * What the host keeps of a peer *)

Section HostFacts.
Context `{HashSet} (view : hset -> gset Hash) `{!HashSetLaws view}.

(** The loop of pops ends: each one makes the set smaller. *)
Lemma pop_until_spec fuel max s : 0 < max -> (size (view s) <= fuel)%nat ->
  exists s', pop_until fuel max s = Ret s' /\ hset_Size s' < max /\ view s' ⊆ view s /\
    (hset_Size s < max -> s' = s).
Proof using HashSetLaws0.
  intros Hmax. revert s. induction fuel as [|fuel IH]; intros s Hf; cbn [pop_until];
    destruct (Z.leb_spec max (hset_Size s)) as [Hle|Hlt].
  - rewrite hset_Size_view in Hle. lia.
  - exists s. by split_and!.
  - rewrite hset_Size_view in Hle.
    assert (Hne : view s <> ∅) by (intros E; rewrite E, size_empty in Hle; lia).
    destruct (hset_Pop_view s Hne) as (x & Hx & E).
    assert (Hsz : size (view (hset_Pop s)) = (size (view s) - 1)%nat).
    { rewrite E, size_difference by set_solver. by rewrite size_singleton. }
    destruct (IH (hset_Pop s)) as (s' & -> & Hs & Hsub & _); [lia|].
    exists s'. split_and!; [done|done|set_solver|]. rewrite hset_Size_view. lia.
  - exists s. by split_and!.
Qed.

Lemma mark_known_spec max s h : 0 < max -> exists s', mark_known max s h = Ret s' /\
  hset_Size s' <= max /\ h ∈ view s' /\ view s' ⊆ {[ h ]} ∪ view s /\
  (hset_Size s < max -> view s ⊆ view s').
Proof using HashSetLaws0.
  intros Hmax. unfold mark_known.
  destruct (pop_until_spec (Z.to_nat (hset_Size s)) max s Hmax) as (s1 & -> & Hs & Hsub & Hid).
  { rewrite hset_Size_view. lia. }
  cbn [gbind]. exists (hset_Add s1 h). rewrite !hset_Size_view in *. rewrite hset_Add_view.
  split_and!; [done| |set_solver|set_solver|].
  - pose proof (size_union_alt {[ h ]} (view s1)) as Hu. rewrite size_singleton in Hu.
    pose proof (subseteq_size (view s1 ∖ {[ h ]}) (view s1) ltac:(set_solver)). lia.
  - intros Hlt. rewrite Hid by done. set_solver.
Qed.

Lemma mark_many {A} max (f : A -> Hash) (l : list A) s : 0 < max -> hset_Size s <= max ->
  exists s', gfold (fun s a => mark_known max s (f a)) s l = Ret s' /\ hset_Size s' <= max /\
    (forall a, last l = Some a -> f a ∈ view s').
Proof using HashSetLaws0.
  intros Hmax. revert s. induction l as [|h l IH]; intros s Hs; [by exists s|].
  cbn [gfold]. destruct (mark_known_spec max s (f h) Hmax) as (s1 & -> & Hs1 & Hin & _). cbn [gbind].
  destruct (IH s1 Hs1) as (s' & E & Hs' & Hl). exists s'. split_and!; [done|done|].
  intros h' Hh. destruct l as [|h2 l]; [|by apply Hl]. cbn in E, Hh. by simplify_eq.
Qed.

(** Every peer sits under its id, with at most [maxKnownTxs] transactions and
    [maxKnownBlocks] blocks remembered. *)
Definition cache_ok (id : PeerID) (c : RemotePeerCache) : Prop :=
  pc_peerid c = id /\ hset_Size (pc_KnownTxs c) <= maxKnownTxs /\
  hset_Size (pc_KnownBlock c) <= maxKnownBlocks.

Definition host_wf (lh : P2PLocalHost) : Prop := map_Forall cache_ok (lh_RemotePeerCaches lh).

Lemma connectHandler_wf lh p : host_wf lh -> host_wf (connectHandler lh p).
Proof using HashSetLaws0.
  intros Hwf. apply map_Forall_insert_2; [|done]. unfold cache_ok. cbn.
  rewrite hset_Size_view, hset_New_view, size_empty. done.
Qed.

Section MarkingFacts.
Context `{Crypto} `{Rlp txdata} `{Rlp Header}.

Lemma MarkTxs_spec lh p txs : host_wf lh -> exists lh', MarkTxs lh p txs = Ret lh' /\ host_wf lh' /\
  lh_sent lh' = lh_sent lh /\ dom (lh_RemotePeerCaches lh') = dom (lh_RemotePeerCaches lh).
Proof using HashSetLaws0.
  intros Hwf. unfold MarkTxs. destruct (lh_RemotePeerCaches lh !! p) as [c|] eqn:E; [|eauto 10].
  destruct (Hwf p c E) as (Hid & Ht & Hb).
  destruct (mark_many maxKnownTxs Transaction_Hash txs (pc_KnownTxs c)) as (s & Es & Hs & _); [done|done|].
  rewrite Es. cbn [gbind]. eexists. split; [done|]. split_and!; [|done|].
  - by apply map_Forall_insert_2.
  - cbn. rewrite dom_insert_L. apply elem_of_dom_2 in E. set_solver.
Qed.

(** After a mark the peer counts as knowing the block; nothing is forgotten of
    the other peers. *)
Lemma MarkBlock_spec lh p block : host_wf lh -> exists lh', MarkBlock lh p block = Ret lh' /\ host_wf lh' /\
  lh_sent lh' = lh_sent lh /\ dom (lh_RemotePeerCaches lh') = dom (lh_RemotePeerCaches lh) /\
  (forall q, q <> p -> lh_RemotePeerCaches lh' !! q = lh_RemotePeerCaches lh !! q) /\
  (forall c, lh_RemotePeerCaches lh' !! p = Some c -> Block_Hash block ∈ view (pc_KnownBlock c)).
Proof using HashSetLaws0.
  intros Hwf. unfold MarkBlock. destruct (lh_RemotePeerCaches lh !! p) as [c|] eqn:E.
  2: { exists lh. split_and!; try done. by rewrite E. }
  destruct (Hwf p c E) as (Hid & Ht & Hb).
  destruct (mark_known_spec maxKnownBlocks (pc_KnownBlock c) (Block_Hash block)) as (s & Es & Hs & Hin & _); [done|].
  rewrite Es. cbn [gbind]. eexists. split; [done|]. split_and!; [|done| | |].
  - by apply map_Forall_insert_2.
  - cbn. rewrite dom_insert_L. apply elem_of_dom_2 in E. set_solver.
  - intros q Hq. cbn. by rewrite lookup_insert_ne.
  - intros c'. cbn. rewrite lookup_insert_eq. by intros [= <-].
Qed.

(** What happens to a host: peers connect, announcements arrive, messages leave. *)
Inductive host_step : P2PLocalHost -> P2PLocalHost -> Prop :=
| step_connect lh p : host_step lh (connectHandler lh p)
| step_MarkTxs lh p txs lh' : MarkTxs lh p txs = Ret lh' -> host_step lh lh'
| step_MarkBlock lh p block lh' : MarkBlock lh p block = Ret lh' -> host_step lh lh'
| step_SendMsg net lh proto p data lh' e : SendMsg net lh proto p data = Ret (lh', e) -> host_step lh lh'
| step_Request net lh proto p data lh' r : Request net lh proto p data = Ret (lh', r) -> host_step lh lh'.

Lemma SendMsg_caches net lh proto p data lh' e :
  SendMsg net lh proto p data = Ret (lh', e) -> lh_RemotePeerCaches lh' = lh_RemotePeerCaches lh.
Proof. unfold SendMsg. intros E. by repeat (case_match; simplify_eq/=). Qed.

Lemma host_step_wf lh lh' : host_step lh lh' -> host_wf lh -> host_wf lh'.
Proof using HashSetLaws0.
  intros Hs Hwf. destruct Hs as [lh p|lh p txs lh' E|lh p b lh' E|net lh proto p data lh' e E|net lh proto p data lh' r E].
  - by apply connectHandler_wf.
  - destruct (MarkTxs_spec lh p txs Hwf) as (lh2 & E2 & Hwf2 & _). rewrite E in E2. by injection E2 as ->.
  - destruct (MarkBlock_spec lh p b Hwf) as (lh2 & E2 & Hwf2 & _). rewrite E in E2. by injection E2 as ->.
  - unfold host_wf. by rewrite (SendMsg_caches _ _ _ _ _ _ _ E).
  - unfold Request in E. apply gbind_Ret in E as [[lh2 e] [E E2]].
    assert (lh' = lh2) as -> by (destruct e, data; by simplify_eq/=).
    unfold host_wf. by rewrite (SendMsg_caches _ _ _ _ _ _ _ E).
Qed.

(** C36. What a node remembers of its peers is bounded, whatever they send: in
    every state a host reaches, each peer has at most 32768 transactions and 1000
    blocks marked as known, and marking a list of transactions or a block returns
    (the loop that makes room ends), in a state with the same bounds in which a
    connected peer is known to have the block. *)
Theorem known_sets_bounded port lh : rtc host_step (mkP2PLocalHost _ port ∅ []) lh ->
  (forall p c, lh_RemotePeerCaches lh !! p = Some c ->
     hset_Size (pc_KnownTxs c) <= maxKnownTxs /\ hset_Size (pc_KnownBlock c) <= maxKnownBlocks) /\
  (forall p txs, exists lh', MarkTxs lh p txs = Ret lh' /\ host_wf lh') /\
  (forall p block, exists lh', MarkBlock lh p block = Ret lh' /\ host_wf lh' /\
     forall c, lh_RemotePeerCaches lh' !! p = Some c ->
       hset_Has (pc_KnownBlock c) (Block_Hash block) = true).
Proof using HashSetLaws0.
  intros Hr. assert (Hwf : host_wf lh).
  { assert (Hw0 : host_wf (mkP2PLocalHost _ port ∅ [])) by apply map_Forall_empty.
    revert Hw0. induction Hr as [lh|lh1 lh2 lh3 Hs _ IH]; [done|]. intros Hw. by eapply IH, host_step_wf. }
  split_and!.
  - intros p c E. by destruct (Hwf p c E) as (_ & ? & ?).
  - intros p txs. destruct (MarkTxs_spec lh p txs Hwf) as (lh' & E & Hw & _). eauto.
  - intros p b. destruct (MarkBlock_spec lh p b Hwf) as (lh' & E & Hw & _ & _ & _ & Hin).
    exists lh'. split_and!; [done|done|]. intros c Hc. rewrite hset_Has_view. by apply bool_decide_eq_true, Hin.
Qed.
End MarkingFacts.

(** * The peers to tell *)

Section PeerFacts.
Context `{GoRange} {range_laws : GoRangeLaws}.

Lemma elem_of_caches lh c : host_wf lh ->
  c ∈ peer_caches lh <-> lh_RemotePeerCaches lh !! pc_peerid c = Some c.
Proof.
  intros Hwf. unfold peer_caches. rewrite go_range_perm, list_elem_of_fmap. split.
  - intros ([k c'] & -> & Hin). apply elem_of_map_to_list in Hin. cbn.
    destruct (Hwf k c' Hin) as (-> & _). done.
  - intros E. exists (pc_peerid c, c). by rewrite elem_of_map_to_list.
Qed.

Lemma NoDup_peers lh : host_wf lh -> NoDup (pc_peerid <$> peer_caches lh).
Proof.
  intros Hwf. unfold peer_caches. rewrite go_range_perm.
  assert (E : pc_peerid <$> (map_to_list (lh_RemotePeerCaches lh)).*2 = (map_to_list (lh_RemotePeerCaches lh)).*1).
  { rewrite <- list_fmap_compose. apply list_fmap_ext. intros i [k c] Hi.
    apply list_elem_of_lookup_2, elem_of_map_to_list in Hi. apply (Hwf k c Hi). }
  rewrite E. apply NoDup_fst_map_to_list.
Qed.

Lemma PeerIDs_spec lh p : host_wf lh -> p ∈ PeerIDs lh <-> is_Some (lh_RemotePeerCaches lh !! p).
Proof.
  intros Hwf. unfold PeerIDs. rewrite list_elem_of_fmap. split.
  - intros (c & -> & Hc). apply elem_of_caches in Hc; eauto.
  - intros [c E]. exists c. destruct (Hwf p c E) as (Hid & _). split; [done|].
    apply elem_of_caches; [done|]. by rewrite Hid.
Qed.

Lemma PeerIDsWithoutBlock_spec lh h p : host_wf lh ->
  p ∈ PeerIDsWithoutBlock lh h <->
  exists c, lh_RemotePeerCaches lh !! p = Some c /\ h ∉ view (pc_KnownBlock c).
Proof using HashSetLaws0 range_laws.
  intros Hwf. unfold PeerIDsWithoutBlock. rewrite list_elem_of_fmap. split.
  - intros (c & -> & Hc). apply list_elem_of_filter in Hc as [Hk Hc]. apply elem_of_caches in Hc; [|done].
    exists c. split; [done|]. rewrite hset_Has_view in Hk. by apply bool_decide_eq_false in Hk.
  - intros (c & E & Hn). exists c. destruct (Hwf p c E) as (Hid & _). split; [done|].
    apply list_elem_of_filter. split; [|apply elem_of_caches; [done|by rewrite Hid]].
    rewrite hset_Has_view. by apply bool_decide_eq_false.
Qed.

Lemma NoDup_PeerIDsWithoutBlock lh h : host_wf lh -> NoDup (PeerIDsWithoutBlock lh h).
Proof.
  intros Hwf. eapply sublist_NoDup; [by apply NoDup_peers|]. apply fmap_sublist, sublist_filter.
Qed.
End PeerFacts.
End HostFacts.
