(* ===== verification/Handlers.v ===== *)
(** network/p2phandlers: the stream handlers and goroutines that gossip
    transactions and blocks and download blocks, over the host of [Network.v] and
    the worker of plasma/plasma.go, an operator or a validator. *)

From S2P Require Import Prelude Deps Types Signing Store Schema RawDB Utxo Validation HeaderChain.
From S2P Require Import BlockChain TxPool RootChain Operator Network.
#[local] Open Scope Z_scope.

Definition blockProto : string := "block/0.0.1".
Definition getBlockProto : string := "getblock/0.0.1".
Definition txProto : string := "tx/0.0.1".

(** The [Worker] interface of plasma/plasma.go, with the channel a worker was
    given by [SubscribeNewBlockCh]. *)
Class Worker (W : Type) : Type := {
  w_ProcessRemoteTxs : W -> list Transaction -> go W;
  w_ProcessRemoteBlock : W -> Block -> go W;
  w_SubscribeNewBlockCh : W -> option (list Block) -> W;
  w_WriteBlock : W -> Block -> go (W * option error);
  w_newBlockCh : W -> option (list Block)
}.

(** What the handlers rely on: the worker keeps the channel it is given, and
    sends a block on it before it reports success. *)
Class WorkerSpec (W : Type) `{Worker W} : Prop := {
  subscribe_newBlockCh w ch : w_newBlockCh (w_SubscribeNewBlockCh w ch) = ch;
  WriteBlock_sends w b w' q : w_newBlockCh w = Some q -> w_WriteBlock w b = Ret (w', None) ->
    w_newBlockCh w' = Some (q ++ [b])
}.

(** [pls.BlockChain()], the chain the worker writes to. *)
Class NodeChain (W : Type) : Type := {
  w_CurrentBlock : W -> go Block;
  w_GetBlockByNumber : W -> Z -> W * option Block
}.

Record Node (W : Type) `{HashSet} : Type := mkNode {
  nd_host : P2PLocalHost;
  nd_worker : W
}.
Arguments mkNode {W _} _ _.
Arguments nd_host {W _} _.
Arguments nd_worker {W _} _.

Section Handlers.
Context {W : Type} `{HashSet} `{GoRange} `{Crypto} `{Rlp txdata} `{Rlp Header} `{Rlp Z}
  `{Rlp extblock} `{Rlp (list txdata)} `{RlpStream} `{Worker W} `{NodeChain W}.

(** [Decode(data, &block)] into a nil pointer: a fresh block is filled. *)
Definition fresh_header : Header := mkHeader zeroHash zeroAddress zeroHash None None [].
Definition decode_block (data : bytes) : option Block :=
  Block_DecodeRLP (mkBlock fresh_header [] None None None) data.
Definition decode_txs (data : bytes) : option (list Transaction) :=
  match rlp_DecodeBytes data with
  | Some ds => Some (decoded_tx <$> (ds : list txdata))
  | None => None
  end.

Definition errDecode : error := ErrMsg "rlp".

(** [NewBlockHandler]: the channel the handler makes is the one the worker gets;
    the flag is whether the download starts. *)
Definition NewBlockHandler (IsOperator : bool) (nd : Node W) : Node W * bool :=
  (mkNode (nd_host nd) (w_SubscribeNewBlockCh (nd_worker nd) (Some [])), negb IsOperator).

(** [recvBlock] on the message of a peer. The error of reading it is overwritten. *)
Definition recvBlock (nd : Node W) (peer : PeerID) (msg : bytes * option error)
  : go (Node W * option error) :=
  match decode_block msg.1 with
  | None => Ret (nd, Some errDecode)
  | Some block =>
      let! host := MarkBlock (nd_host nd) peer block in
      let! (w, err) := w_WriteBlock (nd_worker nd) block in
      match err with
      | Some _ => Ret (mkNode host w, err)
      | None =>
          let! ch := send (w_newBlockCh w) block in
          Ret (mkNode host (w_SubscribeNewBlockCh w ch), None)
      end
  end.

(** The peers a message goes to, one after the other; errors are dropped. *)
Definition send_all (net : Net) (proto : string) (lh : P2PLocalHost) (msgs : list (PeerID * option bytes))
  : go P2PLocalHost :=
  gfold (fun lh m => let! (lh, _) := SendMsg net lh proto m.1 m.2 in Ret lh) lh msgs.

(** One turn of [broadcastBlock]. *)
Definition broadcastBlock (net : Net) (nd : Node W) : go (Node W) :=
  match w_newBlockCh (nd_worker nd) with
  | Some (newBlock :: rest) =>
      let! host := send_all net blockProto (nd_host nd)
        ((fun p => (p, Block_EncodeRLP newBlock)) <$> PeerIDsWithoutBlock (nd_host nd) (Block_Hash newBlock)) in
      Ret (mkNode host (w_SubscribeNewBlockCh (nd_worker nd) (Some rest)))
  | _ => Ret nd
  end.

Definition recvTxs (nd : Node W) (peer : PeerID) (msg : bytes * option error)
  : go (Node W * option error) :=
  match decode_txs msg.1 with
  | None => Ret (nd, Some errDecode)
  | Some txs =>
      let! host := MarkTxs (nd_host nd) peer txs in
      let! w := w_ProcessRemoteTxs (nd_worker nd) txs in
      Ret (mkNode host w, None)
  end.

(** [txset[peerid] = append(txset[peerid], tx)]. *)
Definition txset_add (tx : Transaction) (txset : gmap PeerID (list Transaction)) (p : PeerID)
  : gmap PeerID (list Transaction) :=
  <[p := default [] (txset !! p) ++ [tx]]> txset.

(** The batches one turn of [broadcastTxs] builds for the transactions received
    on the channel. *)
Definition broadcast_sets (lh : P2PLocalHost) (txs : list Transaction) : gmap PeerID (list Transaction) :=
  fold_left (fun txset tx =>
               fold_left (txset_add tx) (PeerIDsWithoutTx lh (Transaction_Hash tx)) txset) txs ∅.

Definition broadcastTxs (net : Net) (nd : Node W) (txs : list Transaction) : go (Node W) :=
  let! host := send_all net txProto (nd_host nd)
    ((fun e => (e.1, rlp_EncodeToBytes (tx_data <$> e.2)))
       <$> go_range (map_to_list (broadcast_sets (nd_host nd) txs))) in
  Ret (mkNode host (nd_worker nd)).

(** [getBlock]: the reply, if one is written on the stream. *)
Definition getBlock (nd : Node W) (msg : bytes * option error) (write : bytes -> option error)
  : Node W * option bytes * option error :=
  match msg with
  | (_, Some err) => (nd, None, Some err)
  | (data, None) =>
      match rlp_DecodeBytes data with
      | None => (nd, None, Some errDecode)
      | Some blockNum =>
          let (w, block) := w_GetBlockByNumber (nd_worker nd) (big_Uint64 blockNum) in
          let nd := mkNode (nd_host nd) w in
          match block with
          | None => (nd, None, None)
          | Some block =>
              let (reply, err) := Response write (Block_EncodeRLP block) in (nd, reply, err)
          end
      end
  end.

(** * The download *)

Section Download.
Context {RW : Type} `{ContractQuery} (rc : RootChain RW).

Definition getMaxBlockNum : go (Z + error) :=
  match GetCurrentChildBlock rc with
  | (_, Some err) => Ret (inr err)
  | (currentChildBlock, None) =>
      match GetCurrentDepositBlock rc with
      | (_, Some err) => Ret (inr err)
      | (currentDepositBlock, None) =>
          let! c := deref currentChildBlock in
          let! d := deref currentDepositBlock in
          Ret (inl (i64 (big_Int64 c - 1000 + big_Int64 d - 1)))
      end
  end.

(** [CurrentBlock().Number().Int64()]. *)
Definition current_number (w : W) : go Z :=
  let! b := w_CurrentBlock w in
  let! n := Block_Number b in
  Ret (big_Int64 n).

(** The body of the inner loop for a block the root chain has: fetch it from the
    first peer and write it. [true]: the goroutine returns. The error of the
    request is overwritten; without peers the block is passed over. *)
Definition fetch_block (net : Net) (nd : Node W) (blockNum : Z) : go (Node W * bool) :=
  match PeerIDs (nd_host nd) with
  | [] => Ret (nd, false)
  | target :: _ =>
      let! (host, r) := Request net (nd_host nd) getBlockProto target (rlp_EncodeToBytes blockNum) in
      match decode_block r.1 with
      | None => Ret (mkNode host (nd_worker nd), true)
      | Some block =>
          let! host := MarkBlock host target block in
          let! (w, err) := w_WriteBlock (nd_worker nd) block in
          Ret (mkNode host w, match err with Some _ => true | None => false end)
      end
  end.

(** [blockNum = blockNum/1000*1000 + 1000 - 1], in 64 bits. *)
Definition skip_to (blockNum : Z) : Z := i64 (i64 (Z.quot blockNum 1000 * 1000) + 1000 - 1).

(** The inner loop of [downloadBlocks] from [blockNum] on; the head's number as it
    was last read is returned with the flag. *)
Fixpoint download_pass (fuel : nat) (net : Net) (nd : Node W) (blockNum maxBlockNum currentBlockNum : Z)
  : go (Node W * Z * bool) :=
  if blockNum <=? maxBlockNum then
    match fuel with
    | O => Stop OutOfFuel
    | S fuel =>
        let! currentBlockNum := current_number (nd_worker nd) in
        if decide ((GetRootChainBlockByBlockNum rc blockNum).1 = zeroHash) then
          download_pass fuel net nd (i64 (skip_to blockNum + 1)) maxBlockNum currentBlockNum
        else
          let! (nd, stop) := fetch_block net nd blockNum in
          if stop then Ret (nd, currentBlockNum, true)
          else download_pass fuel net nd (i64 (blockNum + 1)) maxBlockNum currentBlockNum
    end
  else Ret (nd, currentBlockNum, false).

(** One turn of the outer loop. *)
Definition downloadBlocks_turn (fuel : nat) (net : Net) (nd : Node W) (currentBlockNum : Z)
  : go (Node W * Z * bool) :=
  let! maxBlockNum := getMaxBlockNum in
  match maxBlockNum with
  | inr _ => Ret (nd, currentBlockNum, true)
  | inl maxBlockNum =>
      if maxBlockNum <=? currentBlockNum then Ret (nd, currentBlockNum, false)
      else
        let! currentBlockNum := current_number (nd_worker nd) in
        download_pass fuel net nd (i64 (currentBlockNum + 1)) maxBlockNum currentBlockNum
  end.
End Download.
End Handlers.

(** * The two workers *)

Section Workers.
Context {D G V : Type} `{LRU} `{EthCommon} `{Crypto} `{!Signer G} `{Copier} `{Trie} `{Rlp txdata}
  `{Rlp Header} `{Rlp rlpBody} `{Rlp Z} `{Rlp extblock} `{RlpStream} `{Database D} `{TxValidator V}.

(** [v] is the validator of the operator's pool, whatever it is. *)
Definition Operator_Worker (signer : G) (v : Operator D G -> V) : Worker (Operator D G) := {|
  w_ProcessRemoteTxs o txs := Op_ProcessRemoteTxs (v o) o txs;
  w_ProcessRemoteBlock o b := Ret (Op_ProcessRemoteBlock o b);
  w_SubscribeNewBlockCh := SubscribeNewBlockCh;
  w_WriteBlock o b := WriteBlock signer o b;
  w_newBlockCh := op_newBlockCh
|}.

Definition Validator_Worker (signer : G) : Worker (Validator D) := {|
  w_ProcessRemoteTxs := Va_ProcessRemoteTxs;
  w_ProcessRemoteBlock := Va_ProcessRemoteBlock signer;
  w_SubscribeNewBlockCh := Va_SubscribeNewBlockCh;
  w_WriteBlock v b := Va_WriteBlock signer v b;
  w_newBlockCh := va_newBlockCh
|}.

Lemma Operator_WorkerSpec signer v : WorkerSpec (Operator D G) (H := Operator_Worker signer v).
Proof.
  split; [done|]. cbn. intros o b o' q Hq E. unfold WriteBlock in E.
  apply gbind_Ret in E as [[bc [e|]] [_ E]]; [done|]. apply gbind_Ret in E as [ch [Ec E]].
  cbn [op_newBlockCh op_set_chain] in Ec. rewrite Hq in Ec. injection Ec as <-.
  apply gbind_Ret in E as [[bc2 e2] [_ E]]. by injection E as <- _.
Qed.

Lemma Validator_WorkerSpec signer : WorkerSpec (Validator D) (H := Validator_Worker signer).
Proof.
  split; [done|]. cbn. intros o b o' q Hq E. unfold Va_WriteBlock in E.
  apply gbind_Ret in E as [[bc [e|]] [_ E]]; [done|]. apply gbind_Ret in E as [n [_ E]].
  apply gbind_Ret in E as [ch [Ec E]]. cbn [va_newBlockCh va_set_chain] in Ec. rewrite Hq in Ec. injection Ec as <-.
  apply gbind_Ret in E as [[bc2 e2] [_ E]]. by injection E as <- _.
Qed.
End Workers.

(** * Gossip *)

(** A network in which every stream opens and every message is written. *)
Record net_up (net : Net) : Prop := {
  up_stream proto p : net_NewStream net proto p = None;
  up_write proto p msg : net_WriteMsg net proto p msg = None
}.

Section Gossip.
Context {W : Type} `{HashSet} (view : hset -> gset Hash) `{!HashSetLaws view}
  `{GoRange} {range_laws : GoRangeLaws} `{Crypto} `{Rlp txdata} `{Rlp Header} `{Rlp Z}
  `{Rlp extblock} `{RlpStream} `{Worker W} `{!WorkerSpec W}.

Lemma send_all_up net proto data ps : net_up net -> forall lh,
  exists lh', send_all net proto lh ((fun p => (p, Some data)) <$> ps) = Ret lh' /\
    lh_RemotePeerCaches lh' = lh_RemotePeerCaches lh /\
    lh_sent lh' = lh_sent lh ++ ((fun p => (proto, p, data)) <$> ps).
Proof.
  intros [Hs Hw]. unfold send_all. induction ps as [|p ps IH]; intros lh.
  - exists lh. cbn. by rewrite app_nil_r.
  - cbn [fmap list_fmap gfold]. unfold SendMsg. cbn [fst snd]. rewrite Hs, Hw. cbn [gbind].
    destruct (IH (log_sent lh proto p data)) as (lh' & E & Hc & Hsent).
    exists lh'. split_and!; [done|done|]. rewrite Hsent. cbn. by rewrite <- app_assoc.
Qed.

(** A turn of the broadcast tells every connected peer not known to have the
    block, each once, and takes the block off the channel. *)
Lemma broadcastBlock_up net (nd : Node W) b rest data : net_up net -> host_wf (nd_host nd) ->
  w_newBlockCh (nd_worker nd) = Some (b :: rest) -> Block_EncodeRLP b = Some data ->
  exists nd' ps, broadcastBlock net nd = Ret nd' /\ NoDup ps /\
    lh_sent (nd_host nd') = lh_sent (nd_host nd) ++ ((fun p => (blockProto, p, data)) <$> ps) /\
    lh_RemotePeerCaches (nd_host nd') = lh_RemotePeerCaches (nd_host nd) /\
    w_newBlockCh (nd_worker nd') = Some rest /\
    (forall p, p ∈ ps <-> exists c, lh_RemotePeerCaches (nd_host nd) !! p = Some c /\
                                    Block_Hash b ∉ view (pc_KnownBlock c)).
Proof using All.
  intros Hup Hwf Hch Henc. unfold broadcastBlock. rewrite Hch, Henc.
  destruct (send_all_up net blockProto data (PeerIDsWithoutBlock (nd_host nd) (Block_Hash b)) Hup (nd_host nd))
    as (lh' & -> & Hc & Hs). cbn [gbind].
  eexists _, (PeerIDsWithoutBlock (nd_host nd) (Block_Hash b)). split; [done|].
  split_and!; [by apply NoDup_PeerIDsWithoutBlock|done|done|apply subscribe_newBlockCh|].
  intros p. by apply PeerIDsWithoutBlock_spec.
Qed.

(** C20. Gossip of a block. When a connected peer sends a block that the worker
    accepts, the block goes on the channel (twice: the worker puts it there and so
    does the handler); a turn of the broadcast then sends it, once each, to exactly
    the other connected peers that are not known to have it, never back to the
    sender; and since sending marks nothing as known, the second turn sends it to
    the same peers again. *)
Theorem gossip_block net (nd : Node W) peer msg block data w1 :
  net_up net -> host_wf (nd_host nd) -> w_newBlockCh (nd_worker nd) = Some [] ->
  is_Some (lh_RemotePeerCaches (nd_host nd) !! peer) ->
  decode_block msg.1 = Some block -> Block_EncodeRLP block = Some data ->
  w_WriteBlock (nd_worker nd) block = Ret (w1, None) ->
  exists nd1 nd2 nd3 ps ps', recvBlock nd peer msg = Ret (nd1, None) /\
    w_newBlockCh (nd_worker nd1) = Some [block; block] /\
    broadcastBlock net nd1 = Ret nd2 /\ broadcastBlock net nd2 = Ret nd3 /\
    w_newBlockCh (nd_worker nd3) = Some [] /\
    lh_sent (nd_host nd3) = lh_sent (nd_host nd) ++
      ((fun p => (blockProto, p, data)) <$> ps) ++ ((fun p => (blockProto, p, data)) <$> ps') /\
    NoDup ps /\ (ps' ≡ₚ ps) /\ (peer ∉ ps) /\
    (forall p c, p <> peer -> lh_RemotePeerCaches (nd_host nd) !! p = Some c ->
       p ∈ ps <-> hset_Has (pc_KnownBlock c) (Block_Hash block) = false).
Proof using All.
  intros Hup Hwf Hch [c0 Hpeer] Hdec Henc Hw.
  destruct (MarkBlock_spec view (nd_host nd) peer block Hwf) as (host & Em & Hwf1 & Hs1 & Hdom & Hother & Hmark).
  pose proof (WriteBlock_sends _ _ _ _ Hch Hw) as Hch1. cbn [app] in Hch1.
  set (nd1 := mkNode host (w_SubscribeNewBlockCh w1 (Some [block; block]))).
  assert (E1 : recvBlock nd peer msg = Ret (nd1, None)).
  { unfold recvBlock. rewrite Hdec, Em. cbn [gbind]. rewrite Hw. cbn [gbind]. rewrite Hch1. done. }
  assert (Hch1' : w_newBlockCh (nd_worker nd1) = Some [block; block]) by apply subscribe_newBlockCh.
  destruct (broadcastBlock_up net nd1 block [block] data Hup Hwf1 Hch1' Henc)
    as (nd2 & ps & E2 & Hnd & Hs2 & Hc2 & Hch2 & Hps).
  assert (Hwf2 : host_wf (nd_host nd2)) by (unfold host_wf; rewrite Hc2; exact Hwf1).
  destruct (broadcastBlock_up net nd2 block [] data Hup Hwf2 Hch2 Henc)
    as (nd3 & ps' & E3 & Hnd' & Hs3 & _ & Hch3 & Hps').
  rewrite Hc2 in Hps'.
  exists nd1, nd2, nd3, ps, ps'. split_and!; try done.
  - rewrite Hs3, Hs2. cbn [nd1 nd_host]. by rewrite Hs1, <- app_assoc.
  - apply NoDup_Permutation; [done|done|]. intros p. by rewrite Hps, Hps'.
  - rewrite Hps. intros (c & Ec & Hn). by apply Hn, Hmark.
  - intros p c Hne Hc. rewrite Hps. cbn [nd1 nd_host]. rewrite Hother, Hc by done.
    rewrite hset_Has_view, bool_decide_eq_false. naive_solver.
Qed.
End Gossip.

(** * The download visits every block of the root chain *)

Section DownloadFacts.
Context {W RW : Type} `{HashSet} (view : hset -> gset Hash) `{!HashSetLaws view}
  `{GoRange} {range_laws : GoRangeLaws} `{Crypto} `{Rlp txdata} `{Rlp Header} `{Rlp Z}
  `{Rlp extblock} `{RlpStream} `{Worker W} `{NodeChain W} `{ContractQuery} (rc : RootChain RW)
  `{!RlpLaws Z (fun n => 0 <= n)}.

(** The root the contract holds for a number, zero when there is no block. *)
Definition root_of (n : Z) : Hash := (GetRootChainBlockByBlockNum rc n).1.

(** The contract numbers blocks without gaps: submitted blocks at the multiples of
    1000, then the deposits that follow. A number without a block has none after
    it before the next multiple of 1000. *)
Definition no_gaps : Prop := forall n m,
  0 < n -> root_of n = zeroHash -> n <= m < (n / 1000 + 1) * 1000 -> root_of m = zeroHash.

(** The numbers from [b] to [max] the contract has a block for. *)
Definition wanted (b max : Z) : list Z := filter (fun n => root_of n <> zeroHash) (seqZ b (max - b + 1)).

Lemma wanted_done b max : max < b -> wanted b max = [].
Proof. intros Hlt. unfold wanted. by rewrite seqZ_nil by lia. Qed.

Lemma wanted_here b max : b <= max -> root_of b <> zeroHash -> wanted b max = b :: wanted (b + 1) max.
Proof.
  intros Hle Hr. unfold wanted. rewrite seqZ_cons by lia. rewrite filter_cons_True by done.
  unfold Z.succ. do 3 f_equal. lia.
Qed.

Lemma wanted_skip b b' max : b <= b' -> (forall m, b <= m < b' -> root_of m = zeroHash) ->
  wanted b max = wanted b' max.
Proof.
  intros Hle Hz. unfold wanted. destruct (Z.le_gt_cases b' max) as [Hin|Hout].
  - replace (max - b + 1) with ((b' - b) + (max - b' + 1)) by lia.
    rewrite seqZ_app, filter_app by lia. replace (b + (b' - b)) with b' by lia.
    rewrite (filter_none _ (seqZ b (b' - b))); [done|]. intros m Hm. apply elem_of_seqZ in Hm.
    rewrite Hz by lia. by intros [].
  - rewrite (seqZ_nil b') by lia. apply filter_none. intros m Hm. apply elem_of_seqZ in Hm.
    rewrite Hz by lia. by intros [].
Qed.

Lemma skip_to_spec b : 0 <= b < 2 ^ 62 -> i64 (skip_to b + 1) = (b / 1000 + 1) * 1000.
Proof.
  intros Hb. unfold skip_to. rewrite Z.quot_div_nonneg by lia.
  assert (0 <= b / 1000 * 1000 <= b) by dlia.
  rewrite (i64_small (b / 1000 * 1000)) by lia. rewrite (i64_small (b / 1000 * 1000 + 1000 - 1)) by lia.
  rewrite i64_small by lia. lia.
Qed.

(** The worker as the loop needs it: blocks the peers send ([ok]) are processed
    without a panic, and there is a head. *)
Context (I : W -> Prop) (ok : Block -> Prop).
Hypothesis write_returns : forall w b, I w -> ok b -> exists w' e, w_WriteBlock w b = Ret (w', e) /\ I w'.
Hypothesis head_returns : forall w, I w -> returns (current_number w).

Definition node_ready (nd : Node W) : Prop :=
  host_wf (nd_host nd) /\ lh_RemotePeerCaches (nd_host nd) <> ∅ /\ I (nd_worker nd).

Definition replies_ok (net : Net) : Prop :=
  forall proto p msg b, decode_block (net_ReadMsg net proto p msg).1 = Some b -> ok b.

Lemma fetch_block_spec net nd n : net_up net -> replies_ok net -> node_ready nd -> 0 <= n ->
  exists nd' stop p msg, fetch_block net nd n = Ret (nd', stop) /\ node_ready nd' /\
    rlp_EncodeToBytes n = Some msg /\
    lh_sent (nd_host nd') = lh_sent (nd_host nd) ++ [(getBlockProto, p, msg)].
Proof using All.
  intros [Hs Hw] Hok (Hwf & Hne & HI) Hn. unfold fetch_block.
  destruct (PeerIDs (nd_host nd)) as [|target rest] eqn:Ep.
  { destruct (map_choose _ Hne) as (p & c & Hc).
    assert (Hp : p ∈ PeerIDs (nd_host nd)) by (apply PeerIDs_spec; [done|eauto]).
    rewrite Ep in Hp. by apply elem_of_nil in Hp. }
  destruct (rlp_roundtrip (ok := fun n => 0 <= n) n Hn) as (msg & Emsg & _ & _). rewrite Emsg.
  unfold Request, SendMsg. rewrite Hs, Hw. cbn [gbind].
  set (lh := log_sent (nd_host nd) getBlockProto target msg).
  assert (Hlh : host_wf lh) by exact Hwf.
  destruct (decode_block _) as [block|] eqn:Ed.
  2: { eexists _, true, target, msg. split; [done|]. by split_and!. }
  destruct (MarkBlock_spec view lh target block Hlh) as (lh' & -> & Hwf' & Hs' & Hdom & _). cbn [gbind].
  destruct (write_returns (nd_worker nd) block HI (Hok _ _ _ _ Ed)) as (w' & e & -> & HI'). cbn [gbind].
  eexists _, _, target, msg. split; [done|]. split_and!; [|done|exact Hs'].
  split_and!; [done| |done]. cbn. intros E. apply Hne. apply dom_empty_inv_L.
  change (lh_RemotePeerCaches (nd_host nd)) with (lh_RemotePeerCaches lh).
  by rewrite <- Hdom, E, dom_empty_L.
Qed.

End DownloadFacts.
