(* ===== verification/Replica.v ===== *)
(** The operator and a validator together: the blocks the operator writes go over
    the network in RLP to a validator connected to it, and the validator's ledger
    follows the operator's. Composes core/operator.go, core/validator.go and
    network/p2phandlers/block.go. *)

From S2P Require Import Prelude Deps Types Signing Store Schema RawDB Utxo Validation HeaderChain.
From S2P Require Import BlockChain TxPool RootChain Operator Conservation Sealing Run Genesis Restart Recovery.
From S2P Require Import Network Handlers.
#[local] Open Scope Z_scope.

(** * A block as the other side reads it *)

(** Nil integers in the transactions of a block are encoded as zeros. *)
Class RlpNilBlockLaws `{Rlp extblock} : Prop := {
  rlp_nil_block h ds : rlp_EncodeToBytes (mkExtblock h ds) = rlp_EncodeToBytes (mkExtblock h (fill_txdata <$> ds))
}.

(** So are those of a transaction on its own, and those of what is signed. *)
Class RlpNilTxLaws `{Rlp txdata} : Prop := {
  rlp_nil_tx (d : txdata) : rlp_EncodeToBytes d = rlp_EncodeToBytes (fill_txdata d)
}.

Definition fill_payload (p : sigpayload) : sigpayload :=
  mkSigpayload (fill_utxo <$> (sp_Ins p).1, fill_utxo <$> (sp_Ins p).2)
    (fill_out <$> (sp_Outs p).1, fill_out <$> (sp_Outs p).2) (fill_int (sp_Fee p)) (sp_chainId p).

Class RlpNilSigLaws `{Rlp sigpayload} : Prop := {
  rlp_nil_sig (p : sigpayload) : rlp_EncodeToBytes p = rlp_EncodeToBytes (fill_payload p)
}.

(** The sender is recovered from the encoded data of a transaction, not from its
    caches: where it is recovered, it is so from the transaction with zeros for its
    nil integers too. *)
Class SignerDataLaws (G : Type) `{Signer G} : Prop := {
  Sender_fill (s : G) tx tx' r : tx_data tx' = fill_txdata (tx_data tx) -> Sender s tx = Ret r -> Sender s tx' = Ret r
}.

Lemma sender_of_sig_fill `{Crypto} s h sig r : sender_of_sig s h sig = Ret r -> sender_of_sig s h (fill_sig sig) = Ret r.
Proof.
  unfold sender_of_sig. destruct sig as [[v|] R S]; [|done]. cbn [fill_sig sig_V sig_R sig_S fill_int default deref gbind].
  destruct (negb _); [done|]. destruct R as [R|], S as [S|]; done.
Qed.

#[export] Instance EIP155_data_laws `{Crypto} `{Rlp sigpayload} `{!RlpNilSigLaws} : SignerDataLaws EIP155Signer.
Proof.
  split. intros s tx tx' r E. unfold Sender. cbn [signer_Sender EIP155_Signer]. unfold EIP155_Sender.
  assert (Eh : EIP155_Hash s tx' = EIP155_Hash s tx).
  { unfold EIP155_Hash, rlpHash. rewrite (rlp_nil_sig (mkSigpayload (Ins (tx_data tx)) _ _ _)), E. done. }
  rewrite Eh, E. unfold fill_txdata. cbn [Sigs fst snd]. intros Hs.
  apply gbind_Ret in Hs as [[a1 e1] [E1 Hs]]. rewrite (sender_of_sig_fill _ _ _ _ E1). cbn [gbind].
  destruct e1 as [e1|]; [done|]. apply gbind_Ret in Hs as [[a2 e2] [E2 Hs]].
  by rewrite (sender_of_sig_fill _ _ _ _ E2).
Qed.

Section SameBlock.
Context {G : Type} `{Crypto} `{!Signer G} `{!SignerDataLaws G} `{Trie} `{Rlp txdata} `{nil_tx : !RlpNilTxLaws} `{Rlp Header} `{Rlp Z}
  `{Rlp extblock} `{RlpStream}.

(** A transaction that RLP can carry, nil integers as zeros, with caches that are
    right. *)
Definition tx_sound (tx : Transaction) : Prop :=
  txdata_okb (fill_txdata (tx_data tx)) = true /\ tx_coherent tx.

(** What [tx'] holds is what is read of the encoding of [tx]. *)
Definition filled (tx' tx : Transaction) : Prop := tx_data tx' = fill_txdata (tx_data tx).

Lemma ledger_step_fill n L k tx tx' : tx_applicable tx -> tx_data tx' = fill_txdata (tx_data tx) ->
  ledger_step n L (k, tx') = ledger_step n L (k, tx).
Proof.
  intros (i1 & i2 & o1 & o2 & f & a1 & a2 & (Hi & Ho & _) & Ha1 & Ha2 & _) E.
  unfold ledger_step. cbn [fst snd]. rewrite E. unfold fill_txdata. cbn [Ins Outs]. rewrite Hi, Ho. cbn.
  unfold ledger_tx, out_amount, fill_out, fill_int, fill_utxo. cbn. by rewrite Ha1, Ha2.
Qed.

Lemma ledger_block_fill n txs : Forall tx_applicable txs -> forall txs' L,
  tx_data <$> txs' = fill_txdata <$> (tx_data <$> txs) -> ledger_block n txs' L = ledger_block n txs L.
Proof.
  unfold ledger_block. intros Hall txs' L.
  enough (E : forall k, tx_data <$> txs' = fill_txdata <$> (tx_data <$> txs) ->
    fold_left (ledger_step n) (imap (fun i tx => ((k + i)%nat, tx)) txs') L =
    fold_left (ledger_step n) (imap (fun i tx => ((k + i)%nat, tx)) txs) L) by apply (E 0%nat).
  revert txs' L. induction Hall as [|tx txs Htx _ IH]; intros [|tx' txs'] L k E; try discriminate; [done|].
  cbn in E. injection E as E1 E2. cbn [imap fold_left].
  rewrite !imap_pair_S. rewrite (ledger_step_fill n L _ tx tx') by done. by apply IH.
Qed.

Lemma applicable_fill tx tx' : tx_applicable tx -> tx_data tx' = fill_txdata (tx_data tx) -> tx_applicable tx'.
Proof.
  intros (i1 & i2 & o1 & o2 & f & a1 & a2 & (Hi & Ho & Hf & Hk1 & Hk2) & Ha1 & Ha2 & Hp1 & Hp2) E.
  exists (fill_utxo i1), (fill_utxo i2), (fill_out o1), (fill_out o2), f, a1, a2.
  unfold tx_parts. rewrite E. unfold fill_txdata, fill_int, fill_out, UTXO_ID in *. cbn. rewrite Hi, Ho, Hf. cbn.
  rewrite Ha1, Ha2. by split_and!.
Qed.

Lemma filled_Forall2 txs' txs :
  tx_data <$> txs' = fill_txdata <$> (tx_data <$> txs) <-> Forall2 filled txs' txs.
Proof. unfold filled. rewrite <- list_fmap_compose, list_eq_Forall2, Forall2_fmap. done. Qed.

(** Hash and size do not tell the two apart. *)
Lemma filled_EncodeRLP tx' tx : filled tx' tx -> Transaction_EncodeRLP tx' = Transaction_EncodeRLP tx.
Proof using nil_tx. intros E. unfold Transaction_EncodeRLP. by rewrite E, <- rlp_nil_tx. Qed.

Lemma filled_Size tx' tx : filled tx' tx -> tx_coherent tx -> tx_coherent tx' -> Transaction_Size tx' = Transaction_Size tx.
Proof using nil_tx. intros E Hc Hc'. by rewrite !coherent_Size, E, <- rlp_nil_tx. Qed.

Lemma filled_parts tx' tx i1 i2 o1 o2 f : filled tx' tx -> tx_parts tx i1 i2 o1 o2 f ->
  tx_parts tx' (fill_utxo i1) (fill_utxo i2) (fill_out o1) (fill_out o2) f.
Proof.
  intros E (Hi & Ho & Hf & Hk). unfold tx_parts. rewrite E. unfold fill_txdata, fill_int. cbn [Ins Outs data_Fee].
  by rewrite Hi, Ho, Hf.
Qed.

Lemma filled_checkable signer tx' tx : filled tx' tx -> tx_checkable signer tx -> tx_checkable signer tx'.
Proof using SignerDataLaws0.
  intros E [(i1 & i2 & o1 & o2 & f & Hp) [r Hs]]. split; [|exists r; by eapply Sender_fill].
  do 5 eexists. by eapply filled_parts.
Qed.

Lemma filled_rules L senders i1 i2 o1 o2 f size : tx_rules L senders i1 i2 o1 o2 f size <->
  tx_rules L senders (fill_utxo i1) (fill_utxo i2) (fill_out o1) (fill_out o2) f size.
Proof. split; intros []; by split. Qed.

Lemma txs_root_data txs txs' : Forall2 filled txs' txs -> txs_root txs' = txs_root txs.
Proof using nil_tx.
  intros E. unfold txs_root. f_equal. generalize trie_new.
  enough (Ek : forall k t, fold_left
    (fun t p => trie_Update t (default [] (rlp_EncodeToBytes (Z.of_nat p.1))) (default [] (Transaction_EncodeRLP p.2)))
    (imap (fun i tx => ((k + i)%nat, tx)) txs') t = fold_left
    (fun t p => trie_Update t (default [] (rlp_EncodeToBytes (Z.of_nat p.1))) (default [] (Transaction_EncodeRLP p.2)))
    (imap (fun i tx => ((k + i)%nat, tx)) txs) t) by (intros t; apply (Ek 0%nat)).
  induction E as [|tx' tx txs' txs Etx _ IH]; intros k t; [done|]. cbn [imap fold_left fst snd].
  rewrite !imap_pair_S. rewrite (filled_EncodeRLP tx' tx Etx). apply IH.
Qed.

Lemma real_ids_data txs txs' : Forall2 filled txs' txs -> all_real_ids txs' = all_real_ids txs.
Proof.
  intros E. unfold all_real_ids.
  induction E as [|tx' tx txs' txs Etx _ IH]; [done|]. rewrite !fmap_cons. cbn [concat].
  f_equal; [|exact IH]. unfold real_ids. rewrite Etx. unfold fill_txdata. cbn [Ins].
  destruct (Ins (tx_data tx)) as [[i1|] [i2|]]; done.
Qed.

(** Nothing a block is checked for depends on the caches of its transactions, or
    tells nil from zero. *)
Lemma checkable_data signer txs txs' : Forall2 filled txs' txs ->
  Forall (tx_checkable signer) txs -> Forall (tx_checkable signer) txs'.
Proof using SignerDataLaws0.
  induction 1 as [|tx' tx txs' txs Etx _ IH]; [done|]. rewrite !Forall_cons. intros [Htx Hall].
  split; [by eapply filled_checkable|auto].
Qed.

Lemma rules_data signer L txs txs' : Forall2 filled txs' txs -> Forall tx_coherent txs -> Forall tx_coherent txs' ->
  block_rules signer L txs -> block_rules signer L txs'.
Proof using SignerDataLaws0 nil_tx.
  intros E Hc Hc' [Hall Hnd]. split; [|by rewrite (real_ids_data txs)]. clear Hnd.
  induction E as [|tx' tx txs' txs Etx _ IH]; [done|].
  rewrite !Forall_cons in *. destruct Hc as [Hc Hcs], Hc' as [Hc' Hcs'], Hall as [Htx Hall]. split; [|auto].
  destruct Htx as (senders & i1 & i2 & o1 & o2 & f & Hp & Hs & Hr).
  exists senders, (fill_utxo i1), (fill_utxo i2), (fill_out o1), (fill_out o2), f.
  split; [by apply (filled_parts tx' tx)|]. split; [by apply (Sender_fill signer tx tx')|].
  rewrite (filled_Size tx' tx) by done. exact (proj1 (filled_rules _ _ _ _ _ _ _ _) Hr).
Qed.
End SameBlock.

Section Wire.
Context {G : Type} `{Crypto} `{!Signer G} `{!SignerDataLaws G} `{Trie} `{Rlp txdata} `{nil_tx : !RlpNilTxLaws} `{Rlp Header} `{Rlp Z}
  `{Rlp extblock} `{RlpStream} `{!RlpLaws txdata txdata_ok} `{!RlpStreamLaws txdata}
  `{!RlpLaws extblock extblock_ok} `{!RlpNilBlockLaws}.

(** A block the operator may announce: its transactions can be applied, its
    integers are not negative; a child block has sound transactions. *)
Record wire_ok (signer : G) (b : Block) (n : Z) : Prop := {
  wo_ok : block_ok signer b n;
  wo_hash : blk_hash b = None;
  wo_fill : forallb txdata_okb (fill_txdata <$> (tx_data <$> transactions b)) = true;
  wo_sound : n mod 1000 = 0 -> Forall tx_sound (transactions b)
}.

(** The block [b'] is what a peer reads of [b]. *)
Record received (b b' : Block) : Prop := {
  rc_header : header b' = header b;
  rc_hash : blk_hash b' = None;
  rc_txs : tx_data <$> transactions b' = fill_txdata <$> (tx_data <$> transactions b);
  rc_coherent : Forall tx_coherent (transactions b')
}.

Lemma wire_encodes signer b n : wire_ok signer b n ->
  exists data b', Block_EncodeRLP b = Some data /\ decode_block data = Some b' /\ received b b'.
Proof using All.
  intros [Hok Hh Hfill _]. unfold Block_EncodeRLP. rewrite rlp_nil_block.
  destruct (rlp_roundtrip (ok := extblock_ok) (mkExtblock (header b) (fill_txdata <$> (tx_data <$> transactions b))))
    as (data & E & _ & Ed).
  { cbn. by rewrite Hfill, (blk_header _ _ _ Hok). }
  unfold decode_block, Block_DecodeRLP. exists data. rewrite Ed.
  eexists. split; [done|]. split; [done|]. split; cbn; [done|done|by rewrite decoded_txs_same|].
  apply Forall_forall. intros tx (d & -> & Hd)%list_elem_of_fmap. split; [done|]. cbn. intros s [= <-].
  assert (Hdok : txdata_okb d = true) by (apply (proj1 (forallb_forall _ _) Hfill); by apply list_elem_of_In).
  destruct (rlp_roundtrip (ok := txdata_ok) d Hdok) as (bs & Ebs & _ & _). rewrite Ebs. cbn.
  by apply (rlp_ListSize_Kind d).
Qed.

Lemma received_filled b b' : received b b' -> Forall2 filled (transactions b') (transactions b).
Proof. intros Hrc. apply filled_Forall2, Hrc. Qed.

Lemma received_ok signer b n b' : wire_ok signer b n -> received b b' -> block_ok signer b' n.
Proof using SignerDataLaws0.
  intros Hw Hrc. pose proof Hw as [[Hh Hn Hr Hck Hout Hlen] _ _ _]. pose proof Hrc as [Eh _ Et _].
  split; rewrite ?Eh; try done.
  - intros Hm. eapply checkable_data; [by eapply received_filled|auto].
  - clear -Hout Et. revert Et. generalize (transactions b') as txs'.
    induction Hout as [|tx txs Htx _ IH]; intros [|tx' txs'] E; try discriminate; [done|].
    cbn in E. injection E as E1 E2. constructor; [by eapply applicable_fill|by apply IH].
  - apply (f_equal length) in Et. rewrite !length_fmap in Et. by rewrite Et.
Qed.
End Wire.

(** * What a validator does with an announced block *)

Section Follow.
Context {D G : Type} `{LRU} (view : forall V, lru V -> gmap Hash V) `{!LRULaws view}
  `{EthCommon} `{!EthCommonLaws} `{Crypto} `{!Signer G} `{!SignerDataLaws G} `{Copier} `{!CopierLaws}
  `{Trie} `{Rlp txdata} `{nil_tx : !RlpNilTxLaws} `{Rlp Header} `{Rlp rlpBody} `{Rlp Z} `{Rlp extblock} `{RlpStream} `{Database D}
  (abs : D -> txstore) (inv : D -> Prop) `{!DatabaseSpec D abs inv}
  (signer : G) (known : gset Hash).

(** The disk takes every commit. *)
Definition disk_ok : Prop := forall d, inv d -> is_Some (pending (abs d)) -> (db_CommitTx d).2 = None.

(** The validator between two blocks: child blocks above [c] are not in its
    database, and it has cached blocks of [known] hashes only. *)
Record va_inv (c : Z) (v : Validator D) : Prop := {
  vi_ready : ready abs inv (va_chain v);
  vi_ch : is_Some (va_newBlockCh v);
  vi_unseen m h : is_u64 m -> m mod 1000 = 0 -> c < m ->
    committed (abs (bc_db (va_chain v))) !! key_of (KHeader m h) = None;
  vi_cache h : is_Some (view Block (bc_blockCache (va_chain v)) !! h) -> h ∈ known
}.

Lemma start_block_cache (bc bc' : BlockChain D) block : start_block signer bc block = Ret (bc', None) ->
  view Block (bc_blockCache bc') = view Block (bc_blockCache bc).
Proof using All.
  unfold start_block. destruct (db_BeginTx (bc_db bc)) as [d nd]. destruct nd; [|done]. cbn [negb].
  intros E. apply gbind_Ret in E as [num [_ E]]. apply gbind_Ret in E as [[bc1 e1] [E1 E]].
  destruct e1; [done|].
  assert (Hc : view Block (bc_blockCache bc1) = view Block (bc_blockCache bc)).
  { destruct (negb _) in E1.
    - unfold WriteDepositBlock in E1. apply gbind_Ret in E1 as [d' [_ E1]]. by injection E1 as <-.
    - unfold BC_WriteBlock in E1. apply gbind_Ret in E1 as [[bc2 e2] [E2 E1]]. destruct e2; [done|].
      apply gbind_Ret in E1 as [d' [_ E1]]. injection E1 as <-. cbn [bc_blockCache set_db].
      unfold chain_ValidateBody in E2. apply gbind_Ret in E2 as [[v2 e2] [E2 E3]]. injection E3 as Ev ->. subst bc2.
      unfold ValidateBody in E2. apply gbind_Ret in E2 as [number [_ E2]].
      cbn [br_HasBlock BlockChain_BlockReader bv_blcReader NewUtxoBlockValidator] in E2.
      unfold BC_HasBlock, GetBlock in E2. cbn [bc_blockCache set_db bc_db] in E2.
      pose proof (lru_Get_view Block (bc_blockCache bc) (Block_Hash block)) as Hg.
      destruct (lru_Get _ _) as [cache [b|]]; cbn [fst snd] in *; [done|].
      destruct (ReadBlock _ _ _); [done|]. cbn in E2.
      rewrite DeriveSha_total in E2. cbn [gbind] in E2. case_decide; [|done].
      apply gbind_Ret in E2 as [e3 [_ E2]]. by injection E2 as <- _. }
  apply gbind_Ret in E as [cur [_ E]]. apply gbind_Ret in E as [cn [_ E]].
  apply gbind_Ret in E as [bc2 [E2 E]]. injection E as <-. rewrite <- Hc.
  destruct (cn <? num); [|by injection E2 as <-].
  unfold ReplaceHead, insert in E2. apply gbind_Ret in E2 as [n [_ E2]]. case_match; by injection E2 as <-.
Qed.
(** The last child number the validator knows, after block [n]. *)
Definition next_child (c n : Z) : Z := if decide (n mod 1000 = 0) then n else c.

(** A child block above all those the validator has is unknown to it. *)
Lemma unseen_unknown c v b' n : va_inv c v -> is_u64 n -> n mod 1000 = 0 -> c < n -> Block_Hash b' ∉ known ->
  (BC_HasBlock (begun (va_chain v)) (Block_Hash b') n).2 = false.
Proof using All.
  intros [Hr _ Hun Hcache] Hu Hn Hc Hk. destruct (begun_in_tx abs inv _ Hr) as (_ & Htx & _ & _ & _).
  unfold BC_HasBlock, GetBlock. cbn [bc_blockCache begun set_db].
  pose proof (lru_Get_value Block (bc_blockCache (va_chain v)) (Block_Hash b')) as Hg.
  destruct (lru_Get _ _) as [cache [b|]]; cbn [snd] in *.
  { exfalso. apply Hk, Hcache. by rewrite <- Hg. }
  assert (E : ReadBlock (bc_db (begun (va_chain v))) (Block_Hash b') n = None).
  { unfold ReadBlock, ReadHeader, ReadHeaderRLP.
    rewrite (get_committed abs inv), (in_tx_committed _ _ _ _ Htx) by apply Htx.
    change (headerKey n (Block_Hash b')) with (key_of (KHeader n (Block_Hash b'))). by rewrite Hun. }
  cbn [bc_db set_blockCache]. cbn [bc_db begun set_db] in *. by rewrite E.
Qed.

Lemma header_kept (cn : Z) (d : D) (block : Block) (n : Z) (k : dbkey) (m : gmap bytes bytes) (j : Z) (h : Hash) : is_u64 n -> key_ok k -> k = KHeader j h -> j <> n ->
  apply_wops (block_ops cn d block n) m !! key_of k = m !! key_of k.
Proof.
  intros Hn Hk -> Hj. assert (Hkn : key_ok (KCanonical n)) by done.
  assert (forall h', KHeader n h' <> KHeader j h) by (intros h' [=]; congruence).
  unfold block_ops, chain_ops, header_ops, body_op, insert_ops.
  destruct (cn <? n); [destruct (moved d block n)|]; cbn [apply_wops fold_left apply_wop app]; by key_lookup.
Qed.

(** The validator takes the block the operator announced: same ledger update, and
    the same is true of it for what comes after. *)
Lemma Va_WriteBlock_follows c (v : Validator D) sent b b' n :
  disk_ok -> va_inv c v -> va_newBlockCh v = Some sent -> wire_ok signer b n -> received b b' ->
  Header_Hash (header b) ∉ known ->
  (n mod 1000 = 0 -> c < n /\ txs_root (transactions b) = TxHash (header b) /\
     block_rules signer (chain_ledger abs (va_chain v)) (transactions b)) ->
  exists v', Va_WriteBlock signer v b' = Ret (v', None) /\ va_inv (next_child c n) v' /\
    chain_ledger abs (va_chain v') = ledger_block n (transactions b) (chain_ledger abs (va_chain v)) /\
    va_newBlockCh v' = Some (sent ++ [b']).
Proof using All.
  intros Hdisk Hv Hch Hw Hrc Hk Hchild. pose proof Hv as [Hr _ Hun Hcache].
  pose proof (received_ok signer b n b' Hw Hrc) as Hok'. pose proof (block_number_u64 _ _ _ Hok') as Hu.
  assert (Hh : Block_Hash b' = Header_Hash (header b)).
  { unfold Block_Hash. by rewrite (rc_hash _ _ Hrc), (rc_header _ _ Hrc). }
  assert (Hvalid : n mod 1000 = 0 -> block_valid signer (begun (va_chain v)) b' n).
  { intros Hn. destruct (Hchild Hn) as (Hc & Hroot & Hrules).
    pose proof (received_filled b b' Hrc) as Hsame.
    apply (block_valid_rules abs inv); [done|done|done|].
    split; [apply (unseen_unknown c); try done; by rewrite Hh|].
    rewrite (txs_root_data _ _ Hsame), (rc_header _ _ Hrc). split; [done|].
    eapply rules_data; [exact Hsame| |apply Hrc|done].
    eapply Forall_impl; [exact (wo_sound _ _ _ Hw Hn)|]. by intros ? []. }
  destruct (chain_write_spec abs inv del_input_lax signer (va_chain v) b' n (del_input_lax_good abs inv) Hr Hok')
    as (bc1 & [e1|] & E1 & Hm).
  { destruct Hm as (_ & _ & Hn & Hx). by destruct (Hx (Hvalid Hn)). }
  destruct Hm as (_ & bc2 & e2 & E2 & Hr2 & Hm2).
  destruct e2 as [e2|].
  { destruct Hm2 as (_ & d & Hp & Hi & He). by rewrite Hdisk in He. }
  destruct (ready_head _ _ _ Hr) as (cur & cn & Hcur & Hcn).
  destruct (chain_write_committed abs inv del_input_lax signer _ bc1 bc2 b' n cur cn
    (del_input_lax_utxo abs inv) Hr Hok' Hcur Hcn E1 E2) as (_ & _ & Hcom).
  assert (Hbc2 : bc_blockCache bc2 = bc_blockCache bc1).
  { unfold finish_block in E2. apply gbind_Ret in E2 as [[d3 [e3|]] [_ E2]]; [done|].
    destruct (db_CommitTx _) as [d4 [e4|]]; [done|]. by injection E2 as <-. }
  unfold Va_WriteBlock. rewrite E1. cbn [gbind].
  unfold Block_NumberU64. rewrite (Header_NumberU64_Some _ n (blk_number _ _ _ Hok') Hu).
  cbn [gbind va_newBlockCh va_set_chain]. rewrite Hch. cbn [send gbind Va_SubscribeNewBlockCh va_chain va_set_chain].
  rewrite E2. cbn [gbind]. eexists. split; [done|]. cbn [va_chain va_set_chain va_newBlockCh].
  split_and!; [|by rewrite Hm2, (ledger_block_fill n (transactions b)); [|apply Hw|apply Hrc]|done].
  split; cbn [va_chain va_newBlockCh]; [done|by eexists| |].
  - intros m h Hmu Hm0 Hlt. assert (m <> n /\ c < m) as [Hne Hlt'].
    { unfold next_child in Hlt. case_decide as Hd; [specialize (Hchild Hd); lia|split; [by intros ->|done]]. }
    rewrite Hcom, (header_kept _ _ _ _ _ _ m h) by done. by apply Hun.
  - intros h Hin. apply Hcache. cbn in Hin. by rewrite Hbc2, (start_block_cache _ _ _ E1) in Hin.
Qed.
End Follow.

(** * What the operator announces *)

Section Announce.
Context {D G : Type} `{LRU} (view : forall V, lru V -> gmap Hash V)
  `{EthCommon} `{!EthCommonLaws} `{Crypto} `{!Signer G} `{Copier} `{!CopierLaws}
  `{Trie} `{Rlp txdata} `{Rlp Header} `{Rlp rlpBody} `{Rlp Z} `{Rlp extblock} `{RlpStream} `{!IcstChain}
  `{Database D} (abs : D -> txstore) (inv : D -> Prop) `{!DatabaseSpec D abs inv}
  (cxAddr : string) (signer : G) (known : gset Hash).

Abbreviation op_ledger o := (chain_ledger abs (op_chain o)).

(** The blocks [bs] take the ledger [L] of a node that knows child blocks up to
    [c] to the ledger [L'] of the operator, whose last child number is [c']. *)
Inductive flight : Z -> ledger -> list Block -> Z -> ledger -> Prop :=
| flight_nil c L c' : c <= c' -> flight c L [] c' L
| flight_block c L b n bs c' L' :
    wire_ok signer b n -> Header_Hash (header b) ∉ known ->
    (n mod 1000 = 0 -> c < n /\ txs_root (transactions b) = TxHash (header b) /\
       block_rules signer L (transactions b)) ->
    flight (next_child c n) (ledger_block n (transactions b) L) bs c' L' ->
    flight c L (b :: bs) c' L'.

Lemma flight_elem c L bs c' L' b : flight c L bs c' L' -> b ∈ bs ->
  exists n, wire_ok signer b n /\ (Header_Hash (header b) ∉ known).
Proof.
  induction 1 as [|? ? b' ? ? ? ? Hw Hk ? ? IH]; intros Hin; [by apply elem_of_nil in Hin|].
  apply elem_of_cons in Hin as [->|Hin]; [eauto|auto].
Qed.

Lemma flight_le c L bs c' L' : flight c L bs c' L' -> c <= c'.
Proof.
  induction 1 as [|c L b n bs c' L' _ _ Hn _ IH]; [done|].
  unfold next_child in IH. case_decide as Hd; [|done]. destruct (Hn Hd). lia.
Qed.

Lemma flight_app c L bs c1 L1 bs' c2 L2 :
  flight c L bs c1 L1 -> flight c1 L1 bs' c2 L2 -> flight c L (bs ++ bs') c2 L2.
Proof.
  induction 1 as [c L c' Hle|c L b n bs c' L' Hw Hk Hn _ IH]; intros H2'.
  - cbn. clear -H2' Hle. revert c Hle. induction H2' as [c1 L c2 Hle2|c1 L b n bs c2 L2 Hw Hk Hn Hf IH]; intros c Hle.
    + constructor. lia.
    + econstructor; [exact Hw|done|intros Hm; destruct (Hn Hm); split; [lia|done]|].
      apply IH. unfold next_child. case_decide; lia.
  - cbn. econstructor; eauto.
Qed.

(** A block that may be announced: no known hash, a child block has sound
    transactions. *)
Definition announce_ok (b : Block) : Prop :=
  (Header_Hash (header b) ∉ known) /\
  forall n, Number (header b) = Some n -> n mod 1000 = 0 -> Forall tx_sound (transactions b).

(** [WriteBlock] announces a block if and only if it commits it. *)
Lemma WriteBlock_announces (o o' : Operator D G) block n sent e :
  disk_ok abs inv -> ready abs inv (op_chain o) -> block_ok signer block n -> op_newBlockCh o = Some sent ->
  WriteBlock signer o block = Ret (o', e) ->
  op_currentChildBlock o' = op_currentChildBlock o /\
  match e with
  | None => op_newBlockCh o' = Some (sent ++ [block]) /\
            op_ledger o' = ledger_block n (transactions block) (op_ledger o) /\
            (n mod 1000 = 0 -> txs_root (transactions block) = TxHash (header block) /\
               block_rules signer (op_ledger o) (transactions block))
  | Some _ => op_newBlockCh o' = Some sent /\ op_ledger o' = op_ledger o
  end.
Proof using All.
  intros Hdisk Hr Hok Hch E. unfold WriteBlock in E.
  destruct (chain_write_spec abs inv del_input signer (op_chain o) block n (del_input_good abs inv) Hr Hok)
    as (bc1 & e1 & E1 & Hm). rewrite E1 in E. cbn [gbind] in E. destruct e1 as [e1|].
  { destruct Hm as (_ & Hc & _). injection E as <- <-. split_and!; [done|done|].
    cbn. unfold chain_ledger. by rewrite Hc. }
  destruct Hm as (Hv & bc2 & e2 & E2 & _ & Hm2). cbn [op_newBlockCh op_set_chain] in E. rewrite Hch in E.
  cbn [send gbind op_set_newBlockCh op_chain op_set_chain] in E. rewrite E2 in E. cbn [gbind] in E.
  injection E as <- <-. split; [done|]. destruct e2 as [e2|].
  { destruct Hm2 as (_ & d & Hp & Hi & He). by rewrite Hdisk in He. }
  split_and!; [done|done|]. intros Hn.
  destruct (proj1 (block_valid_rules abs inv signer (op_chain o) block n Hr Hok Hn) (Hv Hn)) as (_ & ? & ?). done.
Qed.

(** What one step of the operator puts on the channel accounts for what it did
    to the ledger. *)
Definition accounts (o o' : Operator D G) : Prop :=
  forall sent, op_newBlockCh o = Some sent -> exists bs, op_newBlockCh o' = Some (sent ++ bs) /\
    (Forall announce_ok bs ->
     flight (op_currentChildBlock o) (op_ledger o) bs (op_currentChildBlock o') (op_ledger o')).

Lemma accounts_same (o o' : Operator D G) : op_newBlockCh o' = op_newBlockCh o ->
  op_ledger o' = op_ledger o -> op_currentChildBlock o' = op_currentChildBlock o -> accounts o o'.
Proof.
  intros Hch HL Hc sent Hs. exists []. rewrite app_nil_r, Hch, HL, Hc. split; [done|]. intros _.
  by constructor.
Qed.

Lemma Seal_accounts now (o o' : Operator D G) txs e :
  disk_ok abs inv -> op_inv abs inv o -> batch_ok signer txs -> 0 <= now ->
  op_currentChildBlock o + 1000 < 2 ^ 63 -> Seal cxAddr signer now o txs = Ret (o', e) -> accounts o o'.
Proof using All.
  intros Hdisk [Hr _ _ [Hmod Hcc] _] Hb Hnow Hmax E sent Hch. unfold Seal in E.
  rewrite constructBlock_spec in E by done. cbn [gbind] in E.
  set (n := op_currentChildBlock o + 1000) in *. set (block := mkBlock _ _ _ _ _) in *.
  assert (Hn : n mod 1000 = 0) by (unfold n; dlia).
  assert (Hok : block_ok signer block n) by (apply constructed_ok; [unfold n; lia|done|done]).
  apply gbind_Ret in E as [[o1 e1] [E1 E]].
  destruct (WriteBlock_announces (op_set_child o n) o1 block n sent e1 Hdisk Hr Hok Hch E1) as [Hc1 Hm].
  cbn [op_currentChildBlock op_set_child op_chain] in Hc1, Hm. destruct e1 as [e1|].
  { injection E as <- _. destruct Hm as [Hch1 HL]. exists []. rewrite app_nil_r, HL, Hc1.
    split; [done|]. intros _. constructor. unfold n. lia. }
  apply gbind_Ret in E as [pool [_ E]]. apply gbind_Ret in E as [e2 [_ E]]. injection E as <- _.
  destruct Hm as (Hch1 & HL & Hv). destruct (Hv Hn) as [Hroot Hrules].
  cbn [op_newBlockCh op_set_pool op_chain op_currentChildBlock].
  exists [block]. split; [done|]. intros [[Hk Hs] _]%Forall_cons. specialize (Hs n eq_refl Hn).
  rewrite HL, Hc1. apply (flight_block _ _ _ n); [|done|split; [unfold n; lia|done]|].
  - split; [done|done| |done]. rewrite forallb_forall. intros d Hd. apply list_elem_of_In in Hd.
    apply list_elem_of_fmap in Hd as (d' & -> & Hd). apply list_elem_of_fmap in Hd as (tx & -> & Hd).
    rewrite Forall_forall in Hs. by apply (Hs tx Hd).
  - unfold next_child. rewrite decide_True by done. constructor. done.
Qed.

Lemma deposit_fill_ok depositor amount : 0 <= amount ->
  txdata_okb (fill_txdata (tx_data (deposit_tx depositor (Some amount)))) = true.
Proof.
  intros Ha. unfold txdata_okb, TxOut_okb, Sig_okb. cbn -[Z.leb UTXO_okb].
  by rewrite (proj2 (Z.leb_le 0 amount)).
Qed.

Lemma deposit_accounts now (o o' : Operator D G) n depositor token amount e :
  disk_ok abs inv -> op_inv abs inv o -> 0 < n < 2 ^ 63 -> n mod 1000 <> 0 -> 0 <= amount -> 0 <= now ->
  handleDepositEvent signer now o (Some n) depositor token (Some amount) = Ret (o', e) -> accounts o o'.
Proof using All.
  intros Hdisk [Hr _ _ _ _] Hn Hm Ha Hnow E sent Hch.
  destruct (handleDepositEvent_block abs inv signer now o n depositor token amount Hr Hn Hm Ha Hnow)
    as (block & Hok & Htxs & Hnone & Eb). rewrite Eb in E.
  destruct (WriteBlock_announces o o' block n sent e Hdisk Hr Hok Hch E) as [Hc1 Hres].
  destruct e as [e|].
  { destruct Hres as [Hch1 HL]. exists []. rewrite app_nil_r, HL, Hc1. split; [done|]. intros _. by constructor. }
  destruct Hres as (Hch1 & HL & _). exists [block]. split; [done|]. intros [[Hk _] _]%Forall_cons.
  rewrite HL, Hc1. apply (flight_block _ _ _ n); [|done|done|].
  - split; [done|done| |done]. rewrite Htxs. cbn [fmap list_fmap forallb]. by rewrite deposit_fill_ok.
  - unfold next_child. rewrite decide_False by done. by constructor.
Qed.

Lemma step_accounts (o o' : Operator D G) a :
  disk_ok abs inv -> run_inv abs inv signer o -> op_step abs cxAddr signer o a o' -> accounts o o'.
Proof using All.
  intros Hdisk Hri Hstep. pose proof (ri_op _ _ _ _ Hri) as Hop.
  destruct Hstep as [o _|o txs _|o now o' Hnow Hmax E|o now n dep tok amount o' e Hnow Hn Hm Ha _ E
    |o txs o' _ E|o tx pool e _ E|o now age pool E|o last sub o' e E].
  - unfold start_tick. case_match; by apply accounts_same.
  - unfold AddTxs. case_match; by apply accounts_same.
  - unfold processTxs_one in E. destruct (op_TxsCh o) as [|txs rest] eqn:Et.
    { injection E as <-. by apply accounts_same. }
    apply gbind_Ret in E as [[o1 e1] [E1 E]]. injection E as <-.
    assert (Hb : batch_ok signer txs).
    { pose proof (ri_batches _ _ _ _ Hri) as Hall. rewrite Et in Hall. by apply Forall_cons in Hall as [? _]. }
    apply (Seal_accounts now (op_set_TxsCh o rest) o1 txs e1); try done. by apply op_set_TxsCh_inv.
  - eapply deposit_accounts; [done|done| | | | |exact E]; done.
  - unfold Op_ProcessRemoteTxs in E. apply gbind_Ret in E as [[pool es] [_ E]]. injection E as <-.
    by apply accounts_same.
  - by apply accounts_same.
  - by apply accounts_same.
  - unfold completeBlockSubmit in E. apply gbind_Ret in E as [? [_ E]]. apply gbind_Ret in E as [? [_ E]].
    apply gbind_Ret in E as [? [_ E]]. injection E as <- _. by apply accounts_same.
Qed.
End Announce.

(** * The two nodes and the network between them *)

Section Cluster.
Context {D G : Type} `{LRU} (view : forall V, lru V -> gmap Hash V) `{!LRULaws view}
  `{EthCommon} `{!EthCommonLaws} `{Crypto} `{!Signer G} `{!SignerDataLaws G} `{Copier} `{!CopierLaws}
  `{Trie} `{Rlp txdata} `{nil_tx : !RlpNilTxLaws} `{Rlp Header} `{Rlp rlpBody} `{Rlp Z} `{Rlp extblock} `{RlpStream} `{!IcstChain}
  `{Database D} (abs : D -> txstore) (inv : D -> Prop) `{!DatabaseSpec D abs inv}
  `{!RlpLaws txdata txdata_ok} `{!RlpStreamLaws txdata} `{!RlpLaws extblock extblock_ok} `{!RlpNilBlockLaws}
  `{HashSet} (sview : hset -> gset Hash) `{!HashSetLaws sview} `{GoRange} {range_laws : GoRangeLaws}
  {RW : Type} `{ContractQuery} (cxAddr : string) (signer : G) (known : gset Hash) (net : Net) (oid vid : PeerID).

Abbreviation op_ledger o := (chain_ledger abs (op_chain o)).
Abbreviation va_ledger v := (chain_ledger abs (va_chain v)).

#[local] Instance operator_worker : Worker (Operator D G) :=
  Operator_Worker signer (fun o => NewUtxoTxValidator signer (bc_db (op_chain o))).
#[local] Instance validator_worker : Worker (Validator D) := Validator_Worker signer.
#[local] Instance validator_node_chain : NodeChain (Validator D) := {|
  w_CurrentBlock v := BC_CurrentBlock (va_chain v);
  w_GetBlockByNumber v n := let (bc, b) := GetBlockByNumber (va_chain v) n in (va_set_chain v bc, b)
|}.

(** The operator's node, the validator's, and the block messages on their way
    from the one to the other, in the order they were sent. (Each goes over a stream
    of its own, which need not keep that order; the runs below are those where it is
    kept.) *)
Record cluster : Type := mkCluster {
  cl_op : Node (Operator D G);
  cl_va : Node (Validator D);
  cl_wire : list bytes
}.

(** The block messages for the validator among those sent. *)
Definition to_validator (sent : list (string * PeerID * bytes)) : list bytes :=
  omap (fun m => if decide (m.1 = (blockProto, vid)) then Some m.2 else None) sent.

Definition newly_sent (nd nd' : Node (Operator D G)) : list (string * PeerID * bytes) :=
  drop (length (lh_sent (nd_host nd))) (lh_sent (nd_host nd')).

(** What the contract answers while the validator's [downloadBlocks] takes a turn: it
    has no block above the head of the validator, and its numbers fit. *)
Definition nothing_new (rc : RootChain RW) (v : Validator D) : Prop :=
  (forall n k, current_number v = Ret n -> n < k -> (GetRootChainBlockByBlockNum rc k).1 = zeroHash) /\
  (forall n, current_number v = Ret n -> 0 <= n < 2 ^ 62) /\
  (forall m, getMaxBlockNum rc = Ret (inl m) -> m < 2 ^ 62).

(** The network moves: a turn of either broadcast, a delivery of the message sent
    first; or the validator's [downloadBlocks] takes a turn that finds nothing new. *)
Inductive net_step : cluster -> cluster -> Prop :=
| cl_broadcast c nd' : broadcastBlock net (cl_op c) = Ret nd' ->
    net_step c (mkCluster nd' (cl_va c) (cl_wire c ++ to_validator (newly_sent (cl_op c) nd')))
| cl_deliver c data rest nd' e : cl_wire c = data :: rest -> recvBlock (cl_va c) oid (data, None) = Ret (nd', e) ->
    net_step c (mkCluster (cl_op c) nd' rest)
| cl_relay c nd' : broadcastBlock net (cl_va c) = Ret nd' -> net_step c (mkCluster (cl_op c) nd' (cl_wire c))
| cl_download c (rc : RootChain RW) fuel cur nd' cur' stop : nothing_new rc (nd_worker (cl_va c)) ->
    downloadBlocks_turn rc fuel net (cl_va c) cur = Ret (nd', cur', stop) ->
    net_step c (mkCluster (cl_op c) nd' (cl_wire c)).

(** Or the operator does: its ticks, batches, deposits, remote transactions. *)
Inductive cl_step : cluster -> cluster -> Prop :=
| cl_net c c' : net_step c c' -> cl_step c c'
| cl_operator c a o' : op_step abs cxAddr signer (nd_worker (cl_op c)) a o' ->
    (forall sent bs, op_newBlockCh (nd_worker (cl_op c)) = Some sent -> op_newBlockCh o' = Some (sent ++ bs) ->
       Forall (announce_ok known) bs) ->
    cl_step c (mkCluster (mkNode (nd_host (cl_op c)) o') (cl_va c) (cl_wire c)).

(** The validator is connected to the operator, which takes it to know blocks of
    [known] hashes only. *)
Definition connected (lh : P2PLocalHost) : Prop :=
  host_wf lh /\ exists pc, lh_RemotePeerCaches lh !! vid = Some pc /\ sview (pc_KnownBlock pc) ⊆ known.

(** The blocks in flight, on the wire and then on the operator's channel, make up
    the difference between the ledgers. *)
Record cluster_inv (c : cluster) : Prop := {
  ci_op : run_inv abs inv signer (nd_worker (cl_op c));
  ci_conn : connected (nd_host (cl_op c));
  ci_host : host_wf (nd_host (cl_va c));
  ci_flight : exists k bs sent, va_inv view abs inv known k (nd_worker (cl_va c)) /\
    op_newBlockCh (nd_worker (cl_op c)) = Some sent /\
    Forall2 (fun data b => Block_EncodeRLP b = Some data) (cl_wire c) bs /\
    flight signer known k (va_ledger (nd_worker (cl_va c))) (bs ++ sent)
      (op_currentChildBlock (nd_worker (cl_op c))) (op_ledger (nd_worker (cl_op c)))
}.

Lemma to_validator_once (ps : list PeerID) data : NoDup ps -> vid ∈ ps ->
  to_validator ((fun p => (blockProto, p, data)) <$> ps) = [data].
Proof.
  unfold to_validator. intros Hnd Hin. apply list_elem_of_split in Hin as (l1 & l2 & ->).
  apply NoDup_app in Hnd as (_ & Hd & Hnd). apply NoDup_cons in Hnd as [Hn2 _].
  rewrite fmap_app, fmap_cons, omap_app. cbn [omap list_omap fst snd].
  assert (Hnil : forall l : list PeerID, vid ∉ l ->
    omap (fun m : string * PeerID * bytes => if decide (m.1 = (blockProto, vid)) then Some m.2 else None)
      ((fun p => (blockProto, p, data)) <$> l) = []).
  { induction l as [|p l IH]; [done|]. intros Hv. apply not_elem_of_cons in Hv as [Hp Hv]. cbn.
    rewrite decide_False by congruence. by apply IH. }
  rewrite decide_True by done. rewrite (Hnil l1), (Hnil l2); [done|done|].
  intros Hv. by apply (Hd vid Hv), list_elem_of_here.
Qed.

(** A turn of the operator's broadcast moves the first block of the channel to the
    wire. *)
Lemma broadcast_moves (c : cluster) : net_up net -> cluster_inv c ->
  exists nd', broadcastBlock net (cl_op c) = Ret nd' /\
    let c' := mkCluster nd' (cl_va c) (cl_wire c ++ to_validator (newly_sent (cl_op c) nd')) in
    cluster_inv c' /\ op_ledger (nd_worker nd') = op_ledger (nd_worker (cl_op c)) /\
    op_newBlockCh (nd_worker nd') = tail <$> op_newBlockCh (nd_worker (cl_op c)).
Proof using All.
  intros Hup [Hop [Hwf (pc & Hpc & Hknown)] Hhost (k & bs & sent & Hva & Hch & Hwire & Hfl)].
  unfold broadcastBlock. cbn [w_newBlockCh operator_worker Operator_Worker]. rewrite Hch.
  destruct sent as [|b rest].
  { exists (cl_op c). split; [done|]. unfold newly_sent. rewrite drop_all, app_nil_r.
    split; [|done]. split; [done|by split; [|exists pc]|done|]. by exists k, bs, []. }
  destruct (flight_elem _ _ _ _ _ _ _ b Hfl) as (n & Hw & Hk); [set_solver|].
  destruct (wire_encodes signer b n Hw) as (data & _ & Hdata & _). pose proof (wo_hash _ _ _ Hw) as Hnone.
  rewrite Hdata.
  destruct (send_all_up net blockProto data (PeerIDsWithoutBlock (nd_host (cl_op c)) (Block_Hash b)) Hup (nd_host (cl_op c)))
    as (lh' & -> & Hc & Hs). cbn [gbind]. eexists. split; [done|]. cbn [nd_worker nd_host].
  split_and!; [|done|done].
  unfold newly_sent. cbn [nd_host]. rewrite Hs, drop_app_length.
  rewrite to_validator_once; [|by apply NoDup_PeerIDsWithoutBlock|].
  2: { apply (PeerIDsWithoutBlock_spec sview); [done|]. exists pc. split; [done|]. intros Hx. apply Hk, Hknown.
       unfold Block_Hash in Hx. by rewrite Hnone in Hx. }
  split; cbn [cl_op cl_va cl_wire nd_worker nd_host].
  - destruct Hop as [[? ? ? ? ?] ? ? ?]. split; [split|..]; try done. by eexists.
  - split; [unfold host_wf; by rewrite Hc|]. exists pc. by rewrite Hc.
  - done.
  - exists k, (bs ++ [b]), rest. split_and!; [done|done|apply Forall2_app; [done|by repeat constructor]|].
    by rewrite <- app_assoc.
Qed.

(** A delivery is never refused, and keeps the account. *)
Lemma deliver_accepts (c : cluster) data rest : disk_ok abs inv -> cluster_inv c -> cl_wire c = data :: rest ->
  exists nd', recvBlock (cl_va c) oid (data, None) = Ret (nd', None) /\ cluster_inv (mkCluster (cl_op c) nd' rest).
Proof using All.
  intros Hdisk [Hop Hconn Hhost (k & bs & sent & Hva & Hch & Hwire & Hfl)] Hw. rewrite Hw in Hwire.
  apply Forall2_cons_inv_l in Hwire as (b & bs' & Henc & Hwire & ->). cbn [app] in Hfl.
  inversion Hfl as [|? ? ? n ? ? ? Hwo Hk Hn Hrest]; subst.
  destruct (wire_encodes signer b n Hwo) as (data' & b' & E1 & E2 & Hrc). rewrite Henc in E1. injection E1 as <-.
  destruct (vi_ch _ _ _ _ _ _ Hva) as [vsent Hvch].
  destruct (Va_WriteBlock_follows view abs inv signer known k (nd_worker (cl_va c)) vsent b b' n
    Hdisk Hva Hvch Hwo Hrc Hk Hn) as (v' & Ev & Hva' & HL & Hvch').
  unfold recvBlock. cbn [fst]. rewrite E2.
  destruct (MarkBlock_spec sview (nd_host (cl_va c)) oid b' Hhost) as (host & -> & Hhost' & _). cbn [gbind].
  cbn [w_WriteBlock w_newBlockCh w_SubscribeNewBlockCh validator_worker Validator_Worker].
  rewrite Ev. cbn [gbind]. rewrite Hvch'. cbn [send gbind]. eexists. split; [done|].
  split; cbn [cl_op cl_va cl_wire nd_host nd_worker]; [done|done|done|].
  exists (next_child k n), bs', sent. split_and!; [|done|done|].
  - destruct Hva' as [? _ ? ?]. split; cbn [va_chain va_newBlockCh Va_SubscribeNewBlockCh]; try done.
  - cbn [va_chain Va_SubscribeNewBlockCh]. by rewrite HL.
Qed.

Lemma send_all_caches proto msgs : forall lh lh', send_all net proto lh msgs = Ret lh' ->
  lh_RemotePeerCaches lh' = lh_RemotePeerCaches lh.
Proof.
  unfold send_all. induction msgs as [|m msgs IH]; intros lh lh' Es; cbn [gfold] in Es; [by injection Es as <-|].
  apply gbind_Ret in Es as [lh1 [Es1 Es]]. apply gbind_Ret in Es1 as [[lh2 e2] [E2 Es1]]. injection Es1 as <-.
  rewrite (IH _ _ Es). by eapply SendMsg_caches.
Qed.

Lemma relay_inv (c : cluster) : net_up net -> cluster_inv c ->
  forall nd', broadcastBlock net (cl_va c) = Ret nd' -> cluster_inv (mkCluster (cl_op c) nd' (cl_wire c)).
Proof using All.
  intros Hup [Hop Hconn Hhost (k & bs & sent & Hva & Hch & Hwire & Hfl)] nd' E.
  destruct (vi_ch _ _ _ _ _ _ Hva) as [vsent Hvch]. unfold broadcastBlock in E.
  cbn [w_newBlockCh w_SubscribeNewBlockCh validator_worker Validator_Worker] in E. rewrite Hvch in E.
  destruct vsent as [|b vsent].
  { injection E as <-. split; try done. by exists k, bs, sent. }
  apply gbind_Ret in E as [host [Es E]]. injection E as <-.
  assert (Hc : lh_RemotePeerCaches host = lh_RemotePeerCaches (nd_host (cl_va c))) by by eapply send_all_caches.
  split; cbn [cl_op cl_va cl_wire nd_host nd_worker]; [done|done|unfold host_wf; by rewrite Hc|].
  exists k, bs, sent. split_and!; try done.
  destruct Hva as [? _ ? ?]. split; cbn [va_chain va_newBlockCh Va_SubscribeNewBlockCh]; try done.
Qed.

(** A turn of the download that finds nothing new leaves the node as it is. *)
Lemma download_idle (rc : RootChain RW) fuel n max : forall (nd : Node (Validator D)) b cur nd' cur' stop,
  (forall k, n < k -> (GetRootChainBlockByBlockNum rc k).1 = zeroHash) -> 0 <= n -> n < b -> max < 2 ^ 62 ->
  download_pass rc fuel net nd b max cur = Ret (nd', cur', stop) -> nd' = nd.
Proof.
  induction fuel as [|fuel IH]; intros nd b cur nd' cur' stop Hz Hn Hb Hmax E; cbn [download_pass] in E;
    (destruct (Z.leb_spec b max) as [Hle|Hlt]; [|by injection E as <-]); [done|].
  apply gbind_Ret in E as [cur1 [_ E]]. rewrite decide_True in E by auto. rewrite skip_to_spec in E by lia.
  eapply IH; [exact Hz|done| |exact Hmax|exact E]. dlia.
Qed.

Lemma turn_idle (rc : RootChain RW) fuel (nd : Node (Validator D)) cur nd' cur' stop :
  nothing_new rc (nd_worker nd) -> downloadBlocks_turn rc fuel net nd cur = Ret (nd', cur', stop) -> nd' = nd.
Proof.
  intros (Hz & Hn & Hmax) E. unfold downloadBlocks_turn in E. apply gbind_Ret in E as [[max|e] [Em E]]; [|by injection E as <-].
  destruct (max <=? cur); [by injection E as <-|]. apply gbind_Ret in E as [n [En E]]. specialize (Hn n En).
  rewrite i64_small in E by lia.
  eapply (download_idle rc fuel n max); [by intros k; apply Hz| | |by apply Hmax|exact E]; lia.
Qed.

Lemma cl_step_inv (c c' : cluster) : net_up net -> disk_ok abs inv -> cluster_inv c -> cl_step c c' -> cluster_inv c'.
Proof using All.
  intros Hup Hdisk Hc Hstep. revert Hc.
  destruct Hstep as [c1 c2 [c3 nd E|c3 data rest nd e Hw E|c3 nd E|c3 rc fuel cur nd cur' stop Hnew E]|c1 a o' Hs Hann]; intros Hc.
  - destruct (broadcast_moves c3 Hup Hc) as (nd' & E' & Hinv & _). rewrite E in E'. by injection E' as <-.
  - destruct (deliver_accepts c3 data rest Hdisk Hc Hw) as (nd' & E' & Hinv). rewrite E in E'. by injection E' as <- _.
  - by apply relay_inv.
  - rewrite (turn_idle rc fuel (cl_va c3) cur nd cur' stop) by done. by destruct c3.
  - destruct Hc as [Hop Hconn Hhost (k & bs & sent & Hva & Hch & Hwire & Hfl)].
    destruct (step_accounts view abs inv cxAddr signer known _ _ _ Hdisk Hop Hs sent Hch) as (new & Hch' & Hacc).
    split; cbn [cl_op cl_va cl_wire nd_host nd_worker]; [|done|done|].
    + by apply (op_step_inv abs inv cxAddr signer _ a _ Hop Hs).
    + exists k, bs, (sent ++ new). split_and!; [done|done|done|]. rewrite app_assoc.
      eapply flight_app; [exact Hfl|]. apply Hacc. by apply (Hann sent).
Qed.

Lemma cl_run_inv (c c' : cluster) : net_up net -> disk_ok abs inv -> cluster_inv c -> rtc cl_step c c' -> cluster_inv c'.
Proof using All. intros Hup Hdisk Hc Hrun. induction Hrun; [done|]. by eauto using cl_step_inv. Qed.

(** Nothing in flight: the ledgers are the same. *)
Lemma quiet_agree (c : cluster) : cluster_inv c -> cl_wire c = [] -> op_newBlockCh (nd_worker (cl_op c)) = Some [] ->
  va_ledger (nd_worker (cl_va c)) = op_ledger (nd_worker (cl_op c)).
Proof.
  intros [_ _ _ (k & bs & sent & _ & Hch & Hwire & Hfl)] Hw Hc. rewrite Hw in Hwire. rewrite Hc in Hch.
  injection Hch as <-. apply Forall2_nil_inv_l in Hwire as ->. cbn [app] in Hfl. by inversion Hfl.
Qed.

(** The network alone empties the channel, then the wire. *)
Lemma drain_channel (c : cluster) sent : net_up net -> cluster_inv c -> op_newBlockCh (nd_worker (cl_op c)) = Some sent ->
  exists c', rtc net_step c c' /\ cluster_inv c' /\ op_newBlockCh (nd_worker (cl_op c')) = Some [] /\
    op_ledger (nd_worker (cl_op c')) = op_ledger (nd_worker (cl_op c)).
Proof using All.
  intros Hup. revert c. induction sent as [|b sent IH]; intros c Hc Hch; [by exists c|].
  destruct (broadcast_moves c Hup Hc) as (nd' & E & Hinv & HL & Hch'). rewrite Hch in Hch'.
  destruct (IH _ Hinv Hch') as (c' & Hrun & Hinv' & Hch2 & HL'). exists c'. split_and!; [|done|done|by etrans].
  eapply rtc_l; [by apply cl_broadcast|done].
Qed.

Lemma drain_wire (c : cluster) : disk_ok abs inv -> cluster_inv c ->
  exists c', rtc net_step c c' /\ cluster_inv c' /\ cl_wire c' = [] /\ cl_op c' = cl_op c.
Proof using All.
  intros Hdisk. remember (cl_wire c) as w eqn:Hw. revert c Hw.
  induction w as [|data rest IH]; intros c Hw Hc; [by exists c|].
  destruct (deliver_accepts c data rest Hdisk Hc (eq_sym Hw)) as (nd' & E & Hinv).
  destruct (IH (mkCluster (cl_op c) nd' rest) eq_refl Hinv) as (c' & Hrun & Hinv' & Hw' & Ho).
  exists c'. split_and!; [|done|done|done]. eapply rtc_l; [by eapply cl_deliver|done].
Qed.

(** Where a run begins: the validator is connected, nothing is in flight, the two
    have the same ledger, and the validator has no child block that the operator
    is yet to number. *)
Record cluster_start (c : cluster) : Prop := {
  cs_op : run_inv abs inv signer (nd_worker (cl_op c));
  cs_conn : connected (nd_host (cl_op c));
  cs_host : host_wf (nd_host (cl_va c));
  cs_va : va_inv view abs inv known (op_currentChildBlock (nd_worker (cl_op c))) (nd_worker (cl_va c));
  cs_quiet : cl_wire c = [] /\ op_newBlockCh (nd_worker (cl_op c)) = Some [];
  cs_same : va_ledger (nd_worker (cl_va c)) = op_ledger (nd_worker (cl_op c))
}.

Lemma start_inv (c : cluster) : cluster_start c -> cluster_inv c.
Proof.
  intros [Hop Hconn Hhost Hva [Hw Hch] HL]. split; try done.
  exists (op_currentChildBlock (nd_worker (cl_op c))), [], []. rewrite Hw, HL. split_and!; try done. by constructor.
Qed.

(** C2. A validator follows the operator, as long as its blocks reach it in the order
    they were announced. The runs are those of the operator's own actions ([op_step]),
    of turns of the two broadcasts, of deliveries to the validator of the block message
    sent first, and of turns of the validator's [downloadBlocks] that find no block
    above its head at the contract. From a start at which both have the same ledger,
    with every peer reachable, disks that take every commit, child blocks whose
    transactions RLP can carry (nil integers as zeros), and no block whose hash the
    validator had cached, or was known to the operator to have, before the run: every
    block message that is next on the wire decodes and is accepted; and from any state
    of the run the network's steps alone lead to one with nothing in flight, where
    the validator's committed ledger is the one the operator had. *)
Theorem validator_follows (c0 c : cluster) :
  net_up net -> disk_ok abs inv -> cluster_start c0 -> rtc cl_step c0 c ->
  (forall data rest, cl_wire c = data :: rest -> exists nd', recvBlock (cl_va c) oid (data, None) = Ret (nd', None)) /\
  exists c', rtc net_step c c' /\ cl_wire c' = [] /\ op_newBlockCh (nd_worker (cl_op c')) = Some [] /\
    op_ledger (nd_worker (cl_op c')) = op_ledger (nd_worker (cl_op c)) /\
    va_ledger (nd_worker (cl_va c')) = op_ledger (nd_worker (cl_op c)).
Proof using All.
  intros Hup Hdisk Hst Hrun.
  pose proof (cl_run_inv c0 c Hup Hdisk (start_inv c0 Hst) Hrun) as Hc. split.
  { intros data rest Hw. destruct (deliver_accepts c data rest Hdisk Hc Hw) as (nd' & E & _). eauto. }
  destruct (ci_flight _ Hc) as (_ & _ & sent & _ & Hch & _).
  destruct (drain_channel c sent Hup Hc Hch) as (c1 & Hrun1 & Hc1 & Hch1 & HL1).
  destruct (drain_wire c1 Hdisk Hc1) as (c2 & Hrun2 & Hc2 & Hw2 & Ho2).
  exists c2. rewrite Ho2. split_and!; [by etrans|done|done|done|].
  rewrite <- HL1, <- Ho2. apply quiet_agree; [done|done|by rewrite Ho2].
Qed.
End Cluster.
