(* ===== verification/Events.v ===== *)
(** The event loop of core/rootchain.go against the node that runs it: every event
    of the contract is given to its handler exactly once and in order, so that the
    operator credits every deposit once. *)

From Stdlib Require Import Sorting.Sorted.
From S2P Require Import Prelude Deps Types Signing Store Schema RawDB Utxo Validation HeaderChain.
From S2P Require Import BlockChain TxPool RootChain Operator Conservation Sealing Genesis Restart Recovery Replica.
#[local] Open Scope Z_scope.

(** The keys the loop itself writes. *)
Definition is_loop_key (k : dbkey) : bool := match k with KFromBlock | KEvent _ => true | _ => false end.

(** * Forgetting the handled events *)

Section Forget.
Context {D : Type} `{Database D} (abs : D -> txstore) (inv : D -> Prop) `{!DatabaseSpec D abs inv}.

Lemma delete_keys m0 keys : forall d, in_tx abs inv m0 d ->
  let d' := fold_left (fun d v => (db_Delete d v).1) keys d in
  in_tx abs inv m0 d' /\ forall k, eventual (abs d') !! k = if decide (k ∈ keys) then None else eventual (abs d) !! k.
Proof.
  induction keys as [|key keys IH]; intros d Hd; cbn [fold_left].
  { split; [done|]. intros k. by rewrite decide_False by set_solver. }
  destruct (in_tx_Delete abs inv m0 d key Hd) as (_ & Hd1 & E1).
  destruct (IH _ Hd1) as [Hd2 E2]. split; [done|]. intros k. rewrite E2, E1.
  destruct (decide (k ∈ keys)); [by rewrite decide_True by set_solver|].
  destruct (decide (k = key)) as [->|Hne].
  - rewrite lookup_delete_eq, decide_True by set_solver. done.
  - by rewrite lookup_delete_ne, decide_False by set_solver.
Qed.

(** [DelLastBlockEventHash] takes the listed keys out of the database, all or
    none, and empties the list. *)
Lemma DelLastBlockEventHash_spec (self : CurrentBlockEventData) d : disk_ok abs inv -> direct abs inv d ->
  exists d', DelLastBlockEventHash self d = (mkCBED (cb_blockNum self) [], d') /\ direct abs inv d' /\
    forall k, committed (abs d') !! k = if decide (k ∈ cb_hashList self) then None else committed (abs d) !! k.
Proof.
  intros disk_commits [[Hi Hw] Hp]. unfold DelLastBlockEventHash.
  destruct (spec_BeginTx d Hi) as [Hi1 Hb]. rewrite Hp in Hb. destruct Hb as [Hb1 Hb2].
  destruct (db_BeginTx d) as [d1 b1]. cbn [fst snd] in *. subst b1. cbn [negb].
  assert (Htx : in_tx abs inv (committed (abs d)) d1).
  { split; [done|rewrite Hb2; by eexists|by rewrite Hb2]. }
  destruct (delete_keys _ (cb_hashList self) d1 Htx) as [Htx2 E2].
  set (d2 := fold_left _ _ _) in *. destruct Htx2 as [Hi2 Ho2 Hc2].
  pose proof (disk_commits d2 Hi2 Ho2) as Hcm. destruct (spec_CommitTx d2 Hi2) as [Hi3 Hres].
  destruct Ho2 as [ops Ho2]. rewrite Ho2, Hcm in Hres.
  destruct (db_CommitTx d2) as [d3 e3]. cbn [fst snd] in *. subst e3.
  exists d3. split; [done|]. rewrite Hres. split.
  - split; [|by rewrite Hres]. split; [done|]. right. destruct Hw as [Hw|Hw]; [|done].
    rewrite Hp in Hw. by destruct Hw.
  - intros k. cbn [committed]. rewrite E2, Hb2. done.
Qed.
End Forget.

(** * The node seen from the loop *)

Section Loop.
Context {D W A : Type} `{Database D} (abs : D -> txstore) (inv : D -> Prop) `{!DatabaseSpec D abs inv}
  `{EventHash} (w_db : W -> D) (w_set_db : W -> D -> W) (rc : RootChain W)
  (I : W -> Prop) (obs : W -> A) (step : A -> ContractEvent -> A) (ok : ContractEvent -> Prop).

Abbreviation com w := (committed (abs (w_db w))).

(** [d'] differs from [d] in the loop's own records at most. *)
Definition loop_records (d d' : D) : Prop :=
  forall k, key_ok k -> is_loop_key k = false -> committed (abs d') !! key_of k = committed (abs d) !! key_of k.

(** What the loop needs of the node: handlers that return, leave the database
    outside a transaction and the event records alone, and do [step] to what is
    observed; nothing observed depends on the loop's records. *)
Class EventNode : Prop := {
  en_get w d : w_db (w_set_db w d) = d;
  en_direct w : I w -> direct abs inv (w_db w);
  en_set w d : I w -> direct abs inv d -> loop_records (w_db w) d ->
    I (w_set_db w d) /\ obs (w_set_db w d) = obs w;
  en_dispatch w ev : I w -> ok ev -> exists w' e, dispatch rc w ev = Ret (w', e) /\ I w' /\
    obs w' = step (obs w) ev /\ forall m, com w' !! key_of (KEvent m) = com w !! key_of (KEvent m)
}.

Context {node : EventNode}.

(** The disk takes every write and every commit. *)
Hypothesis disk_commits : disk_ok abs inv.
Hypothesis disk_writes : forall d k v, inv d -> (db_Put d k v).2 = None.

(** The key of an event, once the JSON encoder succeeds. *)
Definition event_md5 (ev : ContractEvent) : option (farray 16) := md5_Sum <$> event_json ev.

Lemma hashEvent_key ev m : event_md5 ev = Some m -> exists v, hashEvent ev = (key_of (KEvent m), v).
Proof.
  unfold event_md5, hashEvent. destruct (event_json ev) as [j|]; [|done]. intros [= <-]. by exists j.
Qed.

(** Every event record in the database is on the list of the current block, which
    holds nothing else. *)
Definition loop_inv (s : loop_state (W := W)) : Prop :=
  I (ls_w s) /\ Forall (fun k => exists m, k = key_of (KEvent m)) (cb_hashList (ls_data s)) /\
  forall m, is_Some (com (ls_w s) !! key_of (KEvent m)) -> key_of (KEvent m) ∈ cb_hashList (ls_data s).

Definition last_of_block (ev : ContractEvent) (next : option ContractEvent) : bool :=
  match next with None => true | Some e => negb (ev_BlockNum ev =? ev_BlockNum e) end.

(** Writing one of the loop's records. *)
Lemma put_record w k v : I w -> key_ok k -> is_loop_key k = true ->
  exists d, db_Put (w_db w) (key_of k) v = (d, None) /\ I (w_set_db w d) /\ obs (w_set_db w d) = obs w /\
    direct abs inv d /\ committed (abs d) = <[key_of k := v]> (com w).
Proof using All.
  intros HI Hk Hl. pose proof (en_direct w HI) as Hd.
  pose proof (disk_writes (w_db w) (key_of k) v (proj1 (proj1 Hd))) as He.
  destruct (direct_put abs inv (w_db w) (key_of k) v Hd) as [Hd' Em]. unfold put in *.
  destruct (db_Put (w_db w) (key_of k) v) as [d e]. cbn [fst snd] in *. subst e. exists d.
  destruct (en_set w d HI Hd') as [HI' Ho]; [|done].
  intros k' Hk' Hl'. rewrite Em. apply lookup_insert_ne. apply key_ne; [done|done|]. intros ->. congruence.
Qed.

Lemma handle_event_spec s ev next m : loop_inv s -> ok ev -> event_md5 ev = Some m ->
  key_of (KEvent m) ∉ cb_hashList (ls_data s) -> 0 <= ev_BlockNum ev < 2 ^ 63 - 1 ->
  exists s', handle_event w_db w_set_db rc s (ev, next) = Ret (s', None) /\ loop_inv s' /\
    obs (ls_w s') = step (obs (ls_w s)) ev /\
    if last_of_block ev next then cb_hashList (ls_data s') = [] /\ ls_fromBlock s' = ev_BlockNum ev + 1
    else cb_hashList (ls_data s') = cb_hashList (ls_data s) ++ [key_of (KEvent m)] /\
         ls_fromBlock s' = ls_fromBlock s.
Proof using All.
  intros (HI & Hall & Hrec) Hok Hm Hnew Hbn. unfold handle_event. destruct (hashEvent_key ev m Hm) as [v ->].
  cbn [ls_w ls_data cb_hashList cb_blockNum ls_fromBlock].
  assert (Hkm : key_ok (KEvent m)) by done.
  rewrite (spec_Has _ _ (proj1 (proj1 (en_direct _ HI)))), bool_decide_false by (intros Hx; by apply Hnew, Hrec).
  destruct (en_dispatch _ ev HI Hok) as (w1 & e1 & -> & HI1 & Ho1 & Hev1). cbn [gbind ls_w ls_data ls_fromBlock cb_blockNum].
  destruct (put_record w1 (KEvent m) v HI1 Hkm eq_refl) as (d2 & -> & HI2 & Ho2 & Hd2 & Em2).
  assert (Hrec2 : forall m', is_Some (committed (abs d2) !! key_of (KEvent m')) ->
    key_of (KEvent m') ∈ cb_hashList (ls_data s) ++ [key_of (KEvent m)]).
  { intros m'. rewrite Em2. intros [x Hx]. apply lookup_insert_Some in Hx as [[<- _]|[_ Hx]]; [set_solver|].
    apply elem_of_app. left. apply Hrec. rewrite <- Hev1. by eexists. }
  assert (Hall2 : Forall (fun k => exists m, k = key_of (KEvent m)) (cb_hashList (ls_data s) ++ [key_of (KEvent m)])).
  { apply Forall_app. split; [done|]. apply Forall_singleton. by exists m. }
  cbn [ls_set_db ls_w ls_data ls_fromBlock cb_blockNum]. fold (last_of_block ev next).
  destruct (last_of_block ev next).
  2: { eexists. split; [done|]. cbn [ls_w ls_data cb_hashList ls_set_db ls_fromBlock].
       split_and!; [|by rewrite Ho2, Ho1|done|done]. split_and!; [done|done|].
       intros m'. cbn [ls_set_db ls_w ls_data cb_hashList]. rewrite en_get. apply Hrec2. }
  assert (Hf : i64 (u64 (ev_BlockNum ev + 1)) = ev_BlockNum ev + 1).
  { rewrite u64_small by (unfold is_u64; lia). apply i64_small. lia. }
  rewrite Hf. unfold PutFromBlock. change FromBlockKey with (key_of KFromBlock).
  destruct (put_record (w_set_db w1 d2) KFromBlock (big_Bytes (ev_BlockNum ev + 1)) HI2 Logic.I eq_refl)
    as (d3 & -> & HI3 & Ho3 & Hd3 & Em3). rewrite en_get in Em3.
  cbn [ls_set_db ls_w ls_data ls_fromBlock cb_hashList].
  set (data := mkCBED _ _).
  destruct (DelLastBlockEventHash_spec abs inv data d3 disk_commits Hd3) as (d4 & -> & Hd4 & Em4).
  destruct (en_set (w_set_db w1 d2) d4 HI2 Hd4) as [HI4 Ho4].
  { rewrite en_get. intros k Hk Hl. rewrite Em4, decide_False, Em3.
    - apply lookup_insert_ne, key_ne; [done|done|]. intros <-. discriminate.
    - intros Hin. rewrite Forall_forall in Hall2. destruct (Hall2 _ Hin) as [m' Em'].
      apply (key_ne k (KEvent m') Hk Logic.I); [|done]. intros ->. discriminate. }
  eexists. split; [done|]. cbn [ls_w ls_data ls_fromBlock cb_hashList ls_set_db].
  split_and!; [|by rewrite Ho4, Ho2, Ho1|done|done]. split_and!; [done|constructor|].
  cbn [ls_set_db ls_w ls_data cb_hashList]. rewrite en_get. intros m' [x Hx]. rewrite Em4 in Hx. case_decide as Hin; [done|].
  exfalso. apply Hin, Hrec2. rewrite Em3 in Hx. exists x. rewrite lookup_insert_ne in Hx; [done|].
  apply key_ne; [done|done|discriminate].
Qed.

(** ** A round *)

Lemma with_next_cons ev events : with_next (ev :: events) = (ev, head events) :: with_next events.
Proof. unfold with_next. cbn [imap]. by destruct events. Qed.

(** An event the loop can handle. *)
Definition event_fine (ev : ContractEvent) : Prop :=
  ok ev /\ 0 <= ev_BlockNum ev < 2 ^ 63 - 1 /\ is_Some (event_md5 ev).

(** No two events of one root chain block have the same hash. *)
Definition distinct_in_blocks (events : list ContractEvent) : Prop :=
  forall n, NoDup (event_md5 <$> filter (fun ev => ev_BlockNum ev = n) events).

Lemma distinct_in_blocks_app l l' : distinct_in_blocks (l ++ l') -> distinct_in_blocks l /\ distinct_in_blocks l'.
Proof.
  intros Hd. split; intros n; specialize (Hd n); rewrite filter_app, fmap_app in Hd;
    apply NoDup_app in Hd as (? & _ & ?); done.
Qed.

(** The round from the middle of a block: [seen] are the events of it that were
    handled. *)
Lemma loop_round_from events : forall seen s, loop_inv s -> Forall event_fine events ->
  distinct_in_blocks (seen ++ events) ->
  cb_hashList (ls_data s) = omap (fun ev => (fun m => key_of (KEvent m)) <$> event_md5 ev) seen ->
  (forall ev, head events = Some ev -> Forall (fun e => ev_BlockNum e = ev_BlockNum ev) seen) ->
  (events = [] -> seen = []) ->
  exists s', loop_round w_db w_set_db rc s events = Ret (s', None) /\ loop_inv s' /\
    cb_hashList (ls_data s') = [] /\ obs (ls_w s') = fold_left step events (obs (ls_w s)) /\
    ls_fromBlock s' = match last events with Some ev => ev_BlockNum ev + 1 | None => ls_fromBlock s end.
Proof using All.
  unfold loop_round. induction events as [|ev events IH]; intros seen s Hinv Hfine Hdis Hl Hblk Hseen.
  { exists s. rewrite (Hseen eq_refl) in Hl. by split_and!. }
  apply Forall_cons in Hfine as [(Hok & Hbn & [m Hm]) Hfine]. rewrite with_next_cons. cbn [eloop].
  specialize (Hblk ev eq_refl).
  destruct (handle_event_spec s ev (head events) m Hinv Hok Hm) as (s1 & -> & Hinv1 & Ho1 & Hnext); [|done|].
  { rewrite Hl. intros (e & He & Ek)%list_elem_of_omap. apply fmap_Some in Ek as (m' & Em' & Ek).
    assert (m' = m) as -> by (by apply farray_eq).
    specialize (Hdis (ev_BlockNum ev)). rewrite filter_app, filter_cons_True, fmap_app, fmap_cons in Hdis by done.
    apply NoDup_app in Hdis as (_ & Hd & _). apply (Hd (Some m)); [|rewrite Hm; apply list_elem_of_here].
    apply list_elem_of_fmap. exists e. split; [done|]. apply list_elem_of_filter. split; [|done].
    rewrite Forall_forall in Hblk. by apply Hblk. }
  cbn [gbind]. rewrite last_cons. destruct (last_of_block ev (head events)) eqn:Elast.
  - destruct Hnext as [Hl1 Hf1].
    destruct (IH [] s1 Hinv1 Hfine) as (s2 & E2 & Hinv2 & Hl2 & Ho2 & Hf2); [|done|done|done|].
    { apply (distinct_in_blocks_app (seen ++ [ev])). by rewrite <- app_assoc. }
    exists s2. split; [done|]. split_and!; [done|done|by rewrite Ho2, Ho1|]. rewrite Hf2, Hf1. by destruct (last events).
  - destruct Hnext as [Hl1 Hf1]. destruct events as [|ev' events]; [done|]. cbn [head] in *.
    cbn in Elast. apply negb_false_iff, Z.eqb_eq in Elast.
    destruct (IH (seen ++ [ev]) s1 Hinv1 Hfine) as (s2 & E2 & Hinv2 & Hl2 & Ho2 & Hf2).
    + by rewrite <- app_assoc.
    + rewrite Hl1, Hl, omap_app. cbn. by rewrite Hm.
    + intros e [= <-]. apply Forall_app. split; [|by apply Forall_singleton].
      eapply Forall_impl; [exact Hblk|]. cbn. intros; congruence.
    + done.
    + exists s2. split; [done|]. split_and!; [done|done|by rewrite Ho2, Ho1|]. rewrite Hf2.
      by destruct (last (ev' :: events)) eqn:El; [|apply last_None in El].
Qed.

(** ** Rounds against a growing root chain *)

Abbreviation in_order := (StronglySorted (fun e e' => ev_BlockNum e <= ev_BlockNum e')).

(** The events of the contract at each round: in the order of their blocks, and
    later ones are of new blocks. *)
Record growing (log : nat -> list ContractEvent) : Prop := {
  gr_sorted r : in_order (log r);
  gr_new r : exists new, log (S r) = log r ++ new /\
    forall e e', e ∈ log r -> e' ∈ new -> ev_BlockNum e < ev_BlockNum e'
}.

(** [GetContractEvents] from a block on. *)
Definition answers (log : nat -> list ContractEvent) (r : nat) (from : Z) : list ContractEvent + error :=
  inl (filter (fun e => from <= ev_BlockNum e) (log r)).

(** What the rounds before [r] were shown, and of it what the loop asks for. *)
Definition shown (log : nat -> list ContractEvent) (r : nat) : list ContractEvent :=
  match r with O => [] | S r => log r end.
Definition relevant (l : list ContractEvent) : list ContractEvent :=
  filter (fun e => loop_fromBlock <= ev_BlockNum e) l.

Lemma shown_grows log r : growing log -> exists new, log r = shown log r ++ new /\
  (forall e e', e ∈ shown log r -> e' ∈ new -> ev_BlockNum e < ev_BlockNum e') /\ in_order new.
Proof.
  intros [Hs Hn]. assert (Hsub : forall l l', in_order (l ++ l') -> in_order l').
  { induction l as [|e l IH]; intros l' Hl; [done|]. apply IH. by inversion Hl. }
  destruct r as [|r].
  - exists (log 0%nat). split_and!; [done|set_solver|apply Hs].
  - destruct (Hn r) as (new & E & Hlt). exists new. split_and!; [done|done|].
    apply (Hsub (log r)). rewrite <- E. apply Hs.
Qed.

Lemma filter_agree {B} (P Q : B -> Prop) `{!forall x, Decision (P x)} `{!forall x, Decision (Q x)} (l : list B) :
  (forall x, x ∈ l -> P x <-> Q x) -> filter P l = filter Q l.
Proof.
  induction l as [|x l IH]; intros Hpq; [done|]. rewrite !filter_cons.
  rewrite (decide_ext (P x) (Q x)) by (apply Hpq, list_elem_of_here).
  rewrite IH; [done|]. intros y Hy. apply Hpq. by apply list_elem_of_further.
Qed.

(** The loop has caught up to [f] with the events [l]. *)
Definition caught_up (l : list ContractEvent) (f : Z) : Prop :=
  loop_fromBlock <= f /\ (forall e, e ∈ l -> ev_BlockNum e < f) /\
  forall x, loop_fromBlock <= x -> (forall e, e ∈ l -> ev_BlockNum e < x) -> f <= x.

Lemma caught_up_new l new f : caught_up l f ->
  (forall e e', e ∈ l -> e' ∈ new -> ev_BlockNum e < ev_BlockNum e') ->
  filter (fun e => f <= ev_BlockNum e) (l ++ new) = relevant new.
Proof.
  intros (H1' & H2' & H3') Hlt. rewrite filter_app, filter_none by (intros e He; specialize (H2' e He); lia).
  cbn [app]. unfold relevant. apply filter_agree. intros e He. split; [lia|]. intros Hx. apply H3'; [done|].
  intros e0 He0. by apply Hlt.
Qed.

Lemma in_order_last l ev : in_order l -> last l = Some ev -> forall e, e ∈ l -> ev_BlockNum e <= ev_BlockNum ev.
Proof.
  induction 1 as [|e0 l Hs IH Hall]; [done|]. rewrite last_cons. intros Hl e [->|He]%elem_of_cons.
  - destruct (last l) as [x|] eqn:El; [|by injection Hl as ->; lia]. injection Hl as ->.
    rewrite Forall_forall in Hall. apply Hall. rewrite <- last_lookup in El || apply last_Some in El as [l' ->]. set_solver.
  - destruct (last l) as [x|] eqn:El; [|apply last_None in El as ->; by apply elem_of_nil in He].
    injection Hl as ->. by apply IH.
Qed.

Lemma in_order_filter (P : ContractEvent -> Prop) `{!forall x, Decision (P x)} l : in_order l -> in_order (filter P l).
Proof.
  induction 1 as [|e0 l Hs IH Hall]; [constructor|]. rewrite filter_cons. case_decide; [|done]. constructor; [done|].
  rewrite Forall_forall in Hall |- *. intros e [_ He]%list_elem_of_filter. by apply Hall.
Qed.

(** The next round brings the loop up to the new events. *)
Lemma caught_up_round l new f f' : caught_up l f ->
  (forall e e', e ∈ l -> e' ∈ new -> ev_BlockNum e < ev_BlockNum e') -> in_order new ->
  f' = match last (relevant new) with Some ev => ev_BlockNum ev + 1 | None => f end -> caught_up (l ++ new) f'.
Proof.
  intros (H1' & H2' & H3') Hlt Hs ->. destruct (last (relevant new)) as [ev|] eqn:El.
  - assert (Hev : ev ∈ new /\ loop_fromBlock <= ev_BlockNum ev).
    { apply last_Some in El as [l' El]. assert (Hin : ev ∈ relevant new) by (rewrite El; set_solver).
      by apply list_elem_of_filter in Hin as [? ?]. }
    destruct Hev as [Hin Hge]. unfold caught_up. split; [lia|]. split.
    + intros e [He|He]%elem_of_app; [specialize (Hlt e ev He Hin); lia|].
      destruct (Z.le_gt_cases loop_fromBlock (ev_BlockNum e)) as [Hr|Hr]; [|lia].
      assert (Hle : ev_BlockNum e <= ev_BlockNum ev); [|lia].
      apply (in_order_last (relevant new)); [by apply in_order_filter|done|]. by apply list_elem_of_filter.
    + intros x _ Hx. specialize (Hx ev). lapply Hx; [lia|]. apply elem_of_app. by right.
  - apply last_None in El. unfold caught_up. split; [done|]. split.
    + intros e [He|He]%elem_of_app; [auto|]. destruct (Z.le_gt_cases loop_fromBlock (ev_BlockNum e)) as [Hr|Hr]; [|lia].
      assert (Hin : e ∈ relevant new) by (by apply list_elem_of_filter). rewrite El in Hin. by apply elem_of_nil in Hin.
    + intros x Hx Hall. apply H3'; [done|]. intros e He. apply Hall, elem_of_app. by left.
Qed.

Lemma distinct_in_blocks_filter (P : ContractEvent -> Prop) `{!forall x, Decision (P x)} l :
  distinct_in_blocks l -> distinct_in_blocks (filter P l).
Proof.
  intros Hd n. specialize (Hd n). rewrite list_filter_filter, (list_filter_iff _ (fun x => P x /\ ev_BlockNum x = n))
    by (intros; tauto). rewrite <- list_filter_filter. revert Hd. generalize (filter (fun ev => ev_BlockNum ev = n) l) as k.
  induction k as [|e k IH]; [done|]. rewrite fmap_cons, filter_cons. intros [Hin Hnd]%NoDup_cons.
  case_decide; [|auto]. rewrite fmap_cons. apply NoDup_cons. split; [|auto].
  intros (e' & Ee & [_ He]%list_elem_of_filter)%list_elem_of_fmap. apply Hin, list_elem_of_fmap. eauto.
Qed.

(** The loop, round after round: what is observed has gone through exactly the
    events shown so far, each once, in their order. *)
Lemma loop_rounds_spec log a0 : growing log ->
  (forall r, Forall event_fine (relevant (log r)) /\ distinct_in_blocks (log r)) ->
  forall rounds r s, loop_inv s -> cb_hashList (ls_data s) = [] -> caught_up (shown log r) (ls_fromBlock s) ->
  obs (ls_w s) = fold_left step (relevant (shown log r)) a0 ->
  exists s', loop_rounds w_db w_set_db rc (answers log) r rounds s = Ret (s', None) /\ loop_inv s' /\
    caught_up (shown log (r + rounds)) (ls_fromBlock s') /\ cb_hashList (ls_data s') = [] /\
    obs (ls_w s') = fold_left step (relevant (shown log (r + rounds))) a0.
Proof using All.
  intros Hg Hfine. induction rounds as [|rounds IH]; intros r s Hinv Hl Hc Ho; cbn [loop_rounds].
  { exists s. by rewrite Nat.add_0_r. }
  destruct (shown_grows log r Hg) as (new & Enew & Hlt & Hs). unfold answers at 1.
  destruct (Hfine r) as [Hf Hd]. rewrite Enew in Hf, Hd |- *. rewrite (caught_up_new _ new) by done.
  unfold relevant in Hf. rewrite filter_app in Hf. apply Forall_app in Hf as [_ Hf].
  destruct (loop_round_from (relevant new) [] s Hinv Hf) as (s1 & -> & Hinv1 & Hl1 & Ho1 & Hf1); try done.
  { cbn [app]. by apply distinct_in_blocks_filter, (distinct_in_blocks_app (shown log r)). }
  cbn [gbind]. rewrite Nat.add_succ_r.
  apply (IH (S r)); [done|done| |]; cbn [shown]; rewrite Enew.
  - by apply (caught_up_round _ _ (ls_fromBlock s)).
  - unfold relevant at 1. rewrite filter_app, fold_left_app, Ho1, Ho. done.
Qed.
End Loop.

(** * The operator as the node *)

Section OperatorLoop.
Context {D G : Type} `{LRU} `{EthCommon} `{!EthCommonLaws} `{Crypto} `{!Signer G} `{Copier} `{!CopierLaws}
  `{Trie} `{Rlp txdata} `{Rlp Header} `{Rlp rlpBody} `{Rlp Z} `{Rlp extblock} `{RlpStream} `{!IcstChain}
  `{Database D} (abs : D -> txstore) (inv : D -> Prop) `{!DatabaseSpec D abs inv} `{EventHash}
  (signer : G) (now : Operator D G -> Z).

Abbreviation op_ledger o := (chain_ledger abs (op_chain o)).

Definition op_db (o : Operator D G) : D := bc_db (op_chain o).
Definition op_set_db (o : Operator D G) (d : D) : Operator D G := op_set_chain o (set_db (op_chain o) d).

(** The client with the operator's two handlers registered. *)
Definition operator_client (abiStr cxAddr : string) (fromBlock : Z) : RootChain (Operator D G) :=
  RegisterBlockSubmittedEventHandler
    (RegisterDepositEventHandler (mkRootChain abiStr cxAddr fromBlock None None)
       (Some (fun o n depositor token amount => handleDepositEvent signer (now o) o n depositor token amount)))
    (Some completeBlockSubmit).

(** What an event means for the ledger. *)
Definition event_ledger (L : ledger) (ev : ContractEvent) : ledger :=
  match ev_V ev with
  | Deposit e =>
      match DepositBlock e, ev_Amount e with
      | Some n, Some amount => deposit_ledger n (Depositor e) amount L
      | _, _ => L
      end
  | BlockSubmitted _ => L
  end.

(** An event as the contract emits it: a deposit between two child blocks, of an
    amount that is not negative. *)
Definition contract_event (ev : ContractEvent) : Prop :=
  match ev_V ev with
  | Deposit e => exists n amount, DepositBlock e = Some n /\ ev_Amount e = Some amount /\
      0 < n < 2 ^ 63 /\ n mod 1000 <> 0 /\ 0 <= amount
  | BlockSubmitted e => is_Some (SubmittedBlockNum e)
  end.

Definition op_idle (o : Operator D G) : Prop := op_inv abs inv o /\ direct abs inv (op_db o).

Lemma loop_records_ledger (d d' : D) : loop_records abs d d' ->
  ledger_of (committed (abs d')) = ledger_of (committed (abs d)) /\
  (utxos_wf (committed (abs d)) -> utxos_wf (committed (abs d'))).
Proof.
  intros Hrec. split.
  - apply map_eq. intros id. rewrite !ledger_lookup. destruct (UTXOID_okb id) eqn:Hid; [|done].
    unfold utxo_okey. rewrite Hrec; [done| |done]. by apply UTXOID_ok_key.
  - intros Hw id v Hid Hv. apply (Hw id v Hid). unfold utxo_okey in *. rewrite Hrec in Hv; [done| |done].
    by apply UTXOID_ok_key.
Qed.

(** Writing a block leaves the event records alone. *)
Lemma WriteBlock_event_records (o o' : Operator D G) block n e m :
  ready abs inv (op_chain o) -> block_ok signer block n -> disk_ok abs inv -> is_Some (op_newBlockCh o) ->
  WriteBlock signer o block = Ret (o', e) ->
  committed (abs (op_db o')) !! key_of (KEvent m) = committed (abs (op_db o)) !! key_of (KEvent m).
Proof using All.
  intros Hr Hok Hdisk [sent Hch] E. unfold op_db.
  destruct (WriteBlock_spec abs inv signer o block n sent Hr Hok Hch) as (o1 & e1 & E1 & _ & _ & _ & _ & _ & _ & Hm).
  rewrite E in E1. injection E1 as <- <-. destruct e as [e|].
  { destruct Hm as [-> _]. done. }
  unfold WriteBlock in E. apply gbind_Ret in E as [[bc1 e1] [E1 E]]. destruct e1 as [e1|]; [done|].
  apply gbind_Ret in E as [ch [_ E]]. cbn [op_chain op_set_newBlockCh op_set_chain] in E.
  apply gbind_Ret in E as [[bc2 e2] [E2 E]]. injection E as <- ->. cbn [op_chain op_set_chain].
  destruct (ready_head _ _ _ Hr) as (cur & cn & Hcur & Hcn).
  destruct (chain_write_committed abs inv del_input signer _ bc1 bc2 block n cur cn
    (del_input_utxo abs inv) Hr Hok Hcur Hcn E1 E2) as (_ & _ & Hc).
  rewrite Hc by done. pose proof (block_number_u64 _ _ _ Hok) as Hu.
  assert (Hkn : key_ok (KCanonical n)) by done. assert (Hke : key_ok (KEvent m)) by done.
  unfold block_ops, chain_ops, header_ops, body_op, insert_ops.
  destruct (cn <? n); [destruct (moved _ block n)|]; cbn [apply_wops fold_left apply_wop app]; by key_lookup.
Qed.

Lemma operator_event_node abiStr cxAddr fromBlock : disk_ok abs inv ->
  (forall d k v, inv d -> (db_Put d k v).2 = None) -> (forall o, 0 <= now o) ->
  EventNode abs inv op_db op_set_db (operator_client abiStr cxAddr fromBlock) op_idle
    (fun o => op_ledger o) event_ledger contract_event.
Proof using All.
  intros Hdisk Hput Hnow. split.
  - done.
  - by intros o [_ ?].
  - intros o d [[[Hi Hp Hw Hh] Hpool Hch Hcc Hids] _] Hd Hrec.
    destruct (loop_records_ledger _ _ Hrec) as [HL Hw']. unfold op_idle, op_db, op_set_db, chain_ledger in *.
    cbn [op_chain op_set_chain bc_db set_db] in *. split; [|done]. split; [|done].
    split; cbn [op_chain op_set_chain op_txPool op_newBlockCh op_currentChildBlock]; try done.
    + split; cbn [bc_db set_db bc_currentBlock]; [apply Hd|apply Hd|auto|done].
    + unfold chain_ledger. cbn [bc_db set_db]. by rewrite HL.
  - intros o [bn [e|e]] [Hop Hd] Hok; unfold contract_event in Hok; cbn [ev_V] in Hok.
    + destruct Hok as (n & amount & En & Ea & Hn & Hm & Ha).
      destruct (handleDepositEvent_spec abs inv signer (now o) o n (Depositor e) (Token e) amount Hop Hn Hm Ha (Hnow o))
        as (o' & err & E & Hop' & _ & _ & Hres).
      exists o', err. unfold dispatch, dealWithDepositEvent, event_ledger. cbn [ev_V operator_client
        RegisterBlockSubmittedEventHandler RegisterDepositEventHandler rc_depositEventHandler]. rewrite En, Ea.
      split; [done|]. destruct err as [err|].
      { destruct Hres as [_ (d & Hp & Hi & He)]. by rewrite Hdisk in He. }
      assert (Hd' : direct abs inv (op_db o')).
      { destruct (oi_ready _ _ _ Hop') as [Hi Hp _ _]. split; [|done]. split; [done|]. by right. }
      split_and!; [by split|done|]. intros m. clear Hres Hop' Hd'.
      pose proof (oi_ready _ _ _ Hop) as Hr.
      destruct (handleDepositEvent_block abs inv signer (now o) o n (Depositor e) (Token e) amount Hr Hn Hm Ha (Hnow o))
        as (block & Hbok & _ & _ & Eb). rewrite Eb in E.
      eapply WriteBlock_event_records; [exact Hr|exact Hbok|done| |exact E].
      destruct (oi_ch _ _ _ Hop) as [sent ->]. by eexists.
    + destruct Hok as [sub Hsub]. unfold dispatch, dealWithBlockSubmittedEvent.
      cbn [ev_V operator_client RegisterBlockSubmittedEventHandler RegisterDepositEventHandler rc_blockSubmittedEventHandler].
      destruct (ready_head _ _ _ (oi_ready _ _ _ Hop)) as (cur & cn & Hcur & Hcn).
      unfold completeBlockSubmit, BC_CurrentBlock, Block_Number. exists o, None. rewrite Hcur. cbn [gbind]. rewrite Hcn, Hsub. cbn [deref gbind].
      by split_and!.
Qed.

(** The loop of a process goes through the events and leaves the node idle, with no
    record of any event. *)
Lemma operator_loop_clean abiStr cxAddr fromBlock addr log rounds (o : Operator D G) :
  disk_ok abs inv -> (forall d k v, inv d -> (db_Put d k v).2 = None) -> (forall o, 0 <= now o) ->
  hex_DecodeString cxAddr = inl addr -> op_idle o ->
  (forall m, committed (abs (op_db o)) !! key_of (KEvent m) = None) ->
  growing log -> (forall r, Forall (event_fine contract_event) (relevant (log r)) /\ distinct_in_blocks (log r)) ->
  exists s', loopEvents op_db op_set_db (operator_client abiStr cxAddr fromBlock) (answers log) rounds o = Ret (s', None) /\
    op_idle (ls_w s') /\ (forall m, committed (abs (op_db (ls_w s'))) !! key_of (KEvent m) = None) /\
    op_ledger (ls_w s') = fold_left event_ledger (relevant (shown log rounds)) (op_ledger o).
Proof using All.
  intros Hdisk Hput Hnow Haddr Ho Hrec Hg Hfine. pose proof (operator_event_node abiStr cxAddr fromBlock Hdisk Hput Hnow) as Hnode.
  unfold loopEvents. cbn [operator_client RegisterBlockSubmittedEventHandler RegisterDepositEventHandler rc_cxAddr].
  rewrite Haddr.
  destruct (loop_rounds_spec abs inv op_db op_set_db _ op_idle (fun o => op_ledger o) event_ledger contract_event
    Hdisk Hput log (op_ledger o) Hg Hfine rounds 0 (mkLoop o loop_fromBlock (mkCBED 0 []))) as (s' & -> & (Hi & _ & Hr) & _ & Hcb & HL).
  - split_and!; [done|constructor|]. cbn [ls_w]. intros m [x Hx]. by rewrite Hrec in Hx.
  - done.
  - split_and!; [done|set_solver|]. intros x Hx _. exact Hx.
  - done.
  - exists s'. split_and!; [done|done| |done]. intros m. destruct (_ !! _) eqn:E; [|done].
    specialize (Hr m ltac:(by eexists)). rewrite Hcb in Hr. by apply elem_of_nil in Hr.
Qed.

(** Every deposit is credited exactly once by a running operator. Against a
    root chain that grows by whole blocks, whose events are in block order and have
    different hashes within a block, the event loop of a process that starts
    without event records runs for any number of rounds without an error, and the
    operator's ledger is then the one it had, with the deposits of all events from
    block 100 on that were shown, in their order, each applied once. *)
Lemma operator_loop abiStr cxAddr fromBlock addr log rounds (o : Operator D G) :
  disk_ok abs inv -> (forall d k v, inv d -> (db_Put d k v).2 = None) -> (forall o, 0 <= now o) ->
  hex_DecodeString cxAddr = inl addr -> op_idle o ->
  (forall m, committed (abs (op_db o)) !! key_of (KEvent m) = None) ->
  growing log -> (forall r, Forall (event_fine contract_event) (relevant (log r)) /\ distinct_in_blocks (log r)) ->
  exists s', loopEvents op_db op_set_db (operator_client abiStr cxAddr fromBlock) (answers log) rounds o = Ret (s', None) /\
    op_inv abs inv (ls_w s') /\
    op_ledger (ls_w s') = fold_left event_ledger (relevant (shown log rounds)) (op_ledger o).
Proof using All.
  intros Hdisk Hput Hnow Haddr Ho Hrec Hg Hfine.
  destruct (operator_loop_clean abiStr cxAddr fromBlock addr log rounds o Hdisk Hput Hnow Haddr Ho Hrec Hg Hfine)
    as (s' & E & [Hi _] & _ & HL). by exists s'.
Qed.

(** C37. A restart repeats every event. The loop remembers the hashes of the events of
    the block it is at and deletes them with the last of them, so when it has gone
    through the events nothing is remembered. Whatever the operator did then that
    writes no such record, the loop of the next process starts at block 100 again and
    goes through all events from the first on: each deposit is credited once more,
    also one that was spent since. *)
Theorem restart_replays abiStr cxAddr fromBlock addr log rounds log' rounds' (o : Operator D G) :
  disk_ok abs inv -> (forall d k v, inv d -> (db_Put d k v).2 = None) -> (forall o, 0 <= now o) ->
  hex_DecodeString cxAddr = inl addr -> op_idle o ->
  (forall m, committed (abs (op_db o)) !! key_of (KEvent m) = None) ->
  growing log -> (forall r, Forall (event_fine contract_event) (relevant (log r)) /\ distinct_in_blocks (log r)) ->
  growing log' -> (forall r, Forall (event_fine contract_event) (relevant (log' r)) /\ distinct_in_blocks (log' r)) ->
  exists s', loopEvents op_db op_set_db (operator_client abiStr cxAddr fromBlock) (answers log) rounds o = Ret (s', None) /\
    forall o1, op_idle o1 ->
      (forall m, committed (abs (op_db o1)) !! key_of (KEvent m) = committed (abs (op_db (ls_w s'))) !! key_of (KEvent m)) ->
      exists s1, loopEvents op_db op_set_db (operator_client abiStr cxAddr fromBlock) (answers log') rounds' o1 = Ret (s1, None) /\
        op_ledger (ls_w s1) = fold_left event_ledger (relevant (shown log' rounds')) (op_ledger o1).
Proof using All.
  intros Hdisk Hput Hnow Haddr Ho Hrec Hg Hfine Hg' Hfine'.
  destruct (operator_loop_clean abiStr cxAddr fromBlock addr log rounds o Hdisk Hput Hnow Haddr Ho Hrec Hg Hfine)
    as (s' & E & _ & Hr & _). exists s'. split; [done|]. intros o1 Ho1 Hr1.
  destruct (operator_loop_clean abiStr cxAddr fromBlock addr log' rounds' o1 Hdisk Hput Hnow Haddr Ho1) as (s1 & E1 & _ & _ & HL);
    [intros m; by rewrite Hr1|done|done|]. by exists s1.
Qed.

End OperatorLoop.
