(* ===== verification/Exchange.v ===== *)
(** Transactions on their way to the operator: a turn of [broadcastTxs] at one node
    (network/p2phandlers/tx.go), the messages it sends, and [recvTxs] at the
    operator, up to the operator's pool. *)

From S2P Require Import Prelude Deps Types Signing Store Schema RawDB Utxo Validation HeaderChain.
From S2P Require Import BlockChain TxPool RootChain Operator Conservation Sealing Run Genesis Restart Recovery.
From S2P Require Import Network Handlers Replica.
#[local] Open Scope Z_scope.

(** * The batches of a turn *)

Section Batches.
Context `{HashSet} (view : hset -> gset Hash) `{!HashSetLaws view} `{GoRange} {range_laws : GoRangeLaws}
  `{Crypto} `{Rlp txdata}.

(** The transactions a peer is not known to have. *)
Definition unknown_txs (c : RemotePeerCache) (txs : list Transaction) : list Transaction :=
  filter (fun tx => hset_Has (pc_KnownTxs c) (Transaction_Hash tx) = false) txs.

Definition batch_for (lh : P2PLocalHost) (txs : list Transaction) (p : PeerID) : list Transaction :=
  match lh_RemotePeerCaches lh !! p with Some c => unknown_txs c txs | None => [] end.

Lemma PeerIDsWithoutTx_spec lh h p : host_wf lh ->
  p ∈ PeerIDsWithoutTx lh h <->
  exists c, lh_RemotePeerCaches lh !! p = Some c /\ hset_Has (pc_KnownTxs c) h = false.
Proof using All.
  intros Hwf. unfold PeerIDsWithoutTx. rewrite list_elem_of_fmap. split.
  - intros (c & -> & Hc). apply list_elem_of_filter in Hc as [Hk Hc]. apply elem_of_caches in Hc; [|done]. eauto.
  - intros (c & E & Hn). exists c. destruct (Hwf p c E) as (Hid & _). split; [done|].
    apply list_elem_of_filter. split; [done|apply elem_of_caches; [done|by rewrite Hid]].
Qed.

Lemma NoDup_PeerIDsWithoutTx lh h : host_wf lh -> NoDup (PeerIDsWithoutTx lh h).
Proof using All.
  intros Hwf. eapply sublist_NoDup; [by apply NoDup_peers|]. apply fmap_sublist, sublist_filter.
Qed.

Lemma txset_add_all tx ps : NoDup ps -> forall m p,
  fold_left (txset_add tx) ps m !! p = if decide (p ∈ ps) then Some (default [] (m !! p) ++ [tx]) else m !! p.
Proof.
  induction 1 as [|q ps Hq _ IH]; intros m p; cbn [fold_left]; [by rewrite decide_False by set_solver|].
  rewrite IH. unfold txset_add. destruct (decide (p = q)) as [->|Hne].
  - rewrite decide_False by done. rewrite decide_True by set_solver. by rewrite lookup_insert_eq.
  - rewrite lookup_insert_ne by done. destruct (decide (p ∈ ps)).
    + by rewrite decide_True by set_solver.
    + by rewrite decide_False by set_solver.
Qed.

Lemma broadcast_sets_from lh txs p : host_wf lh -> forall m,
  fold_left (fun m tx => fold_left (txset_add tx) (PeerIDsWithoutTx lh (Transaction_Hash tx)) m) txs m !! p =
  match batch_for lh txs p with [] => m !! p | l => Some (default [] (m !! p) ++ l) end.
Proof using All.
  intros Hwf. unfold batch_for. induction txs as [|tx txs IH]; intros m; cbn [fold_left].
  { by destruct (lh_RemotePeerCaches lh !! p). }
  rewrite IH, txset_add_all by (by apply NoDup_PeerIDsWithoutTx).
  destruct (lh_RemotePeerCaches lh !! p) as [c|] eqn:Ec.
  - unfold unknown_txs. rewrite filter_cons.
    destruct (hset_Has (pc_KnownTxs c) (Transaction_Hash tx)) eqn:Eh.
    + rewrite !decide_False; [done|congruence|]. rewrite PeerIDsWithoutTx_spec by done. intros (? & ? & ?); congruence.
    + rewrite (decide_True (P := p ∈ _)), decide_True; [|done|rewrite PeerIDsWithoutTx_spec by done; eauto].
      destruct (filter _ txs); cbn; [done|]. by rewrite <- app_assoc.
  - rewrite decide_False; [done|]. rewrite PeerIDsWithoutTx_spec by done. intros (? & ? & ?); congruence.
Qed.

(** A turn makes a batch for each connected peer that is not known to have all of
    the transactions: those it is not known to have, in their order. *)
Lemma broadcast_sets_spec lh txs p : host_wf lh ->
  broadcast_sets lh txs !! p = match batch_for lh txs p with [] => None | l => Some l end.
Proof using All.
  intros Hwf. unfold broadcast_sets. rewrite broadcast_sets_from by done. rewrite lookup_empty. done.
Qed.
End Batches.

(** * What a pool takes *)

Section PoolTakes.
Context {G V : Type} `{Crypto} `{!Signer G} `{Rlp txdata} `{TxValidator V}.

(** Adding a list keeps what was there, takes what is valid, and nothing else. *)
Lemma addTxsLocked_takes (v : V) txs local : forall (pool pool' : TxPool G) es, pool_wf pool ->
  addTxsLocked v pool txs local = Ret (pool', es) ->
  (forall h, h ∈ hashes (tp_queue pool) -> h ∈ hashes (tp_queue pool')) /\
  (forall tx, tx ∈ txs -> tv_Validate v tx = Ret None -> Transaction_Hash tx ∈ hashes (tp_queue pool')) /\
  (forall tx, tx ∈ tp_queue pool' -> tx ∈ tp_queue pool \/ tx ∈ txs /\ tv_Validate v tx = Ret None).
Proof.
  induction txs as [|tx txs IH]; intros pool pool' es Hwf E; cbn [addTxsLocked] in E.
  { injection E as <- _. split_and!; [done| |by left]. intros tx Htx. by apply elem_of_nil in Htx. }
  apply gbind_Ret in E as [[p1 e1] [E1 E]]. apply gbind_Ret in E as [[p2 es2] [E2 E]]. injection E as <- _.
  destruct (IH p1 p2 es2 (add_wf _ _ _ _ _ _ Hwf E1) E2) as (Hold & Hnew & Horig).
  assert (Hstep : (forall h, h ∈ hashes (tp_queue pool) -> h ∈ hashes (tp_queue p1)) /\
    (tv_Validate v tx = Ret None -> Transaction_Hash tx ∈ hashes (tp_queue p1)) /\
    (forall t, t ∈ tp_queue p1 -> t ∈ tp_queue pool \/ t = tx /\ tv_Validate v tx = Ret None)).
  { destruct (add_spec _ _ _ _ _ _ E1) as [(tx0 & Hk & -> & _)|[(_ & Hv & He & ->)|(_ & Hv & _ & Hq & _)]].
    - split_and!; [done| |by left]. intros _. apply (wf_all _ Hwf) in Hk as [Hin <-]. by apply list_elem_of_fmap_2.
    - split_and!; [done| |by left]. rewrite Hv. intros [= ->]. done.
    - unfold hashes. rewrite Hq, fmap_app. cbn. split_and!; [set_solver|set_solver|].
      intros t [Ht|Ht]%elem_of_app; [by left|]. apply list_elem_of_singleton in Ht as ->. by right. }
  destruct Hstep as (S1 & S2 & S3). split_and!.
  - intros h Hh. by apply Hold, S1.
  - intros t [->|Ht]%elem_of_cons Hv; [by apply Hold, S2|by apply Hnew].
  - intros t Ht. destruct (Horig t Ht) as [H1'|[H1' H2']]; [|right; split; [by apply list_elem_of_further|done]].
    destruct (S3 t H1') as [|[-> ?]]; [by left|]. right. split; [apply list_elem_of_here|done].
Qed.
End PoolTakes.

(** * From a node to the operator *)

(** Nil integers in a list of transactions are encoded as zeros. *)
Class RlpNilListLaws `{Rlp (list txdata)} : Prop := {
  rlp_nil_list (ds : list txdata) : rlp_EncodeToBytes ds = rlp_EncodeToBytes (fill_txdata <$> ds)
}.

Section Reach.
Context {D G WA : Type} `{LRU} `{EthCommon} `{!EthCommonLaws} `{Crypto} `{!Signer G} `{!SignerDataLaws G}
  `{Copier} `{!CopierLaws} `{Trie} `{Rlp txdata} `{nil_tx : !RlpNilTxLaws} `{Rlp Header} `{Rlp rlpBody} `{Rlp Z} `{Rlp extblock}
  `{RlpStream} `{!IcstChain} `{Database D} (abs : D -> txstore) (inv : D -> Prop) `{!DatabaseSpec D abs inv}
  `{Rlp (list txdata)} `{!RlpLaws txdata txdata_ok} `{!RlpStreamLaws txdata}
  `{!RlpLaws (list txdata) (fun ds => forallb txdata_okb ds = true)} `{nil_list : !RlpNilListLaws}
  `{HashSet} (view : hset -> gset Hash) `{!HashSetLaws view} `{GoRange} {range_laws : GoRangeLaws}
  `{Worker WA} (signer : G) (net : Net).

Abbreviation op_ledger o := (chain_ledger abs (op_chain o)).

#[local] Instance reach_worker : Worker (Operator D G) :=
  Operator_Worker signer (fun o => NewUtxoTxValidator signer (bc_db (op_chain o))).

(** [Validate] accepts a transaction as it is read from a message if and only if it
    accepts it as it was sent. *)
Lemma Validate_filled (d : D) tx tx' : us_inv abs inv d -> filled tx' tx -> tx_checkable signer tx ->
  tx_coherent tx -> tx_coherent tx' ->
  Validate (NewUtxoTxValidator signer d) tx' = Ret None <-> Validate (NewUtxoTxValidator signer d) tx = Ret None.
Proof using All.
  intros Hd E [(i1 & i2 & o1 & o2 & f & Hp) [[senders serr] Hs]] Hc Hc'.
  destruct (Validate_spec (us_view abs) (us_inv abs inv) (NewUtxoTxValidator signer d) tx
    i1 i2 o1 o2 f senders serr Hd Hp Hs) as (e & -> & Hiff).
  destruct (Validate_spec (us_view abs) (us_inv abs inv) (NewUtxoTxValidator signer d) tx'
    _ _ _ _ f senders serr Hd (filled_parts tx' tx _ _ _ _ _ E Hp) (Sender_fill signer tx tx' _ E Hs)) as (e' & -> & Hiff').
  rewrite (filled_Size tx' tx E Hc Hc'), <- filled_rules, <- Hiff in Hiff'. naive_solver.
Qed.

(** The transactions [txs] as they come out of a message. *)
Lemma txs_wire txs : Forall tx_sound txs -> exists msg txs', rlp_EncodeToBytes (tx_data <$> txs) = Some msg /\
  decode_txs msg = Some txs' /\ Forall2 (fun tx' tx => filled tx' tx /\ tx_coherent tx' /\ tx_hash tx' = None) txs' txs.
Proof using All.
  intros Hs. destruct (rlp_roundtrip (ok := fun ds => forallb txdata_okb ds = true) (fill_txdata <$> (tx_data <$> txs)))
    as (msg & E & _ & Ed).
  { rewrite forallb_forall. intros d Hd. apply list_elem_of_In, list_elem_of_fmap in Hd as (d' & -> & Hd).
    apply list_elem_of_fmap in Hd as (tx & -> & Htx). rewrite Forall_forall in Hs. by apply Hs. }
  exists msg. unfold decode_txs. rewrite rlp_nil_list, Ed. eexists. split_and!; [done|done|]. clear E Ed.
  induction Hs as [|tx txs [Hok _] _ IH]; [constructor|]. rewrite !fmap_cons. constructor; [|done].
  split_and!; [done| |done]. split; [done|]. cbn. intros s [= <-].
  destruct (rlp_roundtrip (ok := txdata_ok) (fill_txdata (tx_data tx)) Hok) as (bs & Ebs & _ & _). rewrite Ebs. cbn.
  by apply (rlp_ListSize_Kind (fill_txdata (tx_data tx))).
Qed.

Lemma send_all_msgs proto msgs : net_up net -> Forall (fun m : PeerID * option bytes => is_Some m.2) msgs -> forall lh,
  exists lh', send_all net proto lh msgs = Ret lh' /\
    lh_sent lh' = lh_sent lh ++ ((fun m => (proto, m.1, default [] m.2)) <$> msgs).
Proof using All.
  intros [Hs Hw]. unfold send_all. induction 1 as [|[p d] msgs [data Hd] _ IH]; intros lh.
  - exists lh. cbn. by rewrite app_nil_r.
  - cbn [snd] in Hd. subst d. cbn [gfold fst snd]. unfold SendMsg. rewrite Hs, Hw. cbn [gbind].
    destruct (IH (log_sent lh proto p data)) as (lh' & E & Hsent).
    exists lh'. split; [done|]. rewrite Hsent. cbn. by rewrite <- app_assoc.
Qed.

(** The messages to one peer, when the map has a batch for it. *)
Lemma filter_key {B C} (m : gmap PeerID B) (l : list (PeerID * B)) (f : PeerID * B -> C) (g : C -> PeerID) p x :
  l ≡ₚ map_to_list m -> (forall e, g (f e) = e.1) -> m !! p = Some x ->
  filter (fun c => g c = p) (f <$> l) = [f (p, x)].
Proof.
  intros Hl Hg Hx. apply Permutation_singleton_r. rewrite Hl, <- (map_to_list_delete m p x Hx).
  rewrite fmap_cons, filter_cons_True by (by rewrite Hg).
  rewrite filter_none; [done|]. intros c (e & -> & He)%list_elem_of_fmap. rewrite Hg. intros Ep.
  destruct e as [q y]. apply elem_of_map_to_list in He. cbn in Ep. subst q. by rewrite lookup_delete_eq in He.
Qed.

(** What a turn of [broadcastTxs] sends: one message, with its batch, to every
    peer that has one. *)
Lemma broadcastTxs_up (nd : Node WA) txs : net_up net -> host_wf (nd_host nd) -> Forall tx_sound txs ->
  exists nd' new, broadcastTxs net nd txs = Ret nd' /\ nd_worker nd' = nd_worker nd /\
    lh_sent (nd_host nd') = lh_sent (nd_host nd) ++ new /\
    forall p, filter (fun m => m.1.2 = p) new =
      match batch_for (nd_host nd) txs p with
      | [] => []
      | l => [(txProto, p, default [] (rlp_EncodeToBytes (tx_data <$> l)))]
      end.
Proof using All.
  intros Hup Hwf Hs. unfold broadcastTxs. set (sets := broadcast_sets (nd_host nd) txs).
  set (l := go_range (map_to_list sets)).
  assert (Hl : l ≡ₚ map_to_list sets) by apply go_range_perm.
  destruct (send_all_msgs txProto ((fun e : PeerID * list Transaction => (e.1, rlp_EncodeToBytes (tx_data <$> e.2))) <$> l) Hup) with (lh := nd_host nd)
    as (lh' & E & Hsent).
  { apply Forall_forall. intros m ([q b] & -> & He)%list_elem_of_fmap. rewrite Hl in He.
    apply elem_of_map_to_list in He. unfold sets in He. rewrite (broadcast_sets_spec view) in He by done. cbn [fst snd].
    assert (Hb : Forall tx_sound b).
    { unfold batch_for in He. destruct (lh_RemotePeerCaches (nd_host nd) !! q) as [c|]; [|done].
      destruct (unknown_txs c txs) eqn:Eu; [done|]. injection He as <-. rewrite <- Eu.
      rewrite Forall_forall in Hs |- *. intros tx [_ Htx]%list_elem_of_filter. by apply Hs. }
    destruct (txs_wire b Hb) as (msg & txs' & -> & _). by eexists. }
  rewrite E. cbn [gbind]. eexists _, _. split; [done|]. split; [done|]. cbn [nd_host]. split; [exact Hsent|].
  rewrite <- list_fmap_compose. intros p. pose proof (broadcast_sets_spec view (nd_host nd) txs p Hwf) as Hp.
  fold sets in Hp. destruct (batch_for (nd_host nd) txs p) as [|tx b].
  - apply filter_none. intros m ([q y] & -> & He)%list_elem_of_fmap. rewrite Hl in He.
    apply elem_of_map_to_list in He. cbn. congruence.
  - by apply (filter_key sets l
      (fun e : PeerID * list Transaction => (txProto, e.1, default [] (rlp_EncodeToBytes (tx_data <$> e.2))))
      (fun m => m.1.2) p (tx :: b)).
Qed.

(** C21. A transaction reaches the operator's pool, when every peer can be reached
    (a peer that cannot ends the process in [SendMsg]). In a turn of [broadcastTxs] a
    node sends a connected peer exactly one message if the peer is not known to
    have all of the transactions, and none otherwise; the message holds those it is
    not known to have. The transactions have no negative integer and right caches.
    When the peer is the operator and their pointers, fees and output amounts are
    set, receiving the message returns without an error, keeps the
    operator's invariant and leaves the ledger alone: every one of these transactions
    that the operator's validator accepts is then in the operator's pool, and nothing
    else is there but what was. The amounts of inputs may be nil, as in what the
    client makes: they arrive as zeros, with the same hash. *)
Theorem txs_reach_operator (ndA : Node WA) (ndB : Node (Operator D G)) p a c txs :
  net_up net -> host_wf (nd_host ndA) -> host_wf (nd_host ndB) -> run_inv abs inv signer (nd_worker ndB) ->
  lh_RemotePeerCaches (nd_host ndA) !! p = Some c ->
  Forall tx_sound txs -> Forall (tx_fine signer) (unknown_txs c txs) ->
  let valid := Validate (NewUtxoTxValidator signer (bc_db (op_chain (nd_worker ndB)))) in
  exists ndA' new, broadcastTxs net ndA txs = Ret ndA' /\
    lh_sent (nd_host ndA') = lh_sent (nd_host ndA) ++ new /\
    if decide (unknown_txs c txs = []) then filter (fun m => m.1.2 = p) new = []
    else exists msg ndB', filter (fun m => m.1.2 = p) new = [(txProto, p, msg)] /\
      recvTxs ndB a (msg, None) = Ret (ndB', None) /\ run_inv abs inv signer (nd_worker ndB') /\
      op_ledger (nd_worker ndB') = op_ledger (nd_worker ndB) /\
      (forall tx, tx ∈ unknown_txs c txs -> valid tx = Ret None ->
         rlpHash (tx_data tx) ∈ hashes (Content (op_txPool (nd_worker ndB')))) /\
      (forall tx', tx' ∈ Content (op_txPool (nd_worker ndB')) -> tx' ∈ Content (op_txPool (nd_worker ndB)) \/
         exists tx, tx ∈ unknown_txs c txs /\ tx_data tx' = fill_txdata (tx_data tx) /\ valid tx = Ret None).
Proof using All.
  intros Hup HwfA HwfB Hrun Hc Hs Hfine valid.
  destruct (broadcastTxs_up ndA txs Hup HwfA Hs) as (ndA' & new & E & _ & Hsent & Hnew).
  exists ndA', new. split; [done|]. split; [done|]. specialize (Hnew p).
  unfold batch_for in Hnew. rewrite Hc in Hnew. set (want := unknown_txs c txs) in *.
  assert (Hsw : Forall tx_sound want).
  { rewrite Forall_forall in Hs |- *. intros tx [_ Htx]%list_elem_of_filter. by apply Hs. }
  destruct (txs_wire want Hsw) as (msg & txs' & Emsg & Edec & Hsame).
  case_decide as Hw; [by rewrite Hw in Hnew|].
  exists msg. unfold recvTxs. cbn [fst]. rewrite Edec.
  destruct (MarkTxs_spec view (nd_host ndB) a txs' HwfB) as (host & -> & _). cbn [gbind].
  assert (Hfine' : Forall (tx_fine signer) txs').
  { clear -Hsame Hfine SignerDataLaws0. induction Hsame as [|tx' tx txs1 txs2 [Et _] _ IH]; [done|].
    apply Forall_cons in Hfine as [[Hck Ha] Hfine]. constructor; [|auto].
    split; [by eapply filled_checkable|by eapply applicable_fill]. }
  destruct (remote_run abs inv signer (nd_worker ndB) txs' Hrun Hfine') as (o' & Eo & Hrun' & HL).
  cbn [w_ProcessRemoteTxs reach_worker Operator_Worker]. rewrite Eo. cbn [gbind]. eexists.
  split; [destruct want; [done|by rewrite Hnew, Emsg]|]. split; [done|]. split; [done|]. split; [done|].
  cbn [nd_worker]. unfold Op_ProcessRemoteTxs in Eo. apply gbind_Ret in Eo as [[pool es] [Ep Eo]].
  injection Eo as <-. cbn [op_set_pool op_txPool]. unfold Content.
  destruct (addTxsLocked_takes _ txs' false _ _ _ (oi_pool _ _ _ (ri_op _ _ _ _ Hrun)) Ep) as (_ & Htake & Horig).
  assert (Hpair : forall i tx tx', want !! i = Some tx -> txs' !! i = Some tx' ->
    filled tx' tx /\ tx_hash tx' = None /\ (valid tx' = Ret None <-> valid tx = Ret None)).
  { intros i tx tx' Hi Hi'. destruct (Forall2_lookup_lr _ _ _ _ _ _ Hsame Hi' Hi) as (Et & Hc' & Hn).
    split_and!; [done|done|]. destruct (oi_ready _ _ _ (ri_op _ _ _ _ Hrun)) as [Hinv _ Hwf _].
    rewrite Forall_forall in Hsw, Hfine. pose proof (list_elem_of_lookup_2 _ _ _ Hi) as Hin.
    apply Validate_filled; [done|done|by apply Hfine|by apply Hsw|done]. }
  split.
  - intros tx Htx Hv. apply list_elem_of_lookup in Htx as [i Hi].
    destruct (Forall2_lookup_r _ _ _ _ _ Hsame Hi) as (tx' & Hi' & _). destruct (Hpair i tx tx' Hi Hi') as (Et & Hn & Hiff).
    replace (rlpHash (tx_data tx)) with (Transaction_Hash tx')
      by (unfold Transaction_Hash, rlpHash; by rewrite Hn, Et, <- rlp_nil_tx).
    apply Htake; [by eapply list_elem_of_lookup_2|by apply Hiff].
  - intros tx' Htx'. destruct (Horig tx' Htx') as [|[Hin Hv]]; [by left|right].
    apply list_elem_of_lookup in Hin as [i Hi'].
    destruct (Forall2_lookup_l _ _ _ _ _ Hsame Hi') as (tx & Hi & _). destruct (Hpair i tx tx' Hi Hi') as (Et & Hn & Hiff).
    exists tx. split; [by eapply list_elem_of_lookup_2|]. split; [done|by apply Hiff].
Qed.
End Reach.
