(* ===== verification/Join.v ===== *)
(** A validator that joins late: it downloads the blocks of the contract from a node
    that has them, and ends with the ledger they make. Composes the two ends of
    network/p2phandlers/block.go ([downloadBlocks] and [getBlock]) with
    core/validator.go. *)

From S2P Require Import Prelude Deps Types Signing Store Schema RawDB Utxo Validation HeaderChain.
From S2P Require Import BlockChain TxPool RootChain Operator Conservation Sealing Genesis Restart Recovery.
From S2P Require Import Network Handlers Replica.
#[local] Open Scope Z_scope.

Section Join.
Context {D G WS RW : Type} `{LRU} (view : forall V, lru V -> gmap Hash V) `{!LRULaws view}
  `{EthCommon} `{!EthCommonLaws} `{Crypto} `{!Signer G} `{!SignerDataLaws G} `{Copier} `{!CopierLaws}
  `{Trie} `{Rlp txdata} `{!RlpNilTxLaws} `{Rlp Header} `{Rlp rlpBody} `{Rlp Z} `{Rlp extblock} `{RlpStream}
  `{Database D} (abs : D -> txstore) (inv : D -> Prop) `{!DatabaseSpec D abs inv}
  `{!RlpLaws txdata txdata_ok} `{!RlpStreamLaws txdata} `{!RlpLaws extblock extblock_ok} `{!RlpNilBlockLaws}
  `{!RlpLaws Z (fun n => 0 <= n)}
  `{HashSet} (sview : hset -> gset Hash) `{!HashSetLaws sview} `{GoRange} {range_laws : GoRangeLaws}
  `{Worker WS} `{NodeChain WS} `{ContractQuery} (rc : RootChain RW)
  (signer : G) (known : gset Hash) (net : Net).

#[local] Instance joining_worker : Worker (Validator D) := Validator_Worker signer.
#[local] Instance joining_chain : NodeChain (Validator D) := {|
  w_CurrentBlock v := BC_CurrentBlock (va_chain v);
  w_GetBlockByNumber v n := let (bc, b) := GetBlockByNumber (va_chain v) n in (va_set_chain v bc, b)
|}.

Abbreviation va_ledger v := (chain_ledger abs (va_chain v)).

(** Every peer answers [getBlock] as the node [server] does, which has a block for
    each number the contract has. *)
Record serving (server : Node WS) (blk : Z -> Block) : Prop := {
  sv_reply p msg : net_ReadMsg net getBlockProto p msg =
    (default [] (getBlock server (msg, None) (fun _ => None)).1.2, None);
  sv_blocks n : 0 < n < 2 ^ 62 -> root_of rc n <> zeroHash ->
    (w_GetBlockByNumber (nd_worker server) n).2 = Some (blk n)
}.

(** The reply to a request is the block's encoding. *)
Lemma serving_reply server blk n p msg data : serving server blk -> 0 < n < 2 ^ 62 -> root_of rc n <> zeroHash ->
  rlp_EncodeToBytes n = Some msg -> Block_EncodeRLP (blk n) = Some data ->
  net_ReadMsg net getBlockProto p msg = (data, None).
Proof using All.
  intros [Hr Hb] Hn Hroot Hmsg Hdata. rewrite Hr. unfold getBlock.
  destruct (rlp_roundtrip (ok := fun n => 0 <= n) n (Z.lt_le_incl _ _ (proj1 Hn))) as (msg' & E & _ & Ed).
  rewrite Hmsg in E. injection E as <-. rewrite Ed.
  assert (Hu : big_Uint64 n = n) by (unfold big_Uint64; rewrite Z.abs_eq by lia; apply u64_small; unfold is_u64; lia).
  rewrite Hu. specialize (Hb n Hn Hroot). destruct (w_GetBlockByNumber _ n) as [w [b|]]; [|done].
  injection Hb as ->. by rewrite Hdata.
Qed.

(** One block: asked for, answered, accepted. *)
Lemma fetch_follows (nd : Node (Validator D)) server blk n c sent :
  net_up net -> disk_ok abs inv -> serving server blk -> 0 < n < 2 ^ 62 -> root_of rc n <> zeroHash ->
  host_wf (nd_host nd) -> lh_RemotePeerCaches (nd_host nd) <> ∅ ->
  va_inv view abs inv known c (nd_worker nd) -> va_newBlockCh (nd_worker nd) = Some sent ->
  forall m, wire_ok signer (blk n) m -> Header_Hash (header (blk n)) ∉ known ->
  (m mod 1000 = 0 -> c < m /\ txs_root (transactions (blk n)) = TxHash (header (blk n)) /\
     block_rules signer (va_ledger (nd_worker nd)) (transactions (blk n))) ->
  exists nd' sent', fetch_block net nd n = Ret (nd', false) /\ host_wf (nd_host nd') /\
    lh_RemotePeerCaches (nd_host nd') <> ∅ /\ va_inv view abs inv known (next_child c m) (nd_worker nd') /\
    va_newBlockCh (nd_worker nd') = Some sent' /\
    va_ledger (nd_worker nd') = ledger_block m (transactions (blk n)) (va_ledger (nd_worker nd)).
Proof using All.
  intros [Hs Hw] Hdisk Hsv Hn Hroot Hwf Hne Hva Hch m Hwire Hk Hrules. unfold fetch_block.
  destruct (PeerIDs (nd_host nd)) as [|target rest] eqn:Ep.
  { destruct (map_choose _ Hne) as (p & pc & Hc).
    assert (Hp : p ∈ PeerIDs (nd_host nd)) by (apply PeerIDs_spec; [done|eauto]).
    rewrite Ep in Hp. by apply elem_of_nil in Hp. }
  destruct (rlp_roundtrip (ok := fun n => 0 <= n) n (Z.lt_le_incl _ _ (proj1 Hn))) as (msg & Emsg & _ & _). rewrite Emsg.
  destruct (wire_encodes signer (blk n) m Hwire) as (data & b' & Hdata & Hdec & Hrc).
  unfold Request, SendMsg. rewrite Hs, Hw. cbn [gbind].
  rewrite (serving_reply server blk n target msg data) by done. cbn [fst]. rewrite Hdec.
  set (lh := log_sent (nd_host nd) getBlockProto target msg).
  assert (Hlh : host_wf lh) by exact Hwf.
  destruct (MarkBlock_spec sview lh target b' Hlh) as (lh' & -> & Hwf' & _ & Hdom & _). cbn [gbind].
  destruct (Va_WriteBlock_follows view abs inv signer known c (nd_worker nd) sent (blk n) b' m Hdisk Hva Hch Hwire Hrc Hk Hrules)
    as (v' & Ev & Hva' & HL & Hch'). cbn [w_WriteBlock joining_worker Validator_Worker]. rewrite Ev. cbn [gbind].
  eexists _, _. split; [done|]. cbn [nd_host nd_worker]. split_and!; [done| |done|exact Hch'|done].
  intros E. apply Hne. apply dom_empty_inv_L.
  change (lh_RemotePeerCaches (nd_host nd)) with (lh_RemotePeerCaches lh). by rewrite <- Hdom, E, dom_empty_L.
Qed.

Lemma joining_head c (v : Validator D) : va_inv view abs inv known c v -> returns (current_number v).
Proof using All.
  intros Hva. destruct (ready_head _ _ _ (vi_ready _ _ _ _ _ _ Hva)) as (b & n & Hb & Hn).
  unfold current_number. cbn [w_CurrentBlock joining_chain]. unfold BC_CurrentBlock, Block_Number.
  rewrite Hb. cbn [gbind deref]. rewrite Hn. cbn. by eexists.
Qed.

(** C26. A validator that joins late catches up. Let every peer answer requests as a
    node does that has a block for each number of the contract, and let these blocks
    be valid one after the other, in the order of their numbers, on the validator's
    ledger. Then a pass of [downloadBlocks] over the numbers, with a peer connected,
    runs to its end without being stopped; every block was accepted; and the
    validator's committed ledger is the one the blocks make. *)
Theorem late_validator_catches_up (nd : Node (Validator D)) server blk b max cur fuel c sent c' L' :
  net_up net -> disk_ok abs inv -> no_gaps rc -> serving server blk ->
  host_wf (nd_host nd) -> lh_RemotePeerCaches (nd_host nd) <> ∅ ->
  va_inv view abs inv known c (nd_worker nd) -> va_newBlockCh (nd_worker nd) = Some sent ->
  0 < b -> max < 2 ^ 62 -> (Z.to_nat (max - b + 1) <= fuel)%nat ->
  flight signer known c (va_ledger (nd_worker nd)) (blk <$> wanted rc b max) c' L' ->
  exists nd' cur' c'', download_pass rc fuel net nd b max cur = Ret (nd', cur', false) /\
    va_ledger (nd_worker nd') = L' /\ c'' <= c' /\ va_inv view abs inv known c'' (nd_worker nd').
Proof using All.
  intros Hup Hdisk Hgaps Hsv Hwf Hne Hva Hch Hb Hmax. revert nd b cur c sent Hwf Hne Hva Hch Hb.
  induction fuel as [|fuel IH]; intros nd b cur c sent Hwf Hne Hva Hch Hb Hf Hfl; cbn [download_pass].
  all: destruct (Z.leb_spec b max) as [Hle|Hlt]; [|rewrite wanted_done in Hfl by done; inversion Hfl; subst;
    exists nd, cur, c; by split_and!].
  1: lia.
  destruct (joining_head c (nd_worker nd) Hva) as [cur1 ->]. cbn [gbind]. fold (root_of rc b).
  case_decide as Hz.
  - rewrite skip_to_spec by lia. rewrite (wanted_skip rc b ((b / 1000 + 1) * 1000) max) in Hfl; [|dlia|].
    2: { intros m Hm. by apply (Hgaps b). }
    eapply IH; [done|done|done|exact Hch|dlia|dlia|exact Hfl].
  - rewrite wanted_here in Hfl by done. rewrite fmap_cons in Hfl. inversion Hfl as [|? ? ? m ? ? ? Hwire Hk Hr Hrest]; subst.
    destruct (fetch_follows nd server blk b c sent Hup Hdisk Hsv ltac:(lia) Hz Hwf Hne Hva Hch m Hwire Hk Hr)
      as (nd1 & sent1 & -> & Hwf1 & Hne1 & Hva1 & Hch1 & HL1). cbn [gbind]. rewrite i64_small by lia.
    rewrite <- HL1 in Hrest. eapply IH; [done|done|done|exact Hch1|lia|lia|exact Hrest].
Qed.
End Join.
