(* ===== verification/Contract.v ===== *)
(** rootchain/contracts/RootChain.sol as far as it numbers blocks (the exits are in
    [Exits.v]), and what the node relies on of it: the numbers of deposits, the slots
    of submitted roots, and the events both are announced with. *)

From Stdlib Require Import Sorting.Sorted.
From S2P Require Import Prelude Deps Types Signing Store Schema RawDB Utxo Validation HeaderChain.
From S2P Require Import BlockChain TxPool RootChain Operator Conservation Sealing Genesis Restart Recovery.
From S2P Require Import Network Handlers Replica Events.
#[local] Open Scope Z_scope.

(** * The contract *)

(** SafeMath on [uint256]: an overflow reverts the transaction. *)
Definition uint256 (z : Z) : Z := z mod 2 ^ 256.
Definition SafeMath_add (a b : Z) : option Z := let c := uint256 (a + b) in if a <=? c then Some c else None.
Definition SafeMath_sub (a b : Z) : option Z := if b <=? a then Some (a - b) else None.

Definition CHILD_BLOCK_INTERVAL : Z := 1000.

Record ChildBlock : Type := mkChildBlock { cb_root : Hash; cb_timestamp : Z }.

(** The storage but for the exits and their queues ([Exits.v]); a slot nobody wrote reads as
    zero. *)
Record Contract : Type := mkContract {
  c_operator : Address;
  c_currentChildBlock : Z;
  c_currentDepositBlock : Z;
  c_currentFeeExit : Z;
  c_childChain : gmap Z ChildBlock
}.

(** [msg] and [block.timestamp] of a transaction. *)
Record Msg : Type := mkMsg { msg_sender : Address; msg_value : Z; block_timestamp : Z }.

Section Contract.
Context `{Crypto}.

Definition constructor (m : Msg) : Contract := mkContract (msg_sender m) CHILD_BLOCK_INTERVAL 1 1 ∅.

Definition getChildChain (c : Contract) (blockNumber : Z) : Hash * Z :=
  match c_childChain c !! blockNumber with Some b => (cb_root b, cb_timestamp b) | None => (zeroHash, 0) end.

Definition getDepositBlock (c : Contract) : option Z :=
  n ← SafeMath_sub (c_currentChildBlock c) CHILD_BLOCK_INTERVAL;
  SafeMath_add n (c_currentDepositBlock c).

(** A transaction that reverts has no result. *)
Definition submitBlock (c : Contract) (m : Msg) (root : Hash) : option (Contract * event_value) :=
  if decide (msg_sender m = c_operator c) then
    let chain := <[c_currentChildBlock c := mkChildBlock root (block_timestamp m)]> (c_childChain c) in
    let ev := BlockSubmitted (mkBlockSubmittedEvent root (Some (c_currentDepositBlock c))
                (Some (c_currentChildBlock c)) (Some (block_timestamp m))) in
    next ← SafeMath_add (c_currentChildBlock c) CHILD_BLOCK_INTERVAL;
    Some (mkContract (c_operator c) next 1 (c_currentFeeExit c) chain, ev)
  else None.

(** [keccak256(msg.sender, address(0), msg.value)], packed. *)
Definition deposit_root (m : Msg) : Hash :=
  keccak256 (arr (msg_sender m) ++ arr zeroAddress ++ be_put 32 (msg_value m)).

Definition deposit (c : Contract) (m : Msg) : option (Contract * event_value) :=
  if c_currentDepositBlock c <? CHILD_BLOCK_INTERVAL then
    depositBlock ← getDepositBlock c;
    let chain := <[depositBlock := mkChildBlock (deposit_root m) (block_timestamp m)]> (c_childChain c) in
    next ← SafeMath_add (c_currentDepositBlock c) 1;
    Some (mkContract (c_operator c) (c_currentChildBlock c) next (c_currentFeeExit c) chain,
          Deposit (mkDepositEvent (msg_sender m) (Some depositBlock) zeroAddress (Some (msg_value m))))
  else None.

(** A transaction that takes effect, with the event it emits. *)
Inductive contract_step (c : Contract) (ev : event_value) (c' : Contract) : Prop :=
| step_submit m root : submitBlock c m root = Some (c', ev) -> contract_step c ev c'
| step_deposit m : 0 <= msg_value m -> deposit c m = Some (c', ev) -> contract_step c ev c'.

(** From its creation, with the events in their order. *)
Inductive contract_run : list event_value -> Contract -> Prop :=
| run_created m : contract_run [] (constructor m)
| run_step evs c ev c' : contract_run evs c -> contract_step c ev c' -> contract_run (evs ++ [ev]) c'.

(** * Its numbering *)

Definition deposit_number (ev : event_value) : option Z := match ev with Deposit e => DepositBlock e | _ => None end.
Definition submitted_number (ev : event_value) : option Z :=
  match ev with BlockSubmitted e => SubmittedBlockNum e | _ => None end.

(** The counters, and which slots are taken: below the next child block, and after
    the last one those of the deposits since; a slot that is taken has the one before
    it in the interval taken, and so is each child block's. *)
Record contract_wf (c : Contract) : Prop := {
  cw_child : c_currentChildBlock c mod 1000 = 0 /\ 1000 <= c_currentChildBlock c < 2 ^ 256;
  cw_deposit : 1 <= c_currentDepositBlock c <= 1000;
  cw_taken n : is_Some (c_childChain c !! n) -> 0 < n < c_currentChildBlock c - 1000 + c_currentDepositBlock c;
  cw_submitted n : n mod 1000 = 0 -> 0 < n < c_currentChildBlock c -> is_Some (c_childChain c !! n);
  cw_before n : is_Some (c_childChain c !! n) -> 1 < n mod 1000 -> is_Some (c_childChain c !! (n - 1));
  cw_deposits n : c_currentChildBlock c - 1000 < n < c_currentChildBlock c - 1000 + c_currentDepositBlock c ->
    is_Some (c_childChain c !! n)
}.

Lemma SafeMath_add_Some a b c : 0 <= a < 2 ^ 256 -> 0 <= b < 2 ^ 256 -> SafeMath_add a b = Some c ->
  c = a + b /\ c < 2 ^ 256.
Proof.
  intros Ha Hb. unfold SafeMath_add, uint256. destruct (Z.leb_spec a ((a + b) mod 2 ^ 256)) as [Hle|]; [|done].
  intros [= <-]. destruct (Z.lt_ge_cases (a + b) (2 ^ 256)).
  - rewrite Z.mod_small by lia. lia.
  - replace (a + b) with (a + b - 2 ^ 256 + 1 * 2 ^ 256) in Hle by lia.
    rewrite Z.mod_add, Z.mod_small in Hle by lia. lia.
Qed.

(** The two transactions, once they take effect. *)
Lemma submitBlock_inv c m root c' ev : contract_wf c -> submitBlock c m root = Some (c', ev) ->
  msg_sender m = c_operator c /\ c' = mkContract (c_operator c) (c_currentChildBlock c + 1000) 1 (c_currentFeeExit c)
    (<[c_currentChildBlock c := mkChildBlock root (block_timestamp m)]> (c_childChain c)) /\
  ev = BlockSubmitted (mkBlockSubmittedEvent root (Some (c_currentDepositBlock c)) (Some (c_currentChildBlock c))
         (Some (block_timestamp m))) /\ c_currentChildBlock c + 1000 < 2 ^ 256.
Proof.
  intros Hw. unfold submitBlock. case_decide; [|done]. intros E. apply bind_Some in E as (next & En & [= <- <-]).
  pose proof (cw_child c Hw). apply SafeMath_add_Some in En as [-> ?]; [|lia|done]. done.
Qed.

Lemma deposit_inv c m c' ev : contract_wf c -> deposit c m = Some (c', ev) ->
  let n := c_currentChildBlock c - 1000 + c_currentDepositBlock c in
  c_currentDepositBlock c < 1000 /\ c' = mkContract (c_operator c) (c_currentChildBlock c) (c_currentDepositBlock c + 1)
    (c_currentFeeExit c)
    (<[n := mkChildBlock (deposit_root m) (block_timestamp m)]> (c_childChain c)) /\
  ev = Deposit (mkDepositEvent (msg_sender m) (Some n) zeroAddress (Some (msg_value m))).
Proof.
  intros Hw. unfold deposit, getDepositBlock, SafeMath_sub, CHILD_BLOCK_INTERVAL.
  pose proof (cw_child c Hw). pose proof (cw_deposit c Hw).
  destruct (Z.ltb_spec (c_currentDepositBlock c) 1000); [|done].
  rewrite (proj2 (Z.leb_le 1000 _)) by lia. cbn [mbind option_bind]. intros E.
  apply bind_Some in E as (n & En & E). apply bind_Some in E as (next & Ex & [= <- <-]).
  apply SafeMath_add_Some in En as [-> ?]; [|lia|lia]. apply SafeMath_add_Some in Ex as [-> ?]; [|lia|done]. done.
Qed.

(** The operator may submit until the numbers run out. *)
Lemma submitBlock_accepts c m root : contract_wf c -> msg_sender m = c_operator c -> c_currentChildBlock c + 1000 < 2 ^ 256 ->
  exists ev, submitBlock c m root = Some (mkContract (c_operator c) (c_currentChildBlock c + 1000) 1 (c_currentFeeExit c)
    (<[c_currentChildBlock c := mkChildBlock root (block_timestamp m)]> (c_childChain c)), ev).
Proof.
  intros Hw Hm Hlt. pose proof (cw_child c Hw). unfold submitBlock, SafeMath_add, uint256, CHILD_BLOCK_INTERVAL.
  rewrite decide_True, Z.mod_small, (proj2 (Z.leb_le _ _)) by (done || lia). by eexists.
Qed.

Lemma constructor_wf m : contract_wf (constructor m).
Proof.
  split; cbn [constructor c_currentChildBlock c_currentDepositBlock c_childChain]; unfold CHILD_BLOCK_INTERVAL; try lia; try done.
  - intros n [b Hb]. by rewrite lookup_empty in Hb.
  - intros n Hn Hr. exfalso. unfold CHILD_BLOCK_INTERVAL in Hr. dlia.
Qed.

Lemma lookup_insert_is_Some_or {A} (m : gmap Z A) i x n : is_Some (<[i := x]> m !! n) <-> n = i \/ is_Some (m !! n).
Proof.
  destruct (decide (n = i)) as [->|Hne]; [rewrite lookup_insert_eq; split; [by left|by eexists]|].
  rewrite lookup_insert_ne by done. naive_solver.
Qed.

Lemma contract_step_wf c ev c' : contract_wf c -> contract_step c ev c' -> contract_wf c'.
Proof.
  intros Hw [m root E|m Hv E].
  - destruct (submitBlock_inv c m root c' ev Hw E) as (_ & -> & _ & Hlt).
    destruct Hw as [Hc Hd Ht Hs Hb Hds]. split; cbn [c_currentChildBlock c_currentDepositBlock c_childChain].
    + dlia.
    + lia.
    + intros n [->|Hn]%lookup_insert_is_Some_or; [lia|]. specialize (Ht n Hn). lia.
    + intros n Hn Hr. apply lookup_insert_is_Some_or. destruct (decide (n = c_currentChildBlock c)); [by left|right].
      apply Hs; [done|dlia].
    + intros n [->|Hn]%lookup_insert_is_Some_or Hm; [lia|]. apply lookup_insert_is_Some_or. right. auto.
    + intros n Hn. lia.
  - destruct (deposit_inv c m c' ev Hw E) as (Hlt & -> & _).
    destruct Hw as [Hc Hd Ht Hs Hb Hds]. split; cbn [c_currentChildBlock c_currentDepositBlock c_childChain].
    + done.
    + lia.
    + intros n [->|Hn]%lookup_insert_is_Some_or; [lia|]. specialize (Ht n Hn). lia.
    + intros n Hn Hr. apply lookup_insert_is_Some_or. right. auto.
    + intros n [->|Hn]%lookup_insert_is_Some_or Hm; apply lookup_insert_is_Some_or; right; [|auto].
      apply Hds. dlia.
    + intros n Hn. apply lookup_insert_is_Some_or.
      destruct (decide (n = c_currentChildBlock c - 1000 + c_currentDepositBlock c)); [by left|right]. apply Hds. lia.
Qed.

(** A slot is written once. *)
Lemma contract_step_keeps c ev c' : contract_wf c -> contract_step c ev c' -> c_childChain c ⊆ c_childChain c'.
Proof.
  intros Hw [m root E|m _ E].
  - destruct (submitBlock_inv c m root c' ev Hw E) as (_ & -> & _). apply insert_subseteq.
    destruct (c_childChain c !! c_currentChildBlock c) eqn:En; [|done].
    pose proof (cw_deposit c Hw). pose proof (cw_taken c Hw _ (mk_is_Some _ _ En)). lia.
  - destruct (deposit_inv c m c' ev Hw E) as (_ & -> & _). apply insert_subseteq.
    destruct (c_childChain c !! _) eqn:En; [|done]. pose proof (cw_taken c Hw _ (mk_is_Some _ _ En)). lia.
Qed.

(** The numbers announced so far, before a state of the contract. *)
Record numbered (evs : list event_value) (c : Contract) : Prop := {
  nu_wf : contract_wf c;
  nu_submitted : omap submitted_number evs = (fun k => 1000 * k) <$> seqZ 1 (c_currentChildBlock c / 1000 - 1);
  nu_sorted : StronglySorted Z.lt (omap deposit_number evs);
  nu_deposits n : n ∈ omap deposit_number evs ->
    0 < n < c_currentChildBlock c - 1000 + c_currentDepositBlock c /\ n mod 1000 <> 0;
  nu_events ev : ev ∈ evs -> contract_event (mkContractEvent 0 ev) \/
    exists e n, ev = Deposit e /\ DepositBlock e = Some n /\ 2 ^ 63 <= n;
  nu_nodup : NoDup evs
}.

Lemma StronglySorted_snoc {A} (R : A -> A -> Prop) l x : StronglySorted R l -> (forall y, y ∈ l -> R y x) -> StronglySorted R (l ++ [x]).
Proof.
  induction 1 as [|y l Hs IH Hall]; intros Hx; cbn [app]; [by repeat constructor|]. constructor.
  - apply IH. intros z Hz. apply Hx. by apply list_elem_of_further.
  - apply Forall_app. split; [done|]. apply Forall_singleton, Hx, list_elem_of_here.
Qed.

Lemma NoDup_snoc {A} (l : list A) x : NoDup (l ++ [x]) <-> NoDup l /\ (x ∉ l).
Proof.
  rewrite NoDup_app. split.
  - intros (? & Hd & _). split; [done|]. intros Hx. apply (Hd x Hx), list_elem_of_here.
  - intros [? Hx]. split_and!; [done| |apply NoDup_singleton]. intros y Hy Hin. by apply list_elem_of_singleton in Hin as ->.
Qed.

Lemma contract_run_numbered evs c : contract_run evs c -> numbered evs c.
Proof.
  induction 1 as [m|evs c ev c' _ IH Hstep].
  { split; [apply constructor_wf|done|constructor|by intros n Hn%elem_of_nil|by intros ev Hev%elem_of_nil|constructor]. }
  destruct IH as [Hw Hsub Hs Hdep Hev Hnd]. pose proof (contract_step_wf c ev c' Hw Hstep) as Hw'.
  pose proof (cw_child c Hw) as Hc. pose proof (cw_deposit c Hw) as Hd.
  destruct Hstep as [m root E|m Hv E].
  - destruct (submitBlock_inv c m root c' ev Hw E) as (_ & -> & -> & _).
    split; [done|..]; rewrite ?omap_app; cbn [omap list_omap deposit_number submitted_number SubmittedBlockNum
      c_currentChildBlock c_currentDepositBlock]; rewrite ?app_nil_r; try done.
    + rewrite Hsub. replace ((c_currentChildBlock c + 1000) / 1000 - 1) with (c_currentChildBlock c / 1000 - 1 + 1) by dlia.
      rewrite seqZ_app, fmap_app by dlia. f_equal. rewrite seqZ_cons by lia.
      rewrite seqZ_nil by lia. rewrite list_fmap_singleton. f_equal. dlia.
    + intros n Hn. specialize (Hdep n Hn). lia.
    + intros ev' [Hin|Hin]%elem_of_app; [auto|]. apply list_elem_of_singleton in Hin as ->. left. by eexists.
    + apply NoDup_snoc. split; [done|]. intros Hin.
      assert (Hn : c_currentChildBlock c ∈ omap submitted_number evs) by (apply list_elem_of_omap; by eexists).
      rewrite Hsub in Hn. apply list_elem_of_fmap in Hn as (k & Ek & Hk%elem_of_seqZ). dlia.
  - destruct (deposit_inv c m c' ev Hw E) as (Hlt & -> & ->).
    split; [done|..]; rewrite ?omap_app; cbn [omap list_omap deposit_number submitted_number DepositBlock
      c_currentChildBlock c_currentDepositBlock]; rewrite ?app_nil_r; try done.
    + apply StronglySorted_snoc; [done|]. intros n Hn. specialize (Hdep n Hn). lia.
    + intros n [Hn|Hn]%elem_of_app; [specialize (Hdep n Hn); lia|]. apply list_elem_of_singleton in Hn as ->. dlia.
    + intros ev' [Hin|Hin]%elem_of_app; [auto|]. apply list_elem_of_singleton in Hin as ->.
      destruct (Z.lt_ge_cases (c_currentChildBlock c - 1000 + c_currentDepositBlock c) (2 ^ 63)) as [Hb|Hb].
      * left. do 2 eexists. split; [done|]. split; [done|]. dlia.
      * right. by do 2 eexists.
    + apply NoDup_snoc. split; [done|]. intros Hin.
      assert (Hn : c_currentChildBlock c - 1000 + c_currentDepositBlock c ∈ omap deposit_number evs)
        by (apply list_elem_of_omap; by eexists).
      specialize (Hdep _ Hn). lia.
Qed.

(** C22. The contract's numbering. However often and in whatever order blocks are
    submitted and deposits made: the child block counter is a positive multiple of
    1000 and the deposit counter stays between 1 and 1000; submitted blocks are
    announced under 1000, 2000 and so on; deposits under strictly increasing
    positive numbers, none a multiple of 1000; the slots taken are the numbers given
    out, without a gap inside an interval; and no transaction rewrites a slot. *)
Theorem contract_numbering evs c : contract_run evs c ->
  contract_wf c /\
  omap submitted_number evs = (fun k => 1000 * k) <$> seqZ 1 (c_currentChildBlock c / 1000 - 1) /\
  StronglySorted Z.lt (omap deposit_number evs) /\
  (forall n, n ∈ omap deposit_number evs -> 0 < n /\ n mod 1000 <> 0) /\
  (forall ev c', contract_step c ev c' -> contract_wf c' /\ c_childChain c ⊆ c_childChain c').
Proof.
  intros Hrun. destruct (contract_run_numbered evs c Hrun) as [Hw Hsub Hs Hdep _ _].
  split_and!; [done|done|done| |].
  - intros n Hn. specialize (Hdep n Hn). lia.
  - intros ev c' Hstep. split; [by eapply contract_step_wf|by eapply contract_step_keeps].
Qed.

(** ** What the download loop relies on *)

(** The contract as [chain.Query] shows it. *)
Definition contract_query (c : Contract) : ContractQuery := {|
  query_uint _ _ name :=
    if bool_decide (name = "currentChildBlock") then (Some (c_currentChildBlock c), None)
    else if bool_decide (name = "currentDepositBlock") then (Some (c_currentDepositBlock c), None)
    else (None, Some (ErrMsg name));
  query_childChain _ _ n := let (root, ts) := getChildChain c n in ((root, Some ts), None);
  query_operator _ _ := (c_operator c, None)
|}.

Lemma contract_no_gaps {W} (rc : RootChain W) c addr : contract_wf c -> hex_DecodeString (rc_cxAddr rc) = inl addr ->
  map_Forall (fun _ b => cb_root b <> zeroHash) (c_childChain c) ->
  @no_gaps W (contract_query c) rc.
Proof.
  intros Hw Ha Hnz.
  assert (Hroot : forall n, @root_of W (contract_query c) rc n = zeroHash <-> ~ is_Some (c_childChain c !! n)).
  { intros n. unfold root_of, GetRootChainBlockByBlockNum. rewrite Ha. cbn [query_childChain contract_query].
    unfold getChildChain. destruct (c_childChain c !! n) as [b|] eqn:En; cbn.
    - split; [|by intros []]. intros E. by destruct (Hnz n b En).
    - split; [|done]. by intros _ []. }
  intros n m Hn Hz Hm. rewrite Hroot in Hz |- *. intros Htk. apply Hz. clear Hz.
  assert (Hdown : forall k, (k <= Z.to_nat (m - n))%nat -> is_Some (c_childChain c !! (m - Z.of_nat k))).
  { induction k as [|k IH]; intros Hk; [by rewrite Z.sub_0_r|].
    specialize (IH ltac:(lia)). replace (m - Z.of_nat (S k)) with (m - Z.of_nat k - 1) by lia.
    set (j := m - Z.of_nat k) in *. assert (Hj : n < j < (n / 1000 + 1) * 1000) by lia.
    destruct (decide (1 < j mod 1000)); [by apply (cw_before c Hw)|].
    apply (cw_submitted c Hw); [dlia|]. pose proof (cw_taken c Hw j IH). pose proof (cw_deposit c Hw).
    pose proof (cw_child c Hw). dlia. }
  specialize (Hdown (Z.to_nat (m - n)) ltac:(lia)). by replace (m - Z.of_nat (Z.to_nat (m - n))) with n in Hdown by lia.
Qed.
End Contract.

(** * From the contract to the operator's ledger *)

Section Credited.
Context {D G : Type} `{LRU} `{EthCommon} `{!EthCommonLaws} `{Crypto} `{!Signer G} `{Copier} `{!CopierLaws}
  `{Trie} `{Rlp txdata} `{Rlp Header} `{Rlp rlpBody} `{Rlp Z} `{Rlp extblock} `{RlpStream} `{!IcstChain}
  `{Database D} (abs : D -> txstore) (inv : D -> Prop) `{!DatabaseSpec D abs inv} `{EventHash}
  (signer : G) (now : Operator D G -> Z).

Abbreviation op_ledger o := (chain_ledger abs (op_chain o)).

Definition event_amount (ev : ContractEvent) : Z :=
  match ev_V ev with Deposit e => default 0 (ev_Amount e) | BlockSubmitted _ => 0 end.

(** All that was deposited. *)
Definition total_deposited (evs : list ContractEvent) : Z := foldr Z.add 0 (event_amount <$> evs).

Abbreviation numbers evs := (omap (fun ev => deposit_number (ev_V ev)) evs).

Lemma deposit_ledger_other n a x L id : BlockNum id <> n -> BlockNum id <> 0 ->
  deposit_ledger n a x L !! id = L !! id.
Proof.
  intros Hn H0'. unfold deposit_ledger, out_id. rewrite !lookup_insert_ne by (intros <-; done).
  apply lookup_delete_ne. by intros <-.
Qed.

Lemma deposit_ledger_fresh n a x L m : m <> n -> fresh_block m L -> fresh_block m (deposit_ledger n a x L).
Proof.
  intros Hne Hf id Hid. unfold deposit_ledger, out_id.
  rewrite !lookup_insert_ne by (intros <-; cbn in Hid; congruence).
  destruct (decide (id = mkUTXOID 0 0 Byte.x00)) as [->|]; [apply lookup_delete_eq|].
  rewrite lookup_delete_ne by done. by apply Hf.
Qed.

(** Events with different deposit numbers, none of them used: everything deposited
    is added to the supply, and every deposit is there. *)
Lemma event_ledgers evs : forall L, Forall contract_event evs -> NoDup (numbers evs) -> fresh_block 0 L ->
  (forall n, n ∈ numbers evs -> fresh_block n L) ->
  supply (fold_left event_ledger evs L) = supply L + total_deposited evs /\
  (forall id, BlockNum id <> 0 -> (BlockNum id ∉ numbers evs) -> fold_left event_ledger evs L !! id = L !! id) /\
  forall bn e n a, mkContractEvent bn (Deposit e) ∈ evs -> DepositBlock e = Some n -> ev_Amount e = Some a ->
    fold_left event_ledger evs L !! mkUTXOID n 0 Byte.x00 = Some (Depositor e, a).
Proof.
  induction evs as [|ev evs IH]; intros L Hok Hnd H0' Hf.
  { unfold total_deposited. cbn. split_and!; [lia|done|]. intros bn e n a Hin. by apply elem_of_nil in Hin. }
  apply Forall_cons in Hok as [Hev Hok]. destruct ev as [bn [e|e]]; cbn [fold_left].
  2: { cbn in Hnd, Hf. destruct (IH L Hok Hnd H0' Hf) as (Hs & Ho & Hin).
       split_and!; [exact Hs|exact Ho|]. intros bn' e' n' a' [|Hi]%elem_of_cons; [done|eauto]. }
  destruct Hev as (n & a & En & Ea & Hn & Hm & Ha). cbn [ev_V] in *.
  unfold event_ledger at 2 4 6. cbn [ev_V]. rewrite En, Ea.
  cbn [omap list_omap deposit_number ev_V] in Hnd, Hf |- *. rewrite En in Hnd, Hf |- *.
  apply NoDup_cons in Hnd as [Hnew Hnd].
  destruct (IH (deposit_ledger n (Depositor e) a L) Hok Hnd) as (Hs & Ho & Hin).
  { apply deposit_ledger_fresh; [lia|done]. }
  { intros m Hmem. apply deposit_ledger_fresh; [by intros ->|]. apply Hf. by apply list_elem_of_further. }
  split_and!.
  - rewrite Hs, deposit_supply; [|lia|done|apply Hf, list_elem_of_here].
    unfold total_deposited. rewrite fmap_cons. cbn [foldr].
    replace (event_amount (mkContractEvent bn (Deposit e))) with a by (unfold event_amount; cbn; by rewrite Ea). lia.
  - intros id Hz Hid. apply not_elem_of_cons in Hid as [Hid1 Hid2]. rewrite Ho by done. by apply deposit_ledger_other.
  - intros bn' e' n' a' [[= -> ->]|Hi]%elem_of_cons En' Ea'; [|by apply (Hin bn' e' n' a')].
    rewrite En in En'. rewrite Ea in Ea'. injection En' as <-. injection Ea' as <-.
    rewrite Ho; [|cbn; lia|done]. unfold deposit_ledger. rewrite lookup_insert_ne; [apply lookup_insert_eq|].
    change (mkUTXOID n 0 Byte.x00) with (out_id n 0 0). intros E. apply out_id_inj in E as [_ ?]; lia.
Qed.

(** The events of the contract are distinct, and as the operator expects them. *)
Lemma contract_log_fine (l : list ContractEvent) c : contract_run (ev_V <$> l) c -> c_currentChildBlock c < 2 ^ 63 ->
  Forall contract_event l /\ NoDup l /\ NoDup (numbers l) /\ forall n, n ∈ numbers l -> 0 < n.
Proof.
  intros Hrun Hc. destruct (contract_run_numbered _ _ Hrun) as [Hw _ Hs Hdep Hev Hnd].
  assert (En : numbers l = omap deposit_number (ev_V <$> l)).
  { clear. induction l as [|e l IH]; [done|]. cbn. by rewrite IH. }
  split_and!.
  - apply Forall_forall. intros e He. pose proof (list_elem_of_fmap_2 ev_V l e He) as Hv.
    destruct (Hev (ev_V e) Hv) as [Hok|(d & n & Ed & En' & Hn)]; [done|]. exfalso.
    assert (Hin : n ∈ omap deposit_number (ev_V <$> l)) by (apply list_elem_of_omap; exists (ev_V e); split; [done|by rewrite Ed]).
    pose proof (Hdep n Hin). pose proof (cw_deposit c Hw). lia.
  - by eapply NoDup_fmap_1.
  - rewrite En. clear -Hs. induction Hs as [|n ns _ IH Hall]; constructor; [|done].
    intros Hin. rewrite Forall_forall in Hall. specialize (Hall n Hin). lia.
  - intros n Hn. rewrite En in Hn. apply (Hdep n Hn).
Qed.

End Credited.

(** * Where the root of a sealed block goes *)

Section Slots.
Context {D G : Type} `{LRU} `{EthCommon} `{!EthCommonLaws} `{Crypto} `{!Signer G} `{Copier} `{!CopierLaws}
  `{Trie} `{Rlp txdata} `{Rlp Header} `{Rlp rlpBody} `{Rlp Z} `{Rlp extblock} `{RlpStream} `{!IcstChain}
  `{Database D} (abs : D -> txstore) (inv : D -> Prop) `{!DatabaseSpec D abs inv} (cxAddr : string) (signer : G).

(** The operator, the contract, and how many batches failed so far. *)
Record joint : Type := mkJoint { j_op : Operator D G; j_contract : Contract; j_failed : nat }.

(** A batch that is sealed has its root submitted; one for which [Seal] returns an
    error has not. The contract takes deposits, and the operator handles them. *)
Inductive joint_step : joint -> joint -> Prop :=
| joint_sealed o c k now txs o1 b o' m c' ev :
    0 <= now -> batch_ok signer txs -> op_currentChildBlock o + 1000 < 2 ^ 63 ->
    constructBlock now o txs = Ret (o1, b) -> Seal cxAddr signer now o txs = Ret (o', None) ->
    submitBlock c m (TxHash (header b)) = Some (c', ev) -> joint_step (mkJoint o c k) (mkJoint o' c' k)
| joint_failed o c k now txs o' e :
    0 <= now -> batch_ok signer txs -> op_currentChildBlock o + 1000 < 2 ^ 63 ->
    Seal cxAddr signer now o txs = Ret (o', Some e) -> joint_step (mkJoint o c k) (mkJoint o' c (S k))
| joint_deposit o c k m c' ev : 0 <= msg_value m -> deposit c m = Some (c', ev) -> joint_step (mkJoint o c k) (mkJoint o c' k)
| joint_credit o c k now n depositor token amount o' e :
    0 <= now -> 0 < n < 2 ^ 63 -> n mod 1000 <> 0 -> 0 <= amount ->
    handleDepositEvent signer now o (Some n) depositor token (Some amount) = Ret (o', e) ->
    joint_step (mkJoint o c k) (mkJoint o' c k).

(** The operator is ahead of the contract by the failed batches. *)
Record joint_inv (j : joint) : Prop := {
  ji_op : op_inv abs inv (j_op j);
  ji_contract : contract_wf (j_contract j);
  ji_ahead : op_currentChildBlock (j_op j) + 1000 = c_currentChildBlock (j_contract j) + 1000 * Z.of_nat (j_failed j)
}.

Lemma handleDepositEvent_child now (o o' : Operator D G) n depositor token amount e :
  op_inv abs inv o -> 0 < n < 2 ^ 63 -> n mod 1000 <> 0 -> 0 <= amount -> 0 <= now ->
  handleDepositEvent signer now o (Some n) depositor token (Some amount) = Ret (o', e) ->
  op_currentChildBlock o' = op_currentChildBlock o.
Proof using All.
  intros Hi Hn Hm Ha Hnow E. destruct (oi_ch _ _ _ Hi) as [sent Hch].
  destruct (handleDepositEvent_block abs inv signer now o n depositor token amount (oi_ready _ _ _ Hi) Hn Hm Ha Hnow)
    as (b & Hok & _ & _ & Eb). rewrite Eb in E.
  destruct (WriteBlock_spec abs inv signer o b n sent (oi_ready _ _ _ Hi) Hok Hch) as (o1 & e1 & E1 & _ & _ & Hc & _).
  rewrite E in E1. by injection E1 as <- _.
Qed.

Lemma joint_step_inv j j' : joint_inv j -> joint_step j j' -> joint_inv j'.
Proof using All.
  intros [Hi Hw Ha] Hs. destruct Hs as [o c k now txs o1 b o' m c' ev Hnow Hb Hmax _ E Es|o c k now txs o' e Hnow Hb Hmax E
    |o c k m c' ev Hv Ed|o c k now n depositor token amount o' e Hnow Hn Hm Hamt E]; cbn [j_op j_contract j_failed] in *.
  - destruct (Seal_spec abs inv cxAddr signer now o txs Hi Hb Hnow Hmax) as (o2 & e2 & E2 & Hi2 & Hc2 & _).
    rewrite E in E2. injection E2 as <- <-.
    assert (Hw' : contract_wf c') by (eapply contract_step_wf; [exact Hw|by eapply step_submit]).
    destruct (submitBlock_inv c m _ c' ev Hw Es) as (_ & -> & _). split; cbn [j_op j_contract j_failed c_currentChildBlock] in *; [done|done|lia].
  - destruct (Seal_spec abs inv cxAddr signer now o txs Hi Hb Hnow Hmax) as (o2 & e2 & E2 & Hi2 & Hc2 & _).
    rewrite E in E2. injection E2 as <- <-. split; cbn [j_op j_contract j_failed]; [done|done|lia].
  - assert (Hw' : contract_wf c') by (eapply contract_step_wf; [exact Hw|by eapply step_deposit]).
    destruct (deposit_inv c m c' ev Hw Ed) as (_ & -> & _). by split.
  - pose proof (handleDepositEvent_child now o o' n depositor token amount e Hi Hn Hm Hamt Hnow E) as Hc.
    destruct (handleDepositEvent_spec abs inv signer now o n depositor token amount Hi Hn Hm Hamt Hnow) as (o2 & e2 & E2 & Hi2 & _).
    rewrite E in E2. injection E2 as <- <-. split; cbn [j_op j_contract j_failed]; [done|done|by rewrite Hc].
Qed.

Lemma joint_run_inv j j' : joint_inv j -> rtc joint_step j j' -> joint_inv j'.
Proof using All. intros Hj Hrun. induction Hrun; [done|]. eauto using joint_step_inv. Qed.

(** C4. The slot of a root. Let operator and contract start in step (the next block
    of both has the same number) and run, with [k] batches failing on the way, in
    the validation, in the database or in the submission. The root of the next block
    that is submitted goes to the slot [1000 * k] before the block's number. So
    the contract holds the root of each block under the block's number as long as no
    batch failed; and once one did, never again: the operator's counter moves
    before a batch is validated, the contract has nothing yet under the number. *)
Theorem root_slot o0 c0 o c k now txs o1 b m c' ev :
  op_inv abs inv o0 -> contract_wf c0 -> op_currentChildBlock o0 + 1000 = c_currentChildBlock c0 ->
  rtc joint_step (mkJoint o0 c0 0) (mkJoint o c k) ->
  op_currentChildBlock o + 1000 < 2 ^ 63 -> constructBlock now o txs = Ret (o1, b) ->
  submitBlock c m (TxHash (header b)) = Some (c', ev) ->
  exists n, Number (header b) = Some n /\
    submitted_number ev = Some (n - 1000 * Z.of_nat k) /\
    getChildChain c' (n - 1000 * Z.of_nat k) = (txs_root txs, block_timestamp m) /\
    (k <> 0%nat -> getChildChain c' n = (zeroHash, 0)).
Proof using All.
  intros Hi0 Hw0 Hstep Hrun Hmax Eb Es.
  destruct (joint_run_inv (mkJoint o0 c0 0) (mkJoint o c k)) as [Hi Hw Ha]; [|done|].
  { split; cbn [j_op j_contract j_failed]; [done|done|lia]. }
  cbn [j_op j_contract j_failed] in *. pose proof (oi_child _ _ _ Hi) as [_ Hc0].
  rewrite constructBlock_spec in Eb by lia. injection Eb as _ <-. cbn [header TxHash Number] in *.
  destruct (submitBlock_inv c m _ c' ev Hw Es) as (_ & -> & -> & _).
  exists (op_currentChildBlock o + 1000). split; [done|].
  replace (op_currentChildBlock o + 1000 - 1000 * Z.of_nat k) with (c_currentChildBlock c) by lia.
  split; [done|]. unfold getChildChain. cbn [c_childChain]. rewrite lookup_insert_eq. split; [done|].
  intros Hk. rewrite lookup_insert_ne by lia. destruct (c_childChain c !! _) eqn:En; [|done].
  pose proof (cw_taken c Hw _ (mk_is_Some _ _ En)). pose proof (cw_deposit c Hw). lia.
Qed.
End Slots.
