(* ===== verification/PriorityQueue.v ===== *)
(** rootchain/contracts/PriorityQueue.sol, the queue of exits: a binary heap in an
    array whose first cell is a sentinel, and the sorted multiset it implements. *)

From Stdlib Require Import Sorting.Sorted ZifyNat.
From stdpp Require Import sorting.
From S2P Require Import Prelude Deps Contract.
#[local] Open Scope Z_scope.

(** * The queue *)

(** The rest of SafeMath. A division by zero cannot happen here. *)
Definition SafeMath_mul (a b : Z) : option Z :=
  if a =? 0 then Some 0 else let c := uint256 (a * b) in if c / a =? b then Some c else None.
Definition SafeMath_div (a b : Z) : option Z := Some (a / b).

(** A dynamic array in storage: an access out of range reverts. *)
Definition aget (l : list Z) (i : Z) : option Z := if 0 <=? i then l !! Z.to_nat i else None.
Definition aset (l : list Z) (i x : Z) : option (list Z) :=
  if (0 <=? i) && (i <? Z.of_nat (length l)) then Some (<[Z.to_nat i := x]> l) else None.

Record PriorityQueue : Type := mkPriorityQueue {
  pq_owner : Address;
  heapList : list Z;
  currentSize : Z
}.

Definition PQ_constructor (sender : Address) : PriorityQueue := mkPriorityQueue sender [0] 0.

Definition _minChild (currentSize : Z) (heapList : list Z) (_index : Z) : option Z :=
  left ← SafeMath_mul _index 2;
  right ← SafeMath_add left 1;
  if currentSize <? right then Some left
  else
    x ← aget heapList left;
    y ← aget heapList right;
    if x <? y then Some left else Some right.

(** The loops have fuel, which stands for the gas: without, they revert. The length
    of the array is always enough. *)
Fixpoint percUp_loop (fuel : nat) (heapList : list Z) (newVal index : Z) : option (list Z * Z) :=
  match fuel with
  | O => None
  | S fuel =>
      parent ← SafeMath_div index 2;
      x ← aget heapList parent;
      if newVal <? x then
        heapList ← aset heapList index x;
        percUp_loop fuel heapList newVal parent
      else Some (heapList, index)
  end.

Definition _percUp (heapList : list Z) (_index : Z) : option (list Z) :=
  newVal ← aget heapList _index;
  '(heapList, index) ← percUp_loop (length heapList) heapList newVal _index;
  if index =? _index then Some heapList else aset heapList index newVal.

Fixpoint percDown_loop (fuel : nat) (currentSize : Z) (heapList : list Z) (newVal index mc : Z)
    : option (list Z * Z) :=
  match fuel with
  | O => None
  | S fuel =>
      if mc <=? currentSize then
        x ← aget heapList mc;
        if x <? newVal then
          heapList ← aset heapList index x;
          mc' ← _minChild currentSize heapList mc;
          percDown_loop fuel currentSize heapList newVal mc mc'
        else Some (heapList, index)
      else Some (heapList, index)
  end.

Definition _percDown (currentSize : Z) (heapList : list Z) (_index : Z) : option (list Z) :=
  newVal ← aget heapList _index;
  mc ← _minChild currentSize heapList _index;
  '(heapList, index) ← percDown_loop (length heapList) currentSize heapList newVal _index mc;
  if index =? _index then Some heapList else aset heapList index newVal.

Definition element (_priority _value : Z) : Z := Z.lor (uint256 (Z.shiftl _priority 128)) _value.

Definition _splitElement (_element : Z) : Z * Z := (Z.shiftr _element 128, _element mod 2 ^ 128).

Definition PQ_insert (sender : Address) (q : PriorityQueue) (_priority _value : Z) : option PriorityQueue :=
  if decide (sender = pq_owner q) then
    let heapList := heapList q ++ [element _priority _value] in
    size ← SafeMath_add (currentSize q) 1;
    heapList ← _percUp heapList size;
    Some (mkPriorityQueue (pq_owner q) heapList size)
  else None.

Definition PQ_getMin (q : PriorityQueue) : option (Z * Z) :=
  x ← aget (heapList q) 1;
  Some (_splitElement x).

Definition PQ_delMin (sender : Address) (q : PriorityQueue) : option (PriorityQueue * (Z * Z)) :=
  if decide (sender = pq_owner q) then
    retVal ← aget (heapList q) 1;
    last ← aget (heapList q) (currentSize q);
    heapList ← aset (heapList q) 1 last;
    heapList ← aset heapList (currentSize q) 0;
    size ← SafeMath_sub (currentSize q) 1;
    heapList ← _percDown size heapList 1;
    len ← SafeMath_sub (Z.of_nat (length heapList)) 1;
    Some (mkPriorityQueue (pq_owner q) (take (Z.to_nat len) heapList) size, _splitElement retVal)
  else None.

(** * The heap *)

(** Arithmetic with halves of indices. *)
Ltac ndlia := zify; Z.to_euclidean_division_equations; lia.

(** The parent's value is no larger, up to the index [n]. *)
Definition heap_upto (n : nat) (l : list Z) : Prop :=
  forall i, (1 <= i <= n)%nat -> l !!! (i / 2)%nat <= l !!! i.

Record pq_wf (q : PriorityQueue) : Prop := {
  pw_size : Z.of_nat (length (heapList q)) = currentSize q + 1;
  pw_bound : currentSize q < 2 ^ 255 - 1;
  pw_sentinel : heapList q !! 0%nat = Some 0;
  pw_values : Forall (fun x => 0 <= x < 2 ^ 256) (heapList q);
  pw_heap : heap_upto (Z.to_nat (currentSize q)) (heapList q)
}.

(** What is queued, in the order of the array. *)
Definition pq_elements (q : PriorityQueue) : list Z := drop 1 (heapList q).

Lemma aget_nat l (i : nat) : (i < length l)%nat -> aget l (Z.of_nat i) = Some (l !!! i).
Proof.
  intros Hi. unfold aget. rewrite (proj2 (Z.leb_le 0 _)), Nat2Z.id by lia.
  destruct (lookup_lt_is_Some_2 l i Hi) as [x Hx]. by rewrite (list_lookup_total_correct _ _ _ Hx).
Qed.

Lemma aset_nat l (i : nat) x : (i < length l)%nat -> aset l (Z.of_nat i) x = Some (<[i := x]> l).
Proof.
  intros Hi. unfold aset. rewrite (proj2 (Z.leb_le 0 _)), (proj2 (Z.ltb_lt _ _)), Nat2Z.id by lia. done.
Qed.

Lemma insert_Permutation (l : list Z) i x : (i < length l)%nat -> <[i := x]> l ≡ₚ x :: delete i l.
Proof.
  intros Hi. rewrite (delete_Permutation (<[i := x]> l) i x) by by apply list_lookup_insert_eq.
  by rewrite !delete_take_drop, take_insert_ge, drop_insert_lt by lia.
Qed.

(** Moving the value at [p] into the hole [k] leaves the hole at [p]. *)
Lemma hole_move (l : list Z) p k x : (p < length l)%nat -> (k < length l)%nat -> p <> k ->
  <[p := x]> (<[k := l !!! p]> l) ≡ₚ <[k := x]> l.
Proof.
  intros Hp Hk Hne. rewrite (insert_Permutation l k x), (insert_Permutation _ p) by (rewrite ?length_insert; lia). apply perm_skip.
  apply (Permutation_cons_inv (a := l !!! p)). rewrite <- (insert_Permutation l k (l !!! p)) by lia. symmetry.
  apply delete_Permutation. rewrite list_lookup_insert_ne by done. by apply list_lookup_lookup_total_lt.
Qed.

(** The value at an index once [x] is put into the hole [k]. *)
Definition filled (l : list Z) (k : nat) (x : Z) (i : nat) : Z := <[k := x]> l !!! i.

Lemma filled_hole l k x : (k < length l)%nat -> filled l k x k = x.
Proof. apply list_lookup_total_insert_eq. Qed.

Lemma filled_ne l k x i : i <> k -> filled l k x i = l !!! i.
Proof. intros. by apply list_lookup_total_insert_ne. Qed.

Lemma filled_moved l k p x i : (k < length l)%nat -> (p < length l)%nat ->
  filled (<[k := l !!! p]> l) p x i = if decide (i = p) then x else if decide (i = k) then l !!! p else l !!! i.
Proof.
  intros Hk Hp. case_decide as E; [subst; apply filled_hole; by rewrite length_insert|].
  rewrite filled_ne by done. case_decide; [subst; by apply list_lookup_total_insert_eq|by apply list_lookup_total_insert_ne].
Qed.

(** The heap order fails at most between [k] and its parent. *)
Definition up_ok (l : list Z) (k : nat) (x : Z) : Prop := forall i, (1 <= i < length l)%nat ->
  (i <> k -> filled l k x (i / 2) <= filled l k x i) /\
  ((i / 2)%nat = k -> filled l k x (k / 2) <= filled l k x i).

Lemma up_ok_move l k x : (1 <= k < length l)%nat -> up_ok l k x -> x < l !!! (k / 2)%nat ->
  up_ok (<[k := l !!! (k / 2)%nat]> l) (k / 2) x.
Proof.
  intros Hk Hu Hx i Hi. rewrite length_insert in Hi. pose proof (Nat.div_lt k 2 ltac:(lia) ltac:(lia)) as Hlt.
  assert (Hf : forall j, j <> k -> filled l k x j = l !!! j) by (intros; by apply filled_ne).
  pose proof (Hu i Hi) as [H1 H2]. rewrite !filled_moved by lia.
  split; intros Hc.
  - rewrite (decide_False (P := i = (k / 2)%nat)) by done. destruct (decide (i = k)) as [->|Hik].
    + rewrite decide_True by done. lia.
    + specialize (H1 Hik). rewrite (Hf i) in H1 by done. destruct (decide ((i / 2)%nat = (k / 2)%nat)) as [Ei|Ni].
      * rewrite Ei, Hf in H1 by lia. lia.
      * destruct (decide ((i / 2)%nat = k)) as [Ek|Nk]; [|by rewrite Hf in H1].
        specialize (H2 Ek). by rewrite !Hf in H2 by lia.
  - pose proof (Nat.div_lt i 2 ltac:(lia) ltac:(lia)) as Hlti. rewrite (decide_False (P := i = (k / 2)%nat)) by lia.
    destruct (decide (k / 2 / 2 = k / 2)%nat) as [Ez|Nz].
    { assert (k / 2 = 0)%nat by ndlia. destruct (decide (i = k)) as [->|Hik]; [lia|]. exfalso. ndlia. }
    rewrite (decide_False (P := (k / 2 / 2)%nat = k)) by ndlia.
    assert (Hk2 : (1 <= k / 2 < length l)%nat) by ndlia. pose proof (proj1 (Hu (k / 2)%nat Hk2) ltac:(lia)) as Hp.
    rewrite !Hf in Hp by ndlia. destruct (decide (i = k)) as [->|Hik]; [done|].
    specialize (H1 Hik). rewrite Hc, !Hf in H1 by lia. lia.
Qed.

Lemma half_of_nat k : Z.of_nat k / 2 = Z.of_nat (k / 2).
Proof. ndlia. Qed.

Lemma heap_filled l k x : up_ok l k x -> (1 <= k < length l)%nat -> l !!! (k / 2)%nat <= x ->
  heap_upto (length l - 1) (<[k := x]> l).
Proof.
  intros Hu Hk Hx i Hi. destruct (decide (i = k)) as [->|Hne]; [|by apply (Hu i); [lia|]].
  rewrite list_lookup_total_insert_eq, list_lookup_total_insert_ne by ndlia. done.
Qed.

(** What a loop that moves a hole achieves: the array with the hole filled is a
    permutation of what it was, [P] holds of it, and a hole that did not move left
    the array alone. *)
Definition moved (P : list Z -> Prop) (l : list Z) (k : nat) (x : Z) (r : option (list Z * Z)) : Prop :=
  exists l' k', r = Some (l', Z.of_nat k') /\ length l' = length l /\ (1 <= k' < length l)%nat /\
    <[k' := x]> l' ≡ₚ <[k := x]> l /\ l' !!! 0%nat = l !!! 0%nat /\ (k' = k -> l' = l) /\ P (<[k' := x]> l').

Lemma percUp_loop_spec fuel l k x : (1 <= k < length l)%nat -> (k <= fuel)%nat -> 0 <= x -> l !!! 0%nat = 0 ->
  up_ok l k x ->
  moved (heap_upto (length l - 1)) l k x (percUp_loop fuel l x (Z.of_nat k)) /\
  forall l' k', percUp_loop fuel l x (Z.of_nat k) = Some (l', Z.of_nat k') -> (k' <= k)%nat.
Proof.
  revert l k. induction fuel as [|fuel IH]; intros l k Hk Hf Hx H0 Hu; [lia|].
  pose proof (Nat.div_lt k 2 ltac:(lia) ltac:(lia)) as Hlt.
  cbn [percUp_loop SafeMath_div mbind option_bind]. rewrite half_of_nat, aget_nat by lia. cbn [mbind option_bind].
  destruct (Z.ltb_spec x (l !!! (k / 2)%nat)) as [Hlx|Hge].
  - assert (Hk2 : (1 <= k / 2)%nat) by (destruct (k / 2)%nat; lia).
    rewrite aset_nat by lia. cbn [mbind option_bind].
    destruct (IH (<[k := l !!! (k / 2)%nat]> l) (k / 2)%nat) as [(l' & k' & E & Hl & Hk' & Hp & Hz & _ & Hh) Hle];
      rewrite ?length_insert; [lia|lia|done|by rewrite list_lookup_total_insert_ne by lia|by apply up_ok_move|].
    rewrite length_insert in Hl, Hk', Hh. split.
    + exists l', k'. split_and!; [done|done|lia|lia| | | |done].
      * rewrite Hp. apply hole_move; lia.
      * by rewrite Hz, list_lookup_total_insert_ne by lia.
      * specialize (Hle l' k' E). lia.
    + intros l1 k1 E1. specialize (Hle l1 k1 E1). lia.
  - split; [|intros l' k' [= <- Hk']; lia].
    exists l, k. split_and!; try done; [lia|lia|]. by apply heap_filled.
Qed.

Lemma _percUp_spec l k : (1 <= k < length l)%nat -> 0 <= l !!! k -> l !!! 0%nat = 0 -> up_ok l k (l !!! k) ->
  exists l', _percUp l (Z.of_nat k) = Some l' /\ length l' = length l /\ l' ≡ₚ l /\ l' !!! 0%nat = 0 /\
    heap_upto (length l - 1) l'.
Proof.
  intros Hk Hx H0 Hu. unfold _percUp. rewrite aget_nat by lia. cbn [mbind option_bind].
  destruct (percUp_loop_spec (length l) l k (l !!! k)) as [(l' & k' & -> & Hl & Hk' & Hp & Hz & Hs & Hh) _]; try done; [lia|].
  cbn [mbind option_bind]. assert (El : <[k := l !!! k]> l = l) by (apply list_insert_id, list_lookup_lookup_total_lt; lia).
  rewrite El in Hp. destruct (Z.eqb_spec (Z.of_nat k') (Z.of_nat k)) as [Ek%Nat2Z.inj|Hne].
  - rewrite (Hs Ek), Ek, El in *. by exists l.
  - rewrite aset_nat by lia. exists (<[k' := l !!! k]> l'). rewrite length_insert.
    split_and!; try done. rewrite list_lookup_total_insert_ne by lia. by rewrite Hz.
Qed.

(** * Down *)

(** The order fails at most between [k] and its children, up to [n]. *)
Definition down_ok (n : nat) (l : list Z) (k : nat) (x : Z) : Prop := forall i, (1 <= i <= n)%nat ->
  ((i / 2)%nat <> k -> filled l k x (i / 2) <= filled l k x i) /\
  ((i / 2)%nat = k -> filled l k x (k / 2) <= filled l k x i).

(** The smaller child of [k], or the first index past the end. *)
Definition min_child (n : nat) (l : list Z) (k c : nat) : Prop :=
  (c / 2)%nat = k /\ (n < c -> n < 2 * k)%nat /\ forall i, (1 <= i <= n)%nat -> (i / 2)%nat = k -> l !!! c <= l !!! i.

Lemma SafeMath_mul_small a b : 0 <= a -> 0 <= b -> a * b < 2 ^ 256 -> SafeMath_mul a b = Some (a * b).
Proof.
  intros Ha Hb Hlt. unfold SafeMath_mul. destruct (Z.eqb_spec a 0) as [->|Hne]; [done|].
  unfold uint256. rewrite Z.mod_small by lia. rewrite (Z.mul_comm a b), Z.div_mul, Z.eqb_refl by done. done.
Qed.

Lemma SafeMath_add_small a b : 0 <= a -> 0 <= b -> a + b < 2 ^ 256 -> SafeMath_add a b = Some (a + b).
Proof.
  intros Ha Hb Hlt. unfold SafeMath_add, uint256. rewrite Z.mod_small by lia. by rewrite (proj2 (Z.leb_le _ _)) by lia.
Qed.

Lemma _minChild_spec n l k : (n < length l)%nat -> (1 <= k <= n + 1)%nat -> Z.of_nat n < 2 ^ 255 - 1 ->
  exists c, _minChild (Z.of_nat n) l (Z.of_nat k) = Some (Z.of_nat c) /\ min_child n l k c.
Proof.
  intros Hn Hk Hb. unfold _minChild. rewrite SafeMath_mul_small by lia. cbn [mbind option_bind].
  rewrite SafeMath_add_small by lia. cbn [mbind option_bind].
  replace (Z.of_nat k * 2) with (Z.of_nat (2 * k)) by lia. replace (Z.of_nat (2 * k) + 1) with (Z.of_nat (2 * k + 1)) by lia.
  destruct (Z.ltb_spec (Z.of_nat n) (Z.of_nat (2 * k + 1))) as [Hlt|Hge].
  - exists (2 * k)%nat. split; [done|]. split; [ndlia|]. split; [lia|].
    intros i Hi Ei. assert (i = 2 * k)%nat as -> by ndlia. done.
  - rewrite !aget_nat by lia. cbn [mbind option_bind].
    assert (Hc : forall i, (i / 2)%nat = k -> i = (2 * k)%nat \/ i = (2 * k + 1)%nat) by (intros; ndlia).
    destruct (Z.ltb_spec (l !!! (2 * k)%nat) (l !!! (2 * k + 1)%nat)).
    + exists (2 * k)%nat. split; [done|]. split; [ndlia|]. split; [lia|]. intros i _ [->| ->]%Hc; lia.
    + exists (2 * k + 1)%nat. split; [done|]. split; [ndlia|]. split; [lia|]. intros i _ [->| ->]%Hc; lia.
Qed.

Lemma down_ok_move n l k c x : (n < length l)%nat -> (1 <= k)%nat -> (c <= n)%nat -> min_child n l k c ->
  down_ok n l k x -> l !!! c < x -> down_ok n (<[k := l !!! c]> l) c x.
Proof.
  intros Hn Hk Hc (Ec & _ & Hmin) Hd Hx i Hi. assert (Hkc : (k < c)%nat) by ndlia.
  assert (Hf : forall j, j <> k -> filled l k x j = l !!! j) by (intros; by apply filled_ne).
  pose proof (Hd i Hi) as [H1 H2]. rewrite !filled_moved by lia. split; intros Hi2.
  - rewrite (decide_False (P := (i / 2)%nat = c)) by done.
    destruct (decide (i = c)) as [->|Nc]; [rewrite Ec, decide_True by done; lia|].
    destruct (decide (i = k)) as [->|Nk].
    + rewrite decide_False by ndlia. destruct (Hd c ltac:(lia)) as [_ Hgp]. specialize (Hgp Ec). by rewrite !Hf in Hgp by ndlia.
    + destruct (decide ((i / 2)%nat = k)) as [Ek|Nk2]; [by apply Hmin|]. specialize (H1 Nk2). by rewrite !Hf in H1 by done.
  - rewrite Ec. rewrite (decide_False (P := k = c)), (decide_True (P := k = k)) by lia.
    rewrite (decide_False (P := i = c)), (decide_False (P := i = k)) by ndlia.
    specialize (H1 ltac:(lia)). rewrite Hi2, !Hf in H1 by ndlia. lia.
Qed.

Lemma down_filled n l k c x : (n < length l)%nat -> (1 <= k < length l)%nat -> min_child n l k c -> down_ok n l k x ->
  ((c <= n)%nat -> x <= l !!! c) -> heap_upto n (<[k := x]> l).
Proof.
  intros Hn Hk (Ec & Hpast & Hmin) Hd Hx i Hi. destruct (decide ((i / 2)%nat = k)) as [Ek|Nk]; [|by apply (Hd i Hi)].
  assert ((c <= n)%nat) by (destruct (Nat.le_gt_cases c n); [done|]; specialize (Hpast ltac:(done)); ndlia).
  rewrite Ek, list_lookup_total_insert_eq, list_lookup_total_insert_ne by ndlia.
  specialize (Hmin i Hi Ek). specialize (Hx ltac:(done)). lia.
Qed.

Lemma percDown_loop_spec fuel n l k c x : (n < length l)%nat -> Z.of_nat n < 2 ^ 255 - 1 -> (1 <= k < length l)%nat ->
  (n < k + fuel)%nat -> (1 <= fuel)%nat -> min_child n l k c -> down_ok n l k x ->
  moved (fun m => heap_upto n m /\ forall i, (n < i)%nat -> m !!! i = filled l k x i) l k x
    (percDown_loop fuel (Z.of_nat n) l x (Z.of_nat k) (Z.of_nat c)) /\
  forall l' k', percDown_loop fuel (Z.of_nat n) l x (Z.of_nat k) (Z.of_nat c) = Some (l', Z.of_nat k') -> (k <= k')%nat.
Proof.
  intros Hn Hb. revert l k c Hn. induction fuel as [|fuel IH]; intros l k c Hn Hk Hf Hf1 Hc Hd; [lia|].
  assert (Hkc : (k < c)%nat) by (destruct Hc as [Ec _]; ndlia). cbn [percDown_loop].
  destruct (Z.leb_spec (Z.of_nat c) (Z.of_nat n)) as [Hcn|Hcn]; [rewrite aget_nat by lia; cbn [mbind option_bind];
    destruct (Z.ltb_spec (l !!! c) x) as [Hlx|Hge]|].
  2, 3: split; [|intros l' k' [= <- Hk']; lia]; exists l, k; split_and!; try done; try lia;
    apply (down_filled n l k c); try done; intros; lia.
  rewrite aset_nat by lia. cbn [mbind option_bind].
  destruct (_minChild_spec n (<[k := l !!! c]> l) c) as (c' & -> & Hc'); rewrite ?length_insert; [lia|lia|done|].
  cbn [mbind option_bind].
  destruct (IH (<[k := l !!! c]> l) c c') as [(l' & k' & E & Hl & Hk' & Hp & Hz & _ & Hh & Hgt) Hle];
    rewrite ?length_insert; [lia|lia|lia|lia|done|apply down_ok_move; try done; lia|].
  rewrite length_insert in Hl, Hk'. split; [|intros l1 k1 E1; specialize (Hle l1 k1 E1); lia].
  exists l', k'. split_and!; [done|done|lia|lia| | | |done|].
  - rewrite Hp. apply hole_move; lia.
  - by rewrite Hz, list_lookup_total_insert_ne by lia.
  - specialize (Hle l' k' E). lia.
  - intros i Hi. rewrite Hgt, filled_moved, !filled_ne by lia. by rewrite !decide_False by lia.
Qed.

Lemma _percDown_spec n l : (n < length l)%nat -> (1 < length l)%nat -> Z.of_nat n < 2 ^ 255 - 1 -> down_ok n l 1 (l !!! 1%nat) ->
  exists l', _percDown (Z.of_nat n) l 1 = Some l' /\ length l' = length l /\ l' ≡ₚ l /\ l' !!! 0%nat = l !!! 0%nat /\
    heap_upto n l' /\ forall i, (n < i)%nat -> l' !!! i = l !!! i.
Proof.
  intros Hn Hl1 Hb Hd. unfold _percDown. change 1 with (Z.of_nat 1). rewrite aget_nat by lia. cbn [mbind option_bind].
  destruct (_minChild_spec n l 1) as (c & -> & Hc); [lia|lia|done|]. cbn [mbind option_bind].
  destruct (percDown_loop_spec (length l) n l 1 c (l !!! 1%nat)) as [(l' & k' & -> & Hl & Hk' & Hp & Hz & Hs & Hh & Hgt) _]; try done; try lia.
  cbn [mbind option_bind]. unfold filled in Hgt.
  assert (El : <[1%nat := l !!! 1%nat]> l = l) by (apply list_insert_id, list_lookup_lookup_total_lt; lia).
  rewrite El in Hp, Hgt. destruct (Z.eqb_spec (Z.of_nat k') (Z.of_nat 1)) as [Ek%Nat2Z.inj|Hne].
  - rewrite (Hs Ek), Ek, El in *. by exists l.
  - rewrite aset_nat by lia. exists (<[k' := l !!! 1%nat]> l'). rewrite length_insert.
    split_and!; try done. rewrite list_lookup_total_insert_ne by lia. done.
Qed.

(** * The queue it implements *)

Definition lex_le (a b : Z * Z) : Prop := a.1 < b.1 \/ a.1 = b.1 /\ a.2 <= b.2.

(** The queued pairs of a priority and a value, smallest first. *)
Definition queued (q : PriorityQueue) : list (Z * Z) := _splitElement <$> merge_sort Z.le (pq_elements q).

Lemma _splitElement_mono x y : x <= y -> lex_le (_splitElement x) (_splitElement y).
Proof.
  intros Hle. unfold lex_le, _splitElement. cbn [fst snd]. rewrite !Z.shiftr_div_pow2 by lia. dlia.
Qed.

Lemma element_spec p v : 0 <= v < 2 ^ 128 -> element p v = (p mod 2 ^ 128) * 2 ^ 128 + v.
Proof.
  intros Hv. unfold element, uint256. rewrite Z.shiftl_mul_pow2 by lia.
  change (2 ^ 256) with (2 ^ 128 * 2 ^ 128). rewrite Z.mul_mod_distr_r by lia. set (x := p mod 2 ^ 128).
  rewrite <- Z.add_lor_land. enough (Z.land (x * 2 ^ 128) v = 0) as -> by lia. apply Z.bits_inj'. intros n Hn. rewrite Z.land_spec, Z.bits_0.
  destruct (Z.lt_ge_cases n 128); [by rewrite Z.mul_pow2_bits_low by lia|].
  rewrite (Z.bits_above_log2 v n), Bool.andb_false_r; [done|lia|].
  destruct (decide (v = 0)) as [->|]; [cbn; lia|]. apply Z.lt_le_trans with 128; [|lia]. apply Z.log2_lt_pow2; lia.
Qed.

Lemma split_element p v : 0 <= v < 2 ^ 128 -> _splitElement (element p v) = (p mod 2 ^ 128, v).
Proof.
  intros Hv. rewrite element_spec by done. unfold _splitElement. rewrite Z.shiftr_div_pow2 by lia. f_equal; dlia.
Qed.

Lemma queued_sorted q : StronglySorted lex_le (queued q).
Proof.
  unfold queued. apply (StronglySorted_fmap _ Z.le); [intros; by apply _splitElement_mono|].
  apply StronglySorted_merge_sort; apply _.
Qed.

Lemma queued_Permutation q : queued q ≡ₚ _splitElement <$> pq_elements q.
Proof. unfold queued. by rewrite merge_sort_Permutation. Qed.

Lemma heap_root n l i : heap_upto n l -> (1 <= i <= n)%nat -> l !!! 1%nat <= l !!! i.
Proof.
  intros Hh. induction (lt_wf i) as [i _ IH]. intros Hi. destruct (decide (i = 1)%nat) as [->|Hne]; [done|].
  transitivity (l !!! (i / 2)%nat); [apply IH; ndlia|by apply Hh].
Qed.

(** A list with its smallest element first, sorted. *)
Lemma merge_sort_min x l l' : l ≡ₚ x :: l' -> (forall y, y ∈ l -> x <= y) -> merge_sort Z.le l = x :: merge_sort Z.le l'.
Proof.
  intros Hp Hmin. apply (StronglySorted_unique Z.le).
  - apply StronglySorted_merge_sort; apply _.
  - constructor; [apply StronglySorted_merge_sort; apply _|]. apply Forall_forall. intros y Hy.
    apply Hmin. rewrite Hp. apply list_elem_of_further. by rewrite merge_sort_Permutation in Hy.
  - by rewrite !merge_sort_Permutation.
Qed.

Lemma heapList_cons q : pq_wf q -> heapList q = 0 :: pq_elements q.
Proof.
  intros Hw. pose proof (pw_sentinel q Hw) as H0. unfold pq_elements.
  destruct (heapList q) as [|x l]; [done|]. injection H0 as ->. done.
Qed.

Lemma pq_elements_length q : pq_wf q -> Z.of_nat (length (pq_elements q)) = currentSize q.
Proof. intros Hw. pose proof (pw_size q Hw) as Hs. rewrite (heapList_cons q Hw) in Hs. cbn [length] in Hs. lia. Qed.

(** The queue is a list in order, its root the head. *)
Lemma queued_root q l' : pq_wf q -> pq_elements q ≡ₚ heapList q !!! 1%nat :: l' ->
  queued q = _splitElement (heapList q !!! 1%nat) :: (_splitElement <$> merge_sort Z.le l').
Proof.
  intros Hw Hp. unfold queued. rewrite (merge_sort_min (heapList q !!! 1%nat) _ l'); [done|done|].
  pose proof (pq_elements_length q Hw) as Hl. intros y (i & Hi)%list_elem_of_lookup.
  pose proof (lookup_lt_Some _ _ _ Hi) as Hlt.
  replace y with (heapList q !!! S i); [eapply heap_root; [apply (pw_heap q Hw)|lia]|].
  rewrite (heapList_cons q Hw). apply list_lookup_total_correct. done.
Qed.

Lemma PQ_constructor_wf sender : pq_wf (PQ_constructor sender) /\ queued (PQ_constructor sender) = [].
Proof.
  split; [|done]. split; cbn [PQ_constructor heapList currentSize]; try done; [repeat constructor; lia|].
  intros i Hi. lia.
Qed.

(** Only the low half of a priority is kept. *)
Lemma PQ_insert_spec q p v : pq_wf q -> 0 <= v < 2 ^ 128 -> currentSize q + 1 < 2 ^ 255 - 1 ->
  exists q', PQ_insert (pq_owner q) q p v = Some q' /\ pq_wf q' /\ pq_owner q' = pq_owner q /\
    currentSize q' = currentSize q + 1 /\ queued q' ≡ₚ (p mod 2 ^ 128, v) :: queued q.
Proof.
  intros Hw Hv Hb. unfold PQ_insert. rewrite decide_True by done.
  pose proof (pq_elements_length q Hw) as Hl. pose proof (pw_size q Hw) as Hs.
  assert (Hx : 0 <= element p v < 2 ^ 256) by (rewrite element_spec by done; pose proof (Z.mod_pos_bound p (2 ^ 128)); lia).
  rewrite SafeMath_add_small by lia. cbn [mbind option_bind].
  set (l := heapList q ++ [element p v]). set (k := length (heapList q)).
  assert (Hll : length l = S k) by (unfold l, k; rewrite length_app; cbn; lia).
  assert (Hlk : l !!! k = element p v) by (apply list_lookup_total_correct; unfold l, k; rewrite lookup_app_r, Nat.sub_diag by lia; done).
  assert (Hlt : forall i, (i < k)%nat -> l !!! i = heapList q !!! i) by (intros i Hi; unfold l; by rewrite lookup_total_app_l).
  assert (H0 : heapList q !!! 0%nat = 0) by by rewrite (heapList_cons q Hw).
  replace (currentSize q + 1) with (Z.of_nat k) by lia.
  destruct (_percUp_spec l k) as (l' & -> & Hl' & Hperm & Hz & Hh); [lia|lia|rewrite Hlt by lia; done| |].
  { intros i Hi. assert (El : <[k := l !!! k]> l = l) by (apply list_insert_id, list_lookup_lookup_total_lt; lia).
    unfold filled. rewrite El. split; [|intros; ndlia]. intros Hne. rewrite !Hlt by ndlia. apply (pw_heap q Hw). lia. }
  cbn [mbind option_bind]. eexists. split; [done|].
  assert (Hw' : pq_wf (mkPriorityQueue (pq_owner q) l' (Z.of_nat k))).
  { split; cbn [heapList currentSize]; [lia|lia| | |].
    - rewrite <- Hz. apply list_lookup_lookup_total_lt. lia.
    - rewrite Hperm. apply Forall_app. split; [apply (pw_values q Hw)|by constructor].
    - rewrite Nat2Z.id. by rewrite Hll, Nat.sub_succ, Nat.sub_0_r in Hh. }
  split_and!; [done|done|cbn [currentSize]; lia|].
  rewrite !queued_Permutation. rewrite <- (split_element p v) by done. rewrite <- fmap_cons. apply fmap_Permutation.
  apply (Permutation_cons_inv (a := 0)). rewrite <- (heapList_cons _ Hw'). cbn [heapList].
  rewrite Hperm. unfold l. rewrite (heapList_cons q Hw). solve_Permutation.
Qed.

(** The root taken out and the last value put in its place. *)
Lemma delMin_array q : pq_wf q -> 1 <= currentSize q ->
  let s := Z.to_nat (currentSize q) in
  let l2 := <[s := 0]> (<[1%nat := heapList q !!! s]> (heapList q)) in
  l2 ≡ₚ 0 :: delete 1%nat (heapList q) /\ l2 !!! 0%nat = 0 /\ l2 !!! s = 0 /\ down_ok (s - 1) l2 1 (l2 !!! 1%nat).
Proof.
  intros Hw Hs s l2. pose proof (pw_size q Hw) as Hl. assert (Hls : length (heapList q) = S s) by lia.
  assert (Hp : l2 ≡ₚ 0 :: delete 1%nat (heapList q)).
  { unfold l2. rewrite <- insert_Permutation by lia. destruct (decide (s = 1)%nat) as [->|]; [by rewrite list_insert_insert_eq|].
    apply hole_move; lia. }
  assert (Hpos : forall i, (i < S s)%nat -> 0 <= l2 !!! i).
  { intros i Hi. assert (Hin : l2 !!! i ∈ 0 :: delete 1%nat (heapList q)).
    { rewrite <- Hp. apply list_elem_of_lookup. exists i. apply list_lookup_lookup_total_lt. unfold l2. rewrite !length_insert. lia. }
    apply elem_of_cons in Hin as [->|Hin]; [done|]. pose proof (pw_values q Hw) as Hv.
    rewrite Forall_forall in Hv. apply Hv.
    destruct (lookup_lt_is_Some_2 (heapList q) 1%nat ltac:(lia)) as [x Hx].
    rewrite (delete_Permutation _ _ _ Hx). by apply list_elem_of_further. }
  assert (H0 : l2 !!! 0%nat = 0) by (unfold l2; rewrite !list_lookup_total_insert_ne by lia; by rewrite (heapList_cons q Hw)).
  split_and!; [done|done|apply list_lookup_total_insert_eq; rewrite length_insert; lia|].
  intros i Hi. unfold filled. rewrite list_insert_id by (apply list_lookup_lookup_total_lt; unfold l2; rewrite !length_insert; lia).
  split; intros Ei.
  - destruct (decide (i = 1)%nat) as [->|Hne]; [change (1 / 2)%nat with 0%nat; rewrite H0; apply Hpos; lia|].
    unfold l2. rewrite !list_lookup_total_insert_ne by ndlia. apply (pw_heap q Hw). lia.
  - change (1 / 2)%nat with 0%nat. rewrite H0. apply Hpos. lia.
Qed.

Lemma PQ_delMin_spec q : pq_wf q -> 1 <= currentSize q ->
  exists q' m, PQ_delMin (pq_owner q) q = Some (q', m) /\ pq_wf q' /\ pq_owner q' = pq_owner q /\
    currentSize q' = currentSize q - 1 /\ queued q = m :: queued q'.
Proof.
  intros Hw Hs. destruct (delMin_array q Hw Hs) as (Hp2 & H20 & H2s & Hd).
  pose proof (pw_size q Hw) as Hl. pose proof (pw_bound q Hw) as Hb. set (s := Z.to_nat (currentSize q)) in *.
  assert (Es : currentSize q = Z.of_nat s) by lia. assert (Hls : length (heapList q) = S s) by lia.
  unfold PQ_delMin, SafeMath_sub. rewrite decide_True, Es by done.
  rewrite (aget_nat _ 1), (aget_nat _ s) by lia. cbn [mbind option_bind].
  rewrite (aset_nat _ 1) by lia. cbn [mbind option_bind].
  rewrite (aset_nat _ s) by (rewrite length_insert; lia). cbn [mbind option_bind].
  rewrite (proj2 (Z.leb_le 1 (Z.of_nat s))) by lia. cbn [mbind option_bind]. set (l2 := <[s := 0]> _) in *.
  assert (Hl2 : length l2 = S s) by (unfold l2; by rewrite !length_insert).
  replace (Z.of_nat s - 1) with (Z.of_nat (s - 1)) by lia.
  destruct (_percDown_spec (s - 1) l2) as (l' & -> & Hl' & Hp' & Hz & Hh & Hgt); [lia|lia|lia|done|]. cbn [mbind option_bind].
  rewrite (proj2 (Z.leb_le 1 _)) by lia. cbn [mbind option_bind].
  replace (Z.to_nat (Z.of_nat (length l') - 1)) with s by lia.
  assert (El : l' = take s l' ++ [0]).
  { rewrite <- (take_drop s l') at 1. f_equal.
    rewrite (drop_S l' 0 s) by (rewrite <- H2s, <- Hgt by lia; apply list_lookup_lookup_total_lt; lia). by rewrite drop_ge by lia. }
  assert (Ht : take s l' ≡ₚ delete 1%nat (heapList q)).
  { apply (Permutation_cons_inv (a := 0)). rewrite <- Hp2, <- Hp'. rewrite El at 2. solve_Permutation. }
  assert (Hm : heapList q ≡ₚ heapList q !!! 1%nat :: take s l').
  { rewrite Ht. apply delete_Permutation, list_lookup_lookup_total_lt. lia. }
  assert (Htl : forall i, (i < s)%nat -> take s l' !!! i = l' !!! i) by (intros i Hi; by rewrite lookup_total_take_lt).
  do 2 eexists. split; [done|].
  assert (Hw' : pq_wf (mkPriorityQueue (pq_owner q) (take s l') (Z.of_nat (s - 1)))).
  { split; cbn [heapList currentSize]; [rewrite length_take; lia|lia| | |].
    - rewrite lookup_take_lt by lia. rewrite <- H20, <- Hz. apply list_lookup_lookup_total_lt. lia.
    - pose proof (pw_values q Hw) as Hv. rewrite Hm in Hv. by apply Forall_cons in Hv as [_ Hv].
    - rewrite Nat2Z.id. intros i Hi. rewrite !Htl by ndlia. apply Hh. lia. }
  split_and!; [done|done|cbn [currentSize]; lia|].
  rewrite (queued_root q (pq_elements (mkPriorityQueue (pq_owner q) (take s l') (Z.of_nat (s - 1)))) Hw); [done|].
  apply (Permutation_cons_inv (a := 0)). rewrite <- (heapList_cons q Hw), Permutation_swap, <- (heapList_cons _ Hw'). done.
Qed.

Lemma queued_length q : pq_wf q -> Z.of_nat (length (queued q)) = currentSize q.
Proof. intros Hw. rewrite <- (pq_elements_length q Hw). unfold queued. by rewrite length_fmap, merge_sort_Permutation. Qed.

Lemma PQ_getMin_spec q : pq_wf q -> PQ_getMin q = head (queued q).
Proof.
  intros Hw. pose proof (pq_elements_length q Hw) as Hl. unfold PQ_getMin. rewrite (heapList_cons q Hw).
  destruct (pq_elements q) as [|x l] eqn:E; [unfold queued; by rewrite E|].
  assert (Ex : heapList q !!! 1%nat = x) by by rewrite (heapList_cons q Hw), E.
  rewrite (queued_root q l Hw) by by rewrite E, Ex. cbn. by rewrite Ex.
Qed.

Lemma PQ_delMin_empty sender q : pq_wf q -> queued q = [] -> PQ_delMin sender q = None.
Proof.
  intros Hw Hq. pose proof (queued_length q Hw) as Hl. pose proof (pq_elements_length q Hw) as He. rewrite Hq in Hl.
  unfold PQ_delMin. case_decide; [|done]. rewrite (heapList_cons q Hw).
  by replace (pq_elements q) with (@nil Z) by (destruct (pq_elements q); [done|cbn in *; lia]).
Qed.

(** C11. The heap of the contract is a priority queue. A new queue is empty; a well
    formed one lists its pairs by priority, then by value, and [getMin] answers the
    first of them or reverts when there is none. For its owner [insert] adds the pair
    and nothing else, [delMin] takes out the first one and leaves the others in
    order, and both keep the array a heap; [delMin] of an empty queue reverts, and so
    does everything for anybody else. The loops in them end. *)
Theorem queue_refines q : pq_wf q ->
  pq_wf (PQ_constructor (pq_owner q)) /\ queued (PQ_constructor (pq_owner q)) = [] /\
  StronglySorted lex_le (queued q) /\ PQ_getMin q = head (queued q) /\
  (forall p v, 0 <= p < 2 ^ 128 -> 0 <= v < 2 ^ 128 -> currentSize q + 1 < 2 ^ 255 - 1 ->
    exists q', PQ_insert (pq_owner q) q p v = Some q' /\ pq_wf q' /\ pq_owner q' = pq_owner q /\
      queued q' ≡ₚ (p, v) :: queued q) /\
  match queued q with
  | [] => PQ_delMin (pq_owner q) q = None
  | m :: rest => exists q', PQ_delMin (pq_owner q) q = Some (q', m) /\ pq_wf q' /\ pq_owner q' = pq_owner q /\
      queued q' = rest
  end /\
  (forall sender p v, sender <> pq_owner q -> PQ_insert sender q p v = None /\ PQ_delMin sender q = None).
Proof.
  intros Hw. destruct (PQ_constructor_wf (pq_owner q)) as [Hc Hc0].
  split_and!; [done|done|apply queued_sorted|by apply PQ_getMin_spec| | |].
  - intros p v Hp Hv Hb. destruct (PQ_insert_spec q p v Hw Hv Hb) as (q' & E & Hw' & Ho & _ & Hq).
    rewrite Z.mod_small in Hq by done. by exists q'.
  - pose proof (queued_length q Hw) as Hl. destruct (queued q) as [|m rest] eqn:E; [by apply PQ_delMin_empty|].
    destruct (PQ_delMin_spec q Hw ltac:(cbn in Hl; lia)) as (q' & m' & Ed & Hw' & Ho & _ & Eq).
    rewrite Eq in E. injection E as -> <-. by exists q'.
  - intros sender p v Hne. unfold PQ_insert, PQ_delMin. by rewrite !decide_False by done.
Qed.
