(* ===== verification/SolRlp.v ===== *)
(** The RLP code of the contract: rootchain/contracts/RLP.sol and PlasmaRLP.sol,
    which read an encoded transaction through pointers into the memory of the EVM,
    and RLPEncode.sol, which writes such encodings. *)

From Stdlib Require Import ZifyNat.
From S2P Require Import Prelude Deps Contract.
#[local] Open Scope Z_scope.

(** * The memory *)

(** Memory is a byte for every address; a word is 32 bytes, the most significant
    first. *)
Definition memory : Type := Z -> byte.
Definition mload (m : memory) (p : Z) : Z := be_val (m <$> seqZ p 32).
Definition mstore (m : memory) (p w : Z) : memory :=
  fun a => if (p <=? a) && (a <? p + 32) then default Byte.x00 (be_put 32 w !! Z.to_nat (a - p)) else m a.

(** [byte(0, w)], [exp(256, e)] and [div]: a power that does not fit wraps to 0, and
    a division by 0 is 0. *)
Definition byte0 (w : Z) : Z := w / 2 ^ 248.
Definition exp256 (e : Z) : Z := if e <? 32 then 256 ^ e else 0.
Definition evm_div (a b : Z) : Z := if b =? 0 then 0 else a / b.

(** * RLP.sol *)

Record RLPItem : Type := mkRLPItem { ri_len : Z; ri_memPtr : Z }.

(** An array of bytes at [item]: its length and then its content. *)
Definition toRlpItem (m : memory) (item : Z) : RLPItem :=
  if mload m item =? 0 then mkRLPItem 0 0 else mkRLPItem (mload m item) (uint256 (item + 32)).

Definition isList (m : memory) (item : RLPItem) : bool := negb (byte0 (mload m (ri_memPtr item)) <? 192).

(** The length a long header announces in the [byteLen] bytes behind it. *)
Definition long_length (m : memory) (memPtr byteLen : Z) : Z :=
  uint256 (evm_div (mload m (uint256 (memPtr + 1))) (exp256 (32 - byteLen)) + (byteLen + 1)).

Definition _itemLength (m : memory) (memPtr : Z) : Z :=
  let b := byte0 (mload m memPtr) in
  if b <? 128 then 1
  else if b <? 184 then b - 128 + 1
  else if b <? 192 then long_length m memPtr (b - 183)
  else if b <? 248 then b - 192 + 1
  else long_length m memPtr (b - 247).

Definition _payloadOffset (m : memory) (memPtr : Z) : Z :=
  let b := byte0 (mload m memPtr) in
  if b <? 128 then 0
  else if (b <? 184) || ((192 <=? b) && (b <? 248)) then 1
  else if b <? 192 then b - 183 + 1
  else b - 247 + 1.

(** The loop has fuel for the gas. An item has at least one byte. *)
Fixpoint numItems_loop (fuel : nat) (m : memory) (currPtr endPtr count : Z) : option Z :=
  match fuel with
  | O => None
  | S fuel =>
      if currPtr <? endPtr then numItems_loop fuel m (uint256 (currPtr + _itemLength m currPtr)) endPtr (count + 1)
      else Some count
  end.

Definition numItems (fuel : nat) (m : memory) (item : RLPItem) : option Z :=
  numItems_loop fuel m (uint256 (ri_memPtr item + _payloadOffset m (ri_memPtr item)))
    (uint256 (ri_memPtr item + ri_len item)) 0.

Fixpoint toList_loop (items : nat) (m : memory) (memPtr : Z) : list RLPItem :=
  match items with
  | O => []
  | S items =>
      let dataLen := _itemLength m memPtr in
      mkRLPItem dataLen memPtr :: toList_loop items m (uint256 (memPtr + dataLen))
  end.

Definition toList (fuel : nat) (m : memory) (item : RLPItem) : option (list RLPItem) :=
  if isList m item then
    items ← numItems fuel m item;
    Some (toList_loop (Z.to_nat items) m (uint256 (ri_memPtr item + _payloadOffset m (ri_memPtr item))))
  else None.

Definition toBoolean (m : memory) (item : RLPItem) : option bool :=
  if ri_len item =? 1 then Some (negb (byte0 (mload m (ri_memPtr item)) =? 0)) else None.

(** An integer as an address, its low 160 bits. *)
Definition address_of (z : Z) : Address := default (zero_array 20) (farray_of 20 (be_put 20 z)).

Definition toAddress (m : memory) (item : RLPItem) : option Address :=
  if ri_len item =? 21 then Some (address_of (evm_div (mload m (uint256 (ri_memPtr item + 1))) (exp256 12))) else None.

Definition toUint (m : memory) (item : RLPItem) : Z :=
  let offset := _payloadOffset m (ri_memPtr item) in
  let len := uint256 (ri_len item - offset) in
  evm_div (mload m (uint256 (ri_memPtr item + offset))) (exp256 (uint256 (32 - len))).

(** [copy]: the words, then the bytes left over, through a mask. *)
Fixpoint copy_words (words : nat) (m : memory) (src dest : Z) : memory * Z * Z :=
  match words with
  | O => (m, src, dest)
  | S words => copy_words words (mstore m dest (mload m dest)) (uint256 (src + 32)) (uint256 (dest + 32))
  end.

Definition copy (m : memory) (src dest len : Z) : memory :=
  let '(m, src, dest) := copy_words (Z.to_nat (len / 32)) m src dest in
  let mask := uint256 (exp256 (32 - len mod 32) - 1) in
  let srcpart := Z.land (mload m src) (2 ^ 256 - 1 - mask) in
  let destpart := Z.land (mload m dest) mask in
  mstore m dest (Z.lor destpart srcpart).

(** [new bytes(len)] at the free memory [free]: the length and zeros. *)
Definition new_bytes (m : memory) (free len : Z) : memory :=
  fun a => if (free + 32 <=? a) && (a <? free + 32 + len) then Byte.x00 else mstore m free len a.

Definition toBytes (m : memory) (free : Z) (item : RLPItem) : memory * Z :=
  let offset := _payloadOffset m (ri_memPtr item) in
  let len := uint256 (ri_len item - offset) in
  (copy (new_bytes m free len) (uint256 (ri_memPtr item + offset)) (uint256 (free + 32)) len, free).

(** * PlasmaRLP.sol *)

Record exitingTx : Type := mkExitingTx {
  et_exitor : Address;
  et_token : Address;
  et_amount : Z;
  et_inputCount : Z
}.

(** [txList[i]]: an index past the end reverts. *)
Definition item_at (l : list RLPItem) (i : Z) : option RLPItem := if 0 <=? i then l !! Z.to_nat i else None.

Definition getUtxoPos (fuel : nat) (m : memory) (challengingTxBytes oIndex : Z) : option Z :=
  txList ← toList fuel m (toRlpItem m challengingTxBytes);
  let oIndexShift := uint256 (oIndex * 3) in
  blknum ← item_at txList (uint256 (0 + oIndexShift));
  txindex ← item_at txList (uint256 (1 + oIndexShift));
  oindex ← item_at txList (uint256 (2 + oIndexShift));
  Some (uint256 (uint256 (toUint m blknum + toUint m txindex) + toUint m oindex)).

Definition createExitingTx (fuel : nat) (m : memory) (exitingTxBytes oindex : Z) : option exitingTx :=
  txList ← toList fuel m (toRlpItem m exitingTxBytes);
  i7 ← item_at txList (uint256 (7 + uint256 (2 * oindex)));
  exitor ← toAddress m i7;
  i6 ← item_at txList 6;
  token ← toAddress m i6;
  i8 ← item_at txList (uint256 (8 + uint256 (2 * oindex)));
  i0 ← item_at txList 0;
  i3 ← item_at txList 3;
  Some (mkExitingTx exitor token (toUint m i8) (uint256 (toUint m i0 * toUint m i3))).

(** * RLPEncode.sol *)

Definition STRING_OFFSET : Z := 128.
Definition LIST_OFFSET : Z := 192.

Definition mergeBytes (param1 param2 : bytes) : bytes := param1 ++ param2.

Fixpoint strip_zeros (b : bytes) : bytes :=
  match b with
  | x :: b' => if byteZ x =? 0 then strip_zeros b' else b
  | [] => []
  end.

Definition toBinary (x : Z) : bytes := strip_zeros (be_put 32 x).

Definition encodeLength (len offset : Z) : option bytes :=
  if len <? 256 ^ 8 then
    if len <=? 55 then Some [byte_of (len + offset)]
    else
      let bl := toBinary len in
      Some (mergeBytes [byte_of (Z.of_nat (length bl) + offset + 55)] bl)
  else None.

Definition encodeBytes (self : bytes) : option bytes :=
  match self with
  | [x] => if byteZ x <=? 127 then Some self
           else h ← encodeLength 1 STRING_OFFSET; Some (mergeBytes h self)
  | _ => h ← encodeLength (Z.of_nat (length self)) STRING_OFFSET; Some (mergeBytes h self)
  end.

(** The assembly writes the length 20 and the address behind it to fresh memory. *)
Definition encodeAddress (self : Address) : option bytes := encodeBytes (arr self).
Definition encodeUint (self : Z) : option bytes := encodeBytes (toBinary self).
Definition encodeInt (self : Z) : option bytes := encodeUint (uint256 self).
Definition encodeBool (self : bool) : bytes := [if self then Byte.x01 else Byte.x00].

Definition encodeList (self : list bytes) : option bytes :=
  let payload := fold_left mergeBytes self [] in
  h ← encodeLength (Z.of_nat (length payload)) LIST_OFFSET;
  Some (mergeBytes h payload).

(** * Decoding what was encoded *)

(** The bytes [l] are in memory from [p] on. *)
Definition holds (m : memory) (p : Z) (l : bytes) : Prop := m <$> seqZ p (Z.of_nat (length l)) = l.

Lemma holds_app m p l1 l2 : holds m p (l1 ++ l2) <-> holds m p l1 /\ holds m (p + Z.of_nat (length l1)) l2.
Proof.
  unfold holds. rewrite length_app, Nat2Z.inj_add, seqZ_app, fmap_app by lia. split.
  - intros E. apply app_inj_1 in E; [done|]. by rewrite length_fmap, length_seqZ, Nat2Z.id.
  - by intros [-> ->].
Qed.

(** The first [k] bytes of a word. *)
Lemma mload_shift m p k : 0 <= k <= 32 -> mload m p / 256 ^ (32 - k) = be_val (m <$> seqZ p k).
Proof.
  intros Hk. unfold mload. replace 32 with (k + (32 - k)) at 1 by lia. rewrite seqZ_app, fmap_app, be_val_app by lia.
  rewrite length_fmap, length_seqZ, Z2Nat.id by lia. set (r := m <$> seqZ (p + k) (32 - k)).
  pose proof (be_val_nonneg r). pose proof (be_val_bound r) as Hr.
  unfold r in Hr. rewrite length_fmap, length_seqZ, Z2Nat.id in Hr by lia.
  pose proof (Z.pow_pos_nonneg 256 (32 - k) ltac:(lia) ltac:(lia)).
  rewrite Z.div_add_l by lia. rewrite (Z.div_small (be_val r)) by done. lia.
Qed.

Lemma byte0_mload m p : byte0 (mload m p) = byteZ (m p).
Proof.
  unfold byte0. change (2 ^ 248) with (256 ^ (32 - 1)). rewrite mload_shift by lia.
  rewrite seqZ_cons, seqZ_nil by lia. cbn [fmap list_fmap]. change (be_val [m p]) with (byteZ (m p)). done.
Qed.

Lemma shift_holds m p l : holds m p l -> (length l <= 32)%nat ->
  evm_div (mload m p) (exp256 (32 - Z.of_nat (length l))) = be_val l.
Proof.
  intros Hh Hl. unfold evm_div, exp256. destruct (decide (length l = 0)%nat) as [E|Hne].
  { rewrite E. cbn. by rewrite (nil_length_inv _ E). }
  rewrite (proj2 (Z.ltb_lt _ 32)) by lia. destruct (Z.eqb_spec (256 ^ (32 - Z.of_nat (length l))) 0) as [E|_].
  - exfalso. apply Z.pow_eq_0_iff in E. lia.
  - rewrite mload_shift by lia. by rewrite Hh.
Qed.

Lemma strip_zeros_val b : be_val (strip_zeros b) = be_val b /\ (length (strip_zeros b) <= length b)%nat.
Proof.
  induction b as [|x b [IH IHl]]; [done|]. cbn [strip_zeros length]. destruct (Z.eqb_spec (byteZ x) 0) as [E|]; [|done].
  rewrite IH. split; [|lia]. unfold be_val. cbn [fold_left]. by rewrite E.
Qed.

(** A stripped number has a first digit that is not zero. *)
Lemma strip_zeros_head x b b' : strip_zeros b = x :: b' -> byteZ x <> 0.
Proof. induction b as [|y b IH]; [done|]. cbn [strip_zeros]. destruct (Z.eqb_spec (byteZ y) 0); [done|]. by intros [= -> _]. Qed.

Lemma be_val_cons_bound x b : byteZ x <> 0 -> 256 ^ Z.of_nat (length b) <= be_val (x :: b).
Proof.
  intros Hx. change (x :: b) with ([x] ++ b). rewrite be_val_app. pose proof (byteZ_range x). pose proof (be_val_nonneg b).
  change (be_val [x]) with (byteZ x). nia.
Qed.

Lemma toBinary_spec x : 0 <= x < 2 ^ 256 -> be_val (toBinary x) = x /\ (length (toBinary x) <= 32)%nat.
Proof.
  intros Hx. destruct (strip_zeros_val (be_put 32 x)) as [Hv Hl]. rewrite length_be_put in Hl. split; [|done].
  unfold toBinary. rewrite Hv, be_val_put. by apply Z.mod_small.
Qed.

Lemma toBinary_short x k : 0 <= x < 256 ^ Z.of_nat k -> (k <= 32)%nat -> (length (toBinary x) <= k)%nat.
Proof.
  intros Hx Hk. assert (256 ^ Z.of_nat k <= 256 ^ 32) by (apply Z.pow_le_mono_r; lia).
  destruct (toBinary_spec x) as [Hv _]; [change (2 ^ 256) with (256 ^ 32); lia|].
  destruct (toBinary x) as [|y b] eqn:E; [cbn; lia|]. pose proof (be_val_cons_bound y b (strip_zeros_head _ _ _ E)) as Hb.
  cbn [length]. destruct (Nat.le_gt_cases k (length b)); [|lia].
  assert (256 ^ Z.of_nat k <= 256 ^ Z.of_nat (length b)) by (apply Z.pow_le_mono_r; lia). lia.
Qed.

Lemma toBinary_pos x : 0 < x < 2 ^ 256 -> (1 <= length (toBinary x))%nat.
Proof. intros Hx. destruct (toBinary_spec x) as [Hv _]; [lia|]. destruct (toBinary x); [change (be_val []) with 0 in Hv; lia|cbn [length]; lia]. Qed.

Lemma uint256_small z : 0 <= z < 2 ^ 256 -> uint256 z = z.
Proof. apply Z.mod_small. Qed.

Lemma byte0_holds m p b l : holds m p (b :: l) -> byte0 (mload m p) = byteZ b.
Proof.
  intros [Hb _]%(holds_app m p [b] l). rewrite byte0_mload. unfold holds in Hb. cbn [length] in Hb.
  change (Z.of_nat 1) with 1 in Hb. rewrite seqZ_cons, seqZ_nil in Hb by lia. by injection Hb as ->.
Qed.

(** Decide the comparisons of the goal. *)
Ltac branches := repeat match goal with
  | |- context [?a <? ?b] => first [rewrite (proj2 (Z.ltb_lt a b)) by lia | rewrite (proj2 (Z.ltb_ge a b)) by lia]
  | |- context [?a <=? ?b] => first [rewrite (proj2 (Z.leb_le a b)) by lia | rewrite (proj2 (Z.leb_gt a b)) by lia]
  end; cbn [orb andb].

(** A header tells how long it and its item are. *)
Lemma header_spec m p n off h : (off = 128 \/ off = 192) -> 0 <= n -> encodeLength n off = Some h -> holds m p h ->
  0 <= p -> p + 64 < 2 ^ 256 ->
  _itemLength m p = Z.of_nat (length h) + n /\ _payloadOffset m p = Z.of_nat (length h) /\
  (1 <= length h <= 9)%nat /\ (192 <= byte0 (mload m p) <-> off = 192).
Proof.
  intros Hoff Hn. unfold encodeLength. destruct (Z.ltb_spec n (256 ^ 8)) as [Hlt|]; [|done].
  unfold _itemLength, _payloadOffset. destruct (Z.leb_spec n 55) as [Hs|Hlong]; intros <-%(inj Some) Hh Hp Hp2.
  - rewrite (byte0_holds m p _ _ Hh), byteZ_of, Z.mod_small by lia.
    destruct Hoff as [-> | ->]; cbn [length]; branches; split_and!; lia.
  - set (bl := toBinary n) in *. unfold mergeBytes in *. cbn [app length] in *.
    pose proof (toBinary_pos n ltac:(lia)) as Hb1. pose proof (toBinary_short n 8 ltac:(lia) ltac:(lia)) as Hb8.
    destruct (toBinary_spec n ltac:(lia)) as [Hv _]. fold bl in Hb1, Hb8, Hv.
    assert (Hd : evm_div (mload m (p + 1)) (exp256 (32 - Z.of_nat (length bl))) = n).
    { rewrite <- Hv. apply shift_holds; [|lia]. by apply (holds_app m p [_] bl) in Hh as [_ Hh]. }
    rewrite (byte0_holds m p _ _ Hh), byteZ_of, Z.mod_small by lia.
    destruct Hoff as [-> | ->].
    + replace (Z.of_nat (length bl) + 128 + 55) with (183 + Z.of_nat (length bl)) by lia.
      unfold long_length. rewrite (uint256_small (p + 1)) by lia.
      replace (183 + Z.of_nat (length bl) - 183) with (Z.of_nat (length bl)) by lia. rewrite Hd.
      rewrite (uint256_small (n + _)) by lia. branches; split_and!; lia.
    + replace (Z.of_nat (length bl) + 192 + 55) with (247 + Z.of_nat (length bl)) by lia.
      unfold long_length. rewrite (uint256_small (p + 1)) by lia.
      replace (247 + Z.of_nat (length bl) - 247) with (Z.of_nat (length bl)) by lia. rewrite Hd.
      rewrite (uint256_small (n + _)) by lia. branches; split_and!; lia.
Qed.

(** A string of [encodeBytes], in memory. *)
Lemma string_spec m p self e : encodeBytes self = Some e -> holds m p e -> 0 <= p -> p + 64 < 2 ^ 256 ->
  _itemLength m p = Z.of_nat (length e) /\ _payloadOffset m p = Z.of_nat (length e) - Z.of_nat (length self) /\
  holds m (p + _payloadOffset m p) self /\ (1 <= length e)%nat /\ 0 <= _payloadOffset m p <= 9.
Proof.
  intros E Hh Hp Hp2.
  assert (Hm : (exists x, self = [x] /\ e = [x] /\ byteZ x <= 127) \/
    exists h, encodeLength (Z.of_nat (length self)) 128 = Some h /\ e = h ++ self).
  { unfold encodeBytes, STRING_OFFSET, mergeBytes in E. destruct self as [|x [|y self]].
    - right. apply bind_Some in E as (h & Eh & [= <-]). by exists h.
    - destruct (Z.leb_spec (byteZ x) 127) as [Hx|]; [injection E as <-; left; by exists x|].
      right. apply bind_Some in E as (h & Eh & [= <-]). by exists h.
    - right. apply bind_Some in E as (h & Eh & [= <-]). by exists h. }
  destruct Hm as [(x & -> & -> & Hx)|(h & Eh & ->)].
  - unfold _itemLength, _payloadOffset. rewrite (byte0_holds m p x [] Hh). cbn [length].
    rewrite (proj2 (Z.ltb_lt _ 128)) by lia. rewrite Z.add_0_r. split_and!; (done || lia).
  - apply holds_app in Hh as [Hh1 Hh2].
    destruct (header_spec m p (Z.of_nat (length self)) 128 h ltac:(lia) ltac:(lia) Eh Hh1 Hp Hp2) as (Hi & Ho & Hl & _).
    rewrite Hi, Ho, length_app. split_and!; (done || lia).
Qed.

(** Strings one after another in memory, with their pointers. *)
Fixpoint laid_out (p : Z) (es : list bytes) : list RLPItem :=
  match es with
  | [] => []
  | e :: es => mkRLPItem (Z.of_nat (length e)) p :: laid_out (p + Z.of_nat (length e)) es
  end.

Lemma length_laid_out p es : length (laid_out p es) = length es.
Proof. revert p. induction es as [|e es IH]; intros p; [done|]. cbn [laid_out length]. by rewrite IH. Qed.

(** Each is the encoding of the string beside it. *)
Definition encodings (selves es : list bytes) : Prop := Forall2 (fun self e => encodeBytes self = Some e) selves es.

Lemma toList_loop_spec m selves es p : encodings selves es -> holds m p (concat es) -> 0 <= p ->
  p + Z.of_nat (length (concat es)) + 64 < 2 ^ 256 -> toList_loop (length es) m p = laid_out p es.
Proof.
  intros He. revert p. induction He as [|self e selves es E He IH]; intros p Hh Hp Hp2; [done|].
  cbn [concat] in Hh, Hp2. rewrite length_app in Hp2. apply holds_app in Hh as [Hh1 Hh2].
  destruct (string_spec m p self e E Hh1 Hp ltac:(lia)) as (Hi & _). cbn [length toList_loop laid_out].
  rewrite Hi, uint256_small by lia. rewrite IH by (done || lia). done.
Qed.

Lemma numItems_loop_spec fuel m selves es p count : encodings selves es -> holds m p (concat es) -> 0 <= p ->
  p + Z.of_nat (length (concat es)) + 64 < 2 ^ 256 -> (length es < fuel)%nat ->
  numItems_loop fuel m p (p + Z.of_nat (length (concat es))) count = Some (count + Z.of_nat (length es)).
Proof.
  intros He. revert p count fuel. induction He as [|self e selves es E He IH]; intros p count fuel Hh Hp Hp2 Hf.
  - destruct fuel as [|fuel]; [cbn in Hf; lia|]. cbn [numItems_loop concat length].
    rewrite Z.add_0_r, Z.ltb_irrefl. f_equal. lia.
  - cbn [concat length] in *. rewrite length_app in *. destruct fuel as [|fuel]; [lia|]. apply holds_app in Hh as [Hh1 Hh2].
    destruct (string_spec m p self e E Hh1 Hp ltac:(lia)) as (Hi & _ & _ & Hl & _). cbn [numItems_loop].
    rewrite (proj2 (Z.ltb_lt _ _)), Hi, uint256_small by lia.
    replace (p + Z.of_nat (length e + length (concat es))) with (p + Z.of_nat (length e) + Z.of_nat (length (concat es))) by lia.
    rewrite IH by (done || lia). f_equal. lia.
Qed.

Lemma fold_mergeBytes es acc : fold_left mergeBytes es acc = acc ++ concat es.
Proof.
  revert acc. induction es as [|e es IH]; intros acc; cbn [fold_left concat]; [by rewrite app_nil_r|].
  rewrite IH. unfold mergeBytes. by rewrite app_assoc.
Qed.

(** An array of bytes at [p] of the memory, away from its end. *)
Record array_at (m : memory) (p : Z) (l : bytes) : Prop := {
  aa_length : mload m p = Z.of_nat (length l);
  aa_bytes : holds m (p + 32) l;
  aa_range : 0 <= p /\ p + Z.of_nat (length l) + 128 < 2 ^ 256
}.

Lemma toList_spec fuel m p selves es enc : encodings selves es -> encodeList es = Some enc -> array_at m p enc ->
  (length es < fuel)%nat ->
  exists q, toList fuel m (toRlpItem m p) = Some (laid_out q es) /\ holds m q (concat es) /\
    0 <= q /\ q + Z.of_nat (length (concat es)) + 64 < 2 ^ 256.
Proof.
  intros He Ee [Hl Hb Hr] Hf. unfold encodeList in Ee. rewrite fold_mergeBytes in Ee. cbn [app] in Ee.
  apply bind_Some in Ee as (h & Eh & Ee). injection Ee as <-. unfold mergeBytes in *.
  apply holds_app in Hb as [Hh Hb]. rewrite length_app in Hl, Hr.
  destruct (header_spec m (p + 32) (Z.of_nat (length (concat es))) 192 h ltac:(lia) ltac:(lia) Eh Hh ltac:(lia) ltac:(lia))
    as (Hi & Ho & Hlh & Hlist).
  exists (p + 32 + Z.of_nat (length h)). split; [|split; [done|lia]].
  unfold toRlpItem. rewrite Hl. destruct (Z.eqb_spec (Z.of_nat (length h + length (concat es))) 0); [lia|].
  unfold toList, isList, numItems. cbn [ri_memPtr ri_len]. rewrite (uint256_small (p + 32)) by lia.
  rewrite (proj2 (Z.ltb_ge _ _)) by (apply Hlist; done). cbn [negb]. rewrite Ho, !uint256_small by lia.
  replace (p + 32 + Z.of_nat (length h + length (concat es))) with (p + 32 + Z.of_nat (length h) + Z.of_nat (length (concat es))) by lia.
  rewrite (numItems_loop_spec fuel m selves es) by (done || lia). cbn [mbind option_bind].
  rewrite Z.add_0_l, Nat2Z.id. by rewrite (toList_loop_spec m selves) by (done || lia).
Qed.

(** The item for the [i]-th string. *)
Lemma laid_out_lookup m selves es q i self : encodings selves es -> holds m q (concat es) -> 0 <= q ->
  q + Z.of_nat (length (concat es)) + 64 < 2 ^ 256 -> selves !! i = Some self ->
  exists it e, laid_out q es !! i = Some it /\ encodeBytes self = Some e /\ ri_len it = Z.of_nat (length e) /\
    holds m (ri_memPtr it) e /\ 0 <= ri_memPtr it /\ ri_memPtr it + Z.of_nat (length e) + 64 < 2 ^ 256.
Proof.
  intros He. revert q i. induction He as [|self' e selves es E He IH]; intros q i Hh Hq Hq2 Hi; [done|].
  cbn [concat] in Hh, Hq2. rewrite length_app in Hq2. apply holds_app in Hh as [Hh1 Hh2].
  destruct i as [|i]; cbn in Hi.
  - injection Hi as ->. eexists _, e. split; [done|]. cbn [ri_len ri_memPtr]. split_and!; (done || lia).
  - apply (IH (q + Z.of_nat (length e)) i); (done || lia).
Qed.

Lemma toUint_spec m it z e : 0 <= z < 2 ^ 256 -> encodeUint z = Some e -> ri_len it = Z.of_nat (length e) ->
  holds m (ri_memPtr it) e -> 0 <= ri_memPtr it -> ri_memPtr it + Z.of_nat (length e) + 64 < 2 ^ 256 -> toUint m it = z.
Proof.
  intros Hz Ee Hl Hh Hp Hp2. destruct (toBinary_spec z Hz) as [Hv Hlb].
  destruct (string_spec m _ _ e Ee Hh Hp ltac:(lia)) as (_ & Ho & Hs & _ & Hr). unfold toUint.
  rewrite Hl. replace (Z.of_nat (length e) - _payloadOffset m (ri_memPtr it)) with (Z.of_nat (length (toBinary z))) by lia.
  rewrite (uint256_small (Z.of_nat (length (toBinary z)))), !uint256_small by lia. rewrite <- Hv at 2. by apply shift_holds.
Qed.

Lemma address_of_arr a : address_of (be_val (arr a)) = a.
Proof.
  unfold address_of. pose proof (be_put_val (arr a)) as E. rewrite length_arr in E. by rewrite E, farray_of_arr.
Qed.

Lemma toAddress_spec m it a e : encodeAddress a = Some e -> ri_len it = Z.of_nat (length e) ->
  holds m (ri_memPtr it) e -> 0 <= ri_memPtr it -> ri_memPtr it + Z.of_nat (length e) + 64 < 2 ^ 256 -> toAddress m it = Some a.
Proof.
  intros Ee Hl Hh Hp Hp2. destruct (string_spec m _ _ e Ee Hh Hp ltac:(lia)) as (_ & Ho & Hs & _ & _).
  assert (He : length e = 21%nat /\ _payloadOffset m (ri_memPtr it) = 1).
  { unfold encodeAddress, encodeBytes in Ee. pose proof (length_arr a) as Ha.
    destruct (arr a) as [|x [|y l]] eqn:Ea; [done|done|].
    rewrite Ha in Ee. change (encodeLength (Z.of_nat 20) STRING_OFFSET) with (Some [Byte.x94]) in Ee.
    cbn [mbind option_bind] in Ee. injection Ee as <-. cbn [length mergeBytes app] in *. lia. }
  destruct He as [He Ho1]. unfold toAddress. rewrite Hl, He, uint256_small by lia. f_equal. rewrite Ho1 in Hs.
  change 12 with (32 - 20). replace 20 with (Z.of_nat (length (arr a))) by by rewrite length_arr.
  rewrite shift_holds by (done || rewrite length_arr; lia). apply address_of_arr.
Qed.

(** What the fields of a transaction are: integers and addresses. *)
Inductive field : Type := FUint (z : Z) | FAddress (a : Address).
Definition field_ok (f : field) : Prop := match f with FUint z => 0 <= z < 2 ^ 256 | FAddress _ => True end.
Definition encodeField (f : field) : option bytes :=
  match f with FUint z => encodeUint z | FAddress a => encodeAddress a end.
Definition decodes (m : memory) (it : RLPItem) (f : field) : Prop :=
  match f with FUint z => toUint m it = z | FAddress a => toAddress m it = Some a end.

(** [RLPEncode] on a list of fields. *)
Definition encodeFields (fs : list field) : option bytes := es ← mapM encodeField fs; encodeList es.

Lemma fields_decode fuel m p fs enc : Forall field_ok fs -> encodeFields fs = Some enc -> array_at m p enc ->
  (length fs < fuel)%nat ->
  exists items, toList fuel m (toRlpItem m p) = Some items /\ length items = length fs /\
    forall i f, fs !! i = Some f -> exists it, items !! i = Some it /\ decodes m it f.
Proof.
  intros Hok Ee Ha Hf. unfold encodeFields in Ee. apply bind_Some in Ee as (es & Em & Ee). apply mapM_Some in Em.
  set (payload := fun f => match f with FUint z => toBinary z | FAddress a => arr a end).
  assert (He : encodings (payload <$> fs) es) by (apply Forall2_fmap_l; eapply Forall2_impl; [exact Em|]; by intros []).
  pose proof (Forall2_length _ _ _ Em) as Hl.
  destruct (toList_spec fuel m p (payload <$> fs) es enc He Ee Ha ltac:(lia)) as (q & -> & Hh & Hq & Hq2).
  eexists. split; [done|]. split; [by rewrite length_laid_out|]. intros i f Hi.
  destruct (laid_out_lookup m (payload <$> fs) es q i (payload f) He Hh Hq Hq2) as (it & e & Hit & Ef & Hle & Hhe & Hp & Hp2).
  { by rewrite list_lookup_fmap, Hi. }
  exists it. split; [done|]. rewrite Forall_lookup in Hok. specialize (Hok i f Hi).
  destruct f as [z|a]; cbn [decodes]; [by apply (toUint_spec m it z e)|by apply (toAddress_spec m it a e)].
Qed.

Lemma encodeBytes_Some self : (length self <= 55)%nat -> exists e, encodeBytes self = Some e /\ (length e <= length self + 1)%nat.
Proof.
  intros Hl. assert (Eh : forall n : nat, (n <= 55)%nat -> exists b, encodeLength (Z.of_nat n) STRING_OFFSET = Some [b]).
  { intros n Hn. unfold encodeLength. rewrite (proj2 (Z.ltb_lt _ (256 ^ 8))), (proj2 (Z.leb_le (Z.of_nat n) 55)) by lia. by eexists. }
  destruct self as [|x [|y self]]; cbn [encodeBytes].
  - destruct (Eh 0%nat ltac:(lia)) as [b Eb]. cbn [length]. rewrite Eb. eexists. split; [done|]. cbn. lia.
  - destruct (_ <=? _); [eexists; split; [done|]; cbn; lia|]. destruct (Eh 1%nat ltac:(lia)) as [b Eb].
    change 1 with (Z.of_nat 1). rewrite Eb. eexists. split; [done|]. cbn. lia.
  - destruct (Eh (length (x :: y :: self)) Hl) as [b Eb]. rewrite Eb. eexists. split; [done|]. cbn. lia.
Qed.

Lemma encodeField_Some f : field_ok f -> exists e, encodeField f = Some e /\ (length e <= 33)%nat.
Proof.
  intros Hf. destruct f as [z|a]; cbn [encodeField field_ok] in *.
  - destruct (toBinary_spec z Hf) as [_ Hl]. destruct (encodeBytes_Some (toBinary z)) as (e & He & Hle); [lia|].
    exists e. split; [done|lia].
  - pose proof (length_arr a). destruct (encodeBytes_Some (arr a)) as (e & He & Hle); [lia|]. exists e. split; [done|lia].
Qed.

(** Fewer than 2^64 bytes of fields can be encoded. *)
Lemma encodeFields_Some fs : Forall field_ok fs -> Z.of_nat (length fs) < 2 ^ 58 -> exists enc, encodeFields fs = Some enc.
Proof.
  intros Hok Hl.
  assert (exists es, mapM encodeField fs = Some es /\ (length (concat es) <= 33 * length fs)%nat) as (es & Em & Hc).
  { clear Hl. induction Hok as [|f fs Hf Hok (es & Em & Hc)]; [by exists []|].
    destruct (encodeField_Some f Hf) as (e & Ef & He). exists (e :: es). cbn [mapM]. rewrite Ef. cbn [mbind option_bind].
    rewrite Em. split; [done|]. cbn [concat length]. rewrite length_app. lia. }
  unfold encodeFields. rewrite Em. cbn [mbind option_bind]. unfold encodeList. rewrite fold_mergeBytes. cbn [app].
  unfold encodeLength. rewrite (proj2 (Z.ltb_lt _ (256 ^ 8))) by lia. destruct (_ <=? 55); by eexists.
Qed.

(** * A transaction as the contract reads it *)

(** Two inputs by block, index and output, a token, two outputs: eleven fields in
    one list. *)
Record sol_tx : Type := mkSolTx {
  st_in1 : Z * Z * Z;
  st_in2 : Z * Z * Z;
  st_token : Address;
  st_out1 : Address * Z;
  st_out2 : Address * Z
}.

Definition tx_fields (t : sol_tx) : list field :=
  [FUint (st_in1 t).1.1; FUint (st_in1 t).1.2; FUint (st_in1 t).2; FUint (st_in2 t).1.1; FUint (st_in2 t).1.2; FUint (st_in2 t).2;
   FAddress (st_token t); FAddress (st_out1 t).1; FUint (st_out1 t).2; FAddress (st_out2 t).1; FUint (st_out2 t).2].

Definition sol_tx_ok (t : sol_tx) : Prop := Forall field_ok (tx_fields t).

Definition st_in (t : sol_tx) (i : Z) : Z * Z * Z := if i =? 0 then st_in1 t else st_in2 t.
Definition st_out (t : sol_tx) (i : Z) : Address * Z := if i =? 0 then st_out1 t else st_out2 t.

(** Run a reverting computation whose steps are known to succeed. *)
Ltac run_steps := repeat match goal with E : ?x = Some _ |- context [?x] => rewrite E; cbn [mbind option_bind] end.

Section Tx.
Context (fuel : nat) (m : memory) (p : Z) (t : sol_tx) (enc : bytes).
Hypothesis Hok : sol_tx_ok t.
Hypothesis Henc : encodeFields (tx_fields t) = Some enc.
Hypothesis Harr : array_at m p enc.
Hypothesis Hfuel : (11 < fuel)%nat.

Lemma tx_items : exists items, toList fuel m (toRlpItem m p) = Some items /\ length items = 11%nat /\
  forall i f, tx_fields t !! Z.to_nat i = Some f -> 0 <= i -> exists it, item_at items i = Some it /\ decodes m it f.
Proof using All.
  destruct (fields_decode fuel m p (tx_fields t) enc Hok Henc Harr Hfuel) as (items & E & Hl & Hd).
  exists items. split_and!; [done|done|]. intros i f Hf Hi. destruct (Hd _ f Hf) as (it & Hit & Hdf).
  exists it. unfold item_at. by rewrite (proj2 (Z.leb_le 0 i)).
Qed.

Lemma createExitingTx_spec i : 0 <= i <= 1 ->
  createExitingTx fuel m p i = Some (mkExitingTx (st_out t i).1 (st_token t) (st_out t i).2
    (uint256 ((st_in1 t).1.1 * (st_in2 t).1.1))).
Proof using All.
  intros Hi. destruct tx_items as (items & E & _ & Hd). unfold createExitingTx.
  destruct (Hd 6 _ eq_refl ltac:(lia)) as (i6 & E6 & D6). destruct (Hd 0 _ eq_refl ltac:(lia)) as (i0 & E0 & D0).
  destruct (Hd 3 _ eq_refl ltac:(lia)) as (i3 & E3 & D3).
  assert (exists i7 i8, item_at items (7 + 2 * i) = Some i7 /\ item_at items (8 + 2 * i) = Some i8 /\
    toAddress m i7 = Some (st_out t i).1 /\ toUint m i8 = (st_out t i).2) as (i7 & i8 & E7 & E8 & D7 & D8).
  { assert (i = 0 \/ i = 1) as [-> | ->] by lia.
    - destruct (Hd 7 _ eq_refl ltac:(lia)) as (i7 & E7 & D7). destruct (Hd 8 _ eq_refl ltac:(lia)) as (i8 & E8 & D8).
      by exists i7, i8.
    - destruct (Hd 9 _ eq_refl ltac:(lia)) as (i7 & E7 & D7). destruct (Hd 10 _ eq_refl ltac:(lia)) as (i8 & E8 & D8).
      by exists i7, i8. }
  cbn [decodes] in D6, D0, D3. rewrite !(uint256_small (2 * i)), (uint256_small (7 + _)), (uint256_small (8 + _)) by lia.
  run_steps. by rewrite D8, D0, D3.
Qed.

(** There is no third output. *)
Lemma createExitingTx_range i : 2 <= i < 2 ^ 254 -> createExitingTx fuel m p i = None.
Proof using All.
  intros Hi. destruct tx_items as (items & E & Hl & _). unfold createExitingTx. run_steps.
  rewrite !(uint256_small (2 * i)), (uint256_small (7 + _)) by lia.
  assert (item_at items (7 + 2 * i) = None) as ->; [|done]. unfold item_at.
  rewrite (proj2 (Z.leb_le 0 _)) by lia. apply lookup_ge_None_2. lia.
Qed.

(** The position [getUtxoPos] computes: the three numbers added up. *)
Lemma getUtxoPos_spec i : 0 <= i <= 1 ->
  getUtxoPos fuel m p i = Some (uint256 ((st_in t i).1.1 + (st_in t i).1.2 + (st_in t i).2)).
Proof using All.
  intros Hi. destruct tx_items as (items & E & _ & Hd). unfold getUtxoPos.
  assert (exists a b c, item_at items (0 + i * 3) = Some a /\ item_at items (1 + i * 3) = Some b /\
    item_at items (2 + i * 3) = Some c /\ toUint m a = (st_in t i).1.1 /\ toUint m b = (st_in t i).1.2 /\
    toUint m c = (st_in t i).2) as (a & b & c & Ea & Eb & Ec & Da & Db & Dc).
  { assert (i = 0 \/ i = 1) as [-> | ->] by lia.
    - destruct (Hd 0 _ eq_refl ltac:(lia)) as (a & Ea & Da). destruct (Hd 1 _ eq_refl ltac:(lia)) as (b & Eb & Db).
      destruct (Hd 2 _ eq_refl ltac:(lia)) as (c & Ec & Dc). by exists a, b, c.
    - destruct (Hd 3 _ eq_refl ltac:(lia)) as (a & Ea & Da). destruct (Hd 4 _ eq_refl ltac:(lia)) as (b & Eb & Db).
      destruct (Hd 5 _ eq_refl ltac:(lia)) as (c & Ec & Dc). by exists a, b, c. }
  rewrite (uint256_small (i * 3)), (uint256_small (0 + _)), (uint256_small (1 + _)), (uint256_small (2 + _)) by lia.
  run_steps. rewrite Da, Db, Dc. f_equal. unfold uint256. by rewrite Z.add_mod_idemp_l by lia.
Qed.
End Tx.

(** C23. Encoding and decoding. Whatever memory holds, if an array in it is the
    encoding [RLPEncode] makes of the eleven fields of a transaction, which it can
    make of any of them, then the pointer code of [RLP] and [PlasmaRLP] reads the
    fields back: the owner, the amount and the token of either output, and a
    reverting call for an output there is not; but of an input [getUtxoPos] gives
    the sum of block number, index and output. *)
Theorem exiting_tx_roundtrip t fuel m p : sol_tx_ok t -> (11 < fuel)%nat ->
  exists enc, encodeFields (tx_fields t) = Some enc /\ (array_at m p enc ->
    (forall i, 0 <= i <= 1 -> createExitingTx fuel m p i = Some (mkExitingTx (st_out t i).1 (st_token t) (st_out t i).2
      (uint256 ((st_in1 t).1.1 * (st_in2 t).1.1)))) /\
    (forall i, 2 <= i < 2 ^ 254 -> createExitingTx fuel m p i = None) /\
    (forall i, 0 <= i <= 1 -> getUtxoPos fuel m p i = Some (uint256 ((st_in t i).1.1 + (st_in t i).1.2 + (st_in t i).2)))).
Proof.
  intros Hok Hf. destruct (encodeFields_Some (tx_fields t) Hok ltac:(done)) as [enc E]. exists enc. split; [done|].
  intros Ha. split_and!; intros i Hi;
    [by eapply createExitingTx_spec|by eapply createExitingTx_range|by eapply getUtxoPos_spec].
Qed.

(** * Copying *)

Lemma mstore_before m p w a : a < p -> mstore m p w a = m a.
Proof. intros Ha. unfold mstore. by rewrite (proj2 (Z.leb_gt p a)). Qed.

Lemma mstore_mload m p a : mstore m p (mload m p) a = m a.
Proof.
  unfold mstore. destruct (Z.leb_spec p a), (Z.ltb_spec a (p + 32)); try done. cbn [andb].
  unfold mload. pose proof (be_put_val (m <$> seqZ p 32)) as E. rewrite length_fmap, length_seqZ in E.
  change (Z.to_nat 32) with 32%nat in E. rewrite E, list_lookup_fmap, lookup_seqZ_lt by lia. cbn. f_equal. lia.
Qed.

(** Whole words are stored where they were read. *)
Lemma copy_words_same k m src dest : 0 <= dest -> dest + 32 * Z.of_nat k < 2 ^ 256 ->
  exists m' src', copy_words k m src dest = (m', src', dest + 32 * Z.of_nat k) /\ forall a, m' a = m a.
Proof.
  revert m src dest. induction k as [|k IH]; intros m src dest Hd Hlt; cbn [copy_words].
  - do 2 eexists. split; [|done]. f_equal. lia.
  - rewrite (uint256_small (dest + 32)) by lia.
    destruct (IH (mstore m dest (mload m dest)) (uint256 (src + 32)) (dest + 32)) as (m' & src' & E & Hm); [lia|lia|].
    exists m', src'. rewrite E. split; [f_equal; lia|]. intros a. by rewrite Hm, mstore_mload.
Qed.

(** [toBytes] returns zeros for every whole word of the string; only what is left
    over behind them is copied. *)
Lemma toBytes_loses_words m free it len : len = uint256 (ri_len it - _payloadOffset m (ri_memPtr it)) ->
  0 <= free -> free + 64 + len < 2 ^ 256 ->
  forall i, 0 <= i < 32 * (len / 32) -> (toBytes m free it).1 ((toBytes m free it).2 + 32 + i) = Byte.x00.
Proof.
  intros El Hf Hr i Hi. assert (0 <= len) by (rewrite El; apply Z.mod_pos_bound; lia).
  unfold toBytes. rewrite <- El. cbn [fst snd]. unfold copy. rewrite (uint256_small (free + 32)) by lia.
  destruct (copy_words_same (Z.to_nat (len / 32)) (new_bytes m free len)
    (uint256 (ri_memPtr it + _payloadOffset m (ri_memPtr it))) (free + 32)) as (m' & src' & -> & Hm); [lia|dlia|].
  rewrite mstore_before, Hm by dlia. unfold new_bytes.
  by rewrite (proj2 (Z.leb_le _ _)), (proj2 (Z.ltb_lt _ _)) by dlia.
Qed.
