(* ===== verification/Exits.v ===== *)
(** The exits of rootchain/contracts/RootChain.sol with the libraries they use
    (Merkle.sol, Validate.sol, ECRecovery.sol, ByteUtils.sol, Math.sol): how an
    output leaves the side chain, how an exit is challenged, and how it is paid. *)

From Stdlib Require Import Sorting.Sorted.
From S2P Require Import Prelude Deps RootChain Merkle Contract PriorityQueue SolRlp.
#[local] Open Scope Z_scope.

(** A part of a list that [f] tells apart. *)
Lemma NoDup_fmap_filter {A B} (f : A -> B) (P : A -> Prop) `{!forall x, Decision (P x)} l : NoDup (f <$> l) -> NoDup (f <$> filter P l).
Proof.
  induction l as [|x l IH]; [done|]. cbn [fmap list_fmap]. intros [Hni Hnd]%NoDup_cons.
  rewrite filter_cons. case_decide; [|auto]. cbn [fmap list_fmap]. constructor; [|auto].
  intros (y & E & Hy)%list_elem_of_fmap. apply Hni, list_elem_of_fmap. exists y. by apply list_elem_of_filter in Hy as [_ ?].
Qed.

(** Numbers that differ and are below [n] are not more than [n]. *)
Lemma NoDup_below (l : list Z) n : 0 <= n -> NoDup l -> (forall x, x ∈ l -> 0 <= x < n) -> Z.of_nat (length l) <= n.
Proof.
  intros Hn Hnd Hl. assert (Hs : l ⊆+ seqZ 0 n).
  { apply NoDup_submseteq; [done|]. intros x Hx. apply elem_of_seqZ. specialize (Hl x Hx). lia. }
  apply submseteq_length in Hs. rewrite length_seqZ in Hs. lia.
Qed.

(** The precompiled contract that recovers an address from a hash, [v], [r] and [s]. *)
Class Evm : Type := { ecrecover : Hash -> Z -> bytes -> bytes -> Address }.

(** * The libraries *)

Definition Math_max (a b : Z) : Z := if b <=? a then a else b.

(** The callers' ranges are constants; the assembly copies the range. *)
Definition slice (_bytes : bytes) (_start _length : Z) : option bytes :=
  if uint256 (_start + _length) <=? Z.of_nat (length _bytes)
  then Some (take (Z.to_nat _length) (drop (Z.to_nat _start) _bytes)) else None.

Section Libraries.
Context `{Crypto} `{Evm}.

Definition recover (_hash : Hash) (_sig : bytes) : Address :=
  if (length _sig =? 65)%nat then
    let r := take 32 _sig in
    let s := take 32 (drop 32 _sig) in
    let v := byteZ (default Byte.x00 (_sig !! 64%nat)) in
    let v := if v <? 27 then v + 27 else v in
    if negb (v =? 27) && negb (v =? 28) then zeroAddress else ecrecover _hash v r s
  else zeroAddress.

Fixpoint checkMembership_loop (rounds : nat) (computedHash : Hash) (index : Z) (proof : bytes) : Hash :=
  match rounds with
  | O => computedHash
  | S rounds =>
      let proofElement := take 32 proof in
      let computedHash :=
        if index mod 2 =? 0 then keccak256 (arr computedHash ++ proofElement)
        else keccak256 (proofElement ++ arr computedHash) in
      checkMembership_loop rounds computedHash (index / 2) (drop 32 proof)
  end.

Definition checkMembership (leaf : Hash) (index : Z) (rootHash : Hash) (proof : bytes) : option bool :=
  if (length proof =? 512)%nat then Some (bool_decide (checkMembership_loop 16 leaf index proof = rootHash)) else None.

Definition checkSigs (txHash rootHash : Hash) (blknum2 : Z) (sigs : bytes) : option bool :=
  if ((length sigs mod 65 =? 0) && (length sigs <=? 260))%nat then
    sig1 ← slice sigs 0 65;
    sig2 ← slice sigs 65 65;
    confSig1 ← slice sigs 130 65;
    let confirmationHash := keccak256 (arr txHash ++ arr rootHash) in
    let check1 := bool_decide (recover txHash sig1 = recover confirmationHash confSig1) in
    check2 ← (if 0 <? blknum2 then
      confSig2 ← slice sigs 195 65;
      Some (bool_decide (recover txHash sig2 = recover confirmationHash confSig2))
    else Some true);
    Some (check1 && check2)
  else None.
End Libraries.

(** * The contract with its exits *)

Record Exit : Type := mkExit { ex_owner : Address; ex_token : Address; ex_amount : Z }.

(** A slot nobody wrote. *)
Definition noExit : Exit := mkExit zeroAddress zeroAddress 0.

(** The storage of [Contract.v], the exits, the queue contracts by token, and the
    ether the contract holds. *)
Record RootChainState : Type := mkRootChainState {
  rc_chain : Contract;
  rc_exits : gmap Z Exit;
  rc_exitsQueues : gmap Address PriorityQueue;
  rc_balance : Z
}.

Record ExitStarted : Type := mkExitStarted {
  xs_exitor : Address;
  xs_utxoPos : Z;
  xs_token : Address;
  xs_amount : Z
}.

Definition weeks : Z := 604800.

Section Exits.
Context `{Crypto} `{Evm}.
(** The address of the contract, and which addresses take a transfer of an amount:
    the code there is not this program's. *)
Context (this : Address) (takes : Address -> Z -> bool).

(** A function that is not [payable] reverts when ether is sent with the call. *)
Definition nonpayable (m : Msg) : bool := msg_value m =? 0.

Definition RC_constructor (m : Msg) : option RootChainState :=
  if nonpayable m then
    Some (mkRootChainState (constructor m) ∅ {[ zeroAddress := PQ_constructor this ]} 0)
  else None.

Definition RC_submitBlock (c : RootChainState) (m : Msg) (root : Hash) : option (RootChainState * event_value) :=
  if nonpayable m then
    '(chain, ev) ← submitBlock (rc_chain c) m root;
    Some (mkRootChainState chain (rc_exits c) (rc_exitsQueues c) (rc_balance c), ev)
  else None.

Definition RC_deposit (c : RootChainState) (m : Msg) : option (RootChainState * event_value) :=
  '(chain, ev) ← deposit (rc_chain c) m;
  Some (mkRootChainState chain (rc_exits c) (rc_exitsQueues c) (rc_balance c + msg_value m), ev).

Definition exit_at (c : RootChainState) (pos : Z) : Exit := default noExit (rc_exits c !! pos).

Definition getExit (c : RootChainState) (_utxoPos : Z) : Address * Address * Z :=
  let e := exit_at c _utxoPos in (ex_owner e, ex_token e, ex_amount e).

Definition addExitToQueue (c : RootChainState) (m : Msg) (_utxoPos : Z) (_exitor _token : Address)
    (_amount _created_at : Z) : option (RootChainState * ExitStarted) :=
  queue ← rc_exitsQueues c !! _token;
  if (0 <? _amount) && (ex_amount (exit_at c _utxoPos) =? 0) then
    let exitableAt := Math_max (uint256 (_created_at + 2 * weeks)) (uint256 (block_timestamp m + 1 * weeks)) in
    queue ← PQ_insert this queue exitableAt _utxoPos;
    Some (mkRootChainState (rc_chain c) (<[_utxoPos := mkExit _exitor _token _amount]> (rc_exits c))
            (<[_token := queue]> (rc_exitsQueues c)) (rc_balance c),
          mkExitStarted (msg_sender m) _utxoPos _token _amount)
  else None.

Definition startDepositExit (c : RootChainState) (m : Msg) (_depositPos : Z) (_token : Address) (_amount : Z)
    : option (RootChainState * ExitStarted) :=
  if nonpayable m then
    let blknum := _depositPos / 1000000000 in
    if negb (blknum mod CHILD_BLOCK_INTERVAL =? 0) then
      let (root, timestamp) := getChildChain (rc_chain c) blknum in
      let depositHash := keccak256 (arr (msg_sender m) ++ arr _token ++ be_put 32 _amount) in
      if decide (root = depositHash) then addExitToQueue c m _depositPos (msg_sender m) _token _amount timestamp
      else None
    else None
  else None.

Definition startFeeExit (c : RootChainState) (m : Msg) (_token : Address) (_amount : Z)
    : option (RootChainState * ExitStarted) :=
  if nonpayable m then
    if decide (msg_sender m = c_operator (rc_chain c)) then
      '(c, ev) ← addExitToQueue c m (c_currentFeeExit (rc_chain c)) (msg_sender m) _token _amount
                   (uint256 (block_timestamp m + 1));
      let k := rc_chain c in
      next ← SafeMath_add (c_currentFeeExit k) 1;
      Some (mkRootChainState (mkContract (c_operator k) (c_currentChildBlock k) (c_currentDepositBlock k) next (c_childChain k))
              (rc_exits c) (rc_exitsQueues c) (rc_balance c), ev)
    else None
  else None.

(** An argument of type [bytes] in memory, with its content. *)
Record mem_bytes : Type := mkMemBytes { mb_mem : memory; mb_ptr : Z; mb_content : bytes }.

Definition startExit (fuel : nat) (c : RootChainState) (m : Msg) (_utxoPos : Z) (_txBytes : mem_bytes)
    (_proof _sigs : bytes) : option (RootChainState * ExitStarted) :=
  if nonpayable m then
    let blknum := _utxoPos / 1000000000 in
    let txindex := (_utxoPos mod 1000000000) / 10000 in
    let oindex := _utxoPos - blknum * 1000000000 - txindex * 10000 in
    exitingTx ← createExitingTx fuel (mb_mem _txBytes) (mb_ptr _txBytes) oindex;
    if decide (msg_sender m = et_exitor exitingTx) then
      let (root, timestamp) := getChildChain (rc_chain c) blknum in
      let txHash := keccak256 (mb_content _txBytes) in
      sigs ← slice _sigs 0 130;
      let merkleHash := keccak256 (arr txHash ++ sigs) in
      sigs_ok ← checkSigs txHash root (et_inputCount exitingTx) _sigs;
      if (sigs_ok : bool) then
        member ← checkMembership merkleHash txindex root _proof;
        if (member : bool) then
          addExitToQueue c m _utxoPos (et_exitor exitingTx) (et_token exitingTx) (et_amount exitingTx) timestamp
        else None
      else None
    else None
  else None.

Definition challengeExit (fuel : nat) (c : RootChainState) (m : Msg) (_cUtxoPos _eUtxoIndex : Z) (_txBytes : mem_bytes)
    (_proof _sigs _confirmationSig : bytes) : option RootChainState :=
  if nonpayable m then
    eUtxoPos ← getUtxoPos fuel (mb_mem _txBytes) (mb_ptr _txBytes) _eUtxoIndex;
    let txindex := (_cUtxoPos mod 1000000000) / 10000 in
    let root := (getChildChain (rc_chain c) (_cUtxoPos / 1000000000)).1 in
    let txHash := keccak256 (mb_content _txBytes) in
    let confirmationHash := keccak256 (arr txHash ++ arr root) in
    let merkleHash := keccak256 (arr txHash ++ _sigs) in
    let owner := ex_owner (exit_at c eUtxoPos) in
    if decide (owner = recover confirmationHash _confirmationSig) then
      member ← checkMembership merkleHash txindex root _proof;
      if (member : bool) then
        let e := exit_at c eUtxoPos in
        Some (mkRootChainState (rc_chain c) (<[eUtxoPos := mkExit zeroAddress (ex_token e) (ex_amount e)]> (rc_exits c))
                (rc_exitsQueues c) (rc_balance c))
      else None
    else None
  else None.

(** A call of a queue that is not there reverts. *)
Definition getNextExit (c : RootChainState) (_token : Address) : option (Z * Z) :=
  queue ← rc_exitsQueues c !! _token;
  PQ_getMin queue.

(** A transfer: who gets how much, for which exit. *)
Record payment : Type := mkPayment { pay_pos : Z; pay_to : Address; pay_amount : Z }.

(** The loop of [finalizeExits]; the fuel is the gas. *)
Fixpoint finalize_loop (fuel : nat) (c : RootChainState) (now : Z) (_token : Address) (exitableAt utxoPos : Z)
    : option (RootChainState * list payment) :=
  match fuel with
  | O => None
  | S fuel =>
      if exitableAt <? now then
        let e := exit_at c utxoPos in
        if decide (zeroAddress = _token) then
          if (ex_amount e <=? rc_balance c) && takes (ex_owner e) (ex_amount e) then
            queue ← rc_exitsQueues c !! _token;
            '(queue, _) ← PQ_delMin this queue;
            let c := mkRootChainState (rc_chain c)
              (<[utxoPos := mkExit zeroAddress (ex_token e) (ex_amount e)]> (rc_exits c))
              (<[_token := queue]> (rc_exitsQueues c)) (rc_balance c - ex_amount e) in
            let pay := mkPayment utxoPos (ex_owner e) (ex_amount e) in
            if 0 <? currentSize queue then
              '(exitableAt, utxoPos) ← getNextExit c _token;
              '(c, pays) ← finalize_loop fuel c now _token exitableAt utxoPos;
              Some (c, pay :: pays)
            else Some (c, [pay])
          else None
        else None
      else Some (c, [])
  end.

Definition finalizeExits (fuel : nat) (c : RootChainState) (m : Msg) (_token : Address)
    : option (RootChainState * list payment) :=
  if nonpayable m then
    '(exitableAt, utxoPos) ← getNextExit c _token;
    finalize_loop fuel c (block_timestamp m) _token exitableAt utxoPos
  else None.

(** * The invariant *)

(** The only queue is that of the zero token. It is a heap of the contract's own,
    with positions that differ, each of an exit that has an amount; an exit that
    still has an owner is queued. *)
Record exits_inv (c : RootChainState) (q : PriorityQueue) : Prop := {
  xi_chain : contract_wf (rc_chain c);
  xi_queues : rc_exitsQueues c = {[ zeroAddress := q ]};
  xi_wf : pq_wf q;
  xi_this : pq_owner q = this;
  xi_nodup : NoDup (queued q).*2;
  xi_queued pos : pos ∈ (queued q).*2 -> 0 <= pos < 2 ^ 128 /\ 0 < ex_amount (exit_at c pos);
  xi_amount pos : 0 <= ex_amount (exit_at c pos);
  xi_owned pos : ex_owner (exit_at c pos) <> zeroAddress -> pos ∈ (queued q).*2;
  xi_balance : 0 <= rc_balance c
}.

Lemma exit_at_insert chain (exits : gmap Z Exit) queues bal pos e pos' :
  exit_at (mkRootChainState chain (<[pos := e]> exits) queues bal) pos' =
  if decide (pos' = pos) then e else default noExit (exits !! pos').
Proof.
  unfold exit_at. cbn [rc_exits]. case_decide as E; [subst; by rewrite lookup_insert_eq|by rewrite lookup_insert_ne by done].
Qed.

Lemma RC_constructor_inv m c : RC_constructor m = Some c -> exits_inv c (PQ_constructor this).
Proof.
  unfold RC_constructor. destruct (nonpayable m); [|done]. intros [= <-]. destruct (PQ_constructor_wf this) as [Hw Hq].
  split; cbn [rc_chain rc_exits rc_exitsQueues rc_balance exit_at]; try done; rewrite ?Hq.
  - apply constructor_wf.
  - constructor.
  - by intros pos Hp%elem_of_nil.
Qed.

(** Positions that differ are not too many for the array. *)
Lemma queue_room c q : exits_inv c q -> currentSize q <= 2 ^ 128.
Proof using this.
  clear takes.
  intros Hi. rewrite <- (queued_length q (xi_wf c q Hi)). rewrite <- (length_fmap snd).
  apply NoDup_below; [lia|apply (xi_nodup c q Hi)|]. intros x Hx. by apply (xi_queued c q Hi).
Qed.

(** [addExitToQueue], on every branch. *)
Lemma addExitToQueue_spec c q m pos exitor token amount created : exits_inv c q -> 0 <= pos < 2 ^ 128 ->
  let exitableAt := Math_max (uint256 (created + 2 * weeks)) (uint256 (block_timestamp m + 1 * weeks)) in
  if decide (token = zeroAddress /\ 0 < amount /\ ex_amount (exit_at c pos) = 0) then
    exists q', addExitToQueue c m pos exitor token amount created =
        Some (mkRootChainState (rc_chain c) (<[pos := mkExit exitor token amount]> (rc_exits c)) {[ zeroAddress := q' ]} (rc_balance c),
              mkExitStarted (msg_sender m) pos token amount) /\
      pq_wf q' /\ pq_owner q' = this /\ queued q' ≡ₚ (exitableAt mod 2 ^ 128, pos) :: queued q
  else addExitToQueue c m pos exitor token amount created = None.
Proof using this.
  clear takes.
  intros Hi Hpos ex. unfold addExitToQueue. rewrite (xi_queues c q Hi). case_decide as Hc.
  - destruct Hc as (-> & Ha & He). rewrite lookup_singleton_eq. cbn [mbind option_bind].
    rewrite (proj2 (Z.ltb_lt 0 amount)), (proj2 (Z.eqb_eq _ _)) by done. cbn [andb]. pose proof (queue_room c q Hi).
    destruct (PQ_insert_spec q ex pos (xi_wf c q Hi) Hpos ltac:(lia)) as (q' & E & Hw & Ho & _ & Hq).
    rewrite (xi_this c q Hi) in E, Ho. fold ex. rewrite E. cbn [mbind option_bind]. exists q'. by rewrite insert_singleton_eq.
  - destruct (decide (token = zeroAddress)) as [->|Ht]; [|by rewrite lookup_singleton_ne by done].
    rewrite lookup_singleton_eq. cbn [mbind option_bind].
    destruct (Z.ltb_spec 0 amount), (Z.eqb_spec (ex_amount (exit_at c pos)) 0); try done. by destruct Hc.
Qed.

Lemma addExitToQueue_inv c q m pos exitor token amount created c' ev : exits_inv c q -> 0 <= pos < 2 ^ 128 ->
  addExitToQueue c m pos exitor token amount created = Some (c', ev) ->
  exists q', exits_inv c' q' /\ rc_chain c' = rc_chain c /\ rc_balance c' = rc_balance c /\
    (queued q').*2 ≡ₚ pos :: (queued q).*2 /\ ex_amount (exit_at c pos) = 0 /\
    exit_at c' pos = mkExit exitor token amount /\ forall pos', pos' <> pos -> exit_at c' pos' = exit_at c pos'.
Proof using this.
  clear takes.
  intros Hi Hpos E. pose proof (addExitToQueue_spec c q m pos exitor token amount created Hi Hpos) as Hs. cbn zeta in Hs.
  case_decide as Hc; [|by rewrite E in Hs]. destruct Hc as (-> & Ha & He). destruct Hs as (q' & Es & Hw & Ho & Hq).
  rewrite E in Es. injection Es as -> ->.
  assert (Hq2 : (queued q').*2 ≡ₚ pos :: (queued q).*2) by by rewrite Hq.
  assert (Hex : forall pos', exit_at (mkRootChainState (rc_chain c) (<[pos := mkExit exitor zeroAddress amount]> (rc_exits c))
      {[ zeroAddress := q' ]} (rc_balance c)) pos' = if decide (pos' = pos) then mkExit exitor zeroAddress amount else exit_at c pos')
    by (intros; by rewrite exit_at_insert).
  exists q'. split_and!; try done; [|by rewrite Hex, decide_True|intros; by rewrite Hex, decide_False].
  split; cbn [rc_chain rc_exitsQueues rc_balance]; try done.
  - apply (xi_chain c q Hi).
  - rewrite Hq2. constructor; [|apply (xi_nodup c q Hi)]. intros Hin. apply (xi_queued c q Hi) in Hin. lia.
  - intros pos' Hin. rewrite Hq2 in Hin. rewrite Hex. case_decide; [by subst|].
    apply (xi_queued c q Hi). by apply elem_of_cons in Hin as [?|?].
  - intros pos'. rewrite Hex. case_decide; [cbn; lia|apply (xi_amount c q Hi)].
  - intros pos' Hown. rewrite Hex in Hown. rewrite Hq2. case_decide; [subst; apply list_elem_of_here|].
    apply list_elem_of_further. by apply (xi_owned c q Hi).
  - apply (xi_balance c q Hi).
Qed.

(** * Paying *)

(** The queued exits that can be paid at a time, what paying them takes, and the
    transfers. *)
Definition due (now : Z) (l : list (Z * Z)) : list (Z * Z) := filter (fun x => x.1 < now) l.
Definition amounts (c : RootChainState) (l : list (Z * Z)) : Z := foldr (fun x s => ex_amount (exit_at c x.2) + s) 0 l.
Definition takers (c : RootChainState) (l : list (Z * Z)) : Prop :=
  Forall (fun x => takes (ex_owner (exit_at c x.2)) (ex_amount (exit_at c x.2)) = true) l.
Definition payable (c : RootChainState) (l : list (Z * Z)) : Prop := takers c l /\ amounts c l <= rc_balance c.
Definition payments (c : RootChainState) (l : list (Z * Z)) : list payment :=
  (fun x => mkPayment x.2 (ex_owner (exit_at c x.2)) (ex_amount (exit_at c x.2))) <$> l.

#[export] Instance payable_dec c l : Decision (payable c l).
Proof. unfold payable, takers. apply _. Defined.

(** Exits without their owner, everything else as before. *)
Record paid_out (c c' : RootChainState) (l : list (Z * Z)) : Prop := {
  po_chain : rc_chain c' = rc_chain c;
  po_balance : rc_balance c' = rc_balance c - amounts c l;
  po_exits pos : exit_at c' pos =
    if decide (pos ∈ l.*2) then mkExit zeroAddress (ex_token (exit_at c pos)) (ex_amount (exit_at c pos)) else exit_at c pos
}.

(** The head of the queue, paid. *)
Definition pay_head (c : RootChainState) (pos : Z) (q' : PriorityQueue) : RootChainState :=
  mkRootChainState (rc_chain c) (<[pos := mkExit zeroAddress (ex_token (exit_at c pos)) (ex_amount (exit_at c pos))]> (rc_exits c))
    {[ zeroAddress := q' ]} (rc_balance c - ex_amount (exit_at c pos)).

Lemma pay_head_at c pos q' pos' : exit_at (pay_head c pos q') pos' =
  if decide (pos' = pos) then mkExit zeroAddress (ex_token (exit_at c pos)) (ex_amount (exit_at c pos)) else exit_at c pos'.
Proof. unfold pay_head. by rewrite exit_at_insert. Qed.

Lemma pay_head_inv c q e pos rest : exits_inv c q -> queued q = (e, pos) :: rest -> ex_amount (exit_at c pos) <= rc_balance c ->
  exists q', PQ_delMin this q = Some (q', (e, pos)) /\ queued q' = rest /\ exits_inv (pay_head c pos q') q'.
Proof.
  intros Hi Hq Hb. pose proof (queued_length q (xi_wf c q Hi)) as Hl. rewrite Hq in Hl. cbn [length] in Hl.
  destruct (PQ_delMin_spec q (xi_wf c q Hi) ltac:(lia)) as (q' & m & E & Hw & Ho & _ & Eq).
  rewrite Hq in Eq. injection Eq as <- ->. rewrite (xi_this c q Hi) in E, Ho. exists q'. split_and!; [done|done|].
  pose proof (xi_nodup c q Hi) as Hnd. rewrite Hq in Hnd. cbn [fmap list_fmap snd] in Hnd. apply NoDup_cons in Hnd as [Hni Hnd].
  assert (Hin : forall pos', pos' ∈ (queued q').*2 -> pos' ∈ (queued q).*2)
    by (intros; rewrite Hq; by apply list_elem_of_further).
  split; try done; cbn [rc_balance pay_head]; [apply (xi_chain c q Hi)| | | |lia].
  - intros pos' Hp. rewrite pay_head_at. rewrite decide_False by (by intros ->). apply (xi_queued c q Hi). auto.
  - intros pos'. rewrite pay_head_at. case_decide; apply (xi_amount c q Hi).
  - intros pos'. rewrite pay_head_at. case_decide as Hne; [done|]. intros Hown%(xi_owned c q Hi).
    rewrite Hq in Hown. by apply elem_of_cons in Hown as [?|?].
Qed.

Lemma amounts_nonneg c q l : exits_inv c q -> 0 <= amounts c l.
Proof. intros Hi. induction l as [|x l IH]; [done|]. cbn [amounts foldr]. pose proof (xi_amount c q Hi x.2). unfold amounts in IH. lia. Qed.

(** What concerns other exits does not change. *)
Lemma pay_head_others c pos q' l : (pos ∉ l.*2) -> amounts (pay_head c pos q') l = amounts c l /\
  (takers (pay_head c pos q') l <-> takers c l) /\ payments (pay_head c pos q') l = payments c l.
Proof.
  induction l as [|x l IH]; [intros _; split; [done|]; split; [split; constructor|done]|]. cbn [fmap list_fmap]. rewrite not_elem_of_cons. intros [Hne Hni].
  destruct (IH Hni) as (Ha & Ht & Hp). unfold amounts, takers, payments in *. cbn [foldr fmap list_fmap].
  rewrite Forall_cons, Forall_cons, Ha, Ht. cbn [fmap list_fmap] in Hp. rewrite Hp. by rewrite pay_head_at, decide_False by done.
Qed.

Lemma paid_out_nil c : paid_out c c [].
Proof. split; [done|cbn [amounts foldr]; lia|]. intros pos. rewrite decide_False; [done|]. by intros ?%elem_of_nil. Qed.

Lemma paid_out_cons c e pos q' c' l : (pos ∉ l.*2) -> paid_out (pay_head c pos q') c' l -> paid_out c c' ((e, pos) :: l).
Proof.
  intros Hni [Hc Hb He]. destruct (pay_head_others c pos q' l Hni) as (Ha & _ & _). split; [done| |].
  - rewrite Hb, Ha. cbn [pay_head rc_balance amounts foldr snd]. unfold amounts. lia.
  - intros pos'. rewrite He, pay_head_at. cbn [fmap list_fmap snd].
    destruct (decide (pos' = pos)) as [->|Hne].
    + rewrite decide_False by done. rewrite decide_True by apply list_elem_of_here. done.
    + destruct (decide (pos' ∈ l.*2)) as [Hin|Hin].
      * by rewrite decide_True by by apply list_elem_of_further.
      * rewrite decide_False; [done|]. by intros [?|?]%elem_of_cons.
Qed.

Lemma sorted_due now e pos rest : StronglySorted lex_le ((e, pos) :: rest) -> now <= e -> due now ((e, pos) :: rest) = [].
Proof.
  intros Hs Hle. apply StronglySorted_inv in Hs as [_ Hall]. apply filter_none.
  intros x [->|Hx]%elem_of_cons; cbn [fst]; [lia|]. rewrite Forall_forall in Hall. destruct (Hall x Hx) as [?|[? _]]; cbn [fst] in *; lia.
Qed.

(** Nothing is due: nothing is paid. *)
Lemma sorted_not_due c q now e pos rest : exits_inv c q -> queued q = (e, pos) :: rest -> now <= e ->
  due now (queued q) = [] /\ payable c (due now (queued q)) /\ queued q = filter (fun x => ~ x.1 < now) (queued q).
Proof.
  intros Hi Hq Hge. pose proof (queued_sorted q) as Hs. rewrite Hq in Hs |- *. rewrite (sorted_due now e pos rest Hs Hge).
  split_and!; [done|split; [constructor|apply (xi_balance c q Hi)]|]. symmetry. apply filter_all. intros x Hx Hlt.
  assert (Hin : x ∈ due now ((e, pos) :: rest)) by by apply list_elem_of_filter.
  rewrite (sorted_due now e pos rest Hs Hge) in Hin. by apply elem_of_nil in Hin.
Qed.

(** Paying the head and then the rest is paying all of them. *)
Lemma payable_cons c q e pos q' l : exits_inv c q -> (pos ∉ l.*2) ->
  payable c ((e, pos) :: l) <-> ex_amount (exit_at c pos) <= rc_balance c /\
    takes (ex_owner (exit_at c pos)) (ex_amount (exit_at c pos)) = true /\ payable (pay_head c pos q') l.
Proof.
  intros Hi Hni. destruct (pay_head_others c pos q' l Hni) as (Ha & Ht & _). pose proof (amounts_nonneg c q l Hi).
  unfold payable. rewrite Ha, Ht. unfold takers at 1. rewrite Forall_cons. fold (takers c l).
  change (amounts c ((e, pos) :: l)) with (ex_amount (exit_at c pos) + amounts c l).
  change (rc_balance (pay_head c pos q')) with (rc_balance c - ex_amount (exit_at c pos)). cbn [snd]. intuition lia.
Qed.

Lemma finalize_loop_spec fuel c q now e pos rest : exits_inv c q -> queued q = (e, pos) :: rest ->
  (length (queued q) <= fuel)%nat ->
  if decide (payable c (due now (queued q))) then
    exists c' q', finalize_loop fuel c now zeroAddress e pos = Some (c', payments c (due now (queued q))) /\
      exits_inv c' q' /\ paid_out c c' (due now (queued q)) /\ queued q' = filter (fun x => ~ x.1 < now) (queued q)
  else finalize_loop fuel c now zeroAddress e pos = None.
Proof.
  revert c q e pos rest. induction fuel as [|fuel IH]; intros c q e pos rest Hi Hq Hf; [rewrite Hq in Hf; cbn in Hf; lia|].
  cbn [finalize_loop]. destruct (Z.ltb_spec e now) as [Hlt|Hge].
  2: { destruct (sorted_not_due c q now e pos rest Hi Hq Hge) as (Ed & Hp & Eq). rewrite decide_True by done.
       exists c, q. rewrite Ed. split_and!; [done|done|apply paid_out_nil|done]. }
  rewrite (decide_True (P := zeroAddress = zeroAddress)) by done. rewrite Hq. unfold due.
  rewrite filter_cons_True by done. rewrite (filter_cons_False _ (e, pos)) by (cbn; lia). fold (due now rest).
  pose proof (xi_nodup c q Hi) as Hnd. rewrite Hq in Hnd. cbn [fmap list_fmap snd] in Hnd. apply NoDup_cons in Hnd as [Hni _].
  assert (Hnd : pos ∉ (due now rest).*2).
  { intros (x & -> & Hx)%list_elem_of_fmap. apply Hni, list_elem_of_fmap. exists x. by apply list_elem_of_filter in Hx as [_ Hx]. }
  pose proof (fun q' => payable_cons c q e pos q' (due now rest) Hi Hnd) as Hpay.
  destruct (Z.leb_spec (ex_amount (exit_at c pos)) (rc_balance c)) as [Hb|Hb]; cbn [andb].
  2: { rewrite decide_False; [done|]. rewrite (Hpay q). lia. }
  destruct (takes (ex_owner (exit_at c pos)) (ex_amount (exit_at c pos))) eqn:Et.
  2: { rewrite decide_False; [done|]. rewrite (Hpay q). naive_solver. }
  rewrite (xi_queues c q Hi), lookup_singleton_eq. cbn [mbind option_bind].
  destruct (pay_head_inv c q e pos rest Hi Hq Hb) as (q1 & -> & Hq1 & Hi1). cbn [mbind option_bind]. rewrite insert_singleton_eq.
  change (mkRootChainState _ _ _ _) with (pay_head c pos q1). specialize (Hpay q1).
  destruct (pay_head_others c pos q1 (due now rest) Hnd) as (_ & _ & Hp1). set (c1 := pay_head c pos q1) in *.
  pose proof (queued_length q1 (xi_wf c1 q1 Hi1)) as Hl1. rewrite Hq1 in Hl1. destruct rest as [|[e2 pos2] rest2].
  - rewrite (proj2 (Z.ltb_ge 0 _)) by (cbn in Hl1; lia).
    rewrite decide_True by (apply Hpay; split_and!; [done|done|split; [constructor|apply (xi_balance c1 q1 Hi1)]]).
    exists c1, q1. split_and!; [done|done|eapply paid_out_cons; [done|apply paid_out_nil]|done].
  - rewrite (proj2 (Z.ltb_lt 0 _)) by (cbn [length] in Hl1; lia).
    assert (getNextExit c1 zeroAddress = Some (e2, pos2)) as ->.
    { unfold getNextExit. rewrite (xi_queues c1 q1 Hi1), lookup_singleton_eq. cbn [mbind option_bind].
      by rewrite PQ_getMin_spec, Hq1 by apply Hi1. }
    cbn [mbind option_bind]. rewrite Hq in Hf. cbn [length] in Hf.
    specialize (IH c1 q1 e2 pos2 rest2 Hi1 Hq1 ltac:(rewrite Hq1; cbn [length]; lia)). rewrite Hq1 in IH.
    destruct (decide (payable c1 (due now ((e2, pos2) :: rest2)))) as [Hy|Hn].
    + rewrite decide_True by by apply Hpay. destruct IH as (c' & q' & -> & Hi' & Hpo & Hq'). cbn [mbind option_bind].
      exists c', q'. split_and!; [by rewrite Hp1|done|by eapply paid_out_cons|done].
    + rewrite decide_False by by (rewrite Hpay; intros (_ & _ & ?)). by rewrite IH.
Qed.

(** [finalizeExits] on every branch. *)
Lemma finalizeExits_spec fuel c q m : exits_inv c q -> nonpayable m = true -> (length (queued q) <= fuel)%nat ->
  let l := due (block_timestamp m) (queued q) in
  if decide (queued q <> [] /\ payable c l) then
    exists c' q', finalizeExits fuel c m zeroAddress = Some (c', payments c l) /\ exits_inv c' q' /\ paid_out c c' l /\
      queued q' = filter (fun x => ~ x.1 < block_timestamp m) (queued q)
  else finalizeExits fuel c m zeroAddress = None.
Proof.
  intros Hi Hm Hf l. unfold finalizeExits, getNextExit. rewrite Hm, (xi_queues c q Hi), lookup_singleton_eq.
  cbn [mbind option_bind]. rewrite PQ_getMin_spec by apply Hi. destruct (queued q) as [|[e pos] rest] eqn:Hq.
  - rewrite decide_False by naive_solver. done.
  - cbn [head mbind option_bind]. pose proof (finalize_loop_spec fuel c q (block_timestamp m) e pos rest Hi Hq) as Hs.
    rewrite Hq in Hs. specialize (Hs Hf). fold l in Hs. destruct (decide (payable c l)) as [Hy|Hn].
    + by rewrite decide_True.
    + rewrite decide_False by naive_solver. done.
Qed.

(** C10. Paying exits. At any time [finalizeExits] looks at the exits whose time has
    come, in the order of their times and positions. If each owner takes its amount
    and the contract holds the sum, it pays every one of them and no other, each once,
    and the queue keeps exactly the others; an exit loses its owner and keeps its
    amount. Otherwise, and when nothing is queued, the call reverts: one owner that
    does not take a transfer keeps all that are due from being paid. *)
Theorem finalize_pays fuel c q m : exits_inv c q -> nonpayable m = true -> (length (queued q) <= fuel)%nat ->
  let l := due (block_timestamp m) (queued q) in
  if decide (queued q <> [] /\ payable c l) then
    exists c' q', finalizeExits fuel c m zeroAddress = Some (c', payments c l) /\ exits_inv c' q' /\ paid_out c c' l /\
      queued q' = filter (fun x => ~ x.1 < block_timestamp m) (queued q)
  else finalizeExits fuel c m zeroAddress = None.
Proof. apply finalizeExits_spec. Qed.

(** * Runs *)

(** More gas does not change the outcome. *)
Lemma finalize_loop_mono fuel k c now token e pos r : finalize_loop fuel c now token e pos = Some r ->
  finalize_loop (fuel + k) c now token e pos = Some r.
Proof.
  revert c e pos r. induction fuel as [|fuel IH]; intros c e pos r; [done|]. cbn [finalize_loop Nat.add].
  destruct (e <? now); [|done]. case_decide; [|done]. destruct (_ && _); [|done]. intros E.
  apply bind_Some in E as (q & -> & E). cbn [mbind option_bind]. apply bind_Some in E as ([q' x] & -> & E). cbn [mbind option_bind].
  destruct (0 <? currentSize q'); [|done]. apply bind_Some in E as ([e' pos'] & -> & E). cbn [mbind option_bind].
  apply bind_Some in E as ([c' ps] & E' & E). rewrite (IH _ _ _ _ E'). done.
Qed.

(** A call that takes effect: what it brings in and what it pays. Positions are
    below 2^128, which is any block number below 2^98. *)
Inductive rc_step (c : RootChainState) : Z -> list payment -> RootChainState -> Prop :=
| rs_submit m root c' ev : RC_submitBlock c m root = Some (c', ev) -> rc_step c 0 [] c'
| rs_deposit m c' ev : 0 <= msg_value m -> RC_deposit c m = Some (c', ev) -> rc_step c (msg_value m) [] c'
| rs_depositExit m pos token amount c' ev : 0 <= pos < 2 ^ 128 ->
    startDepositExit c m pos token amount = Some (c', ev) -> rc_step c 0 [] c'
| rs_feeExit m token amount c' ev : 0 <= c_currentFeeExit (rc_chain c) < 2 ^ 128 ->
    startFeeExit c m token amount = Some (c', ev) -> rc_step c 0 [] c'
| rs_exit fuel m pos tx proof sigs c' ev : 0 <= pos < 2 ^ 128 ->
    startExit fuel c m pos tx proof sigs = Some (c', ev) -> rc_step c 0 [] c'
| rs_challenge fuel m cpos i tx proof sigs conf c' :
    challengeExit fuel c m cpos i tx proof sigs conf = Some c' -> rc_step c 0 [] c'
| rs_finalize fuel m token c' ps : finalizeExits fuel c m token = Some (c', ps) -> rc_step c 0 ps c'.

(** From the creation, with all that came in and all that was paid. *)
Inductive rc_run : Z -> list payment -> RootChainState -> Prop :=
| rr_created m c : RC_constructor m = Some c -> rc_run 0 [] c
| rr_step received ps c r ps' c' : rc_run received ps c -> rc_step c r ps' c' -> rc_run (received + r) (ps ++ ps') c'.

(** What one call does to the exits, the queue and the balance. *)
Record step_effect (c : RootChainState) (q : PriorityQueue) (r : Z) (ps : list payment) (c' : RootChainState) (q' : PriorityQueue)
    : Prop := {
  se_balance : rc_balance c' = rc_balance c + r - sumZ (pay_amount <$> ps);
  se_nodup : NoDup (pay_pos <$> ps);
  se_paid p : p ∈ ps -> pay_pos p ∈ (queued q).*2 /\ (pay_pos p ∉ (queued q').*2) /\
    pay_amount p = ex_amount (exit_at c (pay_pos p));
  se_amount pos : 0 < ex_amount (exit_at c pos) -> ex_amount (exit_at c' pos) = ex_amount (exit_at c pos);
  se_queued pos : pos ∈ (queued q').*2 -> pos ∈ (queued q).*2 \/ ex_amount (exit_at c pos) = 0
}.

(** Calls that leave the exits and their queue alone. *)
Lemma quiet_effect c q r c' : exits_inv c q -> contract_wf (rc_chain c') -> rc_exits c' = rc_exits c ->
  rc_exitsQueues c' = rc_exitsQueues c -> rc_balance c' = rc_balance c + r -> 0 <= r ->
  exits_inv c' q /\ step_effect c q r [] c' q.
Proof.
  intros Hi Hw He Hqs Hb Hr. assert (Ha : forall pos, exit_at c' pos = exit_at c pos) by (intros; unfold exit_at; by rewrite He).
  split.
  - split; [done|by rewrite Hqs, (xi_queues c q Hi)|apply Hi|apply (xi_this c q Hi)|apply (xi_nodup c q Hi)|..].
    + intros pos. rewrite Ha. apply (xi_queued c q Hi).
    + intros pos. rewrite Ha. apply (xi_amount c q Hi).
    + intros pos. rewrite Ha. apply (xi_owned c q Hi).
    + pose proof (xi_balance c q Hi). lia.
  - split; [cbn; lia|constructor|by intros p ?%elem_of_nil|by intros; rewrite Ha|by left].
Qed.

Lemma contract_wf_fee k fee : contract_wf k ->
  contract_wf (mkContract (c_operator k) (c_currentChildBlock k) (c_currentDepositBlock k) fee (c_childChain k)).
Proof. by intros []. Qed.

(** Starting an exit. *)
Lemma add_effect c q m pos exitor token amount created c' ev : exits_inv c q -> 0 <= pos < 2 ^ 128 ->
  addExitToQueue c m pos exitor token amount created = Some (c', ev) ->
  exists q', exits_inv c' q' /\ step_effect c q 0 [] c' q' /\ rc_chain c' = rc_chain c.
Proof.
  intros Hi Hpos E. destruct (addExitToQueue_inv c q m pos exitor token amount created c' ev Hi Hpos E)
    as (q' & Hi' & Hc & Hb & Hq & H0' & He & Ho). exists q'. split_and!; [done| |done].
  split; [cbn; lia|constructor|by intros p ?%elem_of_nil| |].
  - intros pos' Hp. rewrite Ho; [done|]. intros ->. lia.
  - intros pos' Hin. rewrite Hq in Hin. apply elem_of_cons in Hin as [->|Hin]; [by right|by left].
Qed.

(** An owner deleted. *)
Lemma challenge_effect fuel c q m cpos i tx proof sigs conf c' : exits_inv c q ->
  challengeExit fuel c m cpos i tx proof sigs conf = Some c' -> exits_inv c' q /\ step_effect c q 0 [] c' q.
Proof.
  intros Hi E. unfold challengeExit in E. destruct (nonpayable m); [|done]. apply bind_Some in E as (pos & _ & E).
  case_decide; [|done]. apply bind_Some in E as (b & _ & E). destruct b; [|done]. injection E as <-.
  set (c' := mkRootChainState _ _ _ _).
  assert (Ha : forall pos', exit_at c' pos' = if decide (pos' = pos) then mkExit zeroAddress (ex_token (exit_at c pos)) (ex_amount (exit_at c pos))
    else exit_at c pos') by (intros; unfold c'; by rewrite exit_at_insert).
  assert (Hm : forall pos', ex_amount (exit_at c' pos') = ex_amount (exit_at c pos')) by (intros; rewrite Ha; by case_decide; subst).
  split.
  - split; [apply (xi_chain c q Hi)|apply (xi_queues c q Hi)|apply (xi_wf c q Hi)|apply (xi_this c q Hi)|apply (xi_nodup c q Hi)
      | | | |apply (xi_balance c q Hi)].
    + intros pos'. rewrite Hm. apply (xi_queued c q Hi).
    + intros pos'. rewrite Hm. apply (xi_amount c q Hi).
    + intros pos'. rewrite Ha. case_decide; [done|]. apply (xi_owned c q Hi).
  - split; [cbn; lia|constructor|by intros p ?%elem_of_nil|by intros; rewrite Hm|by left].
Qed.

Lemma amounts_payments c l : sumZ (pay_amount <$> payments c l) = amounts c l.
Proof. induction l as [|x l IH]; [done|]. unfold payments, amounts in *. cbn [fmap list_fmap sumZ fold_right foldr pay_amount] in *. by rewrite <- IH. Qed.

Lemma positions_payments c l : pay_pos <$> payments c l = l.*2.
Proof. unfold payments. by rewrite <- list_fmap_compose. Qed.

(** Paying. *)
Lemma finalize_effect fuel c q m token c' ps : exits_inv c q -> finalizeExits fuel c m token = Some (c', ps) ->
  exists q', exits_inv c' q' /\ step_effect c q 0 ps c' q'.
Proof.
  intros Hi E. assert (Hm : nonpayable m = true) by (unfold finalizeExits in E; by destruct (nonpayable m)).
  assert (token = zeroAddress) as ->.
  { unfold finalizeExits, getNextExit in E. rewrite Hm, (xi_queues c q Hi) in E.
    destruct (decide (token = zeroAddress)); [done|]. by rewrite lookup_singleton_ne in E by done. }
  assert (Em : finalizeExits (fuel + length (queued q)) c m zeroAddress = Some (c', ps)).
  { unfold finalizeExits in E |- *. rewrite Hm in E |- *. apply bind_Some in E as ([e pos] & -> & E). cbn [mbind option_bind].
    by apply finalize_loop_mono. }
  pose proof (finalizeExits_spec (fuel + length (queued q)) c q m Hi Hm ltac:(lia)) as Hs. cbn zeta in Hs.
  set (l := due (block_timestamp m) (queued q)) in Hs. case_decide; [|by rewrite Em in Hs].
  destruct Hs as (c1 & q' & Es & Hi' & [Hc Hb He] & Hq'). rewrite Em in Es. injection Es as -> ->. exists q'. split; [done|].
  assert (Hsub : forall pos, pos ∈ l.*2 -> pos ∈ (queued q).*2).
  { intros pos (x & -> & Hx)%list_elem_of_fmap. apply list_elem_of_fmap. exists x. by apply list_elem_of_filter in Hx as [_ ?]. }
  split.
  - rewrite amounts_payments, Hb. lia.
  - rewrite positions_payments. apply NoDup_fmap_filter, (xi_nodup c q Hi).
  - intros p (x & -> & Hx)%list_elem_of_fmap. cbn [pay_pos pay_amount]. split_and!; [|rewrite Hq'|done].
    + apply Hsub, list_elem_of_fmap. by exists x.
    + intros (y & E' & [Hn Hy]%list_elem_of_filter)%list_elem_of_fmap. apply list_elem_of_filter in Hx as [Hlt Hx].
      apply Hn. by rewrite <- (NoDup_fmap_elem snd (queued q) x y (xi_nodup c q Hi) Hx Hy E').
  - intros pos _. rewrite He. by case_decide.
  - intros pos (x & -> & Hx)%list_elem_of_fmap. left. rewrite Hq' in Hx. apply list_elem_of_filter in Hx as [_ Hx].
    apply list_elem_of_fmap. by exists x.
Qed.

Lemma rc_step_effect c q r ps c' : exits_inv c q -> rc_step c r ps c' -> exists q', exits_inv c' q' /\ step_effect c q r ps c' q'.
Proof.
  intros Hi Hs. destruct Hs as [m root c' ev E|m c' ev Hv E|m pos token amount c' ev Hp E|m token amount c' ev Hp E
    |fuel m pos tx proof sigs c' ev Hp E|fuel m cpos i tx proof sigs conf c' E|fuel m token c' ps E].
  - unfold RC_submitBlock in E. destruct (nonpayable m); [|done]. apply bind_Some in E as ([k ev'] & Ek & E). injection E as <- <-.
    exists q. eapply quiet_effect; cbn [rc_chain rc_exits rc_exitsQueues rc_balance]; try done; [|lia].
    eapply contract_step_wf; [apply (xi_chain c q Hi)|by eapply step_submit].
  - unfold RC_deposit in E. apply bind_Some in E as ([k ev'] & Ek & E). injection E as <- <-.
    exists q. eapply quiet_effect; cbn [rc_chain rc_exits rc_exitsQueues rc_balance]; try done.
    eapply contract_step_wf; [apply (xi_chain c q Hi)|by eapply step_deposit].
  - unfold startDepositExit in E. destruct (nonpayable m); [|done]. destruct (negb _); [|done].
    destruct (getChildChain _ _) as [root ts]. case_decide; [|done].
    destruct (add_effect c q _ _ _ _ _ _ _ _ Hi Hp E) as (q' & ? & ? & _). by exists q'.
  - unfold startFeeExit in E. destruct (nonpayable m); [|done]. case_decide; [|done].
    apply bind_Some in E as ([c1 ev1] & Ea & E). apply bind_Some in E as (next & _ & E). injection E as <- <-.
    destruct (add_effect c q _ _ _ _ _ _ _ _ Hi Hp Ea) as (q' & Hi1 & [Hb Hn Hpd Ha Hq] & _). exists q'.
    set (c2 := mkRootChainState _ _ _ _). assert (Hw : contract_wf (rc_chain c2)) by apply contract_wf_fee, (xi_chain c1 q' Hi1).
    destruct (quiet_effect c1 q' 0 c2 Hi1 Hw eq_refl eq_refl) as [Hi2 _]; [cbn [c2 rc_balance]; lia|done|].
    split; [exact Hi2|]. by split.
  - unfold startExit in E. destruct (nonpayable m); [|done]. apply bind_Some in E as (et & _ & E). case_decide; [|done].
    destruct (getChildChain _ _) as [root ts]. apply bind_Some in E as (s130 & _ & E). apply bind_Some in E as (b1 & _ & E).
    destruct b1; [|done]. apply bind_Some in E as (b2 & _ & E). destruct b2; [|done].
    destruct (add_effect c q _ _ _ _ _ _ _ _ Hi Hp E) as (q' & ? & ? & _). by exists q'.
  - exists q. by eapply challenge_effect.
  - by eapply finalize_effect.
Qed.

(** Along a run: what was paid was queued before, is not queued any more, and keeps
    its amount, so that it cannot be queued again. *)
Record paid_inv (received : Z) (ps : list payment) (c : RootChainState) (q : PriorityQueue) : Prop := {
  pi_inv : exits_inv c q;
  pi_nodup : NoDup (pay_pos <$> ps);
  pi_paid p : p ∈ ps -> (pay_pos p ∉ (queued q).*2) /\ 0 < pay_amount p /\ ex_amount (exit_at c (pay_pos p)) = pay_amount p;
  pi_balance : rc_balance c = received - sumZ (pay_amount <$> ps)
}.

Lemma rc_run_paid received ps c : rc_run received ps c -> exists q, paid_inv received ps c q.
Proof.
  induction 1 as [m c E|received ps c r ps' c' _ [q [Hi Hnd Hpaid Hb]] Hs].
  { exists (PQ_constructor this). split; [by eapply RC_constructor_inv|constructor|by intros p ?%elem_of_nil|].
    unfold RC_constructor in E. destruct (nonpayable m); [|done]. by injection E as <-. }
  destruct (rc_step_effect c q r ps' c' Hi Hs) as (q' & Hi' & [Hb' Hnd' Hp' Ha Hq]). exists q'. split; [done| | |].
  - rewrite fmap_app. apply NoDup_app. split_and!; [done| |done].
    intros pos (p & -> & Hin)%list_elem_of_fmap (p' & E & Hin')%list_elem_of_fmap.
    destruct (Hpaid p Hin) as [Hn _]. destruct (Hp' p' Hin') as [Hq1 _]. rewrite <- E in Hq1. done.
  - intros p [Hin|Hin]%elem_of_app.
    + destruct (Hpaid p Hin) as (Hn & Hpos & Em). split_and!; [|done|rewrite Ha; lia].
      intros Hc. destruct (Hq _ Hc) as [?|?]; [done|lia].
    + destruct (Hp' p Hin) as (Hin1 & Hn & Em). destruct (xi_queued c q Hi _ Hin1) as [_ Hpos]. split_and!; [done|lia|rewrite Ha; lia].
  - rewrite Hb', Hb, fmap_app, sumZ_app. lia.
Qed.

(** C5. No position is paid twice. In whatever order blocks are submitted, deposits
    made, exits of positions below 2^128 started, challenged and paid: each payment is for another position,
    has the positive amount its exit still records, and is not queued any more; the
    queue stays a heap of different positions, each with an amount; and all payments
    together are what the contract received less what it holds. *)
Theorem exit_paid_once received ps c : rc_run received ps c ->
  NoDup (pay_pos <$> ps) /\
  (forall p, p ∈ ps -> 0 < pay_amount p /\ (getExit c (pay_pos p)).2 = pay_amount p) /\
  (exists q, exits_inv c q /\ forall p, p ∈ ps -> pay_pos p ∉ (queued q).*2) /\
  sumZ (pay_amount <$> ps) = received - rc_balance c /\ sumZ (pay_amount <$> ps) <= received.
Proof.
  intros Hrun. destruct (rc_run_paid received ps c Hrun) as [q [Hi Hnd Hp Hb]]. pose proof (xi_balance c q Hi).
  split_and!; [done| | |lia|lia].
  - intros p Hin. by destruct (Hp p Hin) as (_ & ? & ?).
  - exists q. split; [done|]. intros p Hin. by destruct (Hp p Hin).
Qed.
End Exits.

(** * Proofs *)

Section Membership.
Context `{Crypto}.

(** The loop of the contract is the loop of core/merkle.go, on the concatenation. *)
Lemma membership_verify path leaf index : Forall (fun e => length e = 32%nat) path -> 0 <= index ->
  arr (checkMembership_loop (length path) leaf index (concat path)) = (fold_left verify_step path (arr leaf, index)).1.
Proof.
  intros Hp. revert leaf index. induction Hp as [|e path He Hp IH]; intros leaf index Hi; [done|].
  cbn [length checkMembership_loop concat fold_left]. rewrite take_app_length', drop_app_length' by done. rewrite IH by dlia.
  f_equal. f_equal. destruct (Z.eqb_spec (index mod 2) 0) as [E|E].
  - by rewrite verify_step_even by done.
  - by rewrite verify_step_odd by dlia.
Qed.

Lemma length_concat_32 (path : list bytes) : Forall (fun e => length e = 32%nat) path -> length (concat path) = (32 * length path)%nat.
Proof. induction 1 as [|e path He Hp IH]; [done|]. cbn [concat length]. rewrite length_app, He, IH. lia. Qed.

Lemma checkMembership_Verify leaf index rootHash path : Forall (fun e => length e = 32%nat) path -> 0 <= index ->
  checkMembership leaf index rootHash (concat path) =
  if decide (length path = 16%nat) then Some (Verify (arr leaf) (arr rootHash) index path) else None.
Proof.
  intros Hp Hi. unfold checkMembership. rewrite length_concat_32 by done. case_decide as Hl.
  - pose proof (membership_verify path leaf index Hp Hi) as Hv. rewrite Hl in Hv. rewrite (proj2 (Nat.eqb_eq _ _)) by lia.
    f_equal. unfold Verify. rewrite <- Hv. apply bool_decide_ext. split; [by intros ->|apply farray_eq].
  - destruct (Nat.eqb_spec (32 * length path) 512); [lia|done].
Qed.

(** Bytes in pieces of 32: any 512 are a path of 16. *)
Lemma path_of_proof n (proof : bytes) : length proof = (32 * n)%nat ->
  exists path, Forall (fun e => length e = 32%nat) path /\ length path = n /\ concat path = proof.
Proof.
  revert proof. induction n as [|n IH]; intros proof Hl.
  - exists []. split_and!; [constructor|done|]. by rewrite (nil_length_inv proof) by lia.
  - destruct (IH (drop 32 proof)) as (path & Hp & Hn & Hc); [rewrite length_drop; lia|].
    exists (take 32 proof :: path). split_and!; [constructor; [rewrite length_take; lia|done]|cbn [length]; lia|].
    cbn [concat]. by rewrite Hc, take_drop.
Qed.

(** How deep the leaves of a tree of [n] of them lie: at most [k] hashes when [n] is
    at most [2^k], at least [k] when it is at least that. *)
Lemma builds_path_length hs t : builds hs t -> forall i, (i < length hs)%nat ->
  (forall k, (2 ^ k <= length hs)%nat -> (k <= length (tree_path t i))%nat) /\
  (forall k, (length hs <= 2 ^ k)%nat -> (length (tree_path t i) <= k)%nat).
Proof.
  induction 1 as [x|hs l r Hlen Hl IHl Hr IHr]; intros i Hi.
  { cbn [tree_path length]. split; intros k Hk; [|lia]. destruct k as [|k]; [lia|].
    cbn [length] in Hk. rewrite Nat.pow_succ_r' in Hk. pose proof (Nat.pow_nonzero 2 k). lia. }
  pose proof (builds_leaves _ _ Hl) as El. cbn [tree_path]. rewrite El, length_take.
  pose proof (Nat.div_mod (length hs) 2 ltac:(lia)) as Hdm. pose proof (Nat.mod_upper_bound (length hs) 2 ltac:(lia)) as Hm.
  set (half := (length hs / 2)%nat) in *.
  assert (Hstep : forall path x, (forall k, (2 ^ k <= half)%nat -> (k <= length path)%nat) ->
    (forall k, (length hs - half <= 2 ^ k)%nat -> (length path <= k)%nat) ->
    (forall k, (2 ^ k <= length hs)%nat -> (k <= length (path ++ [x : bytes]))%nat) /\
    (forall k, (length hs <= 2 ^ k)%nat -> (length (path ++ [x]) <= k)%nat)).
  { intros path x Hlo Hhi. rewrite length_app. cbn [length].
    split; intros [|k] Hk; rewrite ?Nat.pow_0_r, ?Nat.pow_succ_r' in Hk; try lia.
    - specialize (Hlo k). lia.
    - specialize (Hhi k). lia. }
  destruct (Nat.ltb_spec i (half `min` length hs)) as [Hlt|Hge].
  - destruct (IHl i) as [Hlo Hhi]; [rewrite length_take; lia|]. rewrite length_take in Hlo, Hhi.
    apply Hstep; intros k Hk; [apply Hlo|apply Hhi]; lia.
  - destruct (IHr (i - half `min` length hs)%nat) as [Hlo Hhi]; [rewrite length_drop; lia|]. rewrite length_drop in Hlo, Hhi.
    apply Hstep; intros k Hk; [apply Hlo|apply Hhi]; lia.
Qed.

Lemma tree_path_32 t i : Forall (fun x => length x = 32%nat) (tree_leaves t) -> Forall (fun x => length x = 32%nat) (tree_path t i).
Proof.
  revert i. induction t as [x|l IHl r IHr]; intros i Hl; [constructor|]. cbn [tree_leaves] in Hl. apply Forall_app in Hl as [Hl Hr].
  cbn [tree_path]. destruct (_ <? _)%nat; apply Forall_app; (split; [auto|]); apply Forall_singleton; by apply tree_hash_length.
Qed.

(** C25. The contract and core/merkle.go. On hashes of 32 bytes [checkMembership] is
    [Verify] when there are 16 of them, and reverts when there are not. The proof
    [Proof] makes of a leaf, in a tree of any number of leaves of 32 bytes, has at
    least k hashes when there are 2^k leaves or more (after padding) and at most k
    when there are 2^k or fewer; the contract reverts on it unless it has 16 hashes,
    and then answers what [Verify] does. So it reverts on every proof of a tree of at
    most 2^15 leaves, and of one of 2^17 or more; when the leaves are a power of two
    it accepts if there are 2^16 of them and reverts otherwise. *)
Theorem contract_takes_proofs hashs i leaf : hashs <> [] ->
  Forall (fun h => length h = 32%nat) (padded hashs) -> padded hashs !! i = Some (arr leaf) ->
  (forall rootHash path, Forall (fun e => length e = 32%nat) path ->
    checkMembership leaf (Z.of_nat i) rootHash (concat path) =
    if decide (length path = 16%nat) then Some (Verify (arr leaf) (arr rootHash) (Z.of_nat i) path) else None) /\
  exists h mt r rn rootHash proof, NewMerkleTree hashs = Ret (h, Some mt) /\ root mt = Some r /\ h !! r = Some rn /\
    t_hash rn = arr (rootHash : Hash) /\ Proof_ h mt (Z.of_nat i) = Ret proof /\
    (forall k, (2 ^ k <= length (padded hashs))%nat -> (k <= length proof)%nat) /\
    (forall k, (length (padded hashs) <= 2 ^ k)%nat -> (length proof <= k)%nat) /\
    checkMembership leaf (Z.of_nat i) rootHash (concat proof) =
      (if decide (length proof = 16%nat) then Some (Verify (arr leaf) (arr rootHash) (Z.of_nat i) proof) else None) /\
    (forall k, length (padded hashs) = (2 ^ k)%nat ->
       checkMembership leaf (Z.of_nat i) rootHash (concat proof) = if decide (k = 16%nat) then Some true else None).
Proof.
  intros Hne H32 Hx. split; [intros; apply checkMembership_Verify; (done || lia)|]. destruct (NewMerkleTree_spec hashs Hne)
    as (t & h & mt & r & Hl & Hb & E & Hr & (rn & Hrn & Hh) & Hlen & Hproof).
  rewrite <- Hl in H32. pose proof (tree_hash_length t H32) as Hrl. pose proof (lookup_lt_Some _ _ _ Hx) as Hi.
  destruct (builds_path_length _ _ Hb i Hi) as [Hlo Hhi].
  exists h, mt, r, rn, (FArray (tree_hash t) (proj2 (Nat.eqb_eq _ _) Hrl)), (tree_path t i).
  rewrite checkMembership_Verify by (lia || by apply tree_path_32).
  split_and!; try done; [by apply Hproof|]. intros k Hk.
  assert (Hpl : length (tree_path t i) = k) by (apply Nat.le_antisymm; [apply Hhi|apply Hlo]; lia).
  rewrite Hpl. case_decide; [|done]. f_equal. unfold Verify. apply bool_decide_eq_true. cbn [arr].
  rewrite (verify_path k t (builds_perfect k _ _ Hk Hb) i (Z.of_nat i) (arr leaf)); [done|lia| |by rewrite Hl].
  rewrite Z.mod_small; [done|]. rewrite <- pow2_Z. lia.
Qed.
End Membership.

(** * Which exits start, and which challenges hit *)

Section Claims.
Context `{Crypto} `{Evm} (this : Address).

(** The outputs 0, 1, ... of one deposit block, one exit after the other. *)
Fixpoint exit_each (c : RootChainState) (m : Msg) (n a : Z) (K : nat) : option RootChainState :=
  match K with
  | O => Some c
  | S K =>
      c ← exit_each c m n a K;
      '(c, _) ← startDepositExit this c m (n * 1000000000 + Z.of_nat K) zeroAddress a;
      Some c
  end.

Lemma startDepositExit_accepts c q m n k a : exits_inv this c q -> nonpayable m = true -> n mod 1000 <> 0 -> 0 <= n -> 0 <= k < 1000000000 ->
  n * 1000000000 + k < 2 ^ 128 -> (getChildChain (rc_chain c) n).1 = keccak256 (arr (msg_sender m) ++ arr zeroAddress ++ be_put 32 a) ->
  0 < a -> ex_amount (exit_at c (n * 1000000000 + k)) = 0 ->
  exists c' ev, startDepositExit this c m (n * 1000000000 + k) zeroAddress a = Some (c', ev).
Proof.
  intros Hi Hm Hn Hn0 Hk Hlt Hr Ha He. unfold startDepositExit. rewrite Hm.
  replace ((n * 1000000000 + k) / 1000000000) with n by dlia.
  unfold CHILD_BLOCK_INTERVAL. rewrite (proj2 (Z.eqb_neq _ _)) by done. cbn [negb].
  destruct (getChildChain (rc_chain c) n) as [root ts]. cbn [fst] in Hr. rewrite decide_True by done.
  pose proof (addExitToQueue_spec this c q m (n * 1000000000 + k) (msg_sender m) zeroAddress a ts Hi ltac:(lia)) as Hs. cbn zeta in Hs.
  rewrite decide_True in Hs by done. destruct Hs as (q' & -> & _). by do 2 eexists.
Qed.

Lemma startDepositExit_inv c q m pos token a c' ev : exits_inv this c q -> 0 <= pos < 2 ^ 128 ->
  startDepositExit this c m pos token a = Some (c', ev) ->
  exists q', exits_inv this c' q' /\ rc_chain c' = rc_chain c /\ rc_balance c' = rc_balance c /\
    (queued q').*2 ≡ₚ pos :: (queued q).*2 /\ exit_at c' pos = mkExit (msg_sender m) token a /\
    forall pos', pos' <> pos -> exit_at c' pos' = exit_at c pos'.
Proof.
  intros Hi Hp E. unfold startDepositExit in E. destruct (nonpayable m); [|done]. destruct (negb _); [|done].
  destruct (getChildChain _ _) as [root ts]. case_decide; [|done].
  destruct (addExitToQueue_inv this c q _ _ _ _ _ _ _ _ Hi Hp E) as (q' & ? & ? & ? & ? & _ & ? & ?). by exists q'.
Qed.

(** The exits of one deposit block, one after the other, and what they leave in the
    queue. *)
Lemma exit_each_spec c q m n a K : exits_inv this c q -> nonpayable m = true -> n mod 1000 <> 0 -> 0 <= n ->
  (getChildChain (rc_chain c) n).1 = keccak256 (arr (msg_sender m) ++ arr zeroAddress ++ be_put 32 a) -> 0 < a ->
  Z.of_nat K <= 1000000000 -> n * 1000000000 + 1000000000 <= 2 ^ 128 ->
  (forall k, 0 <= k < Z.of_nat K -> ex_amount (exit_at c (n * 1000000000 + k)) = 0) ->
  exists c' q', exit_each c m n a K = Some c' /\ exits_inv this c' q' /\ rc_chain c' = rc_chain c /\ rc_balance c' = rc_balance c /\
    (queued q').*2 ≡ₚ ((fun k => n * 1000000000 + Z.of_nat k) <$> seq 0 K) ++ (queued q).*2 /\
    (forall k, 0 <= k < Z.of_nat K -> exit_at c' (n * 1000000000 + k) = mkExit (msg_sender m) zeroAddress a) /\
    forall pos, n * 1000000000 + Z.of_nat K <= pos -> exit_at c' pos = exit_at c pos.
Proof.
  intros Hi Hm Hn Hn0 Hr Ha HK Hlt He.
  induction K as [|K IH]; [exists c, q; split_and!; [done|done|done|done|done|intros k Hk; cbn in Hk; lia|done]|].
  destruct IH as (c1 & q1 & E1 & Hi1 & Hc1 & Hb1 & Hq1 & Hx1 & Ho1); [lia|intros; apply He; lia|].
  assert (Hz : ex_amount (exit_at c1 (n * 1000000000 + Z.of_nat K)) = 0) by (rewrite Ho1 by lia; apply He; lia).
  destruct (startDepositExit_accepts c1 q1 m n (Z.of_nat K) a Hi1 Hm Hn Hn0) as (c2 & ev & E2); [lia|lia|by rewrite Hc1|done|done|].
  destruct (startDepositExit_inv c1 q1 m (n * 1000000000 + Z.of_nat K) _ _ c2 ev Hi1 ltac:(lia) E2) as (q2 & Hi2 & Hc2 & Hb2 & Hq2 & Hx2 & Ho2).
  exists c2, q2. cbn [exit_each]. rewrite E1. cbn [mbind option_bind]. rewrite E2. cbn [mbind option_bind].
  split_and!; [done|done|congruence|congruence| | |].
  - rewrite Hq2, Hq1, seq_S, fmap_app. cbn [fmap list_fmap Nat.add]. solve_Permutation.
  - intros k Hk. destruct (decide (k = Z.of_nat K)) as [->|Hne]; [done|]. rewrite Ho2 by lia. apply Hx1. lia.
  - intros pos Hpos. rewrite Ho2, Ho1 by lia. done.
Qed.

(** Exits of the same owner and amount. *)
Lemma payable_same takes c l owner a : (forall x, x ∈ l -> exit_at c x.2 = mkExit owner zeroAddress a) ->
  amounts c l = Z.of_nat (length l) * a /\ (takes owner a = true -> takers takes c l) /\
  forall p, p ∈ payments c l -> pay_to p = owner /\ pay_amount p = a.
Proof.
  intros Hl. split_and!.
  - induction l as [|x l IH]; [done|]. unfold amounts in *. cbn [foldr length]. rewrite IH by (intros; apply Hl; by apply list_elem_of_further).
    rewrite (Hl x) by apply list_elem_of_here. cbn [ex_amount]. lia.
  - intros Ht. apply Forall_forall. intros x Hx. by rewrite (Hl x Hx).
  - intros p (x & -> & Hx)%list_elem_of_fmap. by rewrite (Hl x Hx).
Qed.

(** C38. One deposit takes out what others put in. The check of [startDepositExit]
    divides the position by 10^9 and does not look at what is left: whoever made a
    deposit of [a] can start exits of the whole amount for [K] positions of its block
    that have none yet. In a contract with nothing else queued that holds [K * a],
    [finalizeExits] pays all of them once their times have come: [K] payments of [a]
    to the depositor of [a]. *)
Theorem deposit_exits_repeat c q m n a K : exits_inv this c q -> nonpayable m = true -> n mod 1000 <> 0 -> 0 <= n ->
  (getChildChain (rc_chain c) n).1 = keccak256 (arr (msg_sender m) ++ arr zeroAddress ++ be_put 32 a) -> 0 < a ->
  0 < Z.of_nat K <= 1000000000 -> n * 1000000000 + 1000000000 <= 2 ^ 128 ->
  (forall k, 0 <= k < Z.of_nat K -> ex_amount (exit_at c (n * 1000000000 + k)) = 0) ->
  queued q = [] -> Z.of_nat K * a <= rc_balance c ->
  exists c' q', exit_each c m n a K = Some c' /\ exits_inv this c' q' /\ length (queued q') = K /\
    forall takes m', takes (msg_sender m) a = true -> nonpayable m' = true ->
      (forall x, x ∈ queued q' -> x.1 < block_timestamp m') ->
      exists c2 ps, finalizeExits this takes K c' m' zeroAddress = Some (c2, ps) /\ length ps = K /\
        (forall p, p ∈ ps -> pay_to p = msg_sender m /\ pay_amount p = a) /\
        rc_balance c2 = rc_balance c - Z.of_nat K * a.
Proof.
  intros Hi Hm Hn Hn0 Hr Ha HK Hlt He Hq0 Hbal.
  destruct (exit_each_spec c q m n a K Hi Hm Hn Hn0 Hr Ha ltac:(lia) Hlt He) as (c' & q' & E & Hi' & _ & Hb & Hq & Hx & _).
  rewrite Hq0, app_nil_r in Hq. exists c', q'.
  assert (Hlen : length (queued q') = K).
  { rewrite <- (length_fmap snd), Hq, length_fmap, length_seq. done. }
  split_and!; [done|done|done|]. intros takes m' Ht Hm' Hdue.
  assert (Hall : due (block_timestamp m') (queued q') = queued q') by (by apply filter_all).
  assert (Hex : forall x, x ∈ queued q' -> exit_at c' x.2 = mkExit (msg_sender m) zeroAddress a).
  { intros x Hin. assert (Hin2 : x.2 ∈ (queued q').*2) by (apply list_elem_of_fmap; by exists x).
    rewrite Hq in Hin2. apply list_elem_of_fmap in Hin2 as (k & -> & Hk%elem_of_seq). apply Hx. lia. }
  destruct (payable_same takes c' (queued q') _ _ Hex) as (Hsum & Htk & Hps).
  pose proof (finalizeExits_spec this takes K c' q' m' Hi' Hm' ltac:(lia)) as Hs. cbn zeta in Hs. rewrite Hall in Hs.
  rewrite decide_True in Hs.
  - destruct Hs as (c2 & q2 & Ef & _ & Hpo & _). exists c2, (payments c' (queued q')).
    split_and!; [done|unfold payments; by rewrite length_fmap|done|rewrite (po_balance _ _ _ Hpo), Hsum, Hlen, Hb; lia].
  - split; [intros Hnil; rewrite Hnil in Hlen; cbn in Hlen; lia|]. split; [auto|]. rewrite Hsum, Hlen, Hb. lia.
Qed.

(** C24. What a started exit shows. An exit that [startExit] accepts for an encoded
    transaction is of its first or second output, which belongs to the caller; the
    exit records that output's owner, token and positive amount; no exit was at the
    position; and the transaction with its signatures is in the tree under the root
    the contract holds for the block, by a path of 16 hashes [Verify] accepts. *)
Theorem exit_started_sound fuel c q m pos t enc mem p proof sigs c' ev :
  exits_inv this c q -> 0 <= pos < 2 ^ 128 -> sol_tx_ok t -> encodeFields (tx_fields t) = Some enc -> array_at mem p enc -> (11 < fuel)%nat ->
  startExit this fuel c m pos (mkMemBytes mem p enc) proof sigs = Some (c', ev) ->
  let out := st_out t (pos mod 10000) in
  (pos mod 10000 = 0 \/ pos mod 10000 = 1) /\ msg_sender m = out.1 /\ 0 < out.2 /\
  getExit c' pos = (out.1, st_token t, out.2) /\ (getExit c pos).2 = 0 /\
  exists path, concat path = proof /\ length path = 16%nat /\
    Verify (arr (keccak256 (arr (keccak256 enc) ++ take 130 sigs))) (arr (getChildChain (rc_chain c) (pos / 1000000000)).1)
      (pos mod 1000000000 / 10000) path = true.
Proof.
  intros Hi Hpos Hok Henc Harr Hf E. unfold startExit in E. destruct (nonpayable m); [|done]. cbn [mb_mem mb_ptr mb_content] in E.
  replace (pos - pos / 1000000000 * 1000000000 - pos mod 1000000000 / 10000 * 10000) with (pos mod 10000) in E by dlia.
  apply bind_Some in E as (et & Eet & E).
  assert (Hoi : pos mod 10000 = 0 \/ pos mod 10000 = 1).
  { destruct (Z.lt_ge_cases (pos mod 10000) 2); [pose proof (Z.mod_pos_bound pos 10000); lia|].
    rewrite (createExitingTx_range fuel mem p t enc) in Eet by (done || (pose proof (Z.mod_pos_bound pos 10000); lia)). done. }
  rewrite (createExitingTx_spec fuel mem p t enc) in Eet by (done || lia). injection Eet as <-.
  cbn [et_exitor et_token et_amount et_inputCount] in E. case_decide as Hs; [|done].
  destruct (getChildChain (rc_chain c) (pos / 1000000000)) as [root ts]. apply bind_Some in E as (s130 & Es & E).
  apply bind_Some in E as (b1 & _ & E). destruct b1; [|done]. apply bind_Some in E as (b2 & Em & E). destruct b2; [|done].
  destruct (addExitToQueue_inv this c q _ _ _ _ _ _ _ _ Hi Hpos E) as (q' & Hi' & _ & _ & Hq & H0' & Hx & _).
  assert (Ha : 0 < (st_out t (pos mod 10000)).2).
  { destruct (xi_queued _ c' q' Hi' pos) as [_ Ha]; [rewrite Hq; apply list_elem_of_here|]. by rewrite Hx in Ha. }
  split_and!; try done; [unfold getExit; by rewrite Hx|].
  unfold slice in Es. destruct (_ <=? _); [|done]. injection Es as <-. cbn [fst].
  assert (Hl : length proof = 512%nat) by (unfold checkMembership in Em; by destruct (Nat.eqb_spec (length proof) 512)).
  destruct (path_of_proof 16 proof Hl) as (path & Hp & Hpl & Hc). exists path. split_and!; [done|done|].
  rewrite <- Hc, checkMembership_Verify in Em by (done || dlia). rewrite decide_True in Em by done.
  by apply (inj Some) in Em.
Qed.

(** C39. Challenges miss. Let a transaction spend the output at a position, as its
    first or second input, of a block that is not block 0. A challenge with it, if the
    contract accepts it, leaves the exit of that output as it was: [getUtxoPos]
    adds the block number, the index and the output instead of composing the
    position, so another exit loses its owner. *)
Theorem challenge_misses fuel c m cpos i t enc mem p proof sigs conf c' :
  sol_tx_ok t -> encodeFields (tx_fields t) = Some enc -> array_at mem p enc -> (11 < fuel)%nat -> 0 <= i <= 1 ->
  challengeExit fuel c m cpos i (mkMemBytes mem p enc) proof sigs conf = Some c' ->
  let '(blknum, txindex, oindex) := st_in t i in
  let pos := blknum * 1000000000 + txindex * 10000 + oindex in
  1 <= blknum -> pos < 2 ^ 256 ->
  getExit c' pos = getExit c pos /\ (getExit c' (blknum + txindex + oindex)).1.1 = zeroAddress.
Proof.
  intros Hok Henc Harr Hf Hi E. unfold challengeExit in E. destruct (nonpayable m); [|done]. cbn [mb_mem mb_ptr mb_content] in E.
  rewrite (getUtxoPos_spec fuel mem p t enc) in E by done. cbn [mbind option_bind] in E.
  assert (Hr : 0 <= (st_in t i).1.1 /\ 0 <= (st_in t i).1.2 /\ 0 <= (st_in t i).2).
  { unfold sol_tx_ok, tx_fields in Hok. repeat (apply Forall_cons in Hok as [? Hok]). cbn [field_ok] in *.
    unfold st_in. destruct (i =? 0); lia. }
  destruct (st_in t i) as [[blknum txindex] oindex]. cbn [fst snd] in *. intros Hb Hlt.
  rewrite uint256_small in E by lia. case_decide; [|done]. apply bind_Some in E as (b & _ & E). destruct b; [|done].
  injection E as <-. unfold getExit. rewrite !exit_at_insert. rewrite (decide_True (P := blknum + txindex + oindex = _)) by done.
  by rewrite decide_False by lia.
Qed.

(** Signatures of a shape that is not one are taken to agree. *)
Lemma checkSigs_invalid txHash root : checkSigs txHash root 1 (replicate 260 Byte.xff) = Some true.
Proof. vm_compute. reflexivity. Qed.
End Claims.
