(* ===== verification/Bindings.v ===== *)
(** rootchain/contracts/RootChain.go: the Go bindings of the contract. Package [bind]
    of go-ethereum, [abi.JSON] and the two constants with the ABI and the code of the
    contract are arguments. A channel is the list of what it delivers. *)

From S2P Require Import Prelude Deps Types Contract.
#[local] Open Scope Z_scope.

(** The values that cross the interface. *)
Inductive abi_value : Type :=
| VUint (n : option Z)
| VAddress (a : Address)
| VBytes (b : bytes)
| VBytes32 (h : Hash).

Definition as_uint (outs : list abi_value) (i : nat) : option Z :=
  match outs !! i with Some (VUint n) => n | _ => None end.
Definition as_address (outs : list abi_value) (i : nat) : Address :=
  match outs !! i with Some (VAddress a) => a | _ => zeroAddress end.
Definition as_bytes32 (outs : list abi_value) (i : nat) : Hash :=
  match outs !! i with Some (VBytes32 h) => h | _ => zeroHash end.

(** Package [bind]. [contract_Call] is given what its output points to and returns
    what it points to afterwards. *)
Class Bind : Type := {
  BoundContract : Type;
  ABI : Type;
  ContractCaller : Type;
  ContractTransactor : Type;
  ContractFilterer : Type;
  CallOpts : Type;
  TransactOpts : Type;
  FilterOpts : Type;
  WatchOpts : Type;
  eth_Transaction : Type;
  Log : Type;
  zeroLog : Log;
  Subscription : Type;
  abi_JSON : string -> ABI + error;
  FromHex : string -> bytes;
  NewBoundContract : Address -> ABI -> option ContractCaller -> option ContractTransactor -> option ContractFilterer ->
    BoundContract;
  DeployContract : TransactOpts -> ABI -> bytes -> ContractCaller * ContractTransactor * ContractFilterer ->
    Address * eth_Transaction * BoundContract + error;
  contract_Call : BoundContract -> CallOpts -> list abi_value -> string -> list abi_value -> list abi_value * option error;
  contract_Transact : BoundContract -> TransactOpts -> string -> list abi_value -> option eth_Transaction * option error;
  contract_Transfer : BoundContract -> TransactOpts -> option eth_Transaction * option error;
  contract_FilterLogs : BoundContract -> FilterOpts -> string -> list (list abi_value) -> list Log * Subscription + error;
  contract_WatchLogs : BoundContract -> WatchOpts -> string -> list (list abi_value) -> list Log * Subscription + error;
  (** what a receive from [Err()] gets; nothing, as long as the subscription runs *)
  sub_Err : Subscription -> option (option error);
  sub_Unsubscribe : Subscription -> Subscription
}.

(** [UnpackLog] into a value of the type, also where it fails. *)
Class UnpackLog (E : Type) `{Bind} : Type := unpackLog : BoundContract -> E -> string -> Log -> E * option error.

Section Bindings.
Context `{Bind} (RootChainABI RootChainBin : string).

(** * The bound contract *)

Record RootChainCaller : Type := mkCaller { caller_contract : BoundContract }.
Record RootChainTransactor : Type := mkTransactor { transactor_contract : BoundContract }.
Record RootChainFilterer : Type := mkFilterer { filterer_contract : BoundContract }.
Record RootChainBinding : Type := mkBinding {
  rc_Caller : RootChainCaller;
  rc_Transactor : RootChainTransactor;
  rc_Filterer : RootChainFilterer
}.
Record RootChainSession : Type := mkSession {
  s_Contract : RootChainBinding;
  s_CallOpts : CallOpts;
  s_TransactOpts : TransactOpts
}.
Record RootChainCallerSession : Type := mkCallerSession { cs_Contract : RootChainCaller; cs_CallOpts : CallOpts }.
Record RootChainTransactorSession : Type := mkTransactorSession {
  ts_Contract : RootChainTransactor;
  ts_TransactOpts : TransactOpts
}.
Record RootChainRaw : Type := mkRaw { raw_Contract : RootChainBinding }.
Record RootChainCallerRaw : Type := mkCallerRaw { craw_Contract : RootChainCaller }.
Record RootChainTransactorRaw : Type := mkTransactorRaw { traw_Contract : RootChainTransactor }.

Definition bound (contract : BoundContract) : RootChainBinding :=
  mkBinding (mkCaller contract) (mkTransactor contract) (mkFilterer contract).

Definition bindRootChain (address : Address) (caller : option ContractCaller) (transactor : option ContractTransactor)
    (filterer : option ContractFilterer) : BoundContract + error :=
  match abi_JSON RootChainABI with
  | inr err => inr err
  | inl parsed => inl (NewBoundContract address parsed caller transactor filterer)
  end.

Definition DeployRootChain (auth : TransactOpts) (backend : ContractCaller * ContractTransactor * ContractFilterer)
  : Address * option eth_Transaction * option RootChainBinding * option error :=
  match abi_JSON RootChainABI with
  | inr err => (zeroAddress, None, None, Some err)
  | inl parsed =>
      match DeployContract auth parsed (FromHex RootChainBin) backend with
      | inr err => (zeroAddress, None, None, Some err)
      | inl (address, tx, contract) => (address, Some tx, Some (bound contract), None)
      end
  end.

Definition NewRootChainBinding (address : Address) (backend : ContractCaller * ContractTransactor * ContractFilterer)
  : RootChainBinding + error :=
  match bindRootChain address (Some backend.1.1) (Some backend.1.2) (Some backend.2) with
  | inr err => inr err
  | inl contract => inl (bound contract)
  end.

Definition NewRootChainCaller (address : Address) (caller : ContractCaller) : RootChainCaller + error :=
  match bindRootChain address (Some caller) None None with
  | inr err => inr err
  | inl contract => inl (mkCaller contract)
  end.

Definition NewRootChainTransactor (address : Address) (transactor : ContractTransactor) : RootChainTransactor + error :=
  match bindRootChain address None (Some transactor) None with
  | inr err => inr err
  | inl contract => inl (mkTransactor contract)
  end.

Definition NewRootChainFilterer (address : Address) (filterer : ContractFilterer) : RootChainFilterer + error :=
  match bindRootChain address None None (Some filterer) with
  | inr err => inr err
  | inl contract => inl (mkFilterer contract)
  end.

Definition Raw_Call (r : RootChainRaw) (opts : CallOpts) (result : list abi_value) (method : string)
    (params : list abi_value) : list abi_value * option error :=
  contract_Call (caller_contract (rc_Caller (raw_Contract r))) opts result method params.
Definition Raw_Transfer (r : RootChainRaw) (opts : TransactOpts) : option eth_Transaction * option error :=
  contract_Transfer (transactor_contract (rc_Transactor (raw_Contract r))) opts.
Definition Raw_Transact (r : RootChainRaw) (opts : TransactOpts) (method : string) (params : list abi_value)
  : option eth_Transaction * option error :=
  contract_Transact (transactor_contract (rc_Transactor (raw_Contract r))) opts method params.
Definition CallerRaw_Call (r : RootChainCallerRaw) (opts : CallOpts) (result : list abi_value) (method : string)
    (params : list abi_value) : list abi_value * option error :=
  contract_Call (caller_contract (craw_Contract r)) opts result method params.
Definition TransactorRaw_Transfer (r : RootChainTransactorRaw) (opts : TransactOpts)
  : option eth_Transaction * option error := contract_Transfer (transactor_contract (traw_Contract r)) opts.
Definition TransactorRaw_Transact (r : RootChainTransactorRaw) (opts : TransactOpts) (method : string)
    (params : list abi_value) : option eth_Transaction * option error :=
  contract_Transact (transactor_contract (traw_Contract r)) opts method params.

(** * Calls *)

Definition Caller_CHILDBLOCKINTERVAL (r : RootChainCaller) (opts : CallOpts) : (option Z) * option error :=
  let (outs, err) := contract_Call (caller_contract r) opts [VUint None] "CHILD_BLOCK_INTERVAL" [] in
  (as_uint outs 0, err).
Definition Session_CHILDBLOCKINTERVAL (s : RootChainSession) : (option Z) * option error :=
  Caller_CHILDBLOCKINTERVAL (rc_Caller (s_Contract s)) (s_CallOpts s).
Definition CallerSession_CHILDBLOCKINTERVAL (s : RootChainCallerSession) : (option Z) * option error :=
  Caller_CHILDBLOCKINTERVAL (cs_Contract s) (cs_CallOpts s).

Definition Caller_ChildChain (r : RootChainCaller) (opts : CallOpts) (arg0 : option Z) : (Hash * option Z) * option error :=
  let (outs, err) := contract_Call (caller_contract r) opts [VBytes32 zeroHash; VUint None] "childChain" [VUint arg0] in
  ((as_bytes32 outs 0, as_uint outs 1), err).
Definition Session_ChildChain (s : RootChainSession) (arg0 : option Z) : (Hash * option Z) * option error :=
  Caller_ChildChain (rc_Caller (s_Contract s)) (s_CallOpts s) arg0.
Definition CallerSession_ChildChain (s : RootChainCallerSession) (arg0 : option Z) : (Hash * option Z) * option error :=
  Caller_ChildChain (cs_Contract s) (cs_CallOpts s) arg0.

Definition Caller_CurrentChildBlock (r : RootChainCaller) (opts : CallOpts) : (option Z) * option error :=
  let (outs, err) := contract_Call (caller_contract r) opts [VUint None] "currentChildBlock" [] in
  (as_uint outs 0, err).
Definition Session_CurrentChildBlock (s : RootChainSession) : (option Z) * option error :=
  Caller_CurrentChildBlock (rc_Caller (s_Contract s)) (s_CallOpts s).
Definition CallerSession_CurrentChildBlock (s : RootChainCallerSession) : (option Z) * option error :=
  Caller_CurrentChildBlock (cs_Contract s) (cs_CallOpts s).

Definition Caller_CurrentDepositBlock (r : RootChainCaller) (opts : CallOpts) : (option Z) * option error :=
  let (outs, err) := contract_Call (caller_contract r) opts [VUint None] "currentDepositBlock" [] in
  (as_uint outs 0, err).
Definition Session_CurrentDepositBlock (s : RootChainSession) : (option Z) * option error :=
  Caller_CurrentDepositBlock (rc_Caller (s_Contract s)) (s_CallOpts s).
Definition CallerSession_CurrentDepositBlock (s : RootChainCallerSession) : (option Z) * option error :=
  Caller_CurrentDepositBlock (cs_Contract s) (cs_CallOpts s).

Definition Caller_CurrentFeeExit (r : RootChainCaller) (opts : CallOpts) : (option Z) * option error :=
  let (outs, err) := contract_Call (caller_contract r) opts [VUint None] "currentFeeExit" [] in
  (as_uint outs 0, err).
Definition Session_CurrentFeeExit (s : RootChainSession) : (option Z) * option error :=
  Caller_CurrentFeeExit (rc_Caller (s_Contract s)) (s_CallOpts s).
Definition CallerSession_CurrentFeeExit (s : RootChainCallerSession) : (option Z) * option error :=
  Caller_CurrentFeeExit (cs_Contract s) (cs_CallOpts s).

Definition Caller_Exits (r : RootChainCaller) (opts : CallOpts) (arg0 : option Z) : (Address * Address * option Z) * option error :=
  let (outs, err) := contract_Call (caller_contract r) opts [VAddress zeroAddress; VAddress zeroAddress; VUint None] "exits" [VUint arg0] in
  ((as_address outs 0, as_address outs 1, as_uint outs 2), err).
Definition Session_Exits (s : RootChainSession) (arg0 : option Z) : (Address * Address * option Z) * option error :=
  Caller_Exits (rc_Caller (s_Contract s)) (s_CallOpts s) arg0.
Definition CallerSession_Exits (s : RootChainCallerSession) (arg0 : option Z) : (Address * Address * option Z) * option error :=
  Caller_Exits (cs_Contract s) (cs_CallOpts s) arg0.

Definition Caller_ExitsQueues (r : RootChainCaller) (opts : CallOpts) (arg0 : Address) : Address * option error :=
  let (outs, err) := contract_Call (caller_contract r) opts [VAddress zeroAddress] "exitsQueues" [VAddress arg0] in
  (as_address outs 0, err).
Definition Session_ExitsQueues (s : RootChainSession) (arg0 : Address) : Address * option error :=
  Caller_ExitsQueues (rc_Caller (s_Contract s)) (s_CallOpts s) arg0.
Definition CallerSession_ExitsQueues (s : RootChainCallerSession) (arg0 : Address) : Address * option error :=
  Caller_ExitsQueues (cs_Contract s) (cs_CallOpts s) arg0.

Definition Caller_GetChildChain (r : RootChainCaller) (opts : CallOpts) (blockNumber : option Z) : (Hash * option Z) * option error :=
  let (outs, err) := contract_Call (caller_contract r) opts [VBytes32 zeroHash; VUint None] "getChildChain" [VUint blockNumber] in
  ((as_bytes32 outs 0, as_uint outs 1), err).
Definition Session_GetChildChain (s : RootChainSession) (blockNumber : option Z) : (Hash * option Z) * option error :=
  Caller_GetChildChain (rc_Caller (s_Contract s)) (s_CallOpts s) blockNumber.
Definition CallerSession_GetChildChain (s : RootChainCallerSession) (blockNumber : option Z) : (Hash * option Z) * option error :=
  Caller_GetChildChain (cs_Contract s) (cs_CallOpts s) blockNumber.

Definition Caller_GetDepositBlock (r : RootChainCaller) (opts : CallOpts) : (option Z) * option error :=
  let (outs, err) := contract_Call (caller_contract r) opts [VUint None] "getDepositBlock" [] in
  (as_uint outs 0, err).
Definition Session_GetDepositBlock (s : RootChainSession) : (option Z) * option error :=
  Caller_GetDepositBlock (rc_Caller (s_Contract s)) (s_CallOpts s).
Definition CallerSession_GetDepositBlock (s : RootChainCallerSession) : (option Z) * option error :=
  Caller_GetDepositBlock (cs_Contract s) (cs_CallOpts s).

Definition Caller_GetExit (r : RootChainCaller) (opts : CallOpts) (utxoPos : option Z) : (Address * Address * option Z) * option error :=
  let (outs, err) := contract_Call (caller_contract r) opts [VAddress zeroAddress; VAddress zeroAddress; VUint None] "getExit" [VUint utxoPos] in
  ((as_address outs 0, as_address outs 1, as_uint outs 2), err).
Definition Session_GetExit (s : RootChainSession) (utxoPos : option Z) : (Address * Address * option Z) * option error :=
  Caller_GetExit (rc_Caller (s_Contract s)) (s_CallOpts s) utxoPos.
Definition CallerSession_GetExit (s : RootChainCallerSession) (utxoPos : option Z) : (Address * Address * option Z) * option error :=
  Caller_GetExit (cs_Contract s) (cs_CallOpts s) utxoPos.

Definition Caller_GetNextExit (r : RootChainCaller) (opts : CallOpts) (token : Address) : (option Z * option Z) * option error :=
  let (outs, err) := contract_Call (caller_contract r) opts [VUint None; VUint None] "getNextExit" [VAddress token] in
  ((as_uint outs 0, as_uint outs 1), err).
Definition Session_GetNextExit (s : RootChainSession) (token : Address) : (option Z * option Z) * option error :=
  Caller_GetNextExit (rc_Caller (s_Contract s)) (s_CallOpts s) token.
Definition CallerSession_GetNextExit (s : RootChainCallerSession) (token : Address) : (option Z * option Z) * option error :=
  Caller_GetNextExit (cs_Contract s) (cs_CallOpts s) token.

Definition Caller_Operator (r : RootChainCaller) (opts : CallOpts) : Address * option error :=
  let (outs, err) := contract_Call (caller_contract r) opts [VAddress zeroAddress] "operator" [] in
  (as_address outs 0, err).
Definition Session_Operator (s : RootChainSession) : Address * option error :=
  Caller_Operator (rc_Caller (s_Contract s)) (s_CallOpts s).
Definition CallerSession_Operator (s : RootChainCallerSession) : Address * option error :=
  Caller_Operator (cs_Contract s) (cs_CallOpts s).

(** * Transactions *)

Definition Transactor_ChallengeExit (r : RootChainTransactor) (opts : TransactOpts) (cUtxoPos : option Z) (eUtxoIndex : option Z) (txBytes : bytes) (proof : bytes) (sigs : bytes) (confirmationSig : bytes)
  : option eth_Transaction * option error :=
  contract_Transact (transactor_contract r) opts "challengeExit" [VUint cUtxoPos; VUint eUtxoIndex; VBytes txBytes; VBytes proof; VBytes sigs; VBytes confirmationSig].
Definition Session_ChallengeExit (s : RootChainSession) (cUtxoPos : option Z) (eUtxoIndex : option Z) (txBytes : bytes) (proof : bytes) (sigs : bytes) (confirmationSig : bytes)
  : option eth_Transaction * option error :=
  Transactor_ChallengeExit (rc_Transactor (s_Contract s)) (s_TransactOpts s) cUtxoPos eUtxoIndex txBytes proof sigs confirmationSig.
Definition TransactorSession_ChallengeExit (s : RootChainTransactorSession) (cUtxoPos : option Z) (eUtxoIndex : option Z) (txBytes : bytes) (proof : bytes) (sigs : bytes) (confirmationSig : bytes)
  : option eth_Transaction * option error :=
  Transactor_ChallengeExit (ts_Contract s) (ts_TransactOpts s) cUtxoPos eUtxoIndex txBytes proof sigs confirmationSig.

Definition Transactor_Deposit (r : RootChainTransactor) (opts : TransactOpts)
  : option eth_Transaction * option error :=
  contract_Transact (transactor_contract r) opts "deposit" [].
Definition Session_Deposit (s : RootChainSession)
  : option eth_Transaction * option error :=
  Transactor_Deposit (rc_Transactor (s_Contract s)) (s_TransactOpts s).
Definition TransactorSession_Deposit (s : RootChainTransactorSession)
  : option eth_Transaction * option error :=
  Transactor_Deposit (ts_Contract s) (ts_TransactOpts s).

Definition Transactor_FinalizeExits (r : RootChainTransactor) (opts : TransactOpts) (token : Address)
  : option eth_Transaction * option error :=
  contract_Transact (transactor_contract r) opts "finalizeExits" [VAddress token].
Definition Session_FinalizeExits (s : RootChainSession) (token : Address)
  : option eth_Transaction * option error :=
  Transactor_FinalizeExits (rc_Transactor (s_Contract s)) (s_TransactOpts s) token.
Definition TransactorSession_FinalizeExits (s : RootChainTransactorSession) (token : Address)
  : option eth_Transaction * option error :=
  Transactor_FinalizeExits (ts_Contract s) (ts_TransactOpts s) token.

Definition Transactor_StartDepositExit (r : RootChainTransactor) (opts : TransactOpts) (depositPos : option Z) (token : Address) (amount : option Z)
  : option eth_Transaction * option error :=
  contract_Transact (transactor_contract r) opts "startDepositExit" [VUint depositPos; VAddress token; VUint amount].
Definition Session_StartDepositExit (s : RootChainSession) (depositPos : option Z) (token : Address) (amount : option Z)
  : option eth_Transaction * option error :=
  Transactor_StartDepositExit (rc_Transactor (s_Contract s)) (s_TransactOpts s) depositPos token amount.
Definition TransactorSession_StartDepositExit (s : RootChainTransactorSession) (depositPos : option Z) (token : Address) (amount : option Z)
  : option eth_Transaction * option error :=
  Transactor_StartDepositExit (ts_Contract s) (ts_TransactOpts s) depositPos token amount.

Definition Transactor_StartExit (r : RootChainTransactor) (opts : TransactOpts) (utxoPos : option Z) (txBytes : bytes) (proof : bytes) (sigs : bytes)
  : option eth_Transaction * option error :=
  contract_Transact (transactor_contract r) opts "startExit" [VUint utxoPos; VBytes txBytes; VBytes proof; VBytes sigs].
Definition Session_StartExit (s : RootChainSession) (utxoPos : option Z) (txBytes : bytes) (proof : bytes) (sigs : bytes)
  : option eth_Transaction * option error :=
  Transactor_StartExit (rc_Transactor (s_Contract s)) (s_TransactOpts s) utxoPos txBytes proof sigs.
Definition TransactorSession_StartExit (s : RootChainTransactorSession) (utxoPos : option Z) (txBytes : bytes) (proof : bytes) (sigs : bytes)
  : option eth_Transaction * option error :=
  Transactor_StartExit (ts_Contract s) (ts_TransactOpts s) utxoPos txBytes proof sigs.

Definition Transactor_StartFeeExit (r : RootChainTransactor) (opts : TransactOpts) (token : Address) (amount : option Z)
  : option eth_Transaction * option error :=
  contract_Transact (transactor_contract r) opts "startFeeExit" [VAddress token; VUint amount].
Definition Session_StartFeeExit (s : RootChainSession) (token : Address) (amount : option Z)
  : option eth_Transaction * option error :=
  Transactor_StartFeeExit (rc_Transactor (s_Contract s)) (s_TransactOpts s) token amount.
Definition TransactorSession_StartFeeExit (s : RootChainTransactorSession) (token : Address) (amount : option Z)
  : option eth_Transaction * option error :=
  Transactor_StartFeeExit (ts_Contract s) (ts_TransactOpts s) token amount.

Definition Transactor_SubmitBlock (r : RootChainTransactor) (opts : TransactOpts) (root : Hash)
  : option eth_Transaction * option error :=
  contract_Transact (transactor_contract r) opts "submitBlock" [VBytes32 root].
Definition Session_SubmitBlock (s : RootChainSession) (root : Hash)
  : option eth_Transaction * option error :=
  Transactor_SubmitBlock (rc_Transactor (s_Contract s)) (s_TransactOpts s) root.
Definition TransactorSession_SubmitBlock (s : RootChainTransactorSession) (root : Hash)
  : option eth_Transaction * option error :=
  Transactor_SubmitBlock (ts_Contract s) (ts_TransactOpts s) root.

(** * Iterators over past events *)

(** An event's struct: its zero value, and the field with the raw log. *)
Class EventStruct (E : Type) : Type := { new_event : E; set_Raw : E -> Log -> E }.

(** The state of an iterator; [it_logs] are the logs its channel still delivers. *)
Record Iterator (E : Type) : Type := mkIterator {
  it_Event : option E;
  it_contract : BoundContract;
  it_event : string;
  it_logs : list Log;
  it_sub : Subscription;
  it_done : bool;
  it_fail : option error
}.
#[global] Arguments mkIterator {E} _ _ _ _ _ _ _.
#[global] Arguments it_Event {E} _.
#[global] Arguments it_contract {E} _.
#[global] Arguments it_event {E} _.
#[global] Arguments it_logs {E} _.
#[global] Arguments it_sub {E} _.
#[global] Arguments it_done {E} _.
#[global] Arguments it_fail {E} _.

Section Events.
Context {E : Type} `{!EventStruct E} `{!UnpackLog E}.

(** A log taken from the channel. *)
Definition deliver (it : Iterator E) (log : Log) (rest : list Log) : Iterator E * bool :=
  let (ev, err) := unpackLog (it_contract it) new_event (it_event it) log in
  match err with
  | Some e => (mkIterator (Some ev) (it_contract it) (it_event it) rest (it_sub it) (it_done it) (Some e), false)
  | None => (mkIterator (Some (set_Raw ev log)) (it_contract it) (it_event it) rest (it_sub it) (it_done it) (it_fail it), true)
  end.

(** Deliver whatever is there, without waiting. *)
Definition Next_done (it : Iterator E) : Iterator E * bool :=
  match it_logs it with
  | log :: rest => deliver it log rest
  | [] => (it, false)
  end.

(** The subscription ended with [err]; [Next] is called again. *)
Definition Next_ended (it : Iterator E) (err : option error) : Iterator E * bool :=
  let it := mkIterator (it_Event it) (it_contract it) (it_event it) (it_logs it) (it_sub it) true err in
  match it_fail it with
  | Some _ => (it, false)
  | None => Next_done it
  end.

(** [pick]: the case [select] takes when both can go on (the log if true). *)
Definition Next (pick : bool) (it : Iterator E) : go (Iterator E * bool) :=
  match it_fail it with
  | Some _ => Ret (it, false)
  | None =>
      if it_done it then Ret (Next_done it)
      else
        match it_logs it, sub_Err (it_sub it) with
        | log :: rest, None => Ret (deliver it log rest)
        | log :: rest, Some err => Ret (if pick then deliver it log rest else Next_ended it err)
        | [], Some err => Ret (Next_ended it err)
        | [], None => Stop BlockedForever
        end
  end.

Definition Iterator_Error (it : Iterator E) : option error := it_fail it.
Definition Iterator_Close (it : Iterator E) : Iterator E * option error :=
  (mkIterator (it_Event it) (it_contract it) (it_event it) (it_logs it) (sub_Unsubscribe (it_sub it)) (it_done it) (it_fail it), None).

Definition filter_event (f : RootChainFilterer) (opts : FilterOpts) (name : string) (rules : list (list abi_value))
  : Iterator E + error :=
  match contract_FilterLogs (filterer_contract f) opts name rules with
  | inr err => inr err
  | inl (logs, sub) => inl (mkIterator None (filterer_contract f) name logs sub false None)
  end.

(** ** Watching *)

(** A case of one of the two [select]s that was taken. *)
Inductive watch_case : Type := TakeLog | TakeErr | TakeQuit | TakeSink.

(** The goroutine of a subscription: [pending] is a parsed event that waits for the
    sink. The result is what was sent on [sink], and what the goroutine returned if
    it did; a case that cannot be taken (yet) is passed over. *)
Fixpoint watch_loop (contract : BoundContract) (name : string) (sub : Subscription) (cases : list watch_case)
    (pending : option E) (logs : list Log) : list E * option (option error) :=
  match cases with
  | [] => ([], None)
  | case :: cases =>
      match case, pending, logs with
      | TakeQuit, _, _ => ([], Some None)
      | TakeErr, _, _ =>
          match sub_Err sub with
          | Some err => ([], Some err)
          | None => watch_loop contract name sub cases pending logs
          end
      | TakeLog, None, log :: rest =>
          let (ev, err) := unpackLog contract new_event name log in
          match err with
          | Some e => ([], Some (Some e))
          | None => watch_loop contract name sub cases (Some (set_Raw ev log)) rest
          end
      | TakeSink, Some ev, _ =>
          let (sent, res) := watch_loop contract name sub cases None logs in (ev :: sent, res)
      | _, _, _ => watch_loop contract name sub cases pending logs
      end
  end.

Definition watch_event (f : RootChainFilterer) (opts : WatchOpts) (name : string) (rules : list (list abi_value))
    (cases : list watch_case) : (list E * option (option error)) + error :=
  match contract_WatchLogs (filterer_contract f) opts name rules with
  | inr err => inr err
  | inl (logs, sub) => inl (watch_loop (filterer_contract f) name sub cases None logs)
  end.

(** * What an iterator delivers *)

(** The events of the logs up to the first that cannot be parsed, and its error. *)
Fixpoint unpack_all (contract : BoundContract) (name : string) (logs : list Log) : list E * option error :=
  match logs with
  | [] => ([], None)
  | log :: logs =>
      let (ev, err) := unpackLog contract new_event name log in
      match err with
      | Some e => ([], Some e)
      | None => let (evs, err) := unpack_all contract name logs in (set_Raw ev log :: evs, err)
      end
  end.

(** [for it.Next() { use(it.Event) }] *)
Fixpoint iterate (fuel : nat) (pick : nat -> bool) (it : Iterator E) : go (list E * Iterator E) :=
  match fuel with
  | O => Stop OutOfFuel
  | S fuel =>
      let! (it, more) := Next (pick fuel) it in
      if more then
        let! (evs, it') := iterate fuel pick it in
        Ret (match it_Event it with Some ev => ev :: evs | None => evs end, it')
      else Ret ([], it)
  end.

(** The loop over an iterator whose subscription has ended without an error, or will:
    it ends, after the events of all logs or of those before the first bad one. *)
Lemma iterate_all pick logs : forall fuel it, (length logs < fuel)%nat -> it_logs it = logs -> it_fail it = None ->
  (it_done it = true \/ sub_Err (it_sub it) = Some None) ->
  exists it', iterate fuel pick it = Ret ((unpack_all (it_contract it) (it_event it) logs).1, it') /\
    it_fail it' = (unpack_all (it_contract it) (it_event it) logs).2.
Proof.
  induction logs as [|log logs IH]; intros [|fuel] it Hf Hl Hn Hd; try (cbn in Hf; lia); cbn [iterate unpack_all].
  - unfold Next, Next_ended, Next_done. rewrite Hn, Hl.
    destruct (it_done it); [|destruct Hd as [|Hs]; [done|rewrite Hs]]; cbn; rewrite ?Hl; eexists; split; try done.
  - assert (E1 : exists dn, Next (pick fuel) it = Ret (deliver
      (mkIterator (it_Event it) (it_contract it) (it_event it) (it_logs it) (it_sub it) dn None) log logs) /\
      (dn = true \/ sub_Err (it_sub it) = Some None)).
    { unfold Next, Next_ended, Next_done. rewrite Hn, Hl. destruct it as [ev c nm ls sub dn fl]. cbn in *. subst.
      destruct dn; [eexists; split; [done|by left]|]. destruct Hd as [|Hs]; [done|]. rewrite Hs.
      destruct (pick fuel); eexists; (split; [done|auto]). }
    destruct E1 as (dn & -> & Hdn). unfold deliver. cbn [it_contract it_event it_sub it_done it_fail].
    destruct (unpackLog _ _ _ log) as [ev [e|]]; cbn [gbind]; [by eexists|].
    set (it1 := mkIterator _ _ _ _ _ _ _). destruct (IH fuel it1) as (it' & -> & Hf'); [cbn in Hf; lia|done|done|done|].
    cbn [gbind it_Event it1]. change (it_contract it1) with (it_contract it) in *.
    change (it_event it1) with (it_event it) in *. destruct (unpack_all _ _ logs). by eexists.
Qed.

(** Where it ended with an error: a part of these events, then an error. *)
Lemma iterate_failed pick e logs : forall fuel it, (length logs < fuel)%nat -> it_logs it = logs -> it_fail it = None ->
  it_done it = false -> sub_Err (it_sub it) = Some (Some e) ->
  exists evs it', iterate fuel pick it = Ret (evs, it') /\
    evs `prefix_of` (unpack_all (it_contract it) (it_event it) logs).1 /\
    (it_fail it' = Some e \/ it_fail it' = (unpack_all (it_contract it) (it_event it) logs).2 /\ it_fail it' <> None).
Proof.
  induction logs as [|log logs IH]; intros [|fuel] it Hf Hl Hn Hd Hs; try (cbn in Hf; lia); cbn [iterate unpack_all].
  all: unfold Next; rewrite Hn, Hd, Hl, Hs.
  - cbn. eexists _, _. split; [done|]. split; [done|by left].
  - destruct (pick fuel).
    2: { cbn. eexists _, _. split; [done|]. split; [apply prefix_nil|by left]. }
    unfold deliver. destruct (unpackLog _ _ _ log) as [ev [e'|]]; cbn [gbind].
    { eexists _, _. split; [done|]. split; [done|]. right. by split. }
    set (it1 := mkIterator _ _ _ _ _ _ _).
    destruct (IH fuel it1) as (evs & it' & -> & Hpre & Hfail); [cbn in Hf; lia|done|done|done|done|].
    cbn [gbind it_Event it1]. change (it_contract it1) with (it_contract it) in *.
    change (it_event it1) with (it_event it) in *. destruct (unpack_all _ _ logs) as [all err].
    eexists _, _. split; [done|]. cbn in Hpre. split; [by apply prefix_cons|done].
Qed.
(** A watcher sends events in the order of the logs, and none is lost before it ends. *)
Lemma watch_in_order contract name sub cases : forall (pending : option E) logs,
  (watch_loop contract name sub cases pending logs).1 `prefix_of`
    option_list pending ++ (unpack_all contract name logs).1.
Proof.
  induction cases as [|case cases IH]; intros pending logs; cbn [watch_loop]; [apply prefix_nil|].
  destruct case; cbn [fst].
  - destruct pending as [ev|]; [apply IH|]. destruct logs as [|log logs]; [apply IH|]. cbn [unpack_all].
    destruct (unpackLog _ _ _ log) as [ev [e|]]; cbn [fst]; [apply prefix_nil|].
    specialize (IH (Some (set_Raw ev log)) logs). by destruct (unpack_all _ _ logs).
  - destruct (sub_Err sub); [apply prefix_nil|apply IH].
  - apply prefix_nil.
  - destruct pending as [ev|]; [|by destruct logs; apply IH]. specialize (IH None logs).
    destruct (watch_loop _ _ _ cases None logs) as [sent res]. cbn. by apply prefix_cons.
Qed.

(** C35. An iterator over past events delivers them all, in their order, whichever
    ready case [select] takes. When the subscription ends without an error (which is
    after the last log was sent), the loop over the iterator ends, having seen the
    events of all logs, or of those before the first that cannot be parsed; [Error]
    is then that log's error, and nil if there is none. When it ends with an error,
    the loop ends too, after some of these events, and [Error] is not nil. A watcher
    sends its events in the order of the logs. *)
Theorem iterator_delivers (f : RootChainFilterer) opts name rules (it : Iterator E) err pick fuel :
  filter_event f opts name rules = inl it -> sub_Err (it_sub it) = Some err -> (length (it_logs it) < fuel)%nat ->
  let all := unpack_all (filterer_contract f) name (it_logs it) in
  exists evs it', iterate fuel pick it = Ret (evs, it') /\
    match err with
    | None => (evs, Iterator_Error it') = all
    | Some e => evs `prefix_of` all.1 /\ (Iterator_Error it' = Some e \/ Iterator_Error it' = all.2 /\ all.2 <> None)
    end /\
    forall cases, (watch_loop (filterer_contract f) name (it_sub it) cases None (it_logs it)).1 `prefix_of` all.1.
Proof.
  intros Hf Hs Hfuel. cbv zeta. unfold filter_event in Hf.
  destruct (contract_FilterLogs _ opts name rules) as [[logs sub]|]; [|done]. injection Hf as <-.
  set (it := mkIterator _ _ _ _ _ _ _) in *. cbn [it_logs it_sub it] in *. unfold Iterator_Error.
  assert (Hw : forall cases, (watch_loop (filterer_contract f) name sub cases None logs).1 `prefix_of`
    (unpack_all (filterer_contract f) name logs).1) by (intros cases; apply (watch_in_order _ _ _ _ None)).
  destruct err as [e|].
  - destruct (iterate_failed pick e logs fuel it Hfuel eq_refl eq_refl eq_refl Hs) as (evs & it' & E1 & Hp & He).
    exists evs, it'. split; [done|]. split; [|done]. split; [done|]. destruct He as [He|[He Hne]]; [by left|right].
    split; [done|]. by rewrite He in Hne.
  - destruct (iterate_all pick logs fuel it Hfuel eq_refl eq_refl (or_intror Hs)) as (it' & E1 & He).
    eexists _, it'. split; [exact E1|]. split; [|done]. rewrite He. by destruct (unpack_all _ _ logs).
Qed.
End Events.

(** * The four events *)

(** ** BlockSubmitted *)

Record RootChainBlockSubmitted : Type := mkRootChainBlockSubmitted {
  bs_Root : Hash;
  bs_LastDepositBlockNum : option Z;
  bs_SubmittedBlockNum : option Z;
  bs_Timestamp : option Z;
  bs_Raw : Log
}.

#[global] Instance BlockSubmitted_struct : EventStruct RootChainBlockSubmitted := {
  new_event := mkRootChainBlockSubmitted zeroHash None None None zeroLog;
  set_Raw := fun e log => mkRootChainBlockSubmitted (bs_Root e) (bs_LastDepositBlockNum e) (bs_SubmittedBlockNum e) (bs_Timestamp e) log
}.

Section BlockSubmittedEvents.
Context `{!UnpackLog RootChainBlockSubmitted}.

Definition RootChainBlockSubmittedIterator : Type := Iterator RootChainBlockSubmitted.
Definition BlockSubmitted_Next : bool -> RootChainBlockSubmittedIterator -> go (RootChainBlockSubmittedIterator * bool) := Next.
Definition BlockSubmitted_Error : RootChainBlockSubmittedIterator -> option error := Iterator_Error.
Definition BlockSubmitted_Close : RootChainBlockSubmittedIterator -> RootChainBlockSubmittedIterator * option error := Iterator_Close.

Definition FilterBlockSubmitted (f : RootChainFilterer) (opts : FilterOpts) : RootChainBlockSubmittedIterator + error :=
  filter_event f opts "BlockSubmitted" [].
Definition WatchBlockSubmitted (f : RootChainFilterer) (opts : WatchOpts)
    (cases : list watch_case) : (list RootChainBlockSubmitted * option (option error)) + error :=
  watch_event f opts "BlockSubmitted" [] cases.
End BlockSubmittedEvents.

(** ** Deposit *)

Record RootChainDeposit : Type := mkRootChainDeposit {
  dp_Depositor : Address;
  dp_DepositBlock : option Z;
  dp_Token : Address;
  dp_Amount : option Z;
  dp_Raw : Log
}.

#[global] Instance Deposit_struct : EventStruct RootChainDeposit := {
  new_event := mkRootChainDeposit zeroAddress None zeroAddress None zeroLog;
  set_Raw := fun e log => mkRootChainDeposit (dp_Depositor e) (dp_DepositBlock e) (dp_Token e) (dp_Amount e) log
}.

Section DepositEvents.
Context `{!UnpackLog RootChainDeposit}.

Definition RootChainDepositIterator : Type := Iterator RootChainDeposit.
Definition Deposit_Next : bool -> RootChainDepositIterator -> go (RootChainDepositIterator * bool) := Next.
Definition Deposit_Error : RootChainDepositIterator -> option error := Iterator_Error.
Definition Deposit_Close : RootChainDepositIterator -> RootChainDepositIterator * option error := Iterator_Close.

Definition FilterDeposit (f : RootChainFilterer) (opts : FilterOpts) (depositor : list Address) (depositBlock : list (option Z)) : RootChainDepositIterator + error :=
  filter_event f opts "Deposit" [VAddress <$> depositor; VUint <$> depositBlock].
Definition WatchDeposit (f : RootChainFilterer) (opts : WatchOpts) (depositor : list Address) (depositBlock : list (option Z))
    (cases : list watch_case) : (list RootChainDeposit * option (option error)) + error :=
  watch_event f opts "Deposit" [VAddress <$> depositor; VUint <$> depositBlock] cases.
End DepositEvents.

(** ** ExitStarted *)

Record RootChainExitStarted : Type := mkRootChainExitStarted {
  es_Exitor : Address;
  es_UtxoPos : option Z;
  es_Token : Address;
  es_Amount : option Z;
  es_Raw : Log
}.

#[global] Instance ExitStarted_struct : EventStruct RootChainExitStarted := {
  new_event := mkRootChainExitStarted zeroAddress None zeroAddress None zeroLog;
  set_Raw := fun e log => mkRootChainExitStarted (es_Exitor e) (es_UtxoPos e) (es_Token e) (es_Amount e) log
}.

Section ExitStartedEvents.
Context `{!UnpackLog RootChainExitStarted}.

Definition RootChainExitStartedIterator : Type := Iterator RootChainExitStarted.
Definition ExitStarted_Next : bool -> RootChainExitStartedIterator -> go (RootChainExitStartedIterator * bool) := Next.
Definition ExitStarted_Error : RootChainExitStartedIterator -> option error := Iterator_Error.
Definition ExitStarted_Close : RootChainExitStartedIterator -> RootChainExitStartedIterator * option error := Iterator_Close.

Definition FilterExitStarted (f : RootChainFilterer) (opts : FilterOpts) (exitor : list Address) (utxoPos : list (option Z)) : RootChainExitStartedIterator + error :=
  filter_event f opts "ExitStarted" [VAddress <$> exitor; VUint <$> utxoPos].
Definition WatchExitStarted (f : RootChainFilterer) (opts : WatchOpts) (exitor : list Address) (utxoPos : list (option Z))
    (cases : list watch_case) : (list RootChainExitStarted * option (option error)) + error :=
  watch_event f opts "ExitStarted" [VAddress <$> exitor; VUint <$> utxoPos] cases.
End ExitStartedEvents.

(** ** TokenAdded *)

Record RootChainTokenAdded : Type := mkRootChainTokenAdded {
  ta_Token : Address;
  ta_Raw : Log
}.

#[global] Instance TokenAdded_struct : EventStruct RootChainTokenAdded := {
  new_event := mkRootChainTokenAdded zeroAddress zeroLog;
  set_Raw := fun e log => mkRootChainTokenAdded (ta_Token e) log
}.

Section TokenAddedEvents.
Context `{!UnpackLog RootChainTokenAdded}.

Definition RootChainTokenAddedIterator : Type := Iterator RootChainTokenAdded.
Definition TokenAdded_Next : bool -> RootChainTokenAddedIterator -> go (RootChainTokenAddedIterator * bool) := Next.
Definition TokenAdded_Error : RootChainTokenAddedIterator -> option error := Iterator_Error.
Definition TokenAdded_Close : RootChainTokenAddedIterator -> RootChainTokenAddedIterator * option error := Iterator_Close.

Definition FilterTokenAdded (f : RootChainFilterer) (opts : FilterOpts) : RootChainTokenAddedIterator + error :=
  filter_event f opts "TokenAdded" [].
Definition WatchTokenAdded (f : RootChainFilterer) (opts : WatchOpts)
    (cases : list watch_case) : (list RootChainTokenAdded * option (option error)) + error :=
  watch_event f opts "TokenAdded" [] cases.
End TokenAddedEvents.

(** * Reading the contract *)

(** What the contract of [Contract.v] answers to the calls about its blocks. *)
Definition contract_answer (c : Contract) (method : string) (args : list abi_value) : option (list abi_value) :=
  match args with
  | [] =>
      if decide (method = "CHILD_BLOCK_INTERVAL") then Some [VUint (Some CHILD_BLOCK_INTERVAL)]
      else if decide (method = "operator") then Some [VAddress (c_operator c)]
      else if decide (method = "currentChildBlock") then Some [VUint (Some (c_currentChildBlock c))]
      else if decide (method = "currentDepositBlock") then Some [VUint (Some (c_currentDepositBlock c))]
      else if decide (method = "getDepositBlock") then (fun n => [VUint (Some n)]) <$> getDepositBlock c
      else None
  | [VUint (Some n)] =>
      if decide (method = "childChain" \/ method = "getChildChain") then
        let (root, ts) := getChildChain c n in Some [VBytes32 root; VUint (Some ts)]
      else None
  | _ => None
  end.

(** The bound contract is that one. *)
Definition serves (bc : BoundContract) (c : Contract) : Prop := forall opts outs method args res,
  contract_answer c method args = Some res -> contract_Call bc opts outs method args = (res, None).

(** Each read of a session gets the contract's value. *)
Lemma session_reads (s : RootChainSession) (c : Contract) n :
  serves (caller_contract (rc_Caller (s_Contract s))) c ->
  Session_CHILDBLOCKINTERVAL s = (Some 1000, None) /\
  Session_Operator s = (c_operator c, None) /\
  Session_CurrentChildBlock s = (Some (c_currentChildBlock c), None) /\
  Session_CurrentDepositBlock s = (Some (c_currentDepositBlock c), None) /\
  (forall d, getDepositBlock c = Some d -> Session_GetDepositBlock s = (Some d, None)) /\
  Session_ChildChain s (Some n) = (((getChildChain c n).1, Some (getChildChain c n).2), None) /\
  Session_GetChildChain s (Some n) = Session_ChildChain s (Some n).
Proof.
  intros Hs.
  assert (Ec : contract_answer c "childChain" [VUint (Some n)] =
    Some [VBytes32 (getChildChain c n).1; VUint (Some (getChildChain c n).2)]).
  { unfold contract_answer. rewrite decide_True by auto. by destruct (getChildChain c n). }
  assert (Eg : contract_answer c "getChildChain" [VUint (Some n)] =
    Some [VBytes32 (getChildChain c n).1; VUint (Some (getChildChain c n).2)]).
  { unfold contract_answer. rewrite decide_True by auto. by destruct (getChildChain c n). }
  split_and!; try (unfold Session_CHILDBLOCKINTERVAL, Caller_CHILDBLOCKINTERVAL, Session_Operator, Caller_Operator,
    Session_CurrentChildBlock, Caller_CurrentChildBlock, Session_CurrentDepositBlock, Caller_CurrentDepositBlock;
    by erewrite Hs by reflexivity).
  - intros d Hd. unfold Session_GetDepositBlock, Caller_GetDepositBlock. erewrite Hs; [|cbn; by rewrite Hd]. done.
  - unfold Session_ChildChain, Caller_ChildChain. by erewrite Hs by exact Ec.
  - unfold Session_GetChildChain, Caller_GetChildChain, Session_ChildChain, Caller_ChildChain.
    erewrite Hs by exact Eg. by erewrite Hs by exact Ec.
Qed.
End Bindings.
