(* ===== verification/Config.v ===== *)
(** network/config.go and network/defaults.go: where a node keeps its files and where
    it listens. [path/filepath] is modelled for Unix systems. What the process asks its
    environment (the program's name, the home directory, which files exist, key
    generation) are arguments. *)

From stdpp Require Import pretty.
From S2P Require Import Prelude Deps.
#[local] Open Scope Z_scope.
#[local] Open Scope string_scope.

(** * path/filepath and strings *)

Definition slash : Ascii.ascii := Ascii.ascii_of_nat 47.

(** [strings.Split(s, "/")]; a nonempty result. *)
Fixpoint split_slash (s : string) : list string :=
  match s with
  | EmptyString => [""]
  | String c s =>
      if Ascii.eqb c slash then "" :: split_slash s
      else match split_slash s with
           | w :: ws => String c w :: ws
           | [] => [String c ""]
           end
  end.

Definition HasPrefix (s p : string) : bool := String.prefix p s.
Definition TrimSuffix (s suffix : string) : string :=
  let n := (String.length s - String.length suffix)%nat in
  if bool_decide (String.substring n (String.length suffix) s = suffix) then String.substring 0 n s else s.

Definition IsAbs (path : string) : bool := HasPrefix path "/".

(** [Clean] on components, the last one first: a ".." takes back the component
    before it, and is kept at the start of a relative path only. *)
Definition clean_step (rooted : bool) (out : list string) (c : string) : list string :=
  if bool_decide (c = "" \/ c = ".") then out
  else if bool_decide (c = "..") then
    match out with
    | [] => if rooted then [] else [".."]
    | c' :: out' => if bool_decide (c' = "..") then c :: out else out'
    end
  else c :: out.

Definition clean_comps (path : string) : list string :=
  reverse (fold_left (clean_step (IsAbs path)) (split_slash path) []).

Definition Clean (path : string) : string :=
  if IsAbs path then "/" +:+ String.concat "/" (clean_comps path)
  else match clean_comps path with [] => "." | cs => String.concat "/" cs end.

Fixpoint Join (elem : list string) : string :=
  match elem with
  | [] => ""
  | e :: es => if bool_decide (e = "") then Join es else Clean (String.concat "/" elem)
  end.

(** [Base]: the last component that is not empty; "." and "/" when there is none. *)
Definition Base (path : string) : string :=
  if bool_decide (path = "") then "."
  else match last (filter (fun c => c <> "") (split_slash path)) with
       | Some c => c
       | None => "/"
       end.

(** * Configuration *)

Definition datadirPrivateKey : string := "nodekey".
Definition datadirDefaultKeyStore : string := "keystore".
Definition datadirStaticNodes : string := "static-nodes.json".
Definition datadirTrustedNodes : string := "trusted-nodes.json".
Definition datadirNodeDatabase : string := "nodes".

Definition DefaultHTTPHost : string := "localhost".
Definition DefaultHTTPPort : Z := 8545.
Definition DefaultWSHost : string := "localhost".
Definition DefaultWSPort : Z := 8546.

(** [p2p.Config], as far as the source names its fields. *)
Record P2PConfig (Key : Type) : Type := mkP2PConfig {
  p2p_PrivateKey : option Key;
  p2p_ListenAddr : string;
  p2p_MaxPeers : Z;
  p2p_NAT : option string
}.
Arguments mkP2PConfig {Key} _ _ _ _.
Arguments p2p_PrivateKey {Key} _.

(** [Config], without its logger. *)
Record NodeConfig (Key : Type) : Type := mkNodeConfig {
  cf_Name : string;
  cf_UserIdent : string;
  cf_Version : string;
  cf_DataDir : string;
  cf_P2P : P2PConfig Key;
  cf_KeyStoreDir : string;
  cf_UseLightweightKDF : bool;
  cf_NoUSB : bool;
  cf_IPCPath : string;
  cf_HTTPHost : string;
  cf_HTTPPort : Z;
  cf_HTTPCors : list string;
  cf_HTTPVirtualHosts : list string;
  cf_HTTPModules : list string;
  cf_WSHost : string;
  cf_WSPort : Z;
  cf_WSOrigins : list string;
  cf_WSModules : list string;
  cf_WSExposeAll : bool
}.
Arguments mkNodeConfig {Key} _ _ _ _ _ _ _ _ _ _ _ _ _ _ _ _ _ _ _.
Arguments cf_Name {Key} _.
Arguments cf_UserIdent {Key} _.
Arguments cf_Version {Key} _.
Arguments cf_DataDir {Key} _.
Arguments cf_P2P {Key} _.
Arguments cf_KeyStoreDir {Key} _.
Arguments cf_UseLightweightKDF {Key} _.
Arguments cf_NoUSB {Key} _.
Arguments cf_IPCPath {Key} _.
Arguments cf_HTTPHost {Key} _.
Arguments cf_HTTPPort {Key} _.
Arguments cf_HTTPCors {Key} _.
Arguments cf_HTTPVirtualHosts {Key} _.
Arguments cf_HTTPModules {Key} _.
Arguments cf_WSHost {Key} _.
Arguments cf_WSPort {Key} _.
Arguments cf_WSOrigins {Key} _.
Arguments cf_WSModules {Key} _.
Arguments cf_WSExposeAll {Key} _.

(** What the process knows of its environment. *)
Record Env : Type := mkEnv {
  env_GOOS : string;
  env_GOARCH : string;
  env_goversion : string;
  env_Args0 : string;
  env_TempDir : string;
  env_HOME : string;
  env_user_HomeDir : option string;
  env_FileExist : string -> bool;
  env_Abs : string -> string + error
}.

(** The key files of go-ethereum's [crypto], and directories of [os]. *)
Class KeyFiles (Key F : Type) : Type := {
  LoadECDSA : F -> string -> option Key;
  SaveECDSA : F -> string -> option Key -> F * option error;
  MkdirAll : F -> string -> F * option error
}.

(** A key that was saved without an error is the one loaded from that file. *)
Class KeyFilesLaws {Key F} (files : KeyFiles Key F) : Prop := {
  SaveECDSA_LoadECDSA fs fs' path key :
    SaveECDSA fs path (Some key) = (fs', None) -> LoadECDSA fs' path = Some key
}.

Section Config.
Context {Key : Type} (env : Env).

Definition homeDir : string :=
  if bool_decide (env_HOME env <> "") then env_HOME env
  else default "" (env_user_HomeDir env).

Definition DefaultDataDir : string :=
  let home := homeDir in
  if bool_decide (home <> "") then
    if bool_decide (env_GOOS env = "darwin") then Join [home; "Library"; "Ethereum"]
    else if bool_decide (env_GOOS env = "windows") then Join [home; "AppData"; "Roaming"; "Ethereum"]
    else Join [home; ".ethereum"]
  else "".

(** [DefaultConfig]; [nat_Any] names the port mapper the p2p package chooses. *)
Definition DefaultConfig (nat_Any : string) : NodeConfig Key :=
  {| cf_Name := ""; cf_UserIdent := ""; cf_Version := ""; cf_DataDir := DefaultDataDir; cf_P2P := mkP2PConfig None ":30303" 25 (Some nat_Any);
     cf_KeyStoreDir := ""; cf_UseLightweightKDF := false; cf_NoUSB := false; cf_IPCPath := ""; cf_HTTPHost := "";
     cf_HTTPPort := DefaultHTTPPort; cf_HTTPCors := []; cf_HTTPVirtualHosts := ["localhost"]; cf_HTTPModules := ["net"; "web3"]; cf_WSHost := "";
     cf_WSPort := DefaultWSPort; cf_WSOrigins := []; cf_WSModules := ["net"; "web3"]; cf_WSExposeAll := false |}.

Definition pipe : string := "\\.\pipe\".

Definition IPCEndpoint (c : NodeConfig Key) : string :=
  if bool_decide (cf_IPCPath c = "") then ""
  else if bool_decide (env_GOOS env = "windows") then
    if HasPrefix (cf_IPCPath c) pipe then cf_IPCPath c else pipe +:+ cf_IPCPath c
  else if bool_decide (Base (cf_IPCPath c) = cf_IPCPath c) then
    if bool_decide (cf_DataDir c = "") then Join [env_TempDir env; cf_IPCPath c]
    else Join [cf_DataDir c; cf_IPCPath c]
  else cf_IPCPath c.

(** The name of the executable; [panic] when it is empty. *)
Definition progname : go string :=
  let n := TrimSuffix (Base (env_Args0 env)) ".exe" in
  if bool_decide (n = "") then Stop Panicked else Ret n.

Definition DefaultIPCEndpoint (clientIdentifier : string) : go string :=
  let! clientIdentifier :=
    if bool_decide (clientIdentifier = "") then progname else Ret clientIdentifier in
  Ret (IPCEndpoint {| cf_Name := ""; cf_UserIdent := ""; cf_Version := ""; cf_DataDir := DefaultDataDir; cf_P2P := (mkP2PConfig None "" 0 None);
     cf_KeyStoreDir := ""; cf_UseLightweightKDF := false; cf_NoUSB := false; cf_IPCPath := clientIdentifier +:+ ".ipc"; cf_HTTPHost := "";
     cf_HTTPPort := 0; cf_HTTPCors := []; cf_HTTPVirtualHosts := []; cf_HTTPModules := []; cf_WSHost := "";
     cf_WSPort := 0; cf_WSOrigins := []; cf_WSModules := []; cf_WSExposeAll := false |}).

Definition HTTPEndpoint (c : NodeConfig Key) : string :=
  if bool_decide (cf_HTTPHost c = "") then "" else cf_HTTPHost c +:+ ":" +:+ pretty (cf_HTTPPort c).
Definition DefaultHTTPEndpoint : string :=
  HTTPEndpoint {| cf_Name := ""; cf_UserIdent := ""; cf_Version := ""; cf_DataDir := ""; cf_P2P := (mkP2PConfig None "" 0 None);
     cf_KeyStoreDir := ""; cf_UseLightweightKDF := false; cf_NoUSB := false; cf_IPCPath := ""; cf_HTTPHost := DefaultHTTPHost;
     cf_HTTPPort := DefaultHTTPPort; cf_HTTPCors := []; cf_HTTPVirtualHosts := []; cf_HTTPModules := []; cf_WSHost := "";
     cf_WSPort := 0; cf_WSOrigins := []; cf_WSModules := []; cf_WSExposeAll := false |}.
Definition WSEndpoint (c : NodeConfig Key) : string :=
  if bool_decide (cf_WSHost c = "") then "" else cf_WSHost c +:+ ":" +:+ pretty (cf_WSPort c).
Definition DefaultWSEndpoint : string :=
  WSEndpoint {| cf_Name := ""; cf_UserIdent := ""; cf_Version := ""; cf_DataDir := ""; cf_P2P := (mkP2PConfig None "" 0 None);
     cf_KeyStoreDir := ""; cf_UseLightweightKDF := false; cf_NoUSB := false; cf_IPCPath := ""; cf_HTTPHost := "";
     cf_HTTPPort := 0; cf_HTTPCors := []; cf_HTTPVirtualHosts := []; cf_HTTPModules := []; cf_WSHost := DefaultWSHost;
     cf_WSPort := DefaultWSPort; cf_WSOrigins := []; cf_WSModules := []; cf_WSExposeAll := false |}.

Definition name (c : NodeConfig Key) : go string :=
  if bool_decide (cf_Name c = "") then progname else Ret (cf_Name c).

Definition NodeName (c : NodeConfig Key) : go string :=
  let! n := name c in
  let n := if bool_decide (n = "geth" \/ n = "geth-testnet") then "Geth" else n in
  let n := if bool_decide (cf_UserIdent c <> "") then n +:+ "/" +:+ cf_UserIdent c else n in
  let n := if bool_decide (cf_Version c <> "") then n +:+ "/v" +:+ cf_Version c else n in
  Ret (n +:+ "/" +:+ env_GOOS env +:+ "-" +:+ env_GOARCH env +:+ "/" +:+ env_goversion env).

Definition isOldGethResource (path : string) : bool :=
  bool_decide (path ∈ ["chaindata"; "nodes"; "nodekey"; "static-nodes.json"; "trusted-nodes.json"]).

Definition instanceDir (c : NodeConfig Key) : go string :=
  if bool_decide (cf_DataDir c = "") then Ret ""
  else let! n := name c in Ret (Join [cf_DataDir c; n]).

Definition resolvePath (c : NodeConfig Key) (path : string) : go string :=
  if IsAbs path then Ret path
  else if bool_decide (cf_DataDir c = "") then Ret ""
  else
    let! n := name c in
    let oldpath :=
      if bool_decide (n = "geth") && isOldGethResource path && bool_decide (cf_Name c = "geth")
      then Join [cf_DataDir c; path] else "" in
    if bool_decide (oldpath <> "") && env_FileExist env oldpath then Ret oldpath
    else let! dir := instanceDir c in Ret (Join [dir; path]).

Definition NodeDB (c : NodeConfig Key) : go string :=
  if bool_decide (cf_DataDir c = "") then Ret "" else resolvePath c datadirNodeDatabase.

(** [NodeKey]: a generated key is stored when that is possible; a key that could not
    be generated is nil. *)
Definition NodeKey {F} {files : KeyFiles Key F} (GenerateKey : option Key) (fs : F) (c : NodeConfig Key)
  : go (F * option Key) :=
  match p2p_PrivateKey (cf_P2P c) with
  | Some key => Ret (fs, Some key)
  | None =>
      if bool_decide (cf_DataDir c = "") then Ret (fs, GenerateKey)
      else
        let! keyfile := resolvePath c datadirPrivateKey in
        match LoadECDSA fs keyfile with
        | Some key => Ret (fs, Some key)
        | None =>
            let! n := name c in
            let dir := Join [cf_DataDir c; n] in
            let '(fs, err) := MkdirAll fs dir in
            match err with
            | Some _ => Ret (fs, GenerateKey)
            | None => Ret ((SaveECDSA fs (Join [dir; datadirPrivateKey]) GenerateKey).1, GenerateKey)
            end
        end
  end.

(** [parsePersistentNodes]: urls that are empty or do not parse are left out. *)
Definition parsePersistentNodes {Nd} (LoadJSON : string -> list string + error) (ParseNode : string -> option Nd)
    (c : NodeConfig Key) (path : string) : list Nd :=
  if bool_decide (cf_DataDir c = "") then []
  else if negb (env_FileExist env path) then []
  else match LoadJSON path with
       | inr _ => []
       | inl nodelist => omap (fun url => if bool_decide (url = "") then None else ParseNode url) nodelist
       end.

Definition StaticNodes {Nd} LoadJSON (ParseNode : string -> option Nd) (c : NodeConfig Key) : go (list Nd) :=
  let! path := resolvePath c datadirStaticNodes in
  Ret (parsePersistentNodes LoadJSON ParseNode c path).
Definition TrustedNodes {Nd} LoadJSON (ParseNode : string -> option Nd) (c : NodeConfig Key) : go (list Nd) :=
  let! path := resolvePath c datadirTrustedNodes in
  Ret (parsePersistentNodes LoadJSON ParseNode c path).

(** [AccountConfig]; the scrypt parameters are the keystore package's. *)
Definition AccountConfig (standard light : Z * Z) (c : NodeConfig Key) : (Z * Z) * (string * option error) :=
  let scrypt := if cf_UseLightweightKDF c then light else standard in
  let abs p := match env_Abs env p with inl d => (d, None) | inr err => ("", Some err) end in
  let keydir :=
    if IsAbs (cf_KeyStoreDir c) then (cf_KeyStoreDir c, None)
    else if bool_decide (cf_DataDir c <> "") then
      if bool_decide (cf_KeyStoreDir c = "") then (Join [cf_DataDir c; datadirDefaultKeyStore], None)
      else abs (cf_KeyStoreDir c)
    else if bool_decide (cf_KeyStoreDir c <> "") then abs (cf_KeyStoreDir c)
    else ("", None) in
  (scrypt, keydir).

(** [makeAccountManager]: the directory of the keys, whether the two USB hubs are
    used, and the temporary directory made for a node without a key directory. An
    error of [AccountConfig] is forgotten when its directory is empty. *)
Definition makeAccountManager (standard light : Z * Z) (TempDir : string + error)
    (Mkdir : string -> option error) (ledger trezor : option error) (c : NodeConfig Key)
  : (string * (Z * Z) * (bool * bool) * string) + error :=
  let '(scrypt, (keydir, err)) := AccountConfig standard light c in
  let '(keydir, err, ephemeral) :=
    if bool_decide (keydir = "") then
      match TempDir with inl d => (d, None, d) | inr e => ("", Some e, "") end
    else (keydir, err, "") in
  match err with
  | Some err => inr err
  | None =>
      match Mkdir keydir with
      | Some err => inr err
      | None =>
          let hub err := negb (cf_NoUSB c) && bool_decide (err = None) in
          inl (keydir, scrypt, (hub ledger, hub trezor), ephemeral)
      end
  end.

(** * The node keeps its key *)

Lemma resolvePath_instance (c : NodeConfig Key) path n :
  name c = Ret n -> cf_Name c <> "geth" -> cf_DataDir c <> "" -> IsAbs path = false ->
  resolvePath c path = Ret (Join [Join [cf_DataDir c; n]; path]).
Proof.
  intros Hn Hg Hd Ha. unfold resolvePath, instanceDir.
  rewrite Ha, (bool_decide_eq_false_2 (cf_DataDir c = "")) by done.
  rewrite Hn, (bool_decide_eq_false_2 (cf_Name c = "geth")) by done.
  cbn [gbind]. rewrite andb_false_r. done.
Qed.

(** The key a node without a configured key generated and stored at its first start
    is the key it has at every later start, whatever key it could generate then: the
    directory [NodeKey] writes to is the one [resolvePath] reads from. (A node named
    geth reads a nodekey directly under its data directory first.) *)
Theorem NodeKey_persists {F} {files : KeyFiles Key F} {laws : KeyFilesLaws files}
    (c : NodeConfig Key) (fs fs1 fs2 : F) n key GenerateKey :
  p2p_PrivateKey (cf_P2P c) = None -> cf_DataDir c <> "" -> name c = Ret n -> cf_Name c <> "geth" ->
  LoadECDSA fs (Join [Join [cf_DataDir c; n]; datadirPrivateKey]) = None ->
  MkdirAll fs (Join [cf_DataDir c; n]) = (fs1, None) ->
  SaveECDSA fs1 (Join [Join [cf_DataDir c; n]; datadirPrivateKey]) (Some key) = (fs2, None) ->
  NodeKey (Some key) fs c = Ret (fs2, Some key) /\
  NodeKey GenerateKey fs2 c = Ret (fs2, Some key).
Proof.
  intros Hk Hd Hn Hg Hl Hm Hs. pose proof (SaveECDSA_LoadECDSA _ _ _ _ Hs) as Hl'.
  unfold NodeKey. rewrite Hk, (bool_decide_eq_false_2 (cf_DataDir c = "")) by done.
  rewrite (resolvePath_instance c datadirPrivateKey n Hn Hg Hd) by done. cbn [gbind].
  rewrite Hl, Hl', Hn. cbn [gbind]. rewrite Hm. cbn beta iota. rewrite Hs. done.
Qed.
End Config.

(** Paths, on the cases of the documentation of [filepath.Clean] and [filepath.Join]. *)
Example Clean_examples :
  map Clean [""; "a/../.."; "/../a//b/./c/.."; "a/b/../c"] = ["."; ".."; "/a/b"; "a/c"] /\
  Join ["a"; ""; "../../b"] = "../b" /\ Base "/a/b//" = "b" /\ TrimSuffix "geth.exe" ".exe" = "geth".
Proof. vm_compute. done. Qed.
