(* ===== verification/Plasma.v ===== *)
(** plasma/config.go and plasma/plasma.go: a node put together from its parts. The
    chain and the pool are shared by the node and its worker, so they are kept once,
    inside the worker. What the process finds around it is an argument, [World]. *)

From S2P Require Import Prelude Deps Types Signing Store Schema RawDB Utxo Validation HeaderChain.
From S2P Require Import BlockChain TxPool RootChain Operator Genesis Network Handlers Config.
#[local] Open Scope Z_scope.

(** * Configuration *)

(** [plasma.Config]; [SyncMode] is the downloader's number, the timeout is in
    nanoseconds. *)
Record Config : Type := mkConfig {
  NetworkId : Z;
  SyncMode : Z;
  NoPruning : bool;
  LightServ : Z;
  LightPeers : Z;
  SkipBcVersionCheck : bool;
  DatabaseHandles : Z;
  DatabaseCache : Z;
  TrieCache : Z;
  TrieTimeout : Z;
  cfg_Operbase : Address;
  cfg_ExtraData : bytes;
  cfg_TxPool : TxPoolConfig;
  EnablePreimageRecording : bool;
  DocRoot : string;
  DataDir : string;
  ChainUrl : string;
  CxAddr : string;
  CxAbi : string;
  OperPwd : string;
  KeystorePath : string;
  IsOperator : bool
}.

(** [DefaultConfig] after the package's [init]; [HexToAddress] is go-ethereum's. *)
Definition DefaultConfig (FastSync : Z) (HexToAddress : string -> Address) : Config := {|
  NetworkId := 1; SyncMode := FastSync; NoPruning := false; LightServ := 0; LightPeers := 100;
  SkipBcVersionCheck := false; DatabaseHandles := 0; DatabaseCache := 768; TrieCache := 256;
  TrieTimeout := 60 * (60 * time_Second);
  cfg_Operbase := HexToAddress "85d6e595a3e64d3353b888bc49ee27f1b9f2a656"; cfg_ExtraData := [];
  cfg_TxPool := DefaultTxPoolConfig; EnablePreimageRecording := false; DocRoot := ""; DataDir := "";
  ChainUrl := ""; CxAddr := ""; CxAbi := ""; OperPwd := ""; KeystorePath := ""; IsOperator := false
|}.

Definition set_IsOperator (c : Config) (b : bool) : Config :=
  mkConfig (NetworkId c) (SyncMode c) (NoPruning c) (LightServ c) (LightPeers c) (SkipBcVersionCheck c)
    (DatabaseHandles c) (DatabaseCache c) (TrieCache c) (TrieTimeout c) (cfg_Operbase c) (cfg_ExtraData c)
    (cfg_TxPool c) (EnablePreimageRecording c) (DocRoot c) (DataDir c) (ChainUrl c) (CxAddr c) (CxAbi c)
    (OperPwd c) (KeystorePath c) b.

(** [network.Node.Start], the part that fills the configuration from viper's values
    and the ABI of the contract file: the shared default configuration is changed. *)
Definition node_config (c : Config) (datadir : string) (networkId : Z)
    (chainUrl cxAddr operPwd keystorePath abiStr : string) : Config :=
  mkConfig (u64 networkId) (SyncMode c) (NoPruning c) (LightServ c) (LightPeers c) (SkipBcVersionCheck c)
    (DatabaseHandles c) (DatabaseCache c) (TrieCache c) (TrieTimeout c) (cfg_Operbase c) (cfg_ExtraData c)
    (cfg_TxPool c) (EnablePreimageRecording c) (DocRoot c) datadir chainUrl cxAddr abiStr
    operPwd keystorePath (IsOperator c).

(** [makeExtraData]; [default_extra] is the encoding of the version data. *)
Definition makeExtraData (MaximumExtraDataSize : Z) (default_extra extra : bytes) : bytes :=
  let extra := match extra with [] => default_extra | _ => extra end in
  if MaximumExtraDataSize <? Z.of_nat (length extra) then [] else extra.

(** What the process finds around it: the store, the key store, the root chain's
    endpoint, the system's answers to the journal, and the clock the event handlers
    read. *)
Record World (D K O : Type) : Type := mkWorld {
  w_NewLDBDatabase : string -> Z -> Z -> D + error;
  ReadDir : string -> list string + error;
  ReadFile : string -> bytes;
  DecryptKey : bytes -> string -> K + error;
  rand_seed : option error;
  dial : string -> option error;
  cfg_fromBlock : Z;
  w_os : os_answers;
  w_journal : option (list bytes);
  clock : O -> Z
}.
Arguments w_NewLDBDatabase {D K O} _.
Arguments ReadDir {D K O} _.
Arguments ReadFile {D K O} _.
Arguments DecryptKey {D K O} _.
Arguments rand_seed {D K O} _.
Arguments dial {D K O} _.
Arguments cfg_fromBlock {D K O} _.
Arguments w_os {D K O} _.
Arguments w_journal {D K O} _.
Arguments clock {D K O} _.

(** [CreateDB]: an absolute name is overwritten by the joined path. *)
Definition CreateDB {D K O} (w : World D K O) (config : Config) (name : string) : D + error :=
  w_NewLDBDatabase w (Join [DataDir config; name]) (DatabaseCache config) (DatabaseHandles config).

(** [getOperaterKey]: the first file of the directory only. A directory that cannot
    be read is an empty one; a file that does not decrypt ends the process. *)
Definition getOperaterKey {D K O} (w : World D K O) (config : Config) : go (option K) :=
  if bool_decide (KeystorePath config = "") then Ret None
  else
    match ReadDir w (KeystorePath config) with
    | inr _ | inl [] => Ret None
    | inl (file :: _) =>
        let path := (KeystorePath config +:+ "/" +:+ file)%string in
        match DecryptKey w (ReadFile w path) (OperPwd config) with
        | inr _ => Stop Fatal
        | inl key => Ret (Some key)
        end
    end.

(** * The node *)

(** [plasma.Worker]: the operator holds the chain and the pool; next to a validator
    the pool is the node's. *)
Inductive NodeWorker (D G : Type) `{LRU} `{Crypto} : Type :=
| WOperator (o : Operator D G)
| WValidator (v : Validator D) (pool : TxPool G).
Arguments WOperator {D G _ _} _.
Arguments WValidator {D G _ _} _ _.

(** [Plasma]. The engine and the event multiplexer are never set. *)
Record Plasma (D : Type) `{LRU} `{Crypto} `{Params} : Type := mkPlasma {
  pl_config : Config;
  pl_chainConfig : ChainConfig;
  pl_worker : NodeWorker D EIP155Signer;
  pl_operbase : Address;
  pl_networkID : Z;
  pl_rootchain : RootChain (Operator D EIP155Signer)
}.
Arguments mkPlasma {D _ _ _} _ _ _ _ _ _.
Arguments pl_config {D _ _ _} _.
Arguments pl_chainConfig {D _ _ _} _.
Arguments pl_worker {D _ _ _} _.
Arguments pl_operbase {D _ _ _} _.
Arguments pl_networkID {D _ _ _} _.
Arguments pl_rootchain {D _ _ _} _.

Section Plasma.
Context {D : Type} `{LRU} `{Params} `{Hexutil} `{EthCommon} `{Crypto} `{Copier} `{Trie} `{Rlp sigpayload}
  `{Rlp txdata} `{Rlp Header} `{Rlp rlpBody} `{Rlp Z} `{Rlp extblock} `{RlpStream} `{Database D}
  `{!IcstChain} `{ContractQuery}.

#[local] Abbreviation Op := (Operator D EIP155Signer).
#[local] Abbreviation Wld := (World D PrivateKey Op).

Definition worker_chain (w : NodeWorker D EIP155Signer) : BlockChain D :=
  match w with WOperator o => op_chain o | WValidator v _ => va_chain v end.
Definition worker_pool (w : NodeWorker D EIP155Signer) : TxPool EIP155Signer :=
  match w with WOperator o => op_txPool o | WValidator _ pool => pool end.
Definition worker_set_chain (w : NodeWorker D EIP155Signer) (bc : BlockChain D) :=
  match w with
  | WOperator o => WOperator (op_set_chain o bc)
  | WValidator v pool => WValidator (va_set_chain v bc) pool
  end.
Definition worker_set_pool (w : NodeWorker D EIP155Signer) (pool : TxPool EIP155Signer) :=
  match w with
  | WOperator o => WOperator (op_set_pool o pool)
  | WValidator v _ => WValidator v pool
  end.

Definition pl_set_worker (p : Plasma D) (w : NodeWorker D EIP155Signer) : Plasma D :=
  mkPlasma (pl_config p) (pl_chainConfig p) w (pl_operbase p) (pl_networkID p) (pl_rootchain p).

(** The accessors. *)
Definition Pl_BlockChain (p : Plasma D) : BlockChain D := worker_chain (pl_worker p).
Definition Pl_TxPool (p : Plasma D) : TxPool EIP155Signer := worker_pool (pl_worker p).
Definition ChainDb (p : Plasma D) : D := bc_db (Pl_BlockChain p).
Definition IsListening (p : Plasma D) : bool := true.
Definition NetVersion (p : Plasma D) : Z := pl_networkID p.

(** The signer of the node's validators and of its pool, and the pool's validator,
    which reads the UTXO set in the node's database. *)
Definition node_signer (config : ChainConfig) : EIP155Signer := NewEIP155Signer (config_ChainID config).
Definition pool_validator (config : ChainConfig) (d : D) : UtxoTxValidator EIP155Signer D :=
  NewUtxoTxValidator (node_signer config) d.
Definition pl_validator (p : Plasma D) : UtxoTxValidator EIP155Signer D :=
  pool_validator (pl_chainConfig p) (ChainDb p).

(** [NewOperator] registers its two event handlers with the root chain client. *)
Definition register_handlers (w : Wld) (signer : EIP155Signer) (rc : RootChain Op) : RootChain Op :=
  let rc := RegisterBlockSubmittedEventHandler rc (Some completeBlockSubmit) in
  RegisterDepositEventHandler rc
    (Some (fun o num depositor token amount =>
             handleDepositEvent signer (clock w o) o num depositor token amount)).

(** The role: with a key, whether it is the key of the contract's operator, the
    error of that query being dropped; without one, what was configured. *)
Definition choose_role (key : option PrivateKey) (address : Address) (config : Config) : Config :=
  match key with
  | None => config
  | Some k => set_IsOperator config (bool_decide (BytesToAddress (PubKeyToAddress k) = address))
  end.

(** The worker; an operator without a key is a nil dereference. *)
Definition make_worker (w : Wld) (config : Config) (key : option PrivateKey) (signer : EIP155Signer)
    (bc : BlockChain D) (pool : TxPool EIP155Signer) (rc : RootChain Op)
  : go (NodeWorker D EIP155Signer * RootChain Op) :=
  if IsOperator config then
    let! key := deref key in
    let! o := NewOperator bc pool key in
    Ret (WOperator o, register_handlers w signer rc)
  else
    let! v := NewValidator bc in
    Ret (WValidator v pool, rc).

(** [New]. No error of [SetupGenesisBlock] is a [ConfigCompatError], so each one is
    returned. The worker's goroutines start at the end. *)
Definition New (w : Wld) (config : Config) : go (Plasma D + error) :=
  match CreateDB w config "chaindata" with
  | inr err => Ret (inr err)
  | inl chainDb =>
      let! (chainDb, (chainConfig, _, genesisErr)) := SetupGenesisBlock chainDb None in
      match genesisErr with
      | Some err => Ret (inr err)
      | None =>
          let! chainConfig := deref chainConfig in
          let! chain := NewBlockChain (rand_seed w) chainDb (config_ChainID chainConfig) in
          match chain with
          | inr err => Ret (inr err)
          | inl bc =>
              let signer := node_signer chainConfig in
              let! pool := NewTxPool (w_os w) (w_journal w) (pool_validator chainConfig (bc_db bc))
                             (cfg_TxPool config) signer in
              match NewRootChain (dial w) (cfg_fromBlock w) (ChainUrl config) (CxAbi config) (CxAddr config) with
              | inr err => Ret (inr err)
              | inl rc =>
                  let! key := getOperaterKey w config in
                  let config := choose_role key (GetOperatorAddress rc).1 config in
                  let! (wk, rc) := make_worker w config key signer bc pool rc in
                  Ret (inl (mkPlasma config chainConfig wk (cfg_Operbase config) (NetworkId config) rc))
              end
          end
      end
  end.

(** [Operbase] panics where it would have nothing to return. *)
Definition Operbase (p : Plasma D) : go Address :=
  if bool_decide (pl_operbase p <> zeroAddress) then Ret (pl_operbase p) else Stop Panicked.

Definition StartMining (p : Plasma D) : go (option error) :=
  let! eb := Operbase p in
  if bool_decide (eb = zeroAddress) then Ret (Some (ErrMsg "operbase missing")) else Ret None.

Definition errPeerConfig : error := ErrMsg "invalid peer config: light peer count >= total peer count".

Definition Pl_Start (MaxPeers : Z) (p : Plasma D) : option error :=
  if (0 <? LightServ (pl_config p)) && (MaxPeers <=? LightPeers (pl_config p)) then Some errPeerConfig
  else None.

(** [Stop]. The pool's subscription to chain heads is never made, and the event
    multiplexer is nil: the later steps are not reached. *)
Definition Pl_Stop (w : Wld) (p : Plasma D) : go (Plasma D) :=
  let p := pl_set_worker p (worker_set_chain (pl_worker p) (BC_Stop (Pl_BlockChain p))) in
  let! pool := TxPool_Stop None false (w_os w) (Pl_TxPool p) in
  let p := pl_set_worker p (worker_set_pool (pl_worker p) pool) in
  let! _ := deref (None : option unit) in
  Ret p.

Definition Pl_ProcessRemoteTxs (p : Plasma D) (txs : list Transaction) : go (Plasma D) :=
  match pl_worker p with
  | WOperator o =>
      let! o := Op_ProcessRemoteTxs (pl_validator p) o txs in Ret (pl_set_worker p (WOperator o))
  | WValidator v pool =>
      let! v := Va_ProcessRemoteTxs v txs in Ret (pl_set_worker p (WValidator v pool))
  end.

Definition Pl_ProcessRemoteBlock (p : Plasma D) (block : Block) : go (Plasma D) :=
  match pl_worker p with
  | WOperator o => Ret (pl_set_worker p (WOperator (Op_ProcessRemoteBlock o block)))
  | WValidator v pool =>
      let! v := Va_ProcessRemoteBlock (node_signer (pl_chainConfig p)) v block in
      Ret (pl_set_worker p (WValidator v pool))
  end.

Definition Pl_SubscribeNewTxsCh (p : Plasma D) (ch : list (list Transaction)) : Plasma D :=
  pl_set_worker p (worker_set_pool (pl_worker p) (SubscribeNewTxsCh (Pl_TxPool p) ch)).

Definition Pl_SubscribeNewBlockCh (p : Plasma D) (ch : option (list Block)) : Plasma D :=
  match pl_worker p with
  | WOperator o => pl_set_worker p (WOperator (SubscribeNewBlockCh o ch))
  | WValidator v pool => pl_set_worker p (WValidator (Va_SubscribeNewBlockCh v ch) pool)
  end.

Definition Pl_WriteBlock (p : Plasma D) (block : Block) : go (Plasma D * option error) :=
  match pl_worker p with
  | WOperator o =>
      let! (o, err) := WriteBlock (node_signer (pl_chainConfig p)) o block in
      Ret (pl_set_worker p (WOperator o), err)
  | WValidator v pool =>
      let! (v, err) := Va_WriteBlock (node_signer (pl_chainConfig p)) v block in
      Ret (pl_set_worker p (WValidator v pool), err)
  end.

Definition Pl_newBlockCh (p : Plasma D) : option (list Block) :=
  match pl_worker p with WOperator o => op_newBlockCh o | WValidator v _ => va_newBlockCh v end.

(** The node as the handlers of [Handlers.v] use it. *)
#[export] Instance Plasma_Worker : Worker (Plasma D) := {
  w_ProcessRemoteTxs := Pl_ProcessRemoteTxs;
  w_ProcessRemoteBlock := Pl_ProcessRemoteBlock;
  w_SubscribeNewBlockCh := Pl_SubscribeNewBlockCh;
  w_WriteBlock := Pl_WriteBlock;
  w_newBlockCh := Pl_newBlockCh
}.

#[export] Instance Plasma_NodeChain : NodeChain (Plasma D) := {
  w_CurrentBlock p := BC_CurrentBlock (Pl_BlockChain p);
  w_GetBlockByNumber p n :=
    let (bc, block) := GetBlockByNumber (Pl_BlockChain p) n in
    (pl_set_worker p (worker_set_chain (pl_worker p) bc), block)
}.

(** * The node as a whole *)

(** The node keeps the promise of its worker to the handlers. *)
#[export] Instance Plasma_WorkerSpec : WorkerSpec (Plasma D).
Proof.
  split.
  - intros p ch. cbn. unfold Pl_SubscribeNewBlockCh, Pl_newBlockCh. by destruct (pl_worker p).
  - intros p b p' q. cbn. unfold Pl_newBlockCh, Pl_WriteBlock. destruct (pl_worker p) as [o|v pool]; intros Hq E.
    + apply gbind_Ret in E as [[o' e] [E1 E]]. injection E as <- ->.
      apply (WriteBlock_sends (H := Operator_Worker (node_signer (pl_chainConfig p)) (fun _ => pl_validator p))
               (WorkerSpec := Operator_WorkerSpec _ _) o b o' q Hq E1).
    + apply gbind_Ret in E as [[v' e] [E1 E]]. injection E as <- ->.
      apply (WriteBlock_sends (H := Validator_Worker (node_signer (pl_chainConfig p)))
               (WorkerSpec := Validator_WorkerSpec _) v b v' q Hq E1).
Qed.

(** A node that came up with a key is the operator exactly when the contract's
    operator is the key's address, whatever was configured; then it signs with that key
    and listens to the contract's events. A validator listens to none. *)
Lemma node_role (w : Wld) (config : Config) (p : Plasma D) k :
  getOperaterKey w config = Ret (Some k) -> New w config = Ret (inl p) ->
  exists rc0, NewRootChain (dial w) (cfg_fromBlock w) (ChainUrl config) (CxAbi config) (CxAddr config) = inl rc0 /\
  match pl_worker p with
  | WOperator o =>
      BytesToAddress (PubKeyToAddress k) = (GetOperatorAddress rc0).1 /\ IsOperator (pl_config p) = true /\
      op_privateKey o = k /\ op_Addr o = BytesToAddress (PubKeyToAddress k) /\
      pl_rootchain p = register_handlers w (node_signer (pl_chainConfig p)) rc0
  | WValidator v pool =>
      BytesToAddress (PubKeyToAddress k) <> (GetOperatorAddress rc0).1 /\ IsOperator (pl_config p) = false /\
      rc_depositEventHandler (pl_rootchain p) = None /\ rc_blockSubmittedEventHandler (pl_rootchain p) = None
  end.
Proof.
  intros Hk Hn. unfold New in Hn. destruct (CreateDB w config "chaindata") as [d|]; [|done].
  apply gbind_Ret in Hn as [[d1 [[cc ?] [|]]] [_ Hn]]; [done|].
  apply gbind_Ret in Hn as [cc1 [_ Hn]]. apply gbind_Ret in Hn as [[bc|] [_ Hn]]; [|done].
  apply gbind_Ret in Hn as [pool [_ Hn]].
  destruct (NewRootChain _ _ _ _ _) as [rc|] eqn:Erc; [|done].
  rewrite Hk in Hn. cbn [gbind choose_role] in Hn. exists rc. split; [done|].
  apply gbind_Ret in Hn as [[wk rc'] [Hw Hn]]. injection Hn as <-.
  unfold make_worker in Hw. cbn [IsOperator set_IsOperator] in Hw. cbn [pl_worker pl_config pl_chainConfig pl_rootchain].
  case_bool_decide as Ha.
  - cbn [deref gbind] in Hw. apply gbind_Ret in Hw as [o [Ho Hw]]. injection Hw as <- <-.
    unfold NewOperator in Ho. go_inv Ho. done.
  - apply gbind_Ret in Hw as [v [_ Hw]]. injection Hw as <- <-.
    unfold NewRootChain in Erc. destruct (dial w _); simplify_eq/=. done.
Qed.

(** [StartMining] never reports a missing account: [Operbase] panics first. *)
Lemma StartMining_no_error (p : Plasma D) :
  StartMining p = if bool_decide (pl_operbase p = zeroAddress) then Stop Panicked else Ret None.
Proof.
  unfold StartMining, Operbase. destruct (decide (pl_operbase p = zeroAddress)) as [->|E].
  - rewrite (bool_decide_eq_false_2 (_ <> _)), (bool_decide_eq_true_2 (_ = _)) by naive_solver. done.
  - rewrite (bool_decide_eq_true_2 (_ <> _)) by done. cbn [gbind]. by rewrite (bool_decide_eq_false_2 (_ = _)) by done.
Qed.

(** [Stop] never returns: the pool it stops was never subscribed. *)
Lemma Pl_Stop_panics (w : Wld) (p : Plasma D) : Pl_Stop w p = Stop NilDeref.
Proof. done. Qed.
End Plasma.
