(* ===== verification/Http.v ===== *)
(** network/httphandlers, network/httpserver.go, network/node.go and
    cmd/client/transfer.go: the HTTP requests a node answers, the start of a node from
    its configuration, and the command that signs a transfer and posts it. What
    encoding/json makes of a request, the listeners and viper's values are arguments. *)

From S2P Require Import Prelude Deps Types Signing Store Schema RawDB Utxo Validation HeaderChain.
From S2P Require Import BlockChain TxPool RootChain Operator Genesis Network Handlers Config Plasma.
#[local] Open Scope Z_scope.

(** [json.Marshal] and [json.Unmarshal] of [txdata]; the first gets the hash the
    encoding carries. *)
Class TxJson : Type := {
  json_Marshal : txdata -> Hash -> bytes + error;
  json_Unmarshal : bytes -> txdata + error
}.
Class TxJsonLaws `{TxJson} : Prop := {
  json_roundtrip d h b : json_Marshal d h = inl b -> json_Unmarshal b = inl d
}.

(** What a handler writes: nothing or a JSON object with status 200, or
    [http.Error]. *)
Inductive answer : Type :=
| DepositResponse (TxHash : string)
| AfterSignResponse (Res : bool).

Inductive response : Type :=
| OK (body : option answer)
| HttpError (msg : string) (cause : option error) (status : Z).

Definition StatusBadRequest : Z := 400.
Definition StatusInternalServerError : Z := 500.

Record DepositRequest : Type := mkDepositRequest { dr_Owner : string; dr_Amount : Z }.
Record AfterSignRequest : Type := mkAfterSignRequest { as_Owner : string; as_Amount : Z; as_Sig : string }.

Definition DepositMethodName : string := "deposit".

(** The rest of the chain client and of go-ethereum's [hexutil] the handlers use:
    [chain.Get], [CallWithAbi] of a method with no arguments and a value,
    [common.Hex2Bytes], [hexutil.Encode] and [hexutil.Decode]. *)
Class HttpDeps `{Crypto} `{!IcstChain} : Type := {
  chain_Get : option error;
  icst_CallWithAbi : bytes -> bytes -> string -> Z -> string -> icst_tx + error;
  Hex2Bytes : string -> bytes;
  hexutil_Encode : bytes -> string;
  hexutil_Decode : string -> bytes + error
}.

Section Http.
Context {D : Type} `{LRU} `{Params} `{Hexutil} `{EthCommon} `{Crypto} `{Copier} `{Trie} `{Rlp sigpayload}
  `{Rlp txdata} `{Rlp Header} `{Rlp rlpBody} `{Rlp Z} `{Rlp extblock} `{RlpStream} `{Database D}
  `{!IcstChain} `{ContractQuery} `{TxJson} `{!HttpDeps}.

(** [UnmarshalJSON] on the bytes of a request. *)
Definition tx_UnmarshalJSON (input : bytes) : go (Transaction + error) :=
  match json_Unmarshal input with
  | inr err => Ret (inr err)
  | inl dec => UnmarshalJSON dec
  end.

(** [MarshalJSON]. *)
Definition tx_MarshalJSON (tx : Transaction) : bytes + error :=
  json_Marshal (tx_data tx) (Transaction_Hash tx).

(** [TxHandler.New]. *)
Definition Tx_New (p : Plasma D) (body : bytes) : go (Plasma D * response) :=
  let! tx := tx_UnmarshalJSON body in
  match tx with
  | inr err => Ret (p, HttpError "request body is not a valid tx json" (Some err) StatusBadRequest)
  | inl tx =>
      let! (pool, err) := AddLocal (pl_validator p) (Pl_TxPool p) tx in
      let p := pl_set_worker p (worker_set_pool (pl_worker p) pool) in
      match err with
      | Some err => Ret (p, HttpError "can not add tx to pool" (Some err) StatusBadRequest)
      | None => Ret (p, OK None)
      end
  end.

Definition Tx_Sign (p : Plasma D) : Plasma D * response := (p, OK None).

(** [ActionHandler.Deposit]: the transaction is made and its hash answered; it is
    not sent. *)
Definition Deposit (p : Plasma D) (req : DepositRequest + error) : response :=
  match req with
  | inr err => HttpError "request body is not a valid deposit request" (Some err) StatusBadRequest
  | inl depositReq =>
      match hex_DecodeString (dr_Owner depositReq) with
      | inr err => HttpError "can not decode depositReq.owner" (Some err) StatusBadRequest
      | inl from =>
          match chain_Get with
          | Some err => HttpError "can not find eth chain!" (Some err) StatusInternalServerError
          | None =>
              match icst_CallWithAbi from (Hex2Bytes (CxAddr (pl_config p))) DepositMethodName
                      (dr_Amount depositReq) (CxAbi (pl_config p)) with
              | inr err => HttpError "blc.Deposit Error!" (Some err) StatusInternalServerError
              | inl tx => OK (Some (DepositResponse (hexutil_Encode (arr (icst_tx_Hash tx)))))
              end
          end
      end
  end.

(** [ActionHandler.AfterSign] makes the same transaction again and confirms it with
    the signature of the request. *)
Definition AfterSign (p : Plasma D) (req : AfterSignRequest + error) : response :=
  match req with
  | inr err => HttpError "request body is not a valid aftersign request" (Some err) StatusBadRequest
  | inl req =>
      match chain_Get with
      | Some err => HttpError "can not find eth chain!" (Some err) StatusInternalServerError
      | None =>
          match hex_DecodeString (as_Owner req) with
          | inr err => HttpError "can not decode depositReq.owner" (Some err) StatusBadRequest
          | inl from =>
              match icst_CallWithAbi from (Hex2Bytes (CxAddr (pl_config p))) DepositMethodName
                      (as_Amount req) (CxAbi (pl_config p)) with
              | inr err => HttpError "blc.Deposit Error!" (Some err) StatusInternalServerError
              | inl tx =>
                  match hexutil_Decode (as_Sig req) with
                  | inr err => HttpError "sig decode Error!" (Some err) StatusInternalServerError
                  | inl sigBytes =>
                      match icst_ConfirmTrans tx sigBytes with
                      | Some err => HttpError "blc.ConfirmTrans error!" (Some err) StatusInternalServerError
                      | None => OK (Some (AfterSignResponse true))
                      end
                  end
              end
          end
      end
  end.

(** [initMux]; the two JSON decoders of the deposit requests are arguments. *)
Definition serve (deposit_req : bytes -> DepositRequest + error)
    (aftersign_req : bytes -> AfterSignRequest + error) (p : Plasma D) (path : string) (body : bytes)
  : go (Plasma D * response) :=
  if bool_decide (path = "/tx/new") then Tx_New p body
  else if bool_decide (path = "/tx/sign") then Ret (Tx_Sign p)
  else if bool_decide (path = "/deposit") then Ret (p, Deposit p (deposit_req body))
  else if bool_decide (path = "/aftersign") then Ret (p, AfterSign p (aftersign_req body))
  else Ret (p, HttpError "404 page not found" None 404).

(** * Starting a node *)

(** [NewTxHandler]: the node's pool gets the handler's channel. *)
Definition NewTxHandler {hs : HashSet} (nd : Node (Plasma D)) : Node (Plasma D) :=
  mkNode (nd_host nd) (Pl_SubscribeNewTxsCh (nd_worker nd) []).

(** The values [Start] reads from viper, and the ABI of the contract file. *)
Record Viper : Type := mkViper {
  v_datadir : string;
  v_networkId : Z;
  v_chainUrl : string;
  v_cxAddr : string;
  v_operPwd : string;
  v_keystorePath : string;
  v_port : Z;
  v_abi : string + error
}.

(** [network.Node.Start], from [plasma.DefaultConfig]. The error of [plasma.New] is
    overwritten by that of [startRPC]; the nil node is dereferenced when the handlers
    subscribe to it. The flag is whether the download starts. *)
Definition Node_Start {hs : HashSet} (startRPC startHTTP : option error) (makeRoutedHost : Z -> option error)
    (w : World D PrivateKey (Operator D EIP155Signer)) (default_config : Config) (v : Viper)
  : go ((Node (Plasma D) * bool) + error) :=
  match v_abi v with
  | inr err => Ret (inr err)
  | inl abiStr =>
      let cfg := node_config default_config (v_datadir v) (v_networkId v) (v_chainUrl v) (v_cxAddr v)
                   (v_operPwd v) (v_keystorePath v) abiStr in
      let! plasma := New w cfg in
      match startRPC, startHTTP with
      | Some err, _ | None, Some err => Ret (inr err)
      | None, None =>
          let! host := startP2P makeRoutedHost (v_port v) in
          match plasma with
          | inr _ => Stop NilDeref
          | inl plasma =>
              let nd := NewTxHandler (mkNode host plasma) in
              Ret (inl (NewBlockHandler (IsOperator (pl_config plasma)) nd))
          end
      end
  end.

(** * The transfer command *)

(** The command's flags. *)
Record Flags : Type := mkFlags {
  f_from : bytes;
  f_blockNum : Z;    (* uint64 *)
  f_txIdx : Z;       (* uint32 *)
  f_outIdx : byte;
  f_to : bytes;
  f_amount : Z;      (* uint64 *)
  f_fee : Z          (* uint64 *)
}.

(** The input's amount is left nil. *)
Definition makeTx (f : Flags) : Transaction :=
  let in1 := mkUTXO (mkUTXOID (f_blockNum f) (f_txIdx f) (f_outIdx f))
               (mkTxOut (BytesToAddress (f_from f)) None) in
  let out1 := mkTxOut (BytesToAddress (f_to f)) (Some (f_amount f)) in
  NewTransaction (Some in1) (Some NewNullUTXO) (Some out1) (Some NewNullTxOut) (Some (f_fee f)).

(** [TransferCmd.Run] up to the post: the body sent, if anything is. Both inputs are
    signed with the one key. *)
Definition transfer (chainID : Z) (key : PrivateKey + error) (f : Flags) : go (option bytes) :=
  match key with
  | inr _ => Ret None
  | inl key =>
      let signer := NewEIP155Signer (Some chainID) in
      let! tx := SignTx (makeTx f) signer key (Some key) in
      match tx with
      | inr _ => Ret None
      | inl tx => Ret (match tx_MarshalJSON tx with inl buf => Some buf | inr _ => None end)
      end
  end.

(** A node that [plasma.New] could not make does not report why: with its servers up
    the process ends in a nil dereference. *)
Lemma Node_Start_hides_error {hs : HashSet} makeRoutedHost w default_config v abiStr err :
  v_abi v = inl abiStr -> makeRoutedHost (v_port v) = None ->
  New w (node_config default_config (v_datadir v) (v_networkId v) (v_chainUrl v) (v_cxAddr v)
           (v_operPwd v) (v_keystorePath v) abiStr) = Ret (inr err) ->
  Node_Start None None makeRoutedHost w default_config v = Stop NilDeref.
Proof. intros Ha Hm Hn. unfold Node_Start, startP2P. rewrite Ha, Hn. cbn [gbind]. by rewrite Hm. Qed.
End Http.

(** * From the command line to the pool *)

Section Transfer.
Context {D : Type} `{LRU} `{Params} `{Hexutil} `{EthCommon} `{Crypto} `{!CryptoLaws} `{Copier} `{!CopierLaws}
  `{Trie} `{Rlp sigpayload} `{Rlp txdata} `{Rlp Header} `{Rlp rlpBody} `{Rlp Z} `{Rlp extblock} `{RlpStream}
  `{Database D} `{!IcstChain} `{ContractQuery} `{TxJson} `{!TxJsonLaws}
  (view : D -> ledger) (inv : D -> Prop) {utxos : UtxoReaderSpec D view inv}.

Definition flags_id (f : Flags) : UTXOID := mkUTXOID (f_blockNum f) (f_txIdx f) (f_outIdx f).

(** The transaction of the command meets the rules if and only if it pays a fee and
    the output it names is the signer's, worth the amount and the fee. *)
Lemma makeTx_valid (v : UtxoTxValidator EIP155Signer D) c k f tx :
  0 < c -> tv_signer v = NewEIP155Signer (Some c) -> inv (tv_utxoReader v) ->
  UTXOID_okb (flags_id f) = true -> f_blockNum f <> 0 -> 0 <= f_amount f ->
  SignTx (makeTx f) (NewEIP155Signer (Some c)) k (Some k) = Ret (inl tx) ->
  Transaction_Size tx <= 32768 ->
  exists e, Validate v tx = Ret e /\
    (e = None <-> 0 < f_fee f /\ view (tv_utxoReader v) !! flags_id f = Some (address_of_key k, f_amount f + f_fee f)).
Proof.
  intros Hc Hsg Hinv Hok Hb Ha Hs Hsz.
  pose proof (Sender_signed c _ k k tx Hc Hs) as Hsender. rewrite <- Hsg in Hsender.
  apply SignTx_inv in Hs as (sig1 & sig2 & _ & _ & Hw).
  destruct (EIP155_Hash_WithSignature _ _ _ _ _ Hw) as (_ & Ei & Eo & Ef).
  edestruct (Validate_spec view inv v tx _ _ _ _ _ _ _ Hinv
    (conj Ei (conj Eo (conj Ef (conj Hok eq_refl)))) Hsender) as (e & -> & He).
  exists e. split; [done|]. rewrite He. clear He.
  unfold in_amount. split.
  - intros [_ [_ Hf _ Ho _ _ _ Hbal]]. split; [exact Hf|]. destruct (Ho Hb) as [a El]. cbn in El, Hbal.
    unfold in_amount in Hbal. cbn [UTXO_ID utxo_UTXOID BlockNum NewNullUTXO] in Hbal.
    rewrite (proj2 (Z.eqb_neq _ _) Hb), El in Hbal. cbn in Hbal. change (mkUTXOID _ _ (f_outIdx f)) with (flags_id f) in El.
    rewrite El. do 2 f_equal. lia.
  - intros [Hf Hl]. split; [done|]. split; try (cbn; done || lia).
    + intros E. apply (f_equal BlockNum) in E. done.
    + intros _. eauto.
    + intros Hz. by destruct Hz.
    + unfold in_amount. cbn [UTXO_ID utxo_UTXOID BlockNum NewNullUTXO].
      rewrite (proj2 (Z.eqb_neq _ _) Hb). change (mkUTXOID _ _ (f_outIdx f)) with (flags_id f).
      rewrite Hl. cbn. lia.
Qed.

(** The answer to a transaction the pool does not take; the node is as it was. *)
Definition refused (err : error) : response := HttpError "can not add tx to pool" (Some err) StatusBadRequest.

Lemma same_pool (p : Plasma D) : pl_set_worker p (worker_set_pool (pl_worker p) (Pl_TxPool p)) = p.
Proof. destruct p as [? ? [[]|] ? ? ?]; done. Qed.

(** What the handler does with a body that decodes to [tx]. *)
Lemma Tx_New_decoded (p : Plasma D) body tx : tx_UnmarshalJSON body = Ret (inl tx) ->
  (is_Some (Get (Pl_TxPool p) (Transaction_Hash tx)) -> Tx_New p body = Ret (p, refused errKnownTx)) /\
  (forall err, Get (Pl_TxPool p) (Transaction_Hash tx) = None -> tv_Validate (pl_validator p) tx = Ret (Some err) ->
     Tx_New p body = Ret (p, refused err)).
Proof.
  intros E. unfold Tx_New. rewrite E. cbn [gbind]. unfold AddLocal, add, Get. split.
  - intros [tx0 Ht]. rewrite Ht. cbn [gbind]. by rewrite same_pool.
  - intros err Hn Hv. rewrite Hn, Hv. cbn [gbind]. by rewrite same_pool.
Qed.

(** C18. A transfer made on the command line, on a node whose chain id is the positive
    one it is signed for, naming an output of a block other than 0, with a transaction
    of legal size. The command posts the transaction. If the pool has it already the
    answer is the error for a known transaction; otherwise it is accepted if and only
    if the fee is positive and the ledger holds the named output, owned by the key
    that signs and worth the amount and the fee, and refused with an error that leaves
    the node as it was if not. Once accepted it is at the end of the pool's queue,
    under its hash, the chain is as it was, and posting it again is refused. (The
    second output is zero, which [Validate] takes for an unused one.) *)
Theorem transfer_accepted (p : Plasma D) c k f tx body :
  0 < c < 2 ^ 64 -> config_ChainID (pl_chainConfig p) = Some c -> inv (ChainDb p) ->
  UTXOID_okb (flags_id f) = true -> f_blockNum f <> 0 -> 0 <= f_amount f ->
  SignTx (makeTx f) (NewEIP155Signer (Some c)) k (Some k) = Ret (inl tx) ->
  Transaction_Size tx <= 32768 -> tx_MarshalJSON tx = inl body ->
  transfer c (inl k) f = Ret (Some body) /\
  (is_Some (Get (Pl_TxPool p) (Transaction_Hash tx)) -> Tx_New p body = Ret (p, refused errKnownTx)) /\
  (Get (Pl_TxPool p) (Transaction_Hash tx) = None ->
     if decide (0 < f_fee f /\ view (ChainDb p) !! flags_id f = Some (address_of_key k, f_amount f + f_fee f))
     then exists p', Tx_New p body = Ret (p', OK None) /\
       Content (Pl_TxPool p') = Content (Pl_TxPool p) ++ [tx] /\
       Get (Pl_TxPool p') (Transaction_Hash tx) = Some tx /\
       Pl_BlockChain p' = Pl_BlockChain p /\ Tx_New p' body = Ret (p', refused errKnownTx)
     else exists err, Tx_New p body = Ret (p, refused err)).
Proof.
  intros Hc Hcid Hinv Hok Hb Ha Hs Hsz Hj.
  destruct (makeTx_valid (pl_validator p) c k f tx) as (e & Hv & He); [lia|cbn; unfold node_signer; by rewrite Hcid|done..|].
  change (tv_Validate (pl_validator p) tx = Ret e) in Hv.
  assert (Hun : tx_UnmarshalJSON body = Ret (inl tx)).
  { unfold tx_UnmarshalJSON. unfold tx_MarshalJSON in Hj. rewrite (json_roundtrip _ _ _ Hj).
    by rewrite (UnmarshalJSON_signed c _ k k tx Hc Hs). }
  split; [unfold transfer; rewrite Hs; cbn [gbind]; by rewrite Hj|].
  split; [by apply Tx_New_decoded|]. intros Hnew. case_decide as Hd.
  - assert (e = None) as -> by (by apply He).
    destruct (add_accepts (pl_validator p) (Pl_TxPool p) tx (negb (NoLocals (tp_config (Pl_TxPool p)))) Hnew Hv)
      as (pool & Ea & Eq & Eall).
    exists (pl_set_worker p (worker_set_pool (pl_worker p) pool)).
    assert (Hp : Pl_TxPool (pl_set_worker p (worker_set_pool (pl_worker p) pool)) = pool /\
      Pl_BlockChain (pl_set_worker p (worker_set_pool (pl_worker p) pool)) = Pl_BlockChain p).
    { unfold Pl_TxPool, Pl_BlockChain. by destruct p as [? ? [|] ? ? ?]. }
    destruct Hp as [Hp Hbc]. split_and!; [|by rewrite Hp|by rewrite Hp|done|].
    + unfold Tx_New. rewrite Hun. cbn [gbind]. unfold AddLocal. by rewrite Ea.
    + apply (proj1 (Tx_New_decoded _ _ _ Hun)). unfold Get in Eall |- *. rewrite Hp, Eall. eauto.
  - destruct e as [err|]; [|by destruct Hd; apply He]. exists err. by apply (proj2 (Tx_New_decoded _ _ _ Hun) err).
Qed.
End Transfer.
