(* ===== verification/Command.v ===== *)
(** cmd/root.go, cmd/node/node.go, cmd/client/transfer.go, cmd/generatepk,
    network/node.go, network/rpcserver.go and network/httpserver.go: what the process
    does before and around the node of [Http.v]. Cobra, viper, the listeners, the key
    files and libp2p are arguments; what the handlers do with a request is in
    [Http.v]. *)

From stdpp Require Import pretty.
From S2P Require Import Prelude Deps Types Signing Store Schema RawDB Utxo Validation HeaderChain.
From S2P Require Import BlockChain TxPool RootChain Operator Genesis Network Handlers Config Plasma Http.
#[local] Open Scope Z_scope.

(** * Configuration *)

(** viper: a store of values that files are read into. *)
Class ViperOps (V : Type) : Type := {
  viper_GetString : V -> string -> string;
  viper_GetInt64 : V -> string -> Z;
  viper_GetStringSlice : V -> string -> list string;
  viper_AutomaticEnv : V -> V;
  viper_AddConfigPath : V -> string -> V;
  viper_SetConfigName : V -> string -> V;
  viper_SetConfigFile : V -> string -> V;
  viper_ReadInConfig : V -> V * option error
}.

(** Its documentation: a key nobody set has the zero value of the type, and a file
    that cannot be read sets nothing; looking around sets nothing either. *)
Class ViperLaws (V : Type) `{ViperOps V} (unset : V -> Prop) : Prop := {
  unset_string v k : unset v -> viper_GetString v k = "";
  unset_int v k : unset v -> viper_GetInt64 v k = 0;
  unset_env v : unset v -> unset (viper_AutomaticEnv v);
  unset_path v p : unset v -> unset (viper_AddConfigPath v p);
  unset_name v n : unset v -> unset (viper_SetConfigName v n);
  unset_file v f : unset v -> unset (viper_SetConfigFile v f);
  unset_failed v v' err : unset v -> viper_ReadInConfig v = (v', Some err) -> unset v'
}.

Section Configuration.
Context {V L : Type} `{ViperOps V}.

(** [initConfig] of the root command: a file that cannot be loaded is printed. *)
Definition root_initConfig (cfgFile : string) (v : V) : V :=
  let v := viper_AutomaticEnv v in
  if bool_decide (cfgFile = "") then v
  else (viper_ReadInConfig (viper_SetConfigFile v cfgFile)).1.

(** The end of both subcommands' [initConfig]: the logger's level, from
    [log.ParseLevel]; an unknown one is logged. *)
Definition set_level (ParseLevel : string -> L + error) (v : V) (level : L) : L :=
  let slvl := viper_GetString v "logger.level" in
  if (0 <? String.length slvl)%nat then
    match ParseLevel slvl with
    | inl lvl => lvl
    | inr _ => level
    end
  else level.

(** cmd/node [initConfig]: [homedir.Dir] and the [config] flag are arguments. *)
Definition node_initConfig (ParseLevel : string -> L + error) (home : string + error) (cfgFile : string)
    (v : V) (level : L) : V * L * option error :=
  if bool_decide (cfgFile = "") then
    match home with
    | inr err => (v, level, Some err)
    | inl home =>
        let v := viper_AddConfigPath v "." in
        let v := viper_AddConfigPath v home in
        let v := viper_SetConfigName v ".plasma" in
        match viper_ReadInConfig v with
        | (v, None) => (v, set_level ParseLevel v level, None)
        | (v, Some err) => (v, level, Some err)
        end
    end
  else (v, set_level ParseLevel v level, None).

(** cmd/client [initConfig]. *)
Definition client_initConfig (ParseLevel : string -> L + error) (cfgFile : string) (v : V) (level : L)
  : V * L * option error :=
  if bool_decide (cfgFile = "") then
    let v := viper_AddConfigPath v "." in
    let v := viper_SetConfigName v ".client" in
    match viper_ReadInConfig v with
    | (v, None) => (v, set_level ParseLevel v level, None)
    | (v, Some err) => (v, level, Some err)
    end
  else (v, set_level ParseLevel v level, None).
End Configuration.

(** * The servers *)

(** [net.Listen] and what [Accept] returns, in order: connections or errors. *)
Record RPCConfig (M : Type) : Type := mkRPCConfig {
  rpc_Proto : string;
  rpc_Port : Z;
  rpc_Methods : gmap string M
}.
Arguments mkRPCConfig {M} _ _ _.
Arguments rpc_Proto {M} _.
Arguments rpc_Port {M} _.
Arguments rpc_Methods {M} _.

(** The server returned keeps the listener and not its configuration. *)
Record RPCServer (Ls M : Type) : Type := mkRPCServer {
  rpc_l : Ls;
  rpc_config : option (RPCConfig M)
}.
Arguments mkRPCServer {Ls M} _ _.
Arguments rpc_l {Ls M} _.
Arguments rpc_config {Ls M} _.

Section Servers.
Context {Ls M Cn : Type} (Listen : string -> string -> Ls + error).

(** [suitable]: the type of the value has a method net/rpc can call. *)
Context (suitable : M -> bool).

Definition errNoMethods : error := ErrMsg "no rpc methods found in config".

(** [register]: the services net/rpc's default server holds after it. A name that
    is taken and a value without a suitable method are refused, the error dropped. *)
Definition register (registered methods : gmap string M) : gmap string M :=
  registered ∪ filter (fun e => suitable e.2 = true) methods.

Definition ServeRPC (registered : gmap string M) (c : RPCConfig M) : gmap string M * (RPCServer Ls M + error) :=
  if decide (size (rpc_Methods c) = 0%nat) then (registered, inr errNoMethods)
  else
    match Listen (rpc_Proto c) (":" +:+ pretty (rpc_Port c)) with
    | inr err => (registered, inr err)
    | inl l => (register registered (rpc_Methods c), inl (mkRPCServer l None))
    end.

(** The loop of [rpc] over what [Accept] returned: the connections that get a
    codec. *)
Definition rpc_accept (accepted : list (Cn + error)) : list Cn :=
  fold_left (fun served a => match a with inl conn => served ++ [conn] | inr _ => served end) accepted [].

(** [calls] and [startRPC]. *)
Definition calls (fakeService : M) : gmap string M := <["fake" := fakeService]> ∅.

Definition startRPC {V} `{ViperOps V} (fakeService : M) (v : V) (registered : gmap string M)
  : gmap string M * (RPCServer Ls M + error) :=
  ServeRPC registered (mkRPCConfig (viper_GetString v "rpcserver.proto") (viper_GetInt64 v "rpcserver.port")
                         (calls fakeService)).

(** [HTTPServer]: [hs_s] is set once it listens. *)
Record HTTPServer (P : Type) : Type := mkHTTPServer {
  hs_Port : Z;
  hs_Plasma : P;
  hs_s : option Ls
}.

Definition HTTPServer_Start {P} (hs : HTTPServer P) : HTTPServer P * option error :=
  match Listen "tcp" (":" +:+ pretty (hs_Port _ hs)) with
  | inr err => (hs, Some err)
  | inl l => (mkHTTPServer P (hs_Port _ hs) (hs_Plasma _ hs) (Some l), None)
  end.

(** [Shutdown] of a server that never listened is a nil dereference. *)
Definition HTTPServer_Shutdown {P} (hs : HTTPServer P) : go (HTTPServer P) :=
  let! _ := deref (hs_s _ hs) in
  Ret hs.

Definition startHTTP {V P} `{ViperOps V} (v : V) (plasma : P) : HTTPServer P + error :=
  match HTTPServer_Start (mkHTTPServer P (viper_GetInt64 v "httpserver.port") plasma None) with
  | (_, Some err) => inr err
  | (hs, None) => inl hs
  end.
End Servers.
Arguments mkHTTPServer {Ls P} _ _ _.
Arguments hs_Port {Ls P} _.
Arguments hs_Plasma {Ls P} _.
Arguments hs_s {Ls P} _.

(** * The host *)

Section Host.
Context {V Key Hst : Type} `{ViperOps V}.

(** libp2p, as [makeRoutedHost] uses it. *)
Record Libp2p : Type := mkLibp2p {
  base64_DecodeString : string -> bytes;
  UnmarshalPrivateKey : bytes -> Key + error;
  libp2p_New : string -> Key -> Hst + error;
  host_Addrs : Hst -> list string
}.

(** [makeRoutedHost]: the error of the base64 decoder is overwritten; the address
    that is logged is the first one. [bootstrapConnect] returns no error. *)
Definition makeRoutedHost (lib : Libp2p) (InfoFromP2pAddr : string -> option PeerID)
    (Connect : PeerID -> option error) (v : V) (listenPort : Z) : go (Hst + error) :=
  let privKeyByte := base64_DecodeString lib (viper_GetString v "plasma.privKey") in
  match UnmarshalPrivateKey lib privKeyByte with
  | inr err => Ret (inr err)
  | inl priv =>
      match libp2p_New lib ("/ip4/127.0.0.1/tcp/" +:+ pretty listenPort) priv with
      | inr err => Ret (inr err)
      | inl basicHost =>
          let! _ := bootstrapConnect InfoFromP2pAddr Connect (viper_GetStringSlice v "plasma.bootstrapPeers") in
          let! _ := index (host_Addrs lib basicHost) 0 in
          Ret (inl basicHost)
      end
  end.

(** cmd/generatepk: key generation, its encodings, and the peer id. *)
Record KeyTool : Type := mkKeyTool {
  GenerateKeyPair : Key + error;
  Key_Bytes : Key -> bytes + error;
  base64_EncodeToString : bytes -> string;
  IDFromPrivateKey : Key -> string + error
}.

(** The lines it prints; an error is formatted and dropped. *)
Definition generatepk_main (kt : KeyTool) : list string :=
  match GenerateKeyPair kt with
  | inr _ => []
  | inl priv =>
      match Key_Bytes kt priv with
      | inr _ => []
      | inl privkeyb =>
          ("privkey: " +:+ base64_EncodeToString kt privkeyb) ::
          match IDFromPrivateKey kt priv with
          | inr _ => []
          | inl peerid => ["peerid: " +:+ peerid]
          end
      end
  end.

(** The key it prints, put into the configuration, is the one the host is made
    with. *)
Lemma generated_key_used lib kt InfoFromP2pAddr Connect v port key b text lines :
  (forall b, base64_DecodeString lib (base64_EncodeToString kt b) = b) ->
  (forall k b, Key_Bytes kt k = inl b -> UnmarshalPrivateKey lib b = inl k) ->
  GenerateKeyPair kt = inl key -> Key_Bytes kt key = inl b ->
  generatepk_main kt = ("privkey: " +:+ text) :: lines -> viper_GetString v "plasma.privKey" = text ->
  makeRoutedHost lib InfoFromP2pAddr Connect v port =
    match libp2p_New lib ("/ip4/127.0.0.1/tcp/" +:+ pretty port) key with
    | inr err => Ret (inr err)
    | inl h =>
        let! _ := bootstrapConnect InfoFromP2pAddr Connect (viper_GetStringSlice v "plasma.bootstrapPeers") in
        let! _ := index (host_Addrs lib h) 0 in
        Ret (inl h)
    end.
Proof.
  intros H64 Hk Hg Hb Hm Hv. unfold generatepk_main in Hm. rewrite Hg, Hb in Hm. injection Hm as Ht _.
  assert (E : base64_EncodeToString kt b = text) by exact Ht.
  unfold makeRoutedHost. rewrite Hv, <- E, H64, (Hk key b Hb). done.
Qed.
End Host.

(** * The node command *)

Section NodeCommand.
Context {V : Type} `{ViperOps V}.

(** The contract file as [Start] reads it: opened, decoded, its ABI encoded again. *)
Definition read_abi {F X} (Open : string -> F + error) (Decode : F -> X + error) (Marshal : X -> string + error)
    (cxFileName : string) : string + error :=
  match Open cxFileName with
  | inr err => inr err
  | inl file =>
      match Decode file with
      | inr err => inr err
      | inl abi => Marshal abi
      end
  end.

(** The values [Start] reads. *)
Definition node_viper (abi : string -> string + error) (v : V) : Viper :=
  mkViper (viper_GetString v "plasma.datadir") (viper_GetInt64 v "plasma.networkId")
    (viper_GetString v "rootchain.url") (viper_GetString v "rootchain.cxAddr")
    (viper_GetString v "rootchain.operPwd") (viper_GetString v "rootchain.keystorePath")
    (viper_GetInt64 v "p2pserver.port") (abi (viper_GetString v "rootchain.cxFileName")).

(** [NodeCmd.Run]: an error of [Start] ends the process. *)
Definition NodeCmd_Run {N} (Start : go (N + error)) : go N :=
  let! r := Start in
  match r with
  | inr _ => Stop Fatal
  | inl n => Ret n
  end.

(** [waitForExit] takes the first of the two signals it asked for; [cleanup] logs.
    The rest of the signals is what it did not take. *)
Inductive os_signal : Type := Interrupt | Kill | OtherSignal.
Fixpoint waitForExit (signals : list os_signal) : go (list os_signal) :=
  match signals with
  | [] => Stop BlockedForever
  | OtherSignal :: rest => waitForExit rest
  | _ :: rest => Ret rest
  end.

(** [Execute]: an error of the command is the exit code 1. *)
Definition Execute (run : go (option error)) : go Z :=
  let! err := run in
  Ret (match err with Some _ => 1 | None => 0 end).
End NodeCommand.

(** * The transfer command *)

Section TransferCommand.
Context {V L : Type} `{ViperOps V} `{EthCommon} `{Crypto} `{Rlp sigpayload} `{Rlp txdata} `{RlpStream} `{TxJson}
  {unset : V -> Prop} {viper_laws : ViperLaws V unset}.

(** The file system, [keystore.DecryptKey] and [http.Post]. *)
Record ClientWorld : Type := mkClientWorld {
  cw_ReadFile : string -> bytes + error;
  cw_DecryptKey : bytes -> string -> PrivateKey + error;
  cw_Post : string -> bytes -> bytes + error
}.

Definition getPrivateKey (w : ClientWorld) (v : V) : PrivateKey + error :=
  match cw_ReadFile w (viper_GetString v "account.keyfile") with
  | inr err => inr err
  | inl buf => cw_DecryptKey w buf (viper_GetString v "account.pwd")
  end.

Definition getPlasmaChainID (v : V) : Z := viper_GetInt64 v "plasma.chainID".

(** [send]: the message posted, if it got that far. The error of [http.Post] is
    logged, and the nil response dumped. *)
Definition send_tx (w : ClientWorld) (v : V) (tx : Transaction) : go (option (string * bytes)) :=
  match tx_MarshalJSON tx with
  | inr _ => Ret None
  | inl buf =>
      let url := viper_GetString v "httpserver.url" +:+ "tx/new" in
      let resp := match cw_Post w url buf with inl resp => Some resp | inr _ => None end in
      let! _ := deref resp in
      Ret (Some (url, buf))
  end.

(** [TransferCmd.Run]. *)
Definition TransferCmd_Run (w : ClientWorld) (v : V) (f : Flags) : go (option (string * bytes)) :=
  let chainID := getPlasmaChainID v in
  match getPrivateKey w v with
  | inr _ => Ret None
  | inl key =>
      let signer := NewEIP155Signer (Some chainID) in
      let! tx := SignTx (makeTx f) signer key (Some key) in
      match tx with
      | inr _ => Ret None
      | inl tx => send_tx w v tx
      end
  end.

(** [PreRunE] and [Run], under the root command with its [--config] flag. *)
Definition transfer_command (ParseLevel : string -> L + error) (w : ClientWorld) (cfgFile : string)
    (v : V) (level : L) (f : Flags) : go (option error * option (string * bytes)) :=
  let v := root_initConfig cfgFile v in
  match client_initConfig ParseLevel cfgFile v level with
  | (_, _, Some err) => Ret (Some err, None)
  | (v, _, None) => let! sent := TransferCmd_Run w v f in Ret (None, sent)
  end.

(** The command posts what [transfer] makes, to the configured server. *)
Lemma TransferCmd_posts w v f body resp :
  transfer (getPlasmaChainID v) (getPrivateKey w v) f = Ret (Some body) ->
  cw_Post w (viper_GetString v "httpserver.url" +:+ "tx/new") body = inl resp ->
  TransferCmd_Run w v f = Ret (Some (viper_GetString v "httpserver.url" +:+ "tx/new", body)).
Proof.
  unfold transfer, TransferCmd_Run, send_tx. destruct (getPrivateKey w v) as [k|]; [|done].
  intros E Hp. apply gbind_Ret in E as [[tx|] [-> E]]; [|done]. cbn [gbind].
  destruct (tx_MarshalJSON tx) as [buf|]; [|done]. injection E as ->. by rewrite Hp.
Qed.

(** A server that cannot be reached ends the command in a nil dereference. *)
Lemma TransferCmd_unreachable w v f body err :
  transfer (getPlasmaChainID v) (getPrivateKey w v) f = Ret (Some body) ->
  cw_Post w (viper_GetString v "httpserver.url" +:+ "tx/new") body = inr err ->
  TransferCmd_Run w v f = Stop NilDeref.
Proof.
  unfold transfer, TransferCmd_Run, send_tx. destruct (getPrivateKey w v) as [k|]; [|done].
  intros E Hp. apply gbind_Ret in E as [[tx|] [-> E]]; [|done]. cbn [gbind].
  destruct (tx_MarshalJSON tx) as [buf|]; [|done]. injection E as ->. by rewrite Hp.
Qed.

Lemma root_unset cfgFile v err : unset v -> cfgFile <> "" ->
  (viper_ReadInConfig (viper_SetConfigFile (viper_AutomaticEnv v) cfgFile)).2 = Some err ->
  unset (root_initConfig cfgFile v).
Proof using viper_laws.
  intros Hu Hc He. unfold root_initConfig. rewrite bool_decide_false by done.
  destruct (viper_ReadInConfig _) as [v' e] eqn:E. cbn [fst snd] in *. subst e.
  eapply unset_failed; [|exact E]. by apply unset_file, unset_env.
Qed.

(** A configuration file that cannot be loaded does not stop the transfer
    command when it was named with [--config]: the root command prints the error and
    goes on, and the subcommand takes the file for loaded. The command then runs with
    every value unset: with chain id 0, on the key file named by the empty string and
    to the URL "tx/new"; and it ends in a nil dereference if that cannot be posted
    to. Without [--config] the same failure is reported. *)
Lemma unreadable_config_ignored ParseLevel w v level f cfgFile err :
  unset v -> cfgFile <> "" ->
  (viper_ReadInConfig (viper_SetConfigFile (viper_AutomaticEnv v) cfgFile)).2 = Some err ->
  transfer_command ParseLevel w cfgFile v level f =
    (let! sent := TransferCmd_Run w (root_initConfig cfgFile v) f in Ret (None, sent)) /\
  getPlasmaChainID (root_initConfig cfgFile v) = 0 /\
  getPrivateKey w (root_initConfig cfgFile v) =
    match cw_ReadFile w "" with inl buf => cw_DecryptKey w buf "" | inr err => inr err end /\
  (forall k body, getPrivateKey w (root_initConfig cfgFile v) = inl k -> transfer 0 (inl k) f = Ret (Some body) ->
     (exists e, cw_Post w "tx/new" body = inr e) ->
     transfer_command ParseLevel w cfgFile v level f = Stop NilDeref) /\
  ((viper_ReadInConfig (viper_SetConfigName (viper_AddConfigPath (viper_AutomaticEnv v) ".") ".client")).2 = Some err ->
   transfer_command ParseLevel w "" v level f = Ret (Some err, None)).
Proof using viper_laws.
  intros Hu Hc He. pose proof (root_unset cfgFile v err Hu Hc He) as Hr.
  assert (E : transfer_command ParseLevel w cfgFile v level f =
    (let! sent := TransferCmd_Run w (root_initConfig cfgFile v) f in Ret (None, sent))).
  { unfold transfer_command, client_initConfig. by rewrite bool_decide_false by done. }
  assert (Hid : getPlasmaChainID (root_initConfig cfgFile v) = 0) by (by apply unset_int).
  split; [done|]. split; [done|]. split.
  { unfold getPrivateKey. by rewrite !unset_string. }
  split.
  - intros k body Hk Ht [e Hp]. rewrite E, (TransferCmd_unreachable _ _ _ body e); [done|by rewrite Hk, Hid|].
    by rewrite unset_string.
  - intros Hf. unfold transfer_command, client_initConfig, root_initConfig. rewrite !bool_decide_true by done.
    cbn zeta. destruct (viper_ReadInConfig (viper_SetConfigName _ _)) as [v' e']. cbn [snd] in Hf. by rewrite Hf.
Qed.
End TransferCommand.
