(* ===== verification/Instances.v ===== *)
(** Concrete members of the classes of [Deps.v], [Store.v] and [RootChain.v]: small
    executable stand-ins that satisfy the stated behaviour, so that the theorems
    can be run on concrete inputs. *)

From S2P Require Import Prelude Deps Types Signing Store Schema RawDB Utxo Validation HeaderChain.
From S2P Require Import BlockChain TxPool RootChain Operator Conservation Sealing Merkle.
From S2P Require Import Genesis Network Handlers Plasma Http Replica Exchange Command.
#[local] Open Scope Z_scope.

(** * Byte strings *)

Definition mk32 (z : Z) : Hash := FArray (be_put 32 z) (proj2 (Nat.eqb_eq _ _) (length_be_put 32 z)).

Lemma arr_mk32 z : arr (mk32 z) = be_put 32 z.
Proof. done. Qed.

#[export] Instance toy_EthCommon : EthCommon := {
  BytesToHash := fun l => default (mk32 (be_val l)) (farray_of 32 l);
  BytesToAddress := fun l => default zeroAddress (farray_of 20 l)
}.

#[export] Instance toy_EthCommonLaws : EthCommonLaws.
Proof. split; intros x; simpl; by rewrite farray_of_arr. Qed.

(** * RLP: any countable type, one byte per bit of its code *)

Fixpoint bits_put (p : positive) : bytes :=
  match p with
  | xH => [Byte.x01]
  | xO p => Byte.x02 :: bits_put p
  | xI p => Byte.x03 :: bits_put p
  end.

Fixpoint bits_val (l : bytes) : option positive :=
  match l with
  | [Byte.x01] => Some xH
  | Byte.x02 :: l => xO <$> bits_val l
  | Byte.x03 :: l => xI <$> bits_val l
  | _ => None
  end.

Lemma bits_val_put p : bits_val (bits_put p) = Some p.
Proof.
  induction p as [p IH|p IH|]; simpl; [| |done].
  - rewrite IH. by destruct (bits_put p).
  - rewrite IH. by destruct (bits_put p).
Qed.

#[export] Instance toy_Rlp A `{Countable A} : Rlp A := {
  rlp_EncodeToBytes := fun x => Some (bits_put (encode x));
  rlp_DecodeBytes := fun b => match bits_val b with Some p => decode p | None => None end
}.

#[export] Instance toy_RlpLaws A `{Countable A} (ok : A -> Prop) : RlpLaws A ok.
Proof.
  split. intros x _. exists (bits_put (encode x)). split_and!; [done|by destruct (encode x)|].
  simpl. by rewrite bits_val_put, decode_encode.
Qed.

Lemma fill_all_ok (ds : list txdata) : forallb txdata_okb ds = true -> fill_txdata <$> ds = ds.
Proof.
  intros Hok. rewrite <- (list_fmap_id ds) at 2. apply list_fmap_ext. intros i d Hd. apply fill_txdata_ok.
  apply (proj1 (forallb_forall _ _) Hok), list_elem_of_In. by eapply list_elem_of_lookup_2.
Qed.

(** Transactions, alone and in lists, and what is signed: nil integers as zeros. *)
Definition rlp_by {A} `{Countable A} (norm : A -> A) : Rlp A := {|
  rlp_EncodeToBytes := fun x => Some (bits_put (encode (norm x)));
  rlp_DecodeBytes := fun b => bits_val b ≫= decode
|}.

Lemma rlp_by_laws {A} `{Countable A} (norm : A -> A) (ok : A -> Prop) : (forall x, ok x -> norm x = x) ->
  @RlpLaws A (rlp_by norm) ok.
Proof.
  intros Hn. split. intros x Hx. eexists. split; [done|]. cbn [rlp_DecodeBytes rlp_by]. rewrite (Hn x Hx).
  split; [by destruct (encode x)|]. rewrite bits_val_put. cbn. by rewrite decode_encode.
Qed.

#[export] Instance toy_Rlp_tx : Rlp txdata := rlp_by fill_txdata.
#[export] Instance toy_Rlp_txs : Rlp (list txdata) := rlp_by (fmap fill_txdata).
#[export] Instance toy_Rlp_payload : Rlp sigpayload := rlp_by fill_payload.

#[export] Instance toy_Rlp_tx_laws : RlpLaws txdata txdata_ok.
Proof. apply rlp_by_laws. exact fill_txdata_ok. Qed.
#[export] Instance toy_Rlp_txs_laws : RlpLaws (list txdata) (fun ds => forallb txdata_okb ds = true).
Proof. apply rlp_by_laws. exact fill_all_ok. Qed.

#[export] Instance toy_RlpNilTxLaws : RlpNilTxLaws.
Proof. split. intros d. cbn. by rewrite fill_txdata_idem. Qed.
#[export] Instance toy_RlpNilListLaws : RlpNilListLaws.
Proof.
  split. intros ds. cbn. do 3 f_equal. rewrite <- list_fmap_compose. apply list_fmap_ext.
  intros i d _. symmetry. apply fill_txdata_idem.
Qed.
#[export] Instance toy_RlpNilSigLaws : RlpNilSigLaws.
Proof. split. intros [[[|] [|]] [[|] [|]] ? ?]; done. Qed.

(** The body of a block, with its nil integers as zeros. *)
#[export] Instance toy_Rlp_body : Rlp rlpBody := {
  rlp_EncodeToBytes := fun b => Some (bits_put (encode (fill_txdata <$> rb_Transactions b)));
  rlp_DecodeBytes := fun b => mkRlpBody <$> (bits_val b ≫= decode)
}.

#[export] Instance toy_Rlp_body_laws : RlpLaws rlpBody rlpBody_ok.
Proof.
  split. intros [ds] Hok. cbn in Hok.
  eexists. split; [done|]. cbn. rewrite (fill_all_ok ds Hok). split; [by destruct (encode ds)|].
  rewrite bits_val_put. cbn. by rewrite decode_encode.
Qed.

#[export] Instance toy_RlpNilLaws : RlpNilLaws.
Proof.
  split. intros ds. cbn. do 3 f_equal. rewrite <- list_fmap_compose. apply list_fmap_ext.
  intros i d _. symmetry. apply fill_txdata_idem.
Qed.

(** A whole block, likewise. *)
#[export] Instance toy_Rlp_block : Rlp extblock := {
  rlp_EncodeToBytes := fun b => Some (bits_put (encode (mkExtblock (eb_Header b) (fill_txdata <$> eb_Txs b))));
  rlp_DecodeBytes := fun b => bits_val b ≫= decode
}.

#[export] Instance toy_Rlp_block_laws : RlpLaws extblock extblock_ok.
Proof.
  split. intros [h ds] Hok. cbn [eb_Header eb_Txs] in Hok. apply andb_true_iff in Hok as [_ Hok].
  eexists. split; [done|]. cbn [eb_Header eb_Txs]. rewrite (fill_all_ok ds Hok).
  split; [by destruct (encode _)|]. cbn. rewrite bits_val_put. cbn. by rewrite decode_encode.
Qed.

#[export] Instance toy_RlpNilBlockLaws : RlpNilBlockLaws.
Proof.
  split. intros h ds. cbn. do 4 f_equal. rewrite <- list_fmap_compose. apply list_fmap_ext.
  intros i d _. symmetry. apply fill_txdata_idem.
Qed.

#[export] Instance toy_RlpStream : RlpStream := {
  rlp_Kind_size := fun b => Z.of_nat (length b);
  rlp_ListSize := fun n => n
}.

#[export] Instance toy_RlpStreamLaws A `{Rlp A} : RlpStreamLaws A.
Proof. split. done. Qed.

(** * Cryptography: a polynomial hash, signatures that carry their key *)

Definition toy_keccak (l : bytes) : Hash :=
  mk32 (fold_left (fun acc b => (acc * 257 + byteZ b + 1) mod (2 ^ 61 - 1)) l 7).

Definition toy_r (k : byte) : Hash := mk32 (byteZ k + 1).
Definition toy_s : Hash := mk32 1.
Definition toy_sig (k : byte) : bytes := arr (toy_r k) ++ arr toy_s ++ [Byte.x00].
Definition toy_pub (k : byte) : bytes := Byte.x04 :: arr (toy_r k).
Definition toy_valid (v : byte) (r s : Z) : bool :=
  ((byteZ v =? 0) || (byteZ v =? 1)) && (1 <=? r) && (1 <=? s).

#[export] Instance toy_Crypto : Crypto := {
  PrivateKey := byte;
  keccak256 := toy_keccak;
  crypto_Sign := fun h k => inl (toy_sig k);
  crypto_Ecrecover := fun h sig => inl (Byte.x04 :: take 32 sig);
  crypto_ValidateSignatureValues := fun v r s _ => toy_valid v r s;
  FromECDSAPub := toy_pub
}.

Lemma toy_r_val k : be_val (arr (toy_r k)) = byteZ k + 1.
Proof.
  unfold toy_r. rewrite arr_mk32, be_val_put. pose proof (byteZ_range k). apply Z.mod_small. lia.
Qed.

Lemma toy_valid_sig k : toy_valid Byte.x00 (be_val (arr (toy_r k))) (be_val (arr toy_s)) = true.
Proof.
  rewrite toy_r_val. pose proof (byteZ_range k). unfold toy_valid.
  rewrite (proj2 (Z.leb_le 1 (byteZ k + 1))) by lia. reflexivity.
Qed.

Lemma toy_recover k : Byte.x04 :: take 32 (toy_sig k) = toy_pub k.
Proof. unfold toy_sig, toy_pub. by rewrite take_app_length' by (by rewrite length_arr). Qed.

#[export] Instance toy_CryptoLaws : CryptoLaws.
Proof.
  split.
  - intros h k sig E. apply (inj inl) in E. subst sig. exists (toy_r k), toy_s, Byte.x00.
    split; [reflexivity|]. split; [left; reflexivity|]. exact (toy_valid_sig k).
  - intros h k sig E. apply (inj inl) in E. subst sig. exact (f_equal inl (toy_recover k)).
  - intros k. reflexivity.
  - intros v r s hs Hrs. change (toy_valid v r s = false). unfold toy_valid.
    destruct (Z.leb_spec 1 r), (Z.leb_spec 1 s); try lia; by rewrite ?andb_false_r.
  - intros v r s hs Hv. change (toy_valid v r s = true) in Hv. unfold toy_valid in Hv.
    apply andb_true_iff in Hv as [Hv _]. apply andb_true_iff in Hv as [Hv _].
    apply orb_true_iff in Hv as [Hv|Hv]; apply Z.eqb_eq in Hv; auto.
Qed.

(** * Trie, copier, caches *)

#[export] Instance toy_Trie : Trie := {
  trie := list (bytes * bytes);
  trie_new := [];
  trie_Update := fun t k v => t ++ [(k, v)];
  trie_Hash := fun t => toy_keccak (concat ((fun p => p.1 ++ p.2) <$> t))
}.

#[export] Instance toy_Copier : Copier := { copier_Copy := fun A x => Some x }.
#[export] Instance toy_CopierLaws : CopierLaws.
Proof. by split. Qed.

#[export] Instance toy_LRU : LRU := {
  lru := gmap Hash;
  lru_New := fun V _ => ∅;
  lru_Get := fun V c k => (c, c !! k);
  lru_Peek := fun V c k => c !! k;
  lru_Contains := fun V c k => bool_decide (is_Some (c !! k));
  lru_Add := fun V c k v => <[k := v]> c;
  lru_Keys := fun V c => (map_to_list c).*1;
  lru_Len := fun V c => size c
}.

Definition toy_lru_view (V : Type) (c : @lru toy_LRU V) : gmap Hash V := c.

#[export] Instance toy_LRULaws : LRULaws toy_lru_view.
Proof.
  split; try done. intros V c k. unfold toy_lru_view. simpl. rewrite list_elem_of_fmap. split.
  - intros ([k' v] & -> & Hin). apply elem_of_map_to_list in Hin. by eexists.
  - intros [v E]. exists (k, v). split; [done|]. by apply elem_of_map_to_list.
Qed.

(** * LevelDB: a map that never fails *)

#[export] Instance toy_LevelDB : LevelDB (gmap bytes bytes) (list wop) := {
  ldb_Put := fun l k v => (<[k := v]> l, None);
  ldb_Get := fun l k => match l !! k with Some v => inl v | None => inr (ErrExternal 1) end;
  ldb_Has := fun l k => (bool_decide (is_Some (l !! k)), None);
  ldb_Delete := fun l k => (delete k l, None);
  ldb_Write := fun l b => (apply_wops b l, None);
  ldb_Close := fun l => (l, None);
  batch_new := [];
  batch_Put := fun b k v => b ++ [WPut k v];
  batch_Delete := fun b k => b ++ [WDel k];
  batch_Reset := fun b => []
}.

Definition toy_view (l : gmap bytes bytes) : gmap bytes bytes := l.
Definition toy_ops (b : list wop) : list wop := b.

#[export] Instance toy_LevelDBLaws : LevelDBLaws (gmap bytes bytes) (list wop) toy_view toy_ops.
Proof.
  split; try done.
  - intros l k v E. simpl. unfold toy_view in E. by rewrite E.
  - intros l k E. simpl. unfold toy_view in E. rewrite E. eauto.
Qed.

Abbreviation toyDB := (list wop * LDBDatabase (gmap bytes bytes))%type.
Definition toy_abs : toyDB -> txstore := ldb_abs toy_view toy_ops.
Definition toy_inv : toyDB -> Prop := ldb_inv toy_ops.

#[export] Instance toy_DatabaseSpec : DatabaseSpec toyDB toy_abs toy_inv := ldb_refines toy_view toy_ops.

(** A database file with the given content. *)
Definition toy_db (m : gmap bytes bytes) : toyDB := ([], mkLDB "chaindata" m false).

(** * The root chain client *)

#[export] Instance toy_IcstChain : IcstChain := {
  icst_tx := Hash;
  icst_PubKeyToAddress := fun k => arr (address_of_pub (FromECDSAPub k));
  icst_submitBlock := fun _ _ root _ => inl root;
  icst_tx_Hash := fun h => h;
  icst_ConfirmTrans := fun _ _ => None
}.

#[export] Instance toy_ContractQuery : ContractQuery := {
  query_uint := fun _ _ name => (Some (if bool_decide (name = "currentChildBlock") then 2000 else 2), None);
  query_childChain := fun _ _ n => ((if n <=? 1001 then mk32 n else zeroHash, Some n), None);
  query_operator := fun _ _ => (zeroAddress, None)
}.

#[export] Instance toy_EventHash : EventHash := {
  event_json := fun ev =>
    match ev_V ev with
    | RootChain.Deposit e => Some (Byte.x01 :: be_put 32 (default 0 (DepositBlock e)))
    | BlockSubmitted e => Some (Byte.x02 :: be_put 32 (default 0 (SubmittedBlockNum e)))
    end;
  md5_Sum := fun l => FArray (be_put 16 (be_val l)) (proj2 (Nat.eqb_eq _ _) (length_be_put 16 (be_val l)))
}.

(** * Text, configurations, sets and JSON *)

#[export] Instance toy_Hexutil : Hexutil := {
  hexutil_MustDecode := fun s =>
    match hex_DecodeString (String.substring 2 (String.length s - 2) s) with inl b => Ret b | inr _ => Stop Panicked end;
  hexutil_Bytes_MarshalText := fun b => (b, None);
  hexutil_UnmarshalFixedText := fun _ input out => (out, None)
}.

#[export] Instance toy_Params : Params := {
  ChainConfig := Z;
  config_ChainID := Some;
  MainnetChainConfig := 1;
  TestnetChainConfig := 3;
  RinkebyChainConfig := 4;
  AllEthashProtocolChanges := 1337;
  AllCliqueProtocolChanges := 1338;
  MainnetGenesisHash := mk32 1;
  TestnetGenesisHash := mk32 3
}.

#[export] Instance toy_HashSet : HashSet := {
  hset := gset Hash;
  hset_New := ∅;
  hset_Has := fun s h => bool_decide (h ∈ s);
  hset_Size := fun s => Z.of_nat (size s);
  hset_Add := fun s h => {[ h ]} ∪ s;
  hset_Pop := fun s => match elements s with [] => s | x :: _ => s ∖ {[ x ]} end
}.

Definition toy_set_view (s : @hset toy_HashSet) : gset Hash := s.

Lemma toy_pop (s : gset Hash) : s <> ∅ ->
  exists x, x ∈ s /\ match elements s with [] => s | y :: _ => s ∖ {[ y ]} end = s ∖ {[ x ]}.
Proof.
  intros Hs. destruct (elements s) as [|x l] eqn:E.
  - destruct Hs. by apply leibniz_equiv, elements_empty_inv.
  - exists x. split; [|done]. apply elem_of_elements. rewrite E. by left.
Qed.

#[export] Instance toy_HashSetLaws : HashSetLaws toy_set_view.
Proof. split; try done. exact toy_pop. Qed.

#[export] Instance toy_GoRange : GoRange := { go_range := fun A l => l }.
#[export] Instance toy_GoRangeLaws : GoRangeLaws.
Proof. by split. Qed.

#[export] Instance toy_TxJson : TxJson := {
  json_Marshal := fun d _ => inl (bits_put (encode d));
  json_Unmarshal := fun b => match bits_val b ≫= decode with Some d => inl d | None => inr (ErrMsg "json") end
}.
#[export] Instance toy_TxJsonLaws : TxJsonLaws.
Proof. split. intros d h b [= <-]. cbn. rewrite bits_val_put. cbn. by rewrite decode_encode. Qed.

(** Settings, with no file to read them from. *)
Abbreviation settings := (gmap string string).

#[export] Instance toy_ViperOps : ViperOps settings := {
  viper_GetString := fun v k => default "" (v !! k);
  viper_GetInt64 := fun v k => match v !! k with Some s => Z.of_nat (String.length s) | None => 0 end;
  viper_GetStringSlice := fun v k => match v !! k with Some s => [s] | None => [] end;
  viper_AutomaticEnv := fun v => v;
  viper_AddConfigPath := fun v _ => v;
  viper_SetConfigName := fun v _ => v;
  viper_SetConfigFile := fun v _ => v;
  viper_ReadInConfig := fun v => (v, Some (ErrMsg "no such file"))
}.

#[export] Instance toy_ViperLaws : ViperLaws settings (fun v => v = ∅).
Proof. split; try done; [by intros v k ->|by intros v k ->|]. by intros v v' err -> [= <- _]. Qed.
