(* ===== verification/Scenario.v ===== *)
(** A small node: one key holds one output; transactions that spend it, and the
    operator and validator states the theorems are applied to. *)

From S2P Require Import Prelude Deps Types Signing Store Schema RawDB Utxo Validation HeaderChain.
From S2P Require Import BlockChain TxPool RootChain Operator Conservation Sealing Run Merkle.
From S2P Require Import Instances.
#[local] Open Scope Z_scope.

Definition signer1 : EIP155Signer := NewEIP155Signer (Some 1).
Definition alice_key : byte := Byte.x05.
Definition alice : Address := address_of_pub (toy_pub alice_key).
Definition bob : Address := address_of_pub (toy_pub Byte.x09).

(** Output 0 of transaction 0 of block 1000 holds 100 for alice. *)
Definition coin : UTXOID := mkUTXOID 1000 0 Byte.x00.
Definition coin_record : bytes := arr alice ++ big_Bytes 100.
Definition content0 : gmap bytes bytes := <[utxo_okey coin := coin_record]> ∅.
Definition db0 : toyDB := toy_db content0.

Definition spend (to : Address) (amount change : Z) : Transaction :=
  NewTransaction (Some (mkUTXO coin (mkTxOut zeroAddress (Some 0)))) (Some NewNullUTXO)
    (Some (mkTxOut to (Some amount))) (Some (mkTxOut alice (Some change))) (Some 10).

Definition sign (tx : Transaction) : Transaction :=
  match SignTx tx signer1 alice_key (Some alice_key) with
  | Ret (inl tx) => tx
  | _ => tx
  end.

(** 100 = 60 + 30 + 10. *)
Definition tx1 : Transaction := Eval vm_compute in sign (spend bob 60 30).
(** Spends the same output. *)
Definition tx2 : Transaction := Eval vm_compute in sign (spend bob 50 40).

Definition genesis : Block :=
  mkBlock (mkHeader zeroHash zeroAddress zeroHash (Some 0) (Some 0) []) [] None None None.

Definition hc0 : HeaderChain :=
  mkHeaderChain toy_LRU (Some 1) (Some (header genesis)) (Some (Some (header genesis))) zeroHash ∅ ∅.

Definition chain0 : BlockChain toyDB :=
  mkBlockChain (Some 1) db0 hc0 (Some genesis) (Some genesis) (Some genesis) ∅ ∅ ∅ ∅ ∅ false false [].

Definition pool0 (txs : list Transaction) : TxPool EIP155Signer :=
  mkTxPool DefaultTxPoolConfig signer1 ∅ None txs ∅
    (list_to_map ((fun tx => (Transaction_Hash tx, tx)) <$> txs)) None [].

Definition oper0 (txs : list Transaction) : Operator toyDB EIP155Signer :=
  mkOperator alice alice_key chain0 (pool0 txs) [] 1000 (Some []).

(** The block the operator seals from a batch. *)
Definition block_of (n : Z) (txs : list Transaction) : Block :=
  mkBlock (mkHeader zeroHash alice (txs_root txs) (Some n) (Some 0) []) txs None None (Some 0).

Definition valid0 : Validator toyDB := mkValidator chain0 [] 1000 (Some []).

(** * What holds of it *)

Definition in1 : UTXO := mkUTXO coin (mkTxOut zeroAddress (Some 0)).

Lemma tx1_parts : tx_parts tx1 in1 NewNullUTXO (mkTxOut bob (Some 60)) (mkTxOut alice (Some 30)) 10.
Proof. split_and!; reflexivity. Qed.
Lemma tx2_parts : tx_parts tx2 in1 NewNullUTXO (mkTxOut bob (Some 50)) (mkTxOut alice (Some 40)) 10.
Proof. split_and!; reflexivity. Qed.

Lemma tx1_sender : Sender signer1 tx1 = Ret ((alice, alice), None).
Proof. reflexivity. Qed.
Lemma tx2_sender : Sender signer1 tx2 = Ret ((alice, alice), None).
Proof. reflexivity. Qed.

Lemma content0_wf : utxos_wf content0.
Proof.
  apply utxos_wf_insert; [|apply Nat.leb_le; reflexivity|reflexivity].
  intros id v _ E. by rewrite lookup_empty in E.
Qed.

Lemma ledger0 : ledger_of content0 = {[coin := (alice, 100)]}.
Proof.
  unfold content0. rewrite ledger_insert by reflexivity. unfold coin_record.
  by rewrite utxo_out_of_written.
Qed.

Lemma checkable1 : tx_checkable signer1 tx1.
Proof. split; [do 5 eexists; exact tx1_parts|]. eexists. exact tx1_sender. Qed.
Lemma checkable2 : tx_checkable signer1 tx2.
Proof. split; [do 5 eexists; exact tx2_parts|]. eexists. exact tx2_sender. Qed.

Lemma applicable1 : tx_applicable tx1.
Proof. do 7 eexists. split; [exact tx1_parts|]. by split_and!. Qed.
Lemma applicable2 : tx_applicable tx2.
Proof. do 7 eexists. split; [exact tx2_parts|]. by split_and!. Qed.

Lemma rules1 size : size <= 32768 ->
  tx_rules {[coin := (alice, 100)]} (alice, alice) in1 NewNullUTXO
    (mkTxOut bob (Some 60)) (mkTxOut alice (Some 30)) 10 size.
Proof.
  intros Hs. split; try done. 2: by intros ?.
  intros _. exists 100. apply (lookup_singleton_eq coin).
Qed.

Lemma inv0 : us_inv toy_abs toy_inv db0.
Proof. split; [done|exact content0_wf]. Qed.

Lemma valid1 : Validate (NewUtxoTxValidator signer1 db0) tx1 = Ret None.
Proof.
  destruct (Validate_spec (us_view toy_abs) (us_inv toy_abs toy_inv) (NewUtxoTxValidator signer1 db0) tx1
    _ _ _ _ _ _ _ inv0 tx1_parts tx1_sender) as (e & -> & Hiff).
  f_equal. apply Hiff. split; [done|].
  change (us_view toy_abs _) with (ledger_of content0). rewrite ledger0. apply rules1.
  apply Z.leb_le. reflexivity.
Qed.

Lemma ready0 : ready toy_abs toy_inv chain0.
Proof. split; [done|done|exact content0_wf|]. by exists genesis, 0. Qed.

Lemma batch_ok_of txs : Forall (tx_checkable signer1) txs -> Forall tx_applicable txs ->
  (length txs <= 2)%nat -> batch_ok signer1 txs.
Proof. intros ? ? ?. split; [done|done|lia]. Qed.

Lemma batch1 : batch_ok signer1 [tx1].
Proof. apply batch_ok_of; [apply Forall_singleton, checkable1|apply Forall_singleton, applicable1|simpl; lia]. Qed.
Lemma batch12 : batch_ok signer1 [tx1; tx2].
Proof.
  apply batch_ok_of; [..|done]; repeat apply Forall_cons_2; try apply Forall_nil_2;
    auto using checkable1, checkable2, applicable1, applicable2.
Qed.

Lemma block1_ok n : 0 < n < 2 ^ 63 -> block_ok signer1 (block_of n [tx1]) n.
Proof. intros Hn. apply constructed_ok; [done|lia|exact batch1]. Qed.

Lemma pool0_wf txs : NoDup (hashes txs) -> pool_wf (pool0 txs).
Proof.
  intros Hnd. split; [done|]. intros h tx. cbn [pool0 tp_all tp_queue].
  rewrite <- elem_of_list_to_map.
  - rewrite list_elem_of_fmap. split; [intros (x & [= -> ->] & ?); done|intros [? <-]; eauto].
  - rewrite <- list_fmap_compose. exact Hnd.
Qed.

Lemma hashes12 : NoDup (hashes [tx1; tx2]).
Proof.
  apply NoDup_cons. split; [|apply NoDup_singleton].
  intros Hin. apply list_elem_of_singleton in Hin. revert Hin.
  apply (bool_decide_unpack (Transaction_Hash tx1 <> Transaction_Hash tx2)). vm_compute. exact I.
Qed.

Lemma op_inv0 txs : NoDup (hashes txs) -> op_inv toy_abs toy_inv (oper0 txs).
Proof.
  intros Hnd. split; [exact ready0|by apply pool0_wf|by exists []|done|].
  intros id. cbn [oper0 op_chain op_currentChildBlock]. unfold chain_ledger.
  change (ledger_of (committed (toy_abs (bc_db chain0)))) with (ledger_of content0). rewrite ledger0.
  intros [x E]. apply lookup_singleton_Some in E as [<- _]. done.
Qed.

Lemma run_inv0 : run_inv toy_abs toy_inv signer1 (oper0 [tx1]).
Proof.
  split; [exact (op_inv0 [tx1] (NoDup_singleton _))|reflexivity| |constructor].
  apply Forall_singleton. exact (conj checkable1 applicable1).
Qed.

Lemma fresh0 n : n <> 1000 -> fresh_block n (chain_ledger toy_abs chain0).
Proof.
  intros Hn id Hid. change (ledger_of content0 !! id = None). rewrite ledger0.
  apply lookup_singleton_ne. intros <-. by apply Hn.
Qed.
