(* ===== verification/Witnesses.v ===== *)
(** Each theorem that has hypotheses, applied where they hold: the stand-ins of
    [Instances.v] for the code outside the repository, the small node of
    [Scenario.v]. *)

From S2P Require Import Prelude Deps Types Signing Store Schema RawDB Utxo Validation HeaderChain.
From S2P Require Import BlockChain TxPool RootChain Operator Conservation Sealing Run Merkle.
From S2P Require Import Instances Scenario.
#[local] Open Scope Z_scope.

(** * The operator and the validator *)

(** A tick, then a deposit of 70. *)
Lemma sample_run : exists o', op_run toy_abs "0xcafe" signer1 (oper0 [tx1]) (0 + (70 + 0)) o'.
Proof.
  destruct (deposit_run toy_abs toy_inv signer1 0 (start_tick (oper0 [tx1])) 1001 bob zeroAddress 70)
    as (o' & e & E & _).
  - eapply (op_step_inv toy_abs toy_inv "0xcafe" signer1 (oper0 [tx1]) 0); [exact run_inv0|].
    apply run_tick. simpl. lia.
  - lia.
  - lia.
  - done.
  - lia.
  - apply fresh0. lia.
  - exists o'. eapply run_cons; [apply run_tick; simpl; lia|]. eapply run_cons; [|apply run_nil].
    eapply run_deposit; [..|exact E]; [lia|lia|done|lia|apply fresh0; lia].
Qed.


Lemma within_cap0 txs : within_cap (oper0 txs).
Proof. split; cbn; unfold chan_cap; lia. Qed.

(** The tick puts a batch on the channel; the next turn of [processTxs] takes it. *)
Lemma operator_never_stops_witness : exists o1 o' : Operator toyDB EIP155Signer,
  rtc recv_step (start_tick (oper0 [tx1])) o1 /\ op_TxsCh o1 = [[tx1]] /\
  processTxs_one "0xcafe" signer1 0 o1 = Ret o' /\ within_cap o' /\ op_TxsCh o' = [].
Proof.
  assert (Hrun : rtc (cap_step toy_abs "0xcafe" signer1) (oper0 [tx1]) (start_tick (oper0 [tx1]))).
  { apply rtc_once, (cap_act _ _ _ _ 0); [apply run_tick; simpl; lia|split; cbn; unfold chan_cap; lia]. }
  destruct (operator_never_stops toy_abs toy_inv "0xcafe" signer1 (oper0 [tx1]) (start_tick (oper0 [tx1])) run_inv0
    (within_cap0 [tx1]) Hrun) as (o1 & Hr & _ & _ & Ht & Hseal & _).
  destruct (Hseal 0 (Z.le_refl 0) ltac:(done)) as (o' & E & Hc & Ht').
  exists o1, o'. exact (conj Hr (conj Ht (conj E (conj Hc Ht')))).
Defined.



Lemma Va_WriteBlock_spec_witness :
  exists v' e, Va_WriteBlock signer1 valid0 (block_of 2000 [tx1]) = Ret (v', e) /\
    ready toy_abs toy_inv (va_chain v').
Proof.
  destruct (Va_WriteBlock_spec toy_abs toy_inv signer1 valid0 (block_of 2000 [tx1]) 2000 []
    ready0 (block1_ok 2000 ltac:(done)) eq_refl) as (v' & e & E & Hr & _).
  exists v', e. exact (conj E Hr).
Defined.

Lemma unchecked_block_accepted_witness :
  exists v', Va_WriteBlock signer1 valid0 (block_of 2001 [tx1]) = Ret (v', None).
Proof.
  destruct (unchecked_block_accepted toy_abs toy_inv signer1 valid0 (block_of 2001 [tx1]) 2001 []
    ready0 (block1_ok 2001 ltac:(done)) ltac:(done) eq_refl) as (v' & E & _).
  - intros [g [fn m b]] _ [ops Ho]. by destruct b.
  - exists v'. exact E.
Defined.

Lemma deposit_credits_witness :
  exists o' e, handleDepositEvent signer1 0 (oper0 []) (Some 1001) bob zeroAddress (Some 70) = Ret (o', e) /\
    op_inv toy_abs toy_inv o'.
Proof.
  destruct (deposit_credits toy_abs toy_inv signer1 0 (oper0 []) 1001 bob zeroAddress 70
    (op_inv0 [] (NoDup_nil_2)) ltac:(done) ltac:(done) ltac:(done) ltac:(done)) as (o' & e & E & Hi & _).
  exists o', e. exact (conj E Hi).
Defined.

Lemma conflict_blocks_sealing_witness :
  exists o' es, seal_rounds "0xcafe" signer1 (fun _ => 0) 3 (oper0 [tx1; tx2]) = Ret (o', es) /\
    Forall (fun e => e <> None) es /\ length es = 3%nat.
Proof.
  destruct (conflict_blocks_sealing toy_abs toy_inv "0xcafe" signer1 (fun _ => 0) 3 (oper0 [tx1; tx2])
    (op_inv0 _ hashes12) batch12 ltac:(done) ltac:(done)) as (o' & es & E & Hall & Hlen & _).
  - intros Hnd. apply NoDup_cons in Hnd as [Hnot _]. apply Hnot, list_elem_of_singleton. reflexivity.
  - exists o', es. exact (conj E (conj Hall Hlen)).
Defined.

(** bob's deposit of block 1001 was spent, its unused second output is there. *)
Definition spent_deposit : gmap bytes bytes :=
  <[utxo_okey (mkUTXOID 1001 0 Byte.x01) := arr zeroAddress ++ big_Bytes 0]> content0.
Definition oper_spent : Operator toyDB EIP155Signer :=
  op_set_chain (oper0 []) (set_db chain0 (toy_db spent_deposit)).

Lemma spent_ledger :
  ledger_of spent_deposit = <[mkUTXOID 1001 0 Byte.x01 := (zeroAddress, 0)]> {[coin := (alice, 100)]}.
Proof.
  unfold spent_deposit. rewrite ledger_insert by reflexivity. by rewrite utxo_out_of_written, ledger0.
Qed.

Lemma op_inv_spent : op_inv toy_abs toy_inv oper_spent.
Proof.
  split; [|exact (pool0_wf [] NoDup_nil_2)|by exists []|done|].
  - split; [done|done| |by exists genesis, 0].
    apply utxos_wf_insert; [exact content0_wf|rewrite length_app, length_arr; lia|done].
  - intros id. unfold chain_ledger. change (ledger_of (committed (toy_abs (bc_db (op_chain oper_spent))))) with
      (ledger_of spent_deposit). rewrite spent_ledger.
    intros [x E]. apply lookup_insert_Some in E as [[<- _]|[_ E]]; [done|].
    apply lookup_singleton_Some in E as [<- _]. done.
Qed.

Lemma deposit_replay_mints_witness :
  exists o' e, handleDepositEvent signer1 0 oper_spent (Some 1001) bob zeroAddress (Some 70) = Ret (o', e).
Proof.
  destruct (deposit_replay_mints toy_abs toy_inv signer1 0 oper_spent 1001 bob zeroAddress 70 op_inv_spent
    ltac:(done) ltac:(done) ltac:(done) ltac:(done)) as (o' & e & E & _).
  - change (ledger_of spent_deposit !! mkUTXOID 1001 0 Byte.x00 = None). rewrite spent_ledger.
    by rewrite lookup_insert_ne, lookup_singleton_ne.
  - change (ledger_of spent_deposit !! mkUTXOID 1001 0 Byte.x01 = Some (zeroAddress, 0)). rewrite spent_ledger.
    by rewrite lookup_insert_eq.
  - exists o', e. exact E.
Defined.

(** A block without transactions passes the checks. *)
Definition empty_block : Block := block_of 2000 [].

Lemma empty_block_ok : block_ok signer1 empty_block 2000.
Proof. apply constructed_ok; [done|done|]. apply batch_ok_of; [constructor|constructor|simpl; lia]. Qed.

(** The database holds no header. *)
Lemma no_header0 h n : is_u64 n -> ReadHeader (bc_db (begun chain0)) h n = None.
Proof.
  intros Hn. unfold ReadHeader, ReadHeaderRLP. rewrite (get_committed toy_abs toy_inv) by done.
  change (committed _) with content0. change (headerKey n h) with (key_of (KHeader n h)).
  unfold content0, utxo_okey. by rewrite (lookup_key_ne _ (KUtxo coin)).
Qed.

Lemma empty_block_valid : block_valid signer1 (begun chain0) empty_block 2000.
Proof.
  split_and!; [|reflexivity|by constructor|by constructor].
  generalize (Block_Hash empty_block). intros h. unfold BC_HasBlock, GetBlock, ReadBlock.
  change (lru_Get (bc_blockCache (begun chain0)) h) with ((∅ : gmap Hash Block), (∅ : gmap Hash Block) !! h).
  rewrite lookup_empty. cbn [set_blockCache bc_db]. by rewrite no_header0.
Qed.

Lemma ProcessRemoteBlock_stuck_witness :
  exists v', Va_ProcessRemoteBlock signer1 valid0 empty_block = Ret v' /\
    is_Some (pending (toy_abs (bc_db (va_chain v')))) /\
    va_serve signer1 v' [inl empty_block; inr empty_block; inl empty_block] =
      Ret (v', [Some errDbRace; None; Some errDbRace]).
Proof.
  destruct (ProcessRemoteBlock_stuck toy_abs toy_inv signer1 valid0 empty_block 2000 ready0 empty_block_ok
    eq_refl empty_block_valid) as (v' & E & _ & Ho & Hall).
  exists v'. exact (conj E (conj Ho (Hall v' [inl empty_block; inr empty_block; inl empty_block] eq_refl))).
Defined.

(** An output without an amount. *)
Definition tx_nil : Transaction :=
  mkTransaction (mkTxdata (Ins (tx_data tx1)) (Some (mkTxOut bob None), Some (mkTxOut alice (Some 90)))
    (Some 10) (Sigs (tx_data tx1))) None (Some 1000).

Lemma nil_rules :
  tx_rules {[coin := (alice, 100)]} (alice, alice) in1 NewNullUTXO
    (mkTxOut bob None) (mkTxOut alice (Some 90)) 10 1000.
Proof.
  split; try done; [|by intros ?]. intros _. exists 100. apply (lookup_singleton_eq coin).
Qed.

Lemma nil_amount_accepted_then_stops_witness :
  Validate (NewUtxoTxValidator signer1 db0) tx_nil = Ret None /\
  apply_tx del_input (block_of 2000 [tx_nil]) (bc_db (begun chain0)) (0%nat, tx_nil) = Stop NilDeref.
Proof.
  destruct (begun_in_tx toy_abs toy_inv chain0 ready0) as (_ & Htx & Hev & _).
  apply (nil_amount_accepted_then_stops toy_abs toy_inv signer1 content0 db0 (bc_db (begun chain0))
    (block_of 2000 [tx_nil]) 2000 0 tx_nil in1 NewNullUTXO (mkTxOut bob None) (mkTxOut alice (Some 90)) 10
    (alice, alice) inv0).
  - split_and!; reflexivity.
  - reflexivity.
  - reflexivity.
  - change (us_view toy_abs db0) with (ledger_of content0). rewrite ledger0.
    exact nil_rules.
  - exact Htx.
  - rewrite Hev. exact content0_wf.
  - reflexivity.
  - clear. done.
Defined.

(** * Transactions, signatures, blocks *)

(** The transaction of TestTxValidatorInvalidOutputAmount: two inputs of 50, outputs
    of 90 and 0, a fee of 10. *)
Definition half_a : UTXOID := mkUTXOID 1 0 Byte.x00.
Definition half_b : UTXOID := mkUTXOID 1 1 Byte.x00.
Definition halves : gmap bytes bytes :=
  <[utxo_okey half_a := arr alice ++ big_Bytes 50]> (<[utxo_okey half_b := arr alice ++ big_Bytes 50]> ∅).
Definition half_in (id : UTXOID) : UTXO := mkUTXO id (mkTxOut alice (Some 50)).
Definition tx_zero : Transaction := Eval vm_compute in
  sign (NewTransaction (Some (half_in half_a)) (Some (half_in half_b))
    (Some (mkTxOut bob (Some 90))) (Some (mkTxOut alice (Some 0))) (Some 10)).

Lemma halves_ledger : ledger_of halves = <[half_a := (alice, 50)]> {[half_b := (alice, 50)]}.
Proof. unfold halves. rewrite !ledger_insert by reflexivity. by rewrite !utxo_out_of_written. Qed.

Lemma halves_inv : us_inv toy_abs toy_inv (toy_db halves).
Proof.
  split; [done|]. apply utxos_wf_insert; [|apply Nat.leb_le; reflexivity|reflexivity].
  apply utxos_wf_insert; [|apply Nat.leb_le; reflexivity|reflexivity]. intros id v _ E. by rewrite lookup_empty in E.
Qed.

Lemma zero_parts : tx_parts tx_zero (half_in half_a) (half_in half_b) (mkTxOut bob (Some 90)) (mkTxOut alice (Some 0)) 10.
Proof. split_and!; reflexivity. Qed.

Lemma zero_sender : Sender signer1 tx_zero = Ret ((alice, alice), None).
Proof. reflexivity. Qed.

Lemma zero_rules : tx_rules (ledger_of halves) (alice, alice) (half_in half_a) (half_in half_b)
  (mkTxOut bob (Some 90)) (mkTxOut alice (Some 0)) 10 (Transaction_Size tx_zero).
Proof.
  rewrite halves_ledger. split; [|lia|discriminate| | |done|done|].
  - apply Z.leb_le. vm_compute. reflexivity.
  - intros _. exists 50. apply lookup_insert_eq.
  - intros _. exists 50. rewrite lookup_insert_ne by discriminate. apply lookup_singleton_eq.
  - unfold in_amount. cbn [BlockNum UTXO_ID half_in half_a half_b Z.eqb].
    rewrite lookup_insert_eq, lookup_insert_ne by discriminate. by rewrite lookup_singleton_eq.
Qed.

(** It is accepted. *)
Lemma validate_accepts_iff_witness :
  Validate (NewUtxoTxValidator signer1 (toy_db halves)) tx_zero = Ret None /\ real_ids tx_zero <> [].
Proof.
  destruct (validate_accepts_iff (us_view toy_abs) (us_inv toy_abs toy_inv) (NewUtxoTxValidator signer1 (toy_db halves)) tx_zero
    (half_in half_a) (half_in half_b) _ _ _ (alice, alice) None halves_inv zero_parts zero_sender) as (e & E & Hiff & Hids & _).
  pose proof (proj2 Hiff (conj eq_refl zero_rules)) as He.
  split; [exact (eq_trans E (f_equal Ret He))|exact (Hids He)].
Defined.

Lemma block_transactions_accepted_iff_witness :
  exists e, validateTx (mkUtxoBlockValidator chain0 db0 (NewUtxoTxValidator signer1 db0)) [tx1; tx2] = Ret e.
Proof.
  destruct (block_transactions_accepted_iff (us_view toy_abs) (us_inv toy_abs toy_inv)
    (mkUtxoBlockValidator chain0 db0 (NewUtxoTxValidator signer1 db0)) [tx1; tx2] inv0 eq_refl) as (e & E & _).
  - apply batch12.
  - exists e. exact E.
Defined.

Lemma sign_then_sender_witness : Sender signer1 tx1 = Ret ((alice, alice), None).
Proof.
  exact (sign_then_sender (H := toy_Crypto) 1 (spend bob 60 30) alice_key alice_key tx1 ltac:(lia) ltac:(reflexivity)).
Defined.

Lemma chain0_never_accepts_witness :
  exists tx', SignTx (H := toy_Crypto) (spend bob 60 30) (NewEIP155Signer (Some 0)) alice_key (Some alice_key)
                = Ret (inl tx') /\
    Sender (NewEIP155Signer (Some 0)) tx' = Ret (zeroAddress, zeroAddress, Some ErrInvalidSig).
Proof.
  eexists. split; [reflexivity|].
  apply (chain0_never_accepts (H := toy_Crypto) (spend bob 60 30) alice_key alice_key). reflexivity.
Defined.

Lemma Block_rlp_roundtrip_witness :
  exists input b', Block_EncodeRLP (block_of 2000 [tx1]) = Some input /\
    Block_DecodeRLP (mkBlock (header genesis) [] None None None) input = Some b' /\
    header b' = header (block_of 2000 [tx1]).
Proof.
  destruct (Block_rlp_roundtrip (block_of 2000 [tx1]) (mkBlock (header genesis) [] None None None))
    as (input & b' & E & Ed & Eh & _); [reflexivity|reflexivity|].
  exists input, b'. exact (conj E (conj Ed Eh)).
Defined.

(** * Storage *)


Lemma leveldb_refines_txstore_witness : DatabaseSpec toyDB toy_abs toy_inv.
Proof. exact (leveldb_refines_txstore toy_view toy_ops). Defined.

Lemma shared_batch_leaks_witness :
  let d1 := mkLDB "a" (∅ : gmap bytes bytes) false in
  let d2 := mkLDB "b" (∅ : gmap bytes bytes) false in
  let '(g0, d5, _) := LDB_Put [] (LDB_BeginTx d1).1 [Byte.x61] [Byte.x62] in
  let '(g1, d6, e2) := LDB_CommitTx g0 (LDB_BeginTx d2).1 in
  e2 = None -> toy_view (ldb_db d6) !! [Byte.x61] = Some [Byte.x62].
Proof.
  pose proof (shared_batch_leaks toy_view toy_ops [] (mkLDB "a" (∅ : gmap bytes bytes) false)
    (mkLDB "b" (∅ : gmap bytes bytes) false) [Byte.x61] [Byte.x62] eq_refl eq_refl eq_refl) as Hw.
  cbv zeta in *. destruct (LDB_Put _ _ _ _) as [[g0 d5] e1]. destruct (LDB_CommitTx _ _) as [[g1 d6] e2].
  intros He. apply Hw, He.
Defined.

Lemma schema_keys_disjoint_witness : key_of (KUtxo coin) = key_of (KHeader 1000 zeroHash) <-> KUtxo coin = KHeader 1000 zeroHash.
Proof. apply schema_keys_disjoint; done. Defined.

Lemma db0_writable : writable toy_abs toy_inv db0.
Proof. split; [done|]. right. intros [g [fn m b]] k v _. by destruct b. Qed.


Lemma ReplaceHead_sets_head_witness :
  exists bc', ReplaceHead chain0 (block_of 2000 [tx1]) = Ret bc' /\
    bc_currentBlock bc' = Some (block_of 2000 [tx1]).
Proof.
  destruct (ReplaceHead_sets_head toy_abs toy_inv chain0 (block_of 2000 [tx1]) 2000
    (conj db0_writable eq_refl) eq_refl ltac:(done)) as (bc' & E & _ & Ec & _).
  exists bc'. exact (conj E Ec).
Defined.

(** * Headers *)

Definition head1 : Header := mkHeader zeroHash alice zeroHash (Some 1) (Some 0) [].
Definition head2 : Header := mkHeader (Header_Hash head1) alice zeroHash (Some 2) (Some 0) [].

Lemma mem_writable d : writable mem_abs mem_inv d.
Proof. split; [done|]. by right. Qed.

Lemma mem_empty_header h n : ReadHeader NewMemDatabase h n = None.
Proof. unfold ReadHeader, ReadHeaderRLP, get. cbn [db_Get Mem_Reader]. unfold Mem_Get, NewMemDatabase. cbn [mem_db]. by rewrite lookup_empty. Qed.

Lemma mem_empty_canonical n : ReadCanonicalHash NewMemDatabase n = zeroHash.
Proof. unfold ReadCanonicalHash, get. cbn [db_Get Mem_Reader]. unfold Mem_Get, NewMemDatabase. cbn [mem_db]. by rewrite lookup_empty. Qed.

(** A database with [head1] in it. *)
Lemma one_header : exists d : MemDatabase,
  headers_wf d /\ index_wf d /\ canonical_linked d /\
  forall h n, is_u64 n -> ReadHeader d h n = if decide (h = Header_Hash head1 /\ n = 1) then Some head1 else None.
Proof.
  destruct (WriteHeader_ReadHeader mem_abs mem_inv NewMemDatabase head1 1 (mem_writable _) eq_refl eq_refl eq_refl
    ltac:(done)) as (d & Hw & _ & _ & HR & HN & HC).
  assert (HR' : forall h n, is_u64 n -> ReadHeader d h n = if decide (h = Header_Hash head1 /\ n = 1) then Some head1 else None).
  { intros h n Hn. rewrite HR, mem_empty_header by done. done. }
  exists d. split_and!.
  - intros n h hd Hn E. rewrite HR' in E by done. case_decide as Ed; [|discriminate]. destruct Ed as [-> ->].
    injection E as <-. by split_and!.
  - intros h n hd Hn E. rewrite HR' in E by done. rewrite HN. case_decide as Ed; [|discriminate].
    destruct Ed as [-> ->]. by rewrite decide_True.
  - intros n hd Hpos Hn E. rewrite HR' in E by done. case_decide as Ed; [|discriminate]. destruct Ed as [_ ->].
    injection E as <-. rewrite HC by done. apply mem_empty_canonical.
  - exact HR'.
Qed.

Lemma hc0_coherent (d : MemDatabase) : hc_coherent toy_lru_view d hc0.
Proof. split; intros h x E; cbn in E; by rewrite lookup_empty in E. Qed.

Lemma GetHeaderByHash_spec_witness : exists d : MemDatabase,
  (GetHeaderByHash d hc0 (Header_Hash head1)).2 = read_by_hash d (Header_Hash head1).
Proof.
  destruct one_header as (d & _ & Hi & _ & _). exists d.
  exact (proj2 (proj2 (GetHeaderByHash_spec toy_lru_view d hc0 (Header_Hash head1) Hi (hc0_coherent d)))).
Defined.

Lemma GetAncestor_spec_witness : exists (d : MemDatabase) hc' budget',
  GetAncestor d hc0 (Header_Hash head1) 1 1 10 = (hc', budget', (zeroHash, 0)).
Proof.
  destruct one_header as (d & _ & Hi & Hc & HR). exists d.
  destruct (GetAncestor_spec toy_lru_view d hc0 (Header_Hash head1) 1 1 10 zeroHash Hi Hc (hc0_coherent d))
    as (hc' & budget' & E & _).
  - clear. done.
  - clear. done.
  - clear. done.
  - change (Z.to_nat 1) with 1%nat. cbn [nth_parent]. rewrite HR by (clear; done). by rewrite decide_True.
  - exists hc', budget'. exact E.
Defined.

(** [head2] on [head1]. *)
Lemma two_headers : exists d : MemDatabase, headers_wf d /\ stored d head1 /\ stored d head2.
Proof.
  destruct (WriteHeader_ReadHeader mem_abs mem_inv NewMemDatabase head1 1 (mem_writable _) eq_refl eq_refl eq_refl
    ltac:(done)) as (d1 & Hw1 & _ & _ & HR1 & _ & _).
  assert (Hwf1 : headers_wf d1).
  { eapply (WriteHeader_wf mem_abs mem_inv NewMemDatabase head1 1); [apply mem_writable|reflexivity..|done|done| |done].
    intros n h hd _ E. by rewrite mem_empty_header in E. }
  destruct (WriteHeader_ReadHeader mem_abs mem_inv d1 head2 2 (mem_writable _) eq_refl eq_refl eq_refl
    ltac:(done)) as (d2 & Hw2 & _ & _ & HR2 & _ & _).
  exists d2. split_and!.
  - eapply (WriteHeader_wf mem_abs mem_inv d1 head2 2); [apply mem_writable|reflexivity..|done|done|done|done].
  - exists 1. split; [done|]. rewrite HR2, decide_False, HR1, decide_True by (done || by intros [_ ?]). done.
  - exists 2. split; [done|]. rewrite HR2, decide_True by done. done.
Qed.

Lemma FindCommonAncestor_spec_witness : exists (d : MemDatabase) r, FindCommonAncestor 3 d head1 head2 = Ret r.
Proof.
  destruct two_headers as (d & Hwf & H1 & H2). exists d.
  destruct (FindCommonAncestor_spec d Hwf 3 head1 head2 1 2 H1 H2 eq_refl eq_refl) as (r & E & _).
  - change (Z.to_nat (1 `max` 2)) with 2%nat. lia.
  - exists r. exact E.
Defined.

(** * Merkle trees *)

Definition leaf32 (z : Z) : bytes := be_put 32 z.
Definition leaves3 : list bytes := [leaf32 1; leaf32 2; leaf32 3].

Lemma merkle_tree_refines_witness :
  exists h mt, NewMerkleTree leaves3 = Ret (h, Some mt) /\ Proof_ h mt 7 = Ret [].
Proof.
  destruct (merkle_tree_refines leaves3 ltac:(discriminate)) as (t & h & mt & r & rn & _ & E & _ & _ & _ & _ & Hout).
  exists h, mt. split; [exact E|]. apply Hout. apply Z.leb_le. reflexivity.
Defined.

Lemma merkle_proof_verifies_witness :
  exists h mt r rn proof, NewMerkleTree leaves3 = Ret (h, Some mt) /\ root mt = Some r /\ h !! r = Some rn /\
    Proof_ h mt 2 = Ret proof /\ Verify (leaf32 3) (t_hash rn) 2 proof = true.
Proof. exact (merkle_proof_verifies leaves3 2 2 (leaf32 3) ltac:(discriminate) eq_refl eq_refl). Defined.

Lemma merkle_proof_binds_witness :
  exists t h mt r rn, tree_leaves t = padded leaves3 /\ NewMerkleTree leaves3 = Ret (h, Some mt) /\
    root mt = Some r /\ h !! r = Some rn /\ t_hash rn = tree_hash t /\
    (Verify (leaf32 9) (t_hash rn) 2 [emptyHash; leaf32 4] = true ->
       (leaf32 9 = leaf32 3 /\ Proof_ h mt 2 = Ret [emptyHash; leaf32 4]) \/
       collides (verify_inputs (leaf32 9, 2) [emptyHash; leaf32 4]) (tree_inputs t)).
Proof.
  refine (merkle_proof_binds leaves3 2 2 (leaf32 9) (leaf32 3) [emptyHash; leaf32 4] ltac:(discriminate) eq_refl
    _ eq_refl eq_refl _ eq_refl); repeat apply Forall_cons_2; try apply Forall_nil_2; reflexivity.
Defined.

Lemma merkle_six_leaves_fail_witness :
  exists t h mt r rn proof, tree_leaves t = [leaf32 0; leaf32 1; leaf32 2; leaf32 3; leaf32 4; leaf32 5] /\
    NewMerkleTree [leaf32 0; leaf32 1; leaf32 2; leaf32 3; leaf32 4; leaf32 5] = Ret (h, Some mt) /\
    root mt = Some r /\ h !! r = Some rn /\ t_hash rn = tree_hash t /\ Proof_ h mt 1 = Ret proof /\
    (Verify (leaf32 1) (t_hash rn) 1 proof = true -> collides (verify_inputs (leaf32 1, 1) proof) (tree_inputs t)).
Proof.
  refine (merkle_six_leaves_fail (leaf32 0) (leaf32 1) (leaf32 2) (leaf32 3) (leaf32 4) (leaf32 5)
    eq_refl eq_refl eq_refl _). discriminate.
Defined.

(** * The pool *)

Lemma removeTx_exact_witness : exists pool', removeTx (pool0 [tx1]) (Transaction_Hash tx1) = Ret pool' /\ pool_wf pool'.
Proof.
  destruct (removeTx_exact (pool0 [tx1]) (Transaction_Hash tx1) (pool0_wf [tx1] (NoDup_singleton _))) as (p & E & Hwf & _).
  exists p. exact (conj E Hwf).
Defined.

Lemma evict_spec_witness : exists pool', evict 100 200 (pool0 [tx1]) = Ret pool' /\ pool_wf pool'.
Proof.
  destruct (evict_spec 100 200 (pool0 [tx1]) (pool0_wf [tx1] (NoDup_singleton _))) as (p & E & Hwf & _).
  - intros tx Htx. apply list_elem_of_singleton in Htx as ->. eexists. exact tx1_sender.
  - exists p. exact (conj E Hwf).
Defined.

Lemma recover_covers_witness : concat (cache_visits <$> recover_requests 2 [tx1; tx2]) ≡ₚ [tx1; tx2].
Proof. apply (recover_covers 2 [tx1; tx2]). lia. Defined.

(** A pool that received one transaction. *)
Definition pool_of_one : TxPool EIP155Signer :=
  notify (enqueueTx (empty_pool DefaultTxPoolConfig signer1) (Transaction_Hash tx1) tx1) tx1.

Lemma add_one :
  add (NewUtxoTxValidator signer1 db0) (empty_pool DefaultTxPoolConfig signer1) tx1 false = Ret (pool_of_one, None).
Proof.
  unfold add, txLookup_Get. cbn [tp_all empty_pool]. rewrite lookup_empty.
  cbn [tv_Validate UtxoTxValidator_TxValidator]. rewrite valid1. reflexivity.
Qed.

Lemma pool_reachable_wf_witness : tp_queue pool_of_one = [tx1] /\ pool_wf pool_of_one.
Proof.
  split; [reflexivity|].
  refine (pool_reachable_wf (V := UtxoTxValidator EIP155Signer toyDB) DefaultTxPoolConfig signer1 pool_of_one _).
  apply rtc_once. exact (step_add _ _ _ _ _ _ add_one).
Defined.

(** A journal with one transaction. *)
Definition tx1_rlp : bytes := bits_put (encode (tx_data tx1)).

Lemma tx1_rlp_loads tx : loads [tx1_rlp] tx ->
  returns (Validate (NewUtxoTxValidator signer1 db0) tx) /\ returns (Sender signer1 tx).
Proof.
  intros (b & Hb & Hd). apply list_elem_of_singleton in Hb as ->. unfold Transaction_DecodeRLP in Hd.
  cbn [rlp_DecodeBytes toy_Rlp_tx rlp_by] in Hd. unfold tx1_rlp in Hd. rewrite bits_val_put in Hd. cbn [mbind option_bind] in Hd. rewrite decode_encode in Hd.
  injection Hd as <-.
  match goal with |- returns (Validate _ ?t) /\ _ => set (tx := t) end.
  assert (Hs : Sender signer1 tx = Ret ((alice, alice), None)) by reflexivity.
  split; [|eexists; exact Hs].
  destruct (Validate_spec (us_view toy_abs) (us_inv toy_abs toy_inv) (NewUtxoTxValidator signer1 db0) tx
    _ _ _ _ _ _ _ inv0 tx1_parts Hs) as (e & -> & _). by eexists.
Qed.

Lemma NewTxPool_journal_witness : exists pool,
  NewTxPool os_ok (Some [tx1_rlp]) (NewUtxoTxValidator signer1 db0) DefaultTxPoolConfig signer1 = Ret pool /\
  tp_locals pool = ∅.
Proof.
  destruct (NewTxPool_journal (NewUtxoTxValidator signer1 db0) DefaultTxPoolConfig signer1 [tx1_rlp])
    as (pool & E & _ & Hl).
  - reflexivity.
  - discriminate.
  - exact tx1_rlp_loads.
  - exists pool. exact (conj E Hl).
Defined.
