(* ===== verification/NodeWitnesses.v ===== *)
(** The theorems about whole nodes (starting, restarting, gossip, downloads, a
    transfer) applied where their hypotheses hold, on the stand-ins of
    [Instances.v]. *)

From S2P Require Import Prelude Deps Types Signing Store Schema RawDB Utxo Validation HeaderChain.
From S2P Require Import BlockChain TxPool RootChain Operator Conservation Sealing.
From S2P Require Import Genesis Restart Recovery Network Handlers Plasma Http.
From S2P Require Import Instances Scenario.
#[local] Open Scope Z_scope.

(** * Starting and restarting *)

Definition toy_genesis : Genesis.Genesis :=
  mkGenesis _ (Some (MainnetChainConfig : ChainConfig)) 66 0 [] zeroAddress ∅ 0 zeroHash.
Definition toy_genesis_block : Block := match ToBlock toy_genesis with Ret b => b | Stop _ => genesis end.

Lemma toy_ToBlock : ToBlock toy_genesis = Ret toy_genesis_block.
Proof.
  unfold toy_genesis_block. destruct (ToBlock_total toy_genesis) as (b & E & _). by rewrite E.
Qed.

(** The two hashes below, evaluated once. *)
Definition hash0 : Hash := Eval vm_compute in Block_Hash toy_genesis_block.
Lemma hash0_eq : Block_Hash toy_genesis_block = hash0.
Proof. vm_compute. reflexivity. Qed.

Lemma toy_genesis_hash : Block_Hash toy_genesis_block <> zeroHash.
Proof. rewrite hash0_eq. apply (bool_decide_unpack (hash0 <> zeroHash)). vm_compute. exact I. Qed.

Lemma toy_empty_direct : direct toy_abs toy_inv (toy_db ∅).
Proof.
  split; [|done]. split; [done|]. right. intros [g [fn m b]] k v _. by destruct b.
Qed.

Lemma toy_genesis_used : genesis_used (Some toy_genesis) toy_genesis.
Proof. by split. Qed.

Lemma toy_empty_committed : committed (toy_abs (toy_db ∅)) = ∅.
Proof. reflexivity. Qed.

Lemma fresh_node_starts_witness : exists d',
  SetupGenesisBlock (toy_db ∅) (Some toy_genesis) =
    Ret (d', (g_Config toy_genesis, Block_Hash toy_genesis_block, None)).
Proof.
  pose proof (fresh_node_starts toy_lru_view toy_abs toy_inv (toy_db ∅) (Some toy_genesis) toy_genesis
    toy_genesis_block (Some 1)) as F.
  specialize (F toy_empty_direct toy_empty_committed toy_genesis_used).
  specialize (F eq_refl).
  specialize (F (Z.le_refl 0)).
  specialize (F toy_ToBlock toy_genesis_hash).
  destruct F as (d' & E & _).
  exists d'. exact E.
Defined.

(** The database after the genesis block, an operator on it, and a deposit. *)
Definition toy_d1 : toyDB :=
  match Commit toy_genesis (toy_db ∅) with Ret (d, _, _) => d | Stop _ => toy_db ∅ end.
Definition toy_block1 : Block := block_of 1 [deposit_tx bob (Some 70)].

Lemma toy_d1_startable : exists b', startable toy_abs toy_inv toy_d1 b' b' /\ Number (header b') = Some 0.
Proof.
  destruct (Commit_db toy_abs toy_inv toy_genesis (toy_db ∅) toy_genesis_block toy_empty_direct
    toy_ToBlock eq_refl (Z.le_refl 0)) as (d' & Ec & Hd & Hm).
  assert (E : toy_d1 = d') by (unfold toy_d1; by rewrite Ec). rewrite E.
  destruct (Commit_startable toy_abs toy_inv toy_genesis (toy_db ∅) d' toy_genesis_block toy_empty_direct
    eq_refl toy_ToBlock eq_refl (Z.le_refl 0) toy_genesis_hash Ec) as (_ & _ & b' & Hst & Hh & _).
  exists b'. split; [exact Hst|]. rewrite Hh.
  destruct (ToBlock_total toy_genesis) as (b & Eb & Hn & _). rewrite toy_ToBlock in Eb.
  injection Eb as <-. exact Hn.
Qed.

Definition hash1 : Hash := Eval vm_compute in Block_Hash toy_block1.
Lemma hash1_eq : Block_Hash toy_block1 = hash1.
Proof. vm_compute. reflexivity. Qed.
Lemma hash1_new : hash1 <> zeroHash /\ hash1 <> hash0.
Proof. apply (bool_decide_unpack (hash1 <> zeroHash /\ hash1 <> hash0)). vm_compute. exact I. Qed.

Lemma key_ok_0 : key_ok (KCanonical 0).
Proof. done. Qed.
Lemma key_ok_1 : key_ok (KCanonical 1).
Proof. done. Qed.

Lemma toy_block1_new : new_block toy_d1 toy_block1 1.
Proof.
  destruct (Commit_db toy_abs toy_inv toy_genesis (toy_db ∅) toy_genesis_block toy_empty_direct
    toy_ToBlock eq_refl (Z.le_refl 0)) as (d' & Ec & [[Hi _] _] & Hm).
  unfold toy_d1. rewrite Ec. unfold body_op, header_ops in Hm. cbn [apply_wops fold_left apply_wop] in Hm.
  rewrite toy_empty_committed in Hm. destruct hash1_new as [Hz Hne].
  pose proof key_ok_0. pose proof key_ok_1.
  assert (Hh : Header_Hash (header toy_genesis_block) = hash0) by exact hash0_eq.
  rewrite Hh, hash0_eq in Hm.
  split; [reflexivity|rewrite hash1_eq; exact Hz|..]; rewrite hash1_eq.
  - unfold ReadHeaderNumber. rewrite (get_committed toy_abs toy_inv d') by exact Hi. rewrite Hm.
    change (headerNumberKey hash1) with (key_of (KHeaderNumber hash1)).
    assert (KHeaderNumber hash0 <> KHeaderNumber hash1) by congruence.
    key_lookup. rewrite lookup_empty. reflexivity.
  - unfold ReadCanonicalHash. rewrite (get_committed toy_abs toy_inv d') by exact Hi. rewrite Hm.
    change (headerHashKey 1) with (key_of (KCanonical 1)).
    assert (KCanonical 0 <> KCanonical 1) by congruence.
    key_lookup. rewrite lookup_empty. intros E. apply Hz. symmetry. exact E.
Qed.

Lemma toy_d1_utxos : utxos_wf (committed (toy_abs toy_d1)).
Proof.
  destruct (Commit_db toy_abs toy_inv toy_genesis (toy_db ∅) toy_genesis_block toy_empty_direct
    toy_ToBlock eq_refl (Z.le_refl 0)) as (d' & Ec & Hd & Hm).
  unfold toy_d1. rewrite Ec, Hm. unfold body_op, header_ops. cbn [apply_wops fold_left apply_wop].
  rewrite toy_empty_committed. do 6 (apply utxos_wf_other; [|by split|discriminate]).
  intros id v _ E. by rewrite lookup_empty in E.
Qed.

Definition oper1 (b : Block) : Operator toyDB EIP155Signer :=
  op_set_chain (oper0 []) (set_currentBlock (set_db chain0 toy_d1) b).

Lemma toy_block1_ok : block_ok signer1 toy_block1 1.
Proof.
  split; [reflexivity|reflexivity|lia|discriminate| |discriminate].
  apply Forall_singleton. apply deposit_applicable. lia.
Qed.

Lemma operator_restart_witness : exists b o', WriteBlock signer1 (oper1 b) toy_block1 = Ret (o', None) /\
  exists bc, NewBlockChain None (bc_db (op_chain o')) (Some 1) = Ret (inl bc) /\
    BC_CurrentHeader bc = Ret (Some (header toy_block1)).
Proof.
  destruct toy_d1_startable as (b & Hst & Hn). exists b.
  assert (Hr : ready toy_abs toy_inv (op_chain (oper1 b))).
  { split; [apply Hst|apply Hst|exact toy_d1_utxos|]. exists b, 0. exact (conj eq_refl Hn). }
  destruct (WriteBlock_spec toy_abs toy_inv signer1 (oper1 b) toy_block1 1 [] Hr toy_block1_ok eq_refl)
    as (o' & e & E & _ & _ & _ & _ & _ & _ & He).
  destruct e as [e|].
  { destruct He as (_ & [[Hz _]|([g [fn m pend]] & Hp & _ & Hc)]); [discriminate Hz|].
    destruct pend; [discriminate Hc|]. destruct Hp as [? Hp]. discriminate Hp. }
  exists o'. split; [exact E|].
  destruct (operator_restart toy_lru_view toy_abs toy_inv signer1 (oper1 b) o' toy_block1 1 b 0 b b (Some 1)
    (pool0 []) alice_key Hst Hr toy_block1_ok eq_refl toy_block1_new eq_refl Hn ltac:(lia) E)
    as (bc & b' & Eb & _ & _ & _ & _ & Hh & _).
  exists bc. exact (conj Eb Hh).
Defined.

(** * Peers *)

Definition host0 : P2PLocalHost := mkP2PLocalHost _ 4000 ∅ [].
Definition host2 : P2PLocalHost := connectHandler (connectHandler host0 "peer1") "peer2".

Lemma host2_wf : host_wf host2.
Proof. do 2 apply (connectHandler_wf toy_set_view). apply map_Forall_empty. Qed.

Lemma known_sets_bounded_witness : exists lh', MarkBlock host2 "peer1" genesis = Ret lh' /\ host_wf lh'.
Proof.
  destruct (known_sets_bounded toy_set_view 4000 host2
    (rtc_l _ _ _ _ (step_connect host0 "peer1") (rtc_once _ _ (step_connect _ "peer2")))) as (_ & _ & F).
  destruct (F "peer1" genesis) as (lh' & E & Hwf & _). exists lh'. exact (conj E Hwf).
Defined.

Definition from_some {A} (a : A) (o : option A) : A := match o with Some x => x | None => a end.

Lemma is_some {A} (a : A) (o : option A) :
  match o with Some _ => true | None => false end = true -> o = Some (from_some a o).
Proof. by destruct o. Qed.

(** A block as a peer sends it, and as it is decoded. *)
Definition sent_block : bytes := from_some [] (Block_EncodeRLP (block_of 2001 [])).
Definition got_block : Block := from_some genesis (decode_block sent_block).
Definition got_data : bytes := from_some [] (Block_EncodeRLP got_block).

Definition net0 : Net := mkNet (fun _ _ => None) (fun _ _ _ => None) (fun _ _ _ => (sent_block, None)).
Lemma net0_up : net_up net0.
Proof. by split. Qed.

Lemma got_block_decoded : decode_block sent_block = Some got_block.
Proof. apply is_some. vm_compute. reflexivity. Qed.
Lemma got_block_encoded : Block_EncodeRLP got_block = Some got_data.
Proof. apply is_some. vm_compute. reflexivity. Qed.
Lemma got_block_ok : block_ok signer1 got_block 2001.
Proof.
  assert (Hn : transactions got_block = []) by (vm_compute; reflexivity).
  split; rewrite ?Hn; [vm_compute; reflexivity|vm_compute; reflexivity|lia|discriminate|constructor|discriminate].
Qed.
Lemma got_block_written : exists w1, Va_WriteBlock signer1 valid0 got_block = Ret (w1, None).
Proof.
  destruct (Va_WriteBlock_unchecked toy_abs toy_inv signer1 valid0 got_block 2001 [] ready0 got_block_ok
    ltac:(done) eq_refl) as (w1 & E & _).
  - intros [g [fn m b]] _ [ops Ho]. by destruct b.
  - exists w1. exact E.
Qed.

#[local] Instance valid_worker : Worker (Validator toyDB) := Validator_Worker signer1.
#[local] Instance valid_workerspec : WorkerSpec (Validator toyDB) := Validator_WorkerSpec signer1.

Lemma peer1_connected : is_Some (lh_RemotePeerCaches host2 !! "peer1").
Proof. by eexists. Qed.

Lemma gossip_block_witness : exists nd1 nd2,
  recvBlock (mkNode host2 valid0) "peer1" (sent_block, None) = Ret (nd1, None) /\
  broadcastBlock net0 nd1 = Ret nd2.
Proof.
  destruct got_block_written as [w1 Hw].
  pose proof (gossip_block toy_set_view net0 (mkNode host2 valid0) "peer1" (sent_block, None) got_block
    got_data w1 net0_up host2_wf) as F.
  destruct (F eq_refl peer1_connected got_block_decoded got_block_encoded Hw)
    as (nd1 & nd2 & nd3 & ps & ps' & E1 & _ & E2 & _).
  exists nd1, nd2. exact (conj E1 E2).
Defined.

(** A worker that only passes blocks on. *)
#[local] Instance echo_worker : Worker (option (list Block)) := {
  w_ProcessRemoteTxs := fun w _ => Ret w;
  w_ProcessRemoteBlock := fun w _ => Ret w;
  w_SubscribeNewBlockCh := fun _ ch => ch;
  w_WriteBlock := fun w b => Ret ((fun q => q ++ [b]) <$> w, None);
  w_newBlockCh := fun w => w
}.
#[local] Instance echo_chain : NodeChain (option (list Block)) := {
  w_CurrentBlock := fun _ => Ret genesis;
  w_GetBlockByNumber := fun w _ => (w, None)
}.

Lemma echo_writes (w : option (list Block)) b : True -> True -> exists w' e, w_WriteBlock w b = Ret (w', e) /\ True.
Proof. intros _ _. by do 2 eexists. Qed.
Lemma echo_head (w : option (list Block)) : True -> returns (current_number w).
Proof. intros _. by eexists. Qed.
Lemma echo_ready : node_ready (fun _ => True) (mkNode host2 (Some []) : Node (option (list Block))).
Proof. split; [exact host2_wf|]. split; [apply insert_non_empty|done]. Qed.
Lemma net0_replies : replies_ok (fun _ => True) net0.
Proof. by intros ? ? ? ? ?. Qed.

Definition rc0 : RootChain (Operator toyDB EIP155Signer) := mkRootChain "" "" 100 None None.

Lemma root_of_rc0 n : root_of rc0 n = if n <=? 1001 then mk32 n else zeroHash.
Proof. reflexivity. Qed.

Lemma no_gaps_rc0 : no_gaps rc0.
Proof.
  intros n m Hn E Hm. rewrite root_of_rc0 in *. destruct (Z.leb_spec n 1001) as [Hle|Hgt].
  - apply (f_equal (fun h => be_val (arr h))) in E. rewrite arr_mk32, be_val_put in E.
    rewrite Z.mod_small in E by lia. change (be_val (arr zeroHash)) with 0 in E. lia.
  - destruct (Z.leb_spec m 1001); [lia|done].
Qed.


(** * A transfer *)

Definition config0 : Config := DefaultConfig 0 (fun _ => bob).
Definition plasma0 : Plasma toyDB :=
  mkPlasma config0 (1 : ChainConfig) (WValidator valid0 (pool0 [])) zeroAddress 1 rc0.

(** alice sends bob 90 of her 100, for a fee of 10. *)
Definition flags0 : Flags := mkFlags (arr alice) 1000 0 Byte.x00 (arr bob) 90 10.
Definition tx0 : Transaction := Eval vm_compute in sign (makeTx flags0).
Definition body0 : bytes := bits_put (encode (tx_data tx0)).

Lemma tx0_signed : SignTx (makeTx flags0) (NewEIP155Signer (Some 1)) alice_key (Some alice_key) = Ret (inl tx0).
Proof. vm_compute. reflexivity. Qed.

Lemma tx0_size : Transaction_Size tx0 <= 32768.
Proof. apply Z.leb_le. vm_compute. reflexivity. Qed.

Lemma plasma0_coin :
  us_view toy_abs (ChainDb plasma0) !! flags_id flags0 =
    Some (address_of_key alice_key, f_amount flags0 + f_fee flags0).
Proof.
  change (us_view toy_abs (ChainDb plasma0)) with (ledger_of content0). rewrite ledger0.
  change (flags_id flags0) with coin. apply lookup_singleton_eq.
Qed.

Lemma transfer_accepted_witness : exists p', Tx_New plasma0 body0 = Ret (p', OK None) /\
  Content (Pl_TxPool p') = [tx0] /\ Tx_New p' body0 = Ret (p', refused errKnownTx).
Proof.
  pose proof (transfer_accepted (us_view toy_abs) (us_inv toy_abs toy_inv) plasma0 1 alice_key flags0 tx0 body0
    ltac:(lia) eq_refl inv0 eq_refl) as F.
  destruct F as (_ & _ & F); [discriminate|discriminate|exact tx0_signed|exact tx0_size|reflexivity|].
  specialize (F (lookup_empty _)). rewrite decide_True in F by (split; [reflexivity|exact plasma0_coin]).
  destruct F as (p' & E & Hc & _ & _ & E'). exists p'. exact (conj E (conj Hc E')).
Defined.

(** * The role of a node *)

(** The key file decrypts to alice's key; the contract's operator is nobody. *)
Definition world0 : World toyDB PrivateKey (Operator toyDB EIP155Signer) := {|
  w_NewLDBDatabase _ _ _ := inl (toy_db ∅);
  ReadDir _ := inl ["key1"; "key2"];
  ReadFile _ := [];
  DecryptKey _ _ := inl (alice_key : PrivateKey);
  rand_seed := None;
  dial _ := None;
  cfg_fromBlock := 100;
  w_os := mkOS None None None None None;
  w_journal := None;
  clock _ := 0
|}.
Definition config1 : Config := node_config config0 "/tmp/plasma" 1 "http://localhost" "" "pwd" "/tmp/keys" "[]".

Lemma plasma1_starts : exists p, New world0 config1 = Ret (inl p).
Proof.
  assert (E : match New world0 config1 with Ret (inl _) => true | _ => false end = true) by (vm_compute; reflexivity).
  destruct (New world0 config1) as [[p|]|]; [|discriminate E..]. by exists p.
Qed.

Lemma node_role_witness : exists p, New world0 config1 = Ret (inl p) /\
  exists rc0, NewRootChain (W := Operator toyDB EIP155Signer) (dial world0) 100 "http://localhost" "[]" "" = inl rc0.
Proof.
  destruct plasma1_starts as [p E]. exists p. split; [exact E|].
  destruct (node_role world0 config1 p alice_key eq_refl E) as (rc & Er & _).
  exists rc. exact Er.
Defined.
