(* ===== verification/ClusterWitnesses.v ===== *)
(** The theorems about nodes that exchange messages, and about the event loop,
    applied where their hypotheses hold. *)

From Stdlib Require Import Sorting.Sorted.
From S2P Require Import Prelude Deps Types Signing Store Schema RawDB Utxo Validation HeaderChain.
From S2P Require Import BlockChain TxPool RootChain Operator Conservation Sealing Run.
From S2P Require Import Cacher Genesis Restart Recovery Network Handlers Replica Events Exchange Join Contract Config Plasma Http Command.
From S2P Require Import Instances Scenario NodeWitnesses.
#[local] Open Scope Z_scope.

Lemma toy_disk_ok : disk_ok toy_abs toy_inv.
Proof. intros [g [fn m b]] _ [ops Ho]. by destruct b. Qed.

Lemma toy_disk_writes (d : toyDB) k v : toy_inv d -> (db_Put d k v).2 = None.
Proof. destruct d as [g [fn m b]]. intros _. by destruct b. Qed.

(** * A validator that follows *)

Definition quiet_net : Net := mkNet (fun _ _ => None) (fun _ _ _ => None) (fun _ _ _ => ([], None)).
Lemma quiet_net_up : net_up quiet_net.
Proof. by split. Qed.

Definition lone_host : P2PLocalHost := mkP2PLocalHost _ 4000 ∅ [].
Definition peered (p : PeerID) : P2PLocalHost := connectHandler lone_host p.

Lemma peered_wf p : host_wf (peered p).
Proof. apply (connectHandler_wf toy_set_view). apply map_Forall_empty. Qed.

Definition cluster0 : cluster :=
  mkCluster (mkNode (peered "validator") (oper0 [tx1])) (mkNode (peered "operator") valid0) [].

Lemma content0_other k : key_ok k -> k <> KUtxo coin -> content0 !! key_of k = None.
Proof.
  intros Hk Hne. unfold content0. rewrite lookup_insert_ne; [apply lookup_empty|].
  apply key_ne; [by apply UTXOID_ok_key|done|]. by intros <-.
Qed.

Lemma cluster0_start : cluster_start toy_lru_view toy_abs toy_inv toy_set_view signer1 ∅ "validator" cluster0.
Proof.
  split; [exact run_inv0| |exact (peered_wf _)| |done|done].
  - split; [exact (peered_wf _)|]. eexists. split; [apply lookup_insert_eq|]. apply empty_subseteq.
  - split; [exact ready0|by eexists| |].
    + intros m h Hm _ _. apply content0_other; [exact Hm|discriminate].
    + intros h [b Hb]. cbn in Hb. by rewrite lookup_empty in Hb.
Qed.

(** A deposit of 70 is announced. *)
Lemma deposited : exists o' e, handleDepositEvent signer1 0 (oper0 [tx1]) (Some 1001) bob zeroAddress (Some 70) = Ret (o', e).
Proof.
  destruct (deposit_run toy_abs toy_inv signer1 0 (oper0 [tx1]) 1001 bob zeroAddress 70 run_inv0)
    as (o' & e & E & _); [lia|lia|done|lia|apply fresh0; lia|]. by exists o', e.
Qed.

Lemma deposit_announced o' e sent bs :
  handleDepositEvent signer1 0 (oper0 [tx1]) (Some 1001) bob zeroAddress (Some 70) = Ret (o', e) ->
  op_newBlockCh (oper0 [tx1]) = Some sent -> op_newBlockCh o' = Some (sent ++ bs) -> Forall (announce_ok ∅) bs.
Proof.
  intros E Hs Hs'. injection Hs as <-. cbn [app] in Hs'.
  destruct (handleDepositEvent_block toy_abs toy_inv signer1 0 (oper0 [tx1]) 1001 bob zeroAddress 70 ready0)
    as (block & Hok & _ & _ & Eb); [lia|done|lia|lia|]. rewrite Eb in E.
  destruct (WriteBlock_announces toy_lru_view toy_abs toy_inv "0xcafe" signer1 ∅ (oper0 [tx1]) o' block 1001 [] e toy_disk_ok
    ready0 Hok eq_refl E) as (_ & Hcase).
  destruct e; destruct Hcase as [Hch _]; rewrite Hch in Hs'; injection Hs' as <-; [constructor|].
  apply Forall_singleton. split; [apply not_elem_of_empty|].
  rewrite (blk_number _ _ _ Hok). intros n [= <-] Hn. discriminate Hn.
Qed.

Lemma deposited_ledger o' e :
  handleDepositEvent signer1 0 (oper0 [tx1]) (Some 1001) bob zeroAddress (Some 70) = Ret (o', e) ->
  chain_ledger toy_abs (op_chain o') !! mkUTXOID 1001 0 Byte.x00 = Some (bob, 70).
Proof.
  intros E.
  destruct (handleDepositEvent_spec toy_abs toy_inv signer1 0 (oper0 [tx1]) 1001 bob zeroAddress 70
    (ri_op _ _ _ _ run_inv0)) as (o1 & e1 & E1 & _ & _ & _ & Hm); [lia|done|lia|lia|].
  rewrite E in E1. injection E1 as <- <-. destruct e as [e|].
  - destruct Hm as (_ & d & Hp & Hi & He). by rewrite toy_disk_ok in He.
  - rewrite Hm. unfold deposit_ledger. rewrite lookup_insert_ne by discriminate. by rewrite lookup_insert_eq.
Qed.

(** The operator credits a deposit of 70; the network brings it to the validator, which
    did not have it. *)
Lemma validator_follows_witness : exists c c' : cluster,
  rtc (cl_step (RW := unit) toy_abs "0xcafe" signer1 ∅ quiet_net "operator" "validator") cluster0 c /\
  chain_ledger toy_abs (va_chain (nd_worker (cl_va c))) !! mkUTXOID 1001 0 Byte.x00 = None /\
  rtc (net_step (RW := unit) signer1 quiet_net "operator" "validator") c c' /\ cl_wire c' = [] /\
  chain_ledger toy_abs (va_chain (nd_worker (cl_va c'))) !! mkUTXOID 1001 0 Byte.x00 = Some (bob, 70).
Proof.
  destruct deposited as (o' & e & E).
  set (c := mkCluster (mkNode (peered "validator") o') (mkNode (peered "operator") valid0) []).
  assert (Hrun : rtc (cl_step (RW := unit) toy_abs "0xcafe" signer1 ∅ quiet_net "operator" "validator") cluster0 c).
  { apply rtc_once. eapply (cl_operator) with (c := cluster0) (a := 70).
    + eapply run_deposit; [..|exact E]; [lia|lia|discriminate|lia|apply fresh0; lia].
    + intros sent bs. exact (deposit_announced o' e sent bs E). }
  destruct (validator_follows toy_lru_view toy_abs toy_inv toy_set_view (RW := unit) "0xcafe" signer1 ∅ quiet_net "operator" "validator"
    cluster0 c quiet_net_up toy_disk_ok cluster0_start Hrun) as (_ & c' & Hnet & Hw & _ & _ & HL).
  exists c, c'. split; [exact Hrun|]. split; [exact (fresh0 1001 ltac:(lia) (mkUTXOID 1001 0 Byte.x00) eq_refl)|].
  split; [exact Hnet|]. split; [exact Hw|]. exact (eq_trans (f_equal (lookup _) HL) (deposited_ledger o' e E)).
Defined.

(** * Two deposits, seen by the loop *)

Definition deposit_event (bn n amount : Z) : ContractEvent :=
  mkContractEvent bn (RootChain.Deposit (mkDepositEvent bob (Some n) zeroAddress (Some amount))).
Definition log0 (r : nat) : list ContractEvent :=
  match r with O => [] | S _ => [deposit_event 150 1001 70; deposit_event 150 1002 30] end.

Lemma log0_growing : growing log0.
Proof.
  split.
  - intros [|r]; [constructor|]. apply SSorted_cons; [apply SSorted_cons; [constructor|constructor]|].
    apply Forall_singleton. apply Z.le_refl.
  - intros [|r]; cbn [log0].
    + eexists. split; [reflexivity|]. intros e e' He. by apply elem_of_nil in He.
    + exists []. split; [reflexivity|]. intros e e' _ He. by apply elem_of_nil in He.
Qed.

Lemma deposit_event_fine bn n amount : 0 <= bn < 2 ^ 63 - 1 -> 0 < n < 2 ^ 63 -> n mod 1000 <> 0 -> 0 <= amount ->
  event_fine contract_event (deposit_event bn n amount).
Proof. intros Hb Hn Hm Ha. split; [by exists n, amount|]. split; [exact Hb|by eexists]. Qed.

Lemma log0_fine r : Forall (event_fine contract_event) (relevant (log0 r)) /\ distinct_in_blocks (log0 r).
Proof.
  assert (H1 : event_fine contract_event (deposit_event 150 1001 70)) by (apply deposit_event_fine; [lia|lia|discriminate|lia]).
  assert (H2 : event_fine contract_event (deposit_event 150 1002 30)) by (apply deposit_event_fine; [lia|lia|discriminate|lia]).
  destruct r as [|r]; split.
  - constructor.
  - intros n. constructor.
  - change (relevant (log0 (S r))) with [deposit_event 150 1001 70; deposit_event 150 1002 30].
    apply Forall_cons_2; [exact H1|]. apply Forall_cons_2; [exact H2|apply Forall_nil_2].
  - intros n. cbn [log0]. destruct (decide (150 = n)) as [<-|Hn].
    + change (filter _ _) with [deposit_event 150 1001 70; deposit_event 150 1002 30].
      apply (bool_decide_unpack (NoDup _)). vm_compute. exact I.
    + rewrite !filter_cons_False by exact Hn. constructor.
Qed.

Lemma oper0_idle : op_idle toy_abs toy_inv (oper0 []).
Proof.
  split; [exact (op_inv0 [] ltac:(constructor))|]. split; [|done]. split; [done|]. right.
  intros [g [fn m b]] k v _. by destruct b.
Qed.

Lemma two_deposits_credited : exists s',
  loopEvents op_db op_set_db (operator_client signer1 (fun _ => 0) "[]" "cafe" 100) (answers log0) 5 (oper0 []) = Ret (s', None) /\
  chain_ledger toy_abs (op_chain (ls_w s')) =
    deposit_ledger 1002 bob 30 (deposit_ledger 1001 bob 70 (chain_ledger toy_abs chain0)).
Proof.
  destruct (operator_loop toy_abs toy_inv signer1 (fun _ => 0) "[]" "cafe" 100 [Byte.xca; Byte.xfe] log0 5
    (oper0 []) toy_disk_ok toy_disk_writes (fun _ => Z.le_refl 0) eq_refl oper0_idle) as (s' & E & _ & HL).
  - intros m. apply content0_other; [done|discriminate].
  - exact log0_growing.
  - exact log0_fine.
  - exists s'. exact (conj E HL).
Qed.

(** The process ends and the next one starts on what it left: both deposits again. *)
Lemma restart_replays_witness : exists s' s1,
  loopEvents op_db op_set_db (operator_client signer1 (fun _ => 0) "[]" "cafe" 100) (answers log0) 5 (oper0 []) = Ret (s', None) /\
  loopEvents op_db op_set_db (operator_client signer1 (fun _ => 0) "[]" "cafe" 100) (answers log0) 5 (ls_w s') = Ret (s1, None) /\
  chain_ledger toy_abs (op_chain (ls_w s1)) =
    deposit_ledger 1002 bob 30 (deposit_ledger 1001 bob 70 (chain_ledger toy_abs (op_chain (ls_w s')))).
Proof.
  assert (Hr : forall m, committed (toy_abs (op_db (oper0 []))) !! key_of (KEvent m) = None)
    by (intros m; apply content0_other; [done|discriminate]).
  destruct (operator_loop_clean toy_abs toy_inv signer1 (fun _ => 0) "[]" "cafe" 100 [Byte.xca; Byte.xfe] log0 5
    (oper0 []) toy_disk_ok toy_disk_writes (fun _ => Z.le_refl 0) eq_refl oper0_idle Hr log0_growing log0_fine) as (s2 & E2 & Hi & _).
  destruct (restart_replays toy_abs toy_inv signer1 (fun _ => 0) "[]" "cafe" 100 [Byte.xca; Byte.xfe] log0 5 log0 5
    (oper0 []) toy_disk_ok toy_disk_writes (fun _ => Z.le_refl 0) eq_refl oper0_idle Hr log0_growing log0_fine log0_growing log0_fine)
    as (s' & E & Hs). rewrite E2 in E. injection E as ->.
  destruct (Hs (ls_w s') Hi (fun m => eq_refl)) as (s1 & E1 & HL). exists s', s1. split; [exact E2|]. split; [exact E1|exact HL].
Defined.

(** * A transaction on its way to the operator *)

#[local] Instance peer_worker : Worker (Validator toyDB) := Validator_Worker signer1.
#[local] Instance oper_worker : Worker (Operator toyDB EIP155Signer) := reach_worker signer1.

Definition peer_cache : RemotePeerCache := mkRemotePeerCache _ "operator" hset_New hset_New.

Lemma oper0_run : run_inv toy_abs toy_inv signer1 (oper0 []).
Proof. split; [exact (op_inv0 [] ltac:(constructor))|reflexivity|constructor|constructor]. Qed.

(** The transaction of the client ([tx0], made by [makeTx]): its input has no amount. *)
Definition in0 : UTXO := mkUTXO coin (mkTxOut alice None).
Lemma tx0_parts : tx_parts tx0 in0 NewNullUTXO (mkTxOut bob (Some 90)) NewNullTxOut 10.
Proof. split_and!; reflexivity. Qed.

Lemma tx0_sender : Sender signer1 tx0 = Ret ((alice, alice), None).
Proof. reflexivity. Qed.

Lemma tx0_sound : tx_sound tx0.
Proof. split; [vm_compute; reflexivity|]. split; intros x E; discriminate E. Qed.

Lemma tx0_fine : tx_fine signer1 tx0.
Proof.
  split; [split; [do 5 eexists; exact tx0_parts|eexists; exact tx0_sender]|].
  do 7 eexists. split; [exact tx0_parts|]. by split_and!.
Qed.

Lemma tx0_rules : tx_rules {[coin := (alice, 100)]} (alice, alice) in0 NewNullUTXO
  (mkTxOut bob (Some 90)) NewNullTxOut 10 (Transaction_Size tx0).
Proof.
  split; [exact tx0_size|lia|discriminate|intros _; exists 100; apply (lookup_singleton_eq coin)|by intros ?|done|done|].
  unfold in_amount. by rewrite (lookup_singleton_eq coin).
Qed.

Lemma tx0_valid : Validate (NewUtxoTxValidator signer1 db0) tx0 = Ret None.
Proof.
  destruct (Validate_spec (us_view toy_abs) (us_inv toy_abs toy_inv) (NewUtxoTxValidator signer1 db0) tx0
    _ _ _ _ _ _ _ inv0 tx0_parts tx0_sender) as (e & -> & Hiff).
  f_equal. apply Hiff. split; [done|].
  change (us_view toy_abs _) with (ledger_of content0). rewrite ledger0. exact tx0_rules.
Qed.

Lemma txs_reach_operator_witness : exists ndA' msg ndB' (ndB := mkNode (peered "peer") (oper0 [])),
  broadcastTxs quiet_net (mkNode (peered "operator") valid0) [tx0] = Ret ndA' /\
  recvTxs ndB "peer" (msg, None) = Ret (ndB', None) /\
  rlpHash (tx_data tx0) ∈ hashes (Content (op_txPool (nd_worker ndB'))).
Proof.
  destruct (txs_reach_operator (WA := Validator toyDB) toy_abs toy_inv toy_set_view signer1 quiet_net
    (mkNode (peered "operator") valid0) (mkNode (peered "peer") (oper0 [])) "operator" "peer" peer_cache [tx0]
    quiet_net_up (peered_wf _) (peered_wf _) oper0_run (lookup_insert_eq _ _ _)
    (proj2 (Forall_singleton _ _) tx0_sound)
    (proj2 (Forall_singleton _ _) tx0_fine)) as (ndA' & new & E & Hs & Hn).
  rewrite decide_False in Hn by discriminate. destruct Hn as (msg & ndB' & Hm & Er & _ & _ & Hin & _).
  exists ndA', msg, ndB'. split; [exact E|]. split; [exact Er|].
  exact (Hin tx0 (list_elem_of_here _ _) tx0_valid).
Defined.

(** * A configuration file that is not there *)

Definition client_world : ClientWorld := mkClientWorld (fun _ => inr (ErrMsg "no such file"))
  (fun _ _ => inl (alice_key : PrivateKey)) (fun _ _ => inr (ErrMsg "unreachable")).

Lemma unreadable_config_ignored_witness : exists f : Flags,
  getPlasmaChainID (root_initConfig "client.yaml" (∅ : settings)) = 0 /\
  transfer_command (L := unit) (fun _ => inl tt) client_world "client.yaml" (∅ : settings) tt f = Ret (None, None).
Proof.
  exists (mkFlags (arr alice) 1000 0 Byte.x00 (arr bob) 90 10).
  destruct (unreadable_config_ignored (V := settings) (L := unit) (unset := fun v => v = ∅) (fun _ => inl tt) client_world (∅ : settings) tt
    (mkFlags (arr alice) 1000 0 Byte.x00 (arr bob) 90 10) "client.yaml" (ErrMsg "no such file")
    eq_refl ltac:(discriminate) eq_refl) as (E & Hid & _).
  split; [exact Hid|]. rewrite E. reflexivity.
Qed.

(** * The contract *)

Definition deployed : Contract := constructor (mkMsg alice 0 1).
Definition bob_deposits : Msg := mkMsg bob 70 2.
Definition after (r : option (Contract * event_value)) : Contract := match r with Some (c, _) => c | None => deployed end.
Definition contract1 : Contract := after (deposit deployed bob_deposits).
Definition contract2 : Contract :=
  mkContract alice 2000 1 1 (<[1000 := mkChildBlock (txs_root []) 3]> (c_childChain contract1)).
Definition bob_event : event_value := RootChain.Deposit (mkDepositEvent bob (Some 1) zeroAddress (Some 70)).

Lemma contract1_run : contract_run [bob_event] contract1.
Proof.
  apply (run_step [] deployed bob_event contract1 (run_created _)).
  apply (step_deposit _ _ _ bob_deposits); [cbn; lia|reflexivity].
Qed.

Lemma contract2_submitted : exists ev, submitBlock contract1 (mkMsg alice 0 3) (txs_root []) = Some (contract2, ev).
Proof.
  apply (submitBlock_accepts contract1 (mkMsg alice 0 3)); [|reflexivity|reflexivity].
  apply (nu_wf _ _ (contract_run_numbered _ _ contract1_run)).
Qed.

Lemma contract2_run : exists ev, contract_run [bob_event; ev] contract2.
Proof.
  destruct contract2_submitted as [ev E]. exists ev.
  apply (run_step [bob_event] contract1 ev contract2 contract1_run). by apply (step_submit _ _ _ (mkMsg alice 0 3) (txs_root [])).
Qed.

Lemma contract_numbering_witness : exists ev, contract_run [bob_event; ev] contract2 /\ contract_wf contract2.
Proof.
  destruct contract2_run as [ev Hrun]. exists ev. split; [exact Hrun|].
  destruct (contract_numbering [bob_event; ev] contract2 Hrun) as (Hw & _). exact Hw.
Defined.

(** bob's deposit in the log of the root chain, from the second round on. *)
Definition log1 (r : nat) : list ContractEvent := match r with O => [] | S _ => [mkContractEvent 150 bob_event] end.

Lemma log1_growing : growing log1.
Proof.
  split.
  - intros [|r]; [constructor|]. apply SSorted_cons; constructor.
  - intros [|r]; cbn [log1].
    + eexists. split; [reflexivity|]. intros e e' He. by apply elem_of_nil in He.
    + exists []. split; [reflexivity|]. intros e e' _ He. by apply elem_of_nil in He.
Qed.

Lemma log1_run r : exists c, contract_run (ev_V <$> log1 r) c /\ c_currentChildBlock c < 2 ^ 63.
Proof.
  destruct r as [|r]; [exists deployed|exists contract1].
  - split; [apply run_created|reflexivity].
  - split; [exact contract1_run|reflexivity].
Qed.

Lemma log1_elem r e : e ∈ log1 r -> e = mkContractEvent 150 bob_event.
Proof. destruct r; [by intros ?%elem_of_nil|by intros ?%list_elem_of_singleton]. Qed.


(** The two transactions spend the same output: their batch is refused, and the next
    block has number 3000 and its root in slot 2000. *)
Lemma batch12_refused : exists o' e, Seal "0xcafe" signer1 0 (oper0 []) [tx1; tx2] = Ret (o', Some e) /\
  op_currentChildBlock o' = 2000.
Proof.
  destruct (Seal_spec toy_abs toy_inv "0xcafe" signer1 0 (oper0 []) [tx1; tx2] (op_inv0 [] ltac:(constructor)) batch12)
    as (o' & e & E & _ & Hc & _ & [[[_ Hnd] _]|(He & _)]); [apply Z.le_refl|reflexivity| |].
  - exfalso. apply NoDup_cons in Hnd as [Hnot _]. apply Hnot, list_elem_of_singleton. reflexivity.
  - destruct e as [e|]; [|by destruct He]. exists o', e. exact (conj E Hc).
Qed.

Lemma contract2_wf : contract_wf contract2.
Proof. destruct contract2_run as [ev Hrun]. apply (nu_wf _ _ (contract_run_numbered _ _ Hrun)). Qed.

(** alice's next submission. *)
Lemma contract2_submits root : exists c3 ev, submitBlock contract2 (mkMsg alice 0 4) root = Some (c3, ev).
Proof. eexists. apply (submitBlock_accepts contract2 (mkMsg alice 0 4)); [exact contract2_wf|reflexivity|reflexivity]. Qed.

Lemma root_slot_witness : exists (o' : Operator toyDB EIP155Signer) o1 b c3 ev n,
  constructBlock 0 o' [] = Ret (o1, b) /\ submitBlock contract2 (mkMsg alice 0 4) (TxHash (header b)) = Some (c3, ev) /\
  Number (header b) = Some n /\ submitted_number ev = Some (n - 1000) /\ getChildChain c3 n = (zeroHash, 0).
Proof.
  destruct batch12_refused as (o' & e & E & Hc).
  pose proof (constructBlock_spec 0 o' []) as Eb. rewrite Hc in Eb. cbv zeta in Eb.
  specialize (Eb ltac:(lia) ltac:(lia)).
  set (b := mkBlock _ _ _ _ _) in Eb. destruct (contract2_submits (TxHash (header b))) as (c3 & ev & Es).
  pose proof (root_slot toy_abs toy_inv "0xcafe" signer1 (oper0 []) contract2 o' contract2 1 0 [] (op_set_child o' (2000 + 1000)) b (mkMsg alice 0 4) c3 ev
    (op_inv0 [] ltac:(constructor)) contract2_wf eq_refl) as F.
  destruct F as (n & Hn & Hs & _ & Hz).
  - apply rtc_once. eapply joint_failed; [apply Z.le_refl|exact batch12|reflexivity|exact E].
  - rewrite Hc. reflexivity.
  - exact Eb.
  - exact Es.
  - exists o', (op_set_child o' (2000 + 1000)), b, c3, ev, n. split; [exact Eb|]. split; [exact Es|]. split; [exact Hn|].
    split; [exact Hs|]. apply Hz. discriminate.
Defined.

(** * Recovering senders *)

(** One goroutine, one transaction: sent, received, handled, done. *)
Lemma recover_run : exists s, nsteps cacher_step 4 (recover (newTxSenderCacher 1) [tx1]) s /\
  ca_workers s = [None] /\ ca_tasks s = [] /\ ca_sending s = [].
Proof.
  eexists. split.
  - eapply nsteps_l; [apply cacher_send; apply Nat.lt_0_1|].
    eapply nsteps_l; [apply (cacher_receive _ _ _ [] [])|].
    eapply nsteps_l; [apply (cacher_sender _ _ [] _ _ [] _ tx1); reflexivity|].
    eapply nsteps_l; [apply (cacher_finish _ _ [] _ _ []); apply Nat.le_refl|]. apply nsteps_O.
  - split_and!; reflexivity.
Qed.

Lemma recover_completes_witness : exists s, nsteps cacher_step 4 (recover (newTxSenderCacher 1) [tx1]) s /\
  ca_seen s ≡ₚ [tx1].
Proof.
  destruct recover_run as (s & Hrun & Hw & Ht & Hs). exists s. split; [exact Hrun|].
  destruct (recover_completes 1 [tx1] 4 s Nat.lt_0_1 Hrun) as [_ F]. apply F.
  destruct s as [sending tasks ws seen]. cbn in Hw, Ht, Hs. subst. intros s' Hstep.
  inversion Hstep as [| |? ? ws1 ? ? ws2 ? ? ? E|? ? ws1 ? ? ws2 ? ? E];
    by destruct ws1 as [|? [|? ?]].
Defined.

(** * A validator that joins late *)

(** The node the others ask has one block, bob's deposit. *)
#[local] Instance one_block_worker : Worker Block := {
  w_ProcessRemoteTxs := fun w _ => Ret w;
  w_ProcessRemoteBlock := fun w _ => Ret w;
  w_SubscribeNewBlockCh := fun w _ => w;
  w_WriteBlock := fun w _ => Ret (w, None);
  w_newBlockCh := fun _ => None
}.
#[local] Instance one_block_chain : NodeChain Block := {
  w_CurrentBlock := fun w => Ret w;
  w_GetBlockByNumber := fun w _ => (w, Some w)
}.

#[local] Instance late_chain : NodeChain (Validator toyDB) := joining_chain.

Definition late_block : Block := block_of 1001 [deposit_tx bob (Some 70)].
Definition server : Node Block := mkNode lone_host late_block.
Definition served_net : Net := mkNet (fun _ _ => None) (fun _ _ _ => None)
  (fun _ _ msg => (default [] (getBlock server (msg, None) (fun _ => None)).1.2, None)).

Lemma served : serving rc0 served_net server (fun _ => late_block).
Proof. split; [|reflexivity]. reflexivity. Qed.

Lemma late_block_wire : wire_ok signer1 late_block 1001.
Proof.
  split; [|reflexivity|vm_compute; reflexivity|discriminate].
  split; [reflexivity|reflexivity|lia|discriminate| |discriminate].
  apply Forall_singleton. apply deposit_applicable. lia.
Qed.

Lemma late_wanted : wanted rc0 1001 1001 = [1001].
Proof.
  assert (Hr : root_of rc0 1001 <> zeroHash).
  { intros E. rewrite root_of_rc0 in E. change (mk32 1001 = zeroHash) in E.
    apply (f_equal (fun h => be_val (arr h))) in E. rewrite arr_mk32, be_val_put in E. discriminate E. }
  by rewrite wanted_here, wanted_done.
Qed.

Lemma late_validator_catches_up_witness : exists nd' cur',
  download_pass rc0 1 served_net (mkNode (peered "operator") valid0) 1001 1001 0 = Ret (nd', cur', false) /\
  chain_ledger toy_abs (va_chain (nd_worker nd')) = deposit_ledger 1001 bob 70 (chain_ledger toy_abs chain0).
Proof.
  destruct (late_validator_catches_up toy_lru_view toy_abs toy_inv toy_set_view rc0 signer1 ∅ served_net
    (mkNode (peered "operator") valid0) server (fun _ => late_block) 1001 1001 0 1 1000 [] 1000
    (deposit_ledger 1001 bob 70 (chain_ledger toy_abs chain0))) as (nd' & cur' & c'' & E & HL & _).
  - by split.
  - exact toy_disk_ok.
  - exact no_gaps_rc0.
  - exact served.
  - exact (peered_wf _).
  - apply insert_non_empty.
  - exact (cs_va _ _ _ _ _ _ _ _ cluster0_start).
  - reflexivity.
  - lia.
  - lia.
  - apply Nat.le_refl.
  - rewrite late_wanted. eapply flight_block; [exact late_block_wire|apply not_elem_of_empty|discriminate|].
    rewrite (deposit_block_ledger 1001 bob 70). apply flight_nil. vm_compute. discriminate.
  - exists nd', cur'. exact (conj E HL).
Defined.
