(* ===== verification/BindingWitnesses.v ===== *)
(** The theorem about event iterators applied to three deposits, the last of them a
    log that cannot be parsed. *)

From S2P Require Import Prelude Deps Types Bindings.
#[local] Open Scope Z_scope.

#[local] Instance toy_Bind : Bind := {|
  BoundContract := Address;
  ABI := unit;
  ContractCaller := unit;
  ContractTransactor := unit;
  ContractFilterer := unit;
  CallOpts := unit;
  TransactOpts := Address;
  FilterOpts := unit;
  WatchOpts := unit;
  eth_Transaction := string * list abi_value;
  Log := Z;
  zeroLog := 0;
  Subscription := option (option error);
  abi_JSON _ := inl tt;
  FromHex _ := [];
  NewBoundContract address _ _ _ _ := address;
  DeployContract _ _ _ _ := inr (ErrMsg "no chain");
  contract_Call _ _ outs _ _ := (outs, None);
  contract_Transact _ _ method args := (Some (method, args), None);
  contract_Transfer _ _ := (None, Some (ErrMsg "no value"));
  contract_FilterLogs _ _ _ _ := inl ([70; 30; -1], Some None);
  contract_WatchLogs _ _ _ _ := inl ([], None);
  sub_Err sub := sub;
  sub_Unsubscribe _ := Some None
|}.

#[local] Instance toy_Unpack : UnpackLog RootChainDeposit := fun _ e _ (log : Z) =>
  if log <? 0 then (e, Some (ErrMsg "abi")) else (mkRootChainDeposit zeroAddress (Some 1) zeroAddress (Some log) zeroLog, None).

Definition deposits : RootChainDepositIterator :=
  mkIterator None zeroAddress "Deposit" ([70; 30; -1] : list Log) (Some None) false None.

Lemma iterator_delivers_witness : exists evs it',
  iterate 4 Nat.even deposits = Ret (evs, it') /\
  dp_Amount <$> evs = [Some 70; Some 30] /\ Iterator_Error it' = Some (ErrMsg "abi").
Proof.
  destruct (iterator_delivers (@mkFilterer toy_Bind zeroAddress) tt "Deposit" [[]; []] deposits None Nat.even 4 eq_refl eq_refl
    ltac:(apply Nat.ltb_lt; reflexivity)) as (evs & it' & E & Hall & _).
  exists evs, it'. split; [exact E|]. injection Hall as -> ->. split; reflexivity.
Defined.
