(* ===== verification/ExitWitnesses.v ===== *)
(** The theorems about the queue, the encoding and the exits of the contract, applied
    to a deposit of 70 that leaves, and to a transaction of block 1000. *)

From Stdlib Require Import Sorting.Sorted.
From S2P Require Import Prelude Deps RootChain Merkle Contract PriorityQueue SolRlp Exits Instances Scenario.
#[local] Open Scope Z_scope.

#[local] Instance toy_Evm : Evm := { ecrecover _ _ r _ := address_of (be_val r) }.

Definition rc_address : Address := address_of 99.
Definition generous (a : Address) (amount : Z) : bool := true.

(** * The queue *)

Definition two_queued : PriorityQueue := mkPriorityQueue rc_address [0; element 5 7; element 9 1] 2.

Lemma two_queued_wf : pq_wf two_queued.
Proof.
  split; [reflexivity|reflexivity|reflexivity|repeat constructor; vm_compute; congruence|].
  intros i Hi. assert (i = 1 \/ i = 2)%nat as [-> | ->] by (cbn in Hi; lia); vm_compute; discriminate.
Qed.

Lemma queue_refines_witness : PQ_getMin two_queued = Some (5, 7) /\
  (exists q', PQ_insert rc_address two_queued 3 4 = Some q' /\ pq_wf q' /\ queued q' ≡ₚ [(3, 4); (5, 7); (9, 1)]) /\
  (exists q', PQ_delMin rc_address two_queued = Some (q', (5, 7)) /\ queued q' = [(9, 1)]).
Proof.
  assert (Hq : queued two_queued = [(5, 7); (9, 1)]) by (vm_compute; reflexivity).
  destruct (queue_refines two_queued two_queued_wf) as (_ & _ & _ & Hmin & Hins & Hdel & _). rewrite Hq in Hmin, Hdel.
  split; [exact Hmin|]. split.
  - destruct (Hins 3 4) as (q' & E & Hw & _ & Hp); [lia|lia|reflexivity|]. rewrite Hq in Hp.
    exists q'. split; [exact E|]. split; [exact Hw|exact Hp].
  - destruct Hdel as (q' & E & _ & _ & Eq). exists q'. split; [exact E|exact Eq].
Defined.

(** * A transaction *)

Definition sol_tx1 : sol_tx := mkSolTx (1, 0, 0) (0, 0, 0) zeroAddress (bob, 60) (alice, 300).
Definition sol_tx1_bytes : bytes := default [] (encodeFields (tx_fields sol_tx1)).

(** A memory with an array at 0 and nothing else. *)
Definition mem_of (l : bytes) : memory :=
  fun a => default Byte.x00 ((be_put 32 (Z.of_nat (length l)) ++ l) !! Z.to_nat a).

Lemma sol_tx1_ok : sol_tx_ok sol_tx1.
Proof. repeat constructor; vm_compute; congruence. Qed.

Lemma sol_tx1_encoded : encodeFields (tx_fields sol_tx1) = Some sol_tx1_bytes.
Proof. vm_compute. reflexivity. Qed.

Lemma sol_tx1_array : array_at (mem_of sol_tx1_bytes) 0 sol_tx1_bytes.
Proof. split; [vm_compute; reflexivity|vm_compute; reflexivity|split; vm_compute; congruence]. Qed.

Lemma exiting_tx_roundtrip_witness :
  createExitingTx 12 (mem_of sol_tx1_bytes) 0 1 = Some (mkExitingTx alice zeroAddress 300 0) /\
  getUtxoPos 12 (mem_of sol_tx1_bytes) 0 0 = Some 1.
Proof.
  pose proof (exiting_tx_roundtrip sol_tx1 12 (mem_of sol_tx1_bytes) 0 sol_tx1_ok ltac:(lia)) as (enc & E & Hd).
  rewrite sol_tx1_encoded in E. injection E as <-. destruct (Hd sol_tx1_array) as (Hc & _ & Hu).
  split; [rewrite (Hc 1) by lia; reflexivity|rewrite (Hu 0) by lia; reflexivity].
Defined.

(** * A deposit leaves *)

Definition bob_in : Msg := mkMsg bob 70 2.
Definition chain1 : Contract := mkContract alice 1000 2 1
  (<[1 := mkChildBlock (keccak256 (arr bob ++ arr zeroAddress ++ be_put 32 70)) 2]> ∅).

Lemma chain1_wf : contract_wf chain1.
Proof.
  eapply (contract_step_wf (constructor (mkMsg alice 0 1))); [apply constructor_wf|].
  apply (step_deposit _ _ _ bob_in); [cbn; lia|reflexivity].
Qed.

(** Before and after the exit was started. *)
Definition rc1 : RootChainState := mkRootChainState chain1 ∅ {[ zeroAddress := PQ_constructor rc_address ]} 70.
Definition one_queued : PriorityQueue := mkPriorityQueue rc_address [0; element 1209602 1000000000] 1.
Definition rc2 : RootChainState :=
  mkRootChainState chain1 {[ 1000000000 := mkExit bob zeroAddress 70 ]} {[ zeroAddress := one_queued ]} 70.

Lemma rc1_inv : exits_inv rc_address rc1 (PQ_constructor rc_address).
Proof.
  destruct (PQ_constructor_wf rc_address) as [Hw Hq].
  split; [apply chain1_wf|reflexivity|exact Hw|reflexivity|rewrite Hq; constructor|..]; rewrite ?Hq.
  - intros pos Hp. by apply elem_of_nil in Hp.
  - intros pos. reflexivity.
  - intros pos Hp. by destruct Hp.
  - cbn. lia.
Qed.

Lemma one_queued_wf : pq_wf one_queued.
Proof.
  split; [reflexivity|reflexivity|reflexivity|repeat constructor; vm_compute; congruence|].
  intros i Hi. assert (i = 1)%nat as -> by (cbn in Hi; lia). vm_compute. discriminate.
Qed.

Lemma one_queued_list : queued one_queued = [(1209602, 1000000000)].
Proof. vm_compute. reflexivity. Qed.

Lemma rc2_exits pos : exit_at rc2 pos = if decide (pos = 1000000000) then mkExit bob zeroAddress 70 else noExit.
Proof. unfold exit_at. cbn [rc_exits rc2]. case_decide; [subst; by rewrite lookup_singleton_eq|by rewrite lookup_singleton_ne by done]. Qed.

Lemma rc2_inv : exits_inv rc_address rc2 one_queued.
Proof.
  split; [apply chain1_wf|reflexivity|apply one_queued_wf|reflexivity|..]; rewrite ?one_queued_list.
  - apply NoDup_singleton.
  - intros pos Hp. apply list_elem_of_singleton in Hp as ->. rewrite rc2_exits, decide_True by done. cbn. lia.
  - intros pos. rewrite rc2_exits. case_decide; cbn; lia.
  - intros pos Hp. rewrite rc2_exits in Hp. case_decide; [subst; apply list_elem_of_here|done].
  - cbn. lia.
Qed.

Lemma finalize_pays_witness : exists c' q', finalizeExits rc_address generous 1 rc2 (mkMsg alice 0 2000000) zeroAddress =
    Some (c', [mkPayment 1000000000 bob 70]) /\ exits_inv rc_address c' q' /\ rc_balance c' = 0 /\ queued q' = [].
Proof.
  pose proof (finalize_pays rc_address generous 1 rc2 one_queued (mkMsg alice 0 2000000) rc2_inv eq_refl) as F.
  cbn zeta in F. rewrite one_queued_list in F. specialize (F ltac:(cbn; lia)). rewrite decide_True in F.
  - destruct F as (c' & q' & E & Hi & Hpo & Eq). exists c', q'. split; [exact E|]. split; [exact Hi|].
    split; [rewrite (po_balance _ _ _ Hpo); reflexivity|exact Eq].
  - split; [done|]. split; [repeat constructor|vm_compute; congruence].
Defined.

(** The whole story, from the creation to the payment. *)
Definition exit_story : option (RootChainState * list payment) :=
  c ← RC_constructor rc_address (mkMsg alice 0 1);
  '(c, _) ← RC_deposit c bob_in;
  '(c, _) ← startDepositExit rc_address c (mkMsg bob 0 3) 1000000000 zeroAddress 70;
  finalizeExits rc_address generous 1 c (mkMsg alice 0 2000000) zeroAddress.

Lemma exit_paid_once_witness : exists c ps, rc_run rc_address generous 70 ps c /\ ps = [mkPayment 1000000000 bob 70] /\
  NoDup (pay_pos <$> ps) /\ sumZ (pay_amount <$> ps) <= 70.
Proof.
  destruct exit_story as [[c ps]|] eqn:E; [|vm_compute in E; discriminate].
  assert (Hps : (snd <$> exit_story) = Some [mkPayment 1000000000 bob 70]) by (vm_compute; reflexivity).
  rewrite E in Hps. injection Hps as ->. unfold exit_story in E.
  apply bind_Some in E as (c0 & E0 & E). apply bind_Some in E as ([c1 ev1] & E1 & E). apply bind_Some in E as ([c2 ev2] & E2 & E).
  assert (Hrun : rc_run rc_address generous (0 + 70 + 0 + 0) ((([] ++ []) ++ []) ++ [mkPayment 1000000000 bob 70]) c).
  { eapply rr_step; [eapply rr_step; [eapply rr_step; [eapply rr_created; exact E0|]|]|].
    - apply (rs_deposit _ _ _ bob_in c1 ev1); [cbn; lia|exact E1].
    - apply (rs_depositExit _ _ _ (mkMsg bob 0 3) 1000000000 zeroAddress 70 c2 ev2); [lia|exact E2].
    - apply (rs_finalize _ _ _ 1 (mkMsg alice 0 2000000) zeroAddress). exact E. }
  exists c, [mkPayment 1000000000 bob 70]. split; [exact Hrun|]. split; [reflexivity|].
  destruct (exit_paid_once rc_address generous _ _ _ Hrun) as (Hn & _ & _ & _ & Hle). split; [exact Hn|exact Hle].
Defined.

(** With another 70 in the contract, bob takes out 140 for his 70. *)
Definition rc1_more : RootChainState := mkRootChainState chain1 ∅ {[ zeroAddress := PQ_constructor rc_address ]} 140.

Lemma rc1_more_inv : exits_inv rc_address rc1_more (PQ_constructor rc_address).
Proof. destruct rc1_inv. split; [done|done|done|done|done|done|done|done|cbn; lia]. Qed.

Lemma deposit_exits_repeat_witness : exists c' q', exit_each rc_address rc1_more (mkMsg bob 0 3) 1 70 2 = Some c' /\
  exits_inv rc_address c' q' /\ length (queued q') = 2%nat /\
  forall t, (forall x, x ∈ queued q' -> x.1 < t) ->
    exists c2 ps, finalizeExits rc_address generous 2 c' (mkMsg alice 0 t) zeroAddress = Some (c2, ps) /\ length ps = 2%nat /\
      (forall p, p ∈ ps -> pay_to p = bob /\ pay_amount p = 70) /\ rc_balance c2 = 0.
Proof.
  pose proof (deposit_exits_repeat rc_address rc1_more (PQ_constructor rc_address) (mkMsg bob 0 3) 1 70 2 rc1_more_inv eq_refl) as F.
  destruct F as (c' & q' & E & Hi & Hl & Hf);
    [done|lia|reflexivity|lia|lia|lia|reflexivity|apply (proj2 (PQ_constructor_wf rc_address))|cbn; lia|].
  exists c', q'. split; [exact E|]. split; [exact Hi|]. split; [exact Hl|].
  intros t Ht. exact (Hf generous (mkMsg alice 0 t) eq_refl eq_refl Ht).
Defined.

(** * The transaction in a block *)

Definition flat_proof : bytes := replicate 512 Byte.x00.
Definition flat_sigs : bytes := replicate 195 Byte.x01.
Definition leaf1 : Hash := keccak256 (arr (keccak256 sol_tx1_bytes) ++ take 130 flat_sigs).
Definition root1 : Hash := checkMembership_loop 16 leaf1 0 flat_proof.
Definition chain2 : Contract := mkContract alice 2000 1 1 (<[1000 := mkChildBlock root1 2]> ∅).

Lemma chain2_wf : contract_wf chain2.
Proof.
  pose proof (constructor_wf (mkMsg alice 0 1)) as Hw.
  destruct (submitBlock_accepts (constructor (mkMsg alice 0 1)) (mkMsg alice 0 2) root1 Hw eq_refl) as [ev E]; [reflexivity|].
  eapply (contract_step_wf (constructor (mkMsg alice 0 1))); [exact Hw|]. eapply step_submit. exact E.
Qed.

Definition rc3 : RootChainState := mkRootChainState chain2 ∅ {[ zeroAddress := PQ_constructor rc_address ]} 0.

Lemma rc3_inv : exits_inv rc_address rc3 (PQ_constructor rc_address).
Proof.
  destruct rc1_inv. split; [apply chain2_wf|reflexivity|done|done|done|done|done|done|cbn; lia].
Qed.

Lemma exit_started_sound_witness : exists c' ev,
  startExit rc_address 12 rc3 (mkMsg alice 0 5) 1000000000001 (mkMemBytes (mem_of sol_tx1_bytes) 0 sol_tx1_bytes) flat_proof flat_sigs =
    Some (c', ev) /\ getExit c' 1000000000001 = (alice, zeroAddress, 300).
Proof.
  destruct (startExit rc_address 12 rc3 (mkMsg alice 0 5) 1000000000001 (mkMemBytes (mem_of sol_tx1_bytes) 0 sol_tx1_bytes) flat_proof flat_sigs)
    as [[c' ev]|] eqn:E; [|vm_compute in E; discriminate].
  pose proof (exit_started_sound rc_address 12 rc3 (PQ_constructor rc_address) (mkMsg alice 0 5) 1000000000001 sol_tx1 sol_tx1_bytes
    (mem_of sol_tx1_bytes) 0 flat_proof flat_sigs c' ev rc3_inv ltac:(lia) sol_tx1_ok sol_tx1_encoded sol_tx1_array ltac:(lia) E) as F.
  exists c', ev. split; [reflexivity|]. destruct F as (_ & _ & _ & Hx & _). exact Hx.
Defined.

(** A challenge with the same transaction, whose first input is the deposit of block
    1, with all its signatures as the leaf. *)
Definition leaf2 : Hash := keccak256 (arr (keccak256 sol_tx1_bytes) ++ flat_sigs).
Definition rc4 : RootChainState := mkRootChainState
  (mkContract alice 2000 1 1 (<[1000 := mkChildBlock (checkMembership_loop 16 leaf2 0 flat_proof) 2]> ∅))
  {[ 1000000000 := mkExit bob zeroAddress 70 ]} ∅ 70.

Lemma challenge_misses_witness : exists c',
  challengeExit 12 rc4 (mkMsg alice 0 5) 1000000000000 0 (mkMemBytes (mem_of sol_tx1_bytes) 0 sol_tx1_bytes) flat_proof flat_sigs [] =
    Some c' /\ getExit c' 1000000000 = (bob, zeroAddress, 70).
Proof.
  destruct (challengeExit 12 rc4 (mkMsg alice 0 5) 1000000000000 0 (mkMemBytes (mem_of sol_tx1_bytes) 0 sol_tx1_bytes) flat_proof flat_sigs [])
    as [c'|] eqn:E; [|vm_compute in E; discriminate].
  pose proof (challenge_misses 12 rc4 (mkMsg alice 0 5) 1000000000000 0 sol_tx1 sol_tx1_bytes (mem_of sol_tx1_bytes) 0 flat_proof flat_sigs []
    c' sol_tx1_ok sol_tx1_encoded sol_tx1_array ltac:(lia) ltac:(lia) E) as F.
  exists c'. split; [reflexivity|]. cbn [st_in sol_tx1 Z.eqb st_in1] in F.
  destruct F as [F _]; [lia|reflexivity|]. change (1 * 1000000000 + 0 * 10000 + 0) with 1000000000 in F.
  rewrite F. vm_compute. reflexivity.
Defined.

(** * Two leaves *)

Lemma contract_takes_proofs_witness : exists rootHash proof, length proof = 1%nat /\
  Forall (fun h => length h = 32%nat) (padded [arr leaf1; arr leaf2]) /\
  checkMembership leaf1 0 rootHash (concat proof) = None.
Proof.
  assert (H32 : Forall (fun h => length h = 32%nat) (padded [arr leaf1; arr leaf2])) by (repeat constructor; apply length_arr).
  destruct (contract_takes_proofs [arr leaf1; arr leaf2] 0 leaf1) as (_ & h & mt & r & rn & rh & proof & _ & _ & _ & _ & _ & Hlo & Hhi & _ & Hc);
    [done|exact H32|reflexivity|].
  exists rh, proof. split; [exact (Nat.le_antisymm _ _ (Hhi 1%nat (le_n 2)) (Hlo 1%nat (le_n 2)))|].
  split; [exact H32|exact (Hc 1%nat eq_refl)].
Defined.
